(* ===== verification/_CoqProject ===== *)
-Q . S2P
Prelude.v
Bytes.v
Mem.v
Checksum.v
Crc32c.v
Md5.v
Hmac.v
RingBuf.v
RingConc.v
RingTimer.v
Resources.v
Umem.v
Random.v
Headers.v
Xdp.v
Assoc.v
Client.v
Frames.v
Prefilled.v
Tcp.v
Data.v
Sctp.v
AssocConc.v
Segments.v
Netlink.v
Create.v
Startup.v
MacText.v
Fillers.v
Main.v
Receive.v
Legacy.v
