(* ===== verification/Prelude.v ===== *)
(** * libkpnet: a verification development

    libkpnet is a user-space SCTP stack: frames go over AF_XDP or a packet
    socket, associations are set up by the four-message handshake with an
    authenticated cookie, and threads hand packets to each other through
    lock-free rings.  This library models the code under src/src and
    src/include and proves what makes each part correct; where the code does
    not do what it means to, a theorem says what it does.

    ** Parts and files

    The byte level
    - [Bytes], [Mem], [Headers] (types.h, if_packet.h, sctp.h, mac.h): integers
      in memory order, the byte-addressed memory [mem] in which an access
      outside the allocated bytes is a [Fault], and the packed structs as
      records with a layout (class [Struct]: [enc], [dec], [ld_struct], ..).
    - [Checksum] (ip_checksum.c, tcp_checksum.c, the incremental updates of the
      prefilled packets), [Crc32c] (generate_crc32c.c, both branches of its
      #if), [Md5] (md5.c), [Hmac] (hmac_md5.c), each related to a reference
      definition: the one's complement sum, the bit-serial CRC, RFC 1321 and
      RFC 2104.
    - [Random] (random.c, generate_random_buffer.c, get_random_*.c).

    The shared structures
    - [RingBuf] (create_ringbuf.c, push_ringbuf.c, pop_ringbuf.c): the ring,
      one call at a time; the class [PacketQueue] states what its clients
      rely on (also how long the pointer that a pop gives is good), and its
      instance is this ring.  [RingConc]: the same two functions as atomic
      steps of any number of threads.  Both are about rings of 2 to 2^58
      cells: from 2^59 on the product in the [malloc] of create_ringbuf.c wraps
      at 64 bits and the initialisation writes past the block.
    - [RingTimer] (create_ringtimer.c, insert_ringtimer.c, tick_ringtimer.c,
      create_allocator.c): the timer wheel, its circular lists in a heap.
    - [Umem] (create_umem_stack.c, umem_stack_*.c, slab_*.c): the chunks of the
      packet memory and the 64-byte blocks cut from them.
    - [Xdp] (xdp_rx.c, xdp_tx.c, xdp_tx_sg.c, xdp_fill.c, xdp_complete_tx.c):
      the four rings shared with the kernel.
    - [Resources] (xdp_open.c, eth_open.c, netlink_open.c, kpnet_env_init.c,
      free_ringbuf.c, ..): set-up functions over a list of system-call results.

    The protocol
    - [Frames] (build_*_raw.c, build_sctp_*_hdr.c, sctp_check_checksums.c): the
      frame builders and the receiver's check.
    - [Prefilled] (prefill_mac_ip_sctp.c, build_prefilled_*.c): replies
      completed in place in prefilled packets.
    - [Assoc] (prefill_sctp_mac_ip.c, eth_send_sctp.c,
      build_prefilled_mac_ip_sctp_init_hdr.c): the association and the way of
      its INIT to the AF_XDP ring.  [Create] (sctp_assoc_create.c): how it is
      made, from [Umem], [Netlink], [RingTimer] and [Assoc].  [Client] (create_client.c): the loop
      of the T1 timer that sends it again.
    - [Startup] (create_client.c, create_server.c): the two ends from their
      environment to their cleanup, composed from [Create], [Random], [Assoc],
      [Umem], [Client], [Xdp] and, for what a new association receives, [Sctp].
    - [Sctp] (if_ip_sctp.c, sctp_process_*.c, prepare_sctp_threads.c): the
      handshake.  [AssocConc]: the same handlers as atomic steps of any number of threads on
      one association, with its lock.
    - [Receive] (recv_packet.c, eth_receive_sctp.c): the receiving thread and
      the consumer of its ring, built on [PacketQueue] and the check of
      [Frames].  A pop and the reads through its pointer are steps of their own.
    - [Data] (sctp_build_data_hdr.c, build_prefilled_mac_ip_sctp_data_hdr.c):
      DATA chunks.
    - [Tcp] (build_tcp_raw.c, fix_check*.c, if_ip_tcp.c) and [Legacy]
      (build_sctp_hdr_raw.c, if_sctp.c, if_ipv4*.c, recv_filtered.c): TCP
      segments, and the first SCTP layer, which is still exported.

    The interfaces and the program
    - [Segments]: memory as consecutive segments, field by field.  [Netlink]
      (create_veth_pair.c, get_iftype.c, get_ifmac.c, get_ifid.c, up_if.c,
      bind_if.c, delete_if.c): requests built in, and answers read from, blocks
      of 4096 bytes.  [Main] (main.c): the set-up of the pair, then
      [create_client].
    - [MacText] (build_mac_client_raw.c): addresses given as text.  [Fillers]:
      small functions that fill a header or wrap one system call.

    A definition has the name of the function it translates, takes the state
    the function reads and returns the state it leaves; a pointer is an address
    ([NULL] is 0), a w-bit integer a [Z] with its wraps written out.

    ** What the theorems show

    - Handshake ([Sctp]): the four messages, each delivered to the other side,
      lead the client to ESTABLISHED; one frame makes one of four moves, a
      forged cookie none; the reachable statuses (a client created in
      COOKIE_WAIT never moves, the server stays in LISTEN).  [AssocConc]: the critical sections of the handlers exclude each other and act one after the
      other; a thread alone does what [Sctp] says; but the status is tested, and
      the cookie of an INIT-ACK kept, outside them.
    - Frames: the check accepts exactly the frames with right checksums, the
      builders' frames pass, short bursts in a chunk are found.  [Prefilled],
      [Assoc], [Data]: what is queued, with which bytes, and which packets the
      receiver then drops.
    - Queues: the ring refines a bounded FIFO, and a popped cell is written
      again by the push that fills the ring up ([RingBuf]); under concurrency no
      two threads store into a cell at once and no position is popped twice, but
      a popped cell can be overwritten before it is read ([RingConc]); the
      receiver and its consumer lose no buffer and no frame, and keep the order,
      when both rings have room for all the buffers ([Receive]).
    - Memory: each chunk is in one place ([Xdp]); any client of the slab
      allocator sees distinct blocks ([Umem]); what the set-up functions have
      acquired is released on their failing paths, with three exceptions
      ([Resources]).
    - Start-up ([Startup], [Main]): a whole session of the client against a peer
      that does not answer, with a clock polled at least once a second, a kernel
      that keeps what is queued and the zero-filled random buffer of a new
      process: twelve INITs, the same two segments each time, addressed to the
      client's own interface; a receiver drops what these segments make up,
      since its checksums are never computed; a new association has no rings to
      answer with; what [main] sends to the kernel.
    - Interfaces ([Netlink], [MacText]): the requests byte for byte; the answer of
      an encoded list of attributes is found again, and any answer whose length
      fits the buffer is read within it; printed addresses are parsed back.
    - Timers: the wheel in memory refines the list of deadlines, up to 64
      signals a tick, and more are written past the result ([RingTimer]); the
      main loop of the client ends, with a bound on its retransmissions by the
      time between two polls of the clock ([Client]).

    ** Loops and fuel

    Structural recursion where there is a list or a count to recurse on.
    Otherwise a loop has fuel and ends in [Timeout] without it:
    - the loops of push, pop, the random draws, the folding of the TCP sum and
      MD5 have the constants of turns that their theorems show to be enough
      (for a single caller push and pop end in one turn; a sum of 32 bits
      folds in three);
    - a tick of the wheel takes its fuel as an argument: the theorems hold from
      one turn per node of the slot ([rounds]); [client_tick] gives a tick 64,
      the most signals its result has room for.  The client's catch-up loop has
      one turn per second to catch up and one more, and its main loop ends with
      two turns more than the number of the poll that finds 6600 seconds passed;
    - the walk over the attributes of an answer takes its fuel as an argument:
      1024 turns are enough for any answer of 4096 bytes ([Netlink]);
    - loops that wait for another party (the kernel in [eth_send_sctp], a timer
      block in [insert_ringtimer], [recv] in [recv_filtered]) take the fuel as
      an argument; their theorems say after how many turns of the other party
      they end, or that they never do;
    - the endless loops of the threads are step relations ([Receive],
      [RingConc], [Xdp]) or take the sequence of clock readings ([Client]).

    ** Parameters

    The system calls and the CPU: the crc32 instruction (class [Crc32Insn], with
    its documented meaning), [getrandom] (class [Entropy]), the results of
    [recv], [malloc] and the set-up calls, and what the kernel does to the
    AF_XDP rings (steps or functions given to the model).  The macros and
    constants of the kernel's netlink headers are the class [NetlinkHeaders],
    their documented values its laws.  Each class
    has an instance, and the theorems that use one have a witness at it.

    ** Not modelled

    - The test programs xdp_test.c and testtt.c, and headers that no function
      uses (dhcp.h, ipv6.h).
    - Code inside comments (if_tcp.c, xdp_send.c, tcp_*.c, build_tcp_*_hdr.c,
      most of create_client.c).
    - Memory orders weaker than sequential consistency.  [AssocConc] has the
      association in its state and not the packet rings, which [RingConc]
      covers; [Receive] has one consumer; the wheel and the slab allocator are
      single-threaded, as the code takes no lock around them.
    - The order of unsequenced draws of random numbers is the one of the text. *)
From stdpp Require Export base gmap list numbers option tactics relations.
From Stdlib Require Export ZArith Lia.

#[global] Open Scope Z_scope.

(** ** Outcomes of a C call

    [Ret a]: the call returns [a].  [Fault]: the call runs into undefined
    behaviour (a NULL or out-of-range access).  [Timeout]: the fuel of a loop
    is exhausted; theorems about loops show that it is not the outcome. *)
Inductive outcome (A : Type) : Type :=
| Ret (a : A)
| Fault
| Timeout.
Arguments Ret {A} a.
Arguments Fault {A}.
Arguments Timeout {A}.

#[global] Instance outcome_ret : MRet outcome := fun A a => Ret a.
#[global] Instance outcome_bind : MBind outcome := fun A B f o =>
  match o with
  | Ret a => f a
  | Fault => Fault
  | Timeout => Timeout
  end.

(** An access that C leaves undefined when it is out of range. *)
Definition get {A} (o : option A) : outcome A :=
  match o with Some a => Ret a | None => Fault end.

Lemma bind_ret_inv {A B} (o : outcome A) (f : A → outcome B) b :
  (o ≫= f) = Ret b → ∃ a, o = Ret a ∧ f a = Ret b.
Proof. destruct o; cbn; intros; simplify_eq; eauto. Qed.

(** One step of a computation.  The rewrite rule is used where [cbn] would make
    the kernel compare a call with the result of the call. *)
Lemma bind_ret {A B} (a : A) (f : A → outcome B) : (Ret a ≫= f) = f a.
Proof. reflexivity. Qed.

Lemma get_ret_inv {A} (o : option A) a : get o = Ret a ↔ o = Some a.
Proof. destruct o; cbn; split; intros; simplify_eq; done. Qed.

(** ** Machine integers

    A w-bit integer is a [Z] in range; every C operation that may leave the
    range is wrapped explicitly. *)
Definition u8 (x : Z) : Z := x mod 0x100.
Definition u16 (x : Z) : Z := x mod 0x10000.
Definition u32 (x : Z) : Z := x mod 0x100000000.
Definition u64 (x : Z) : Z := x mod 0x10000000000000000.

(** Two's-complement reading of the low bits, the conversions to [i32]/[i64]. *)
Definition i32 (x : Z) : Z :=
  let y := u32 x in if y <? 0x80000000 then y else y - 0x100000000.
Definition i64 (x : Z) : Z :=
  let y := u64 x in if y <? 0x8000000000000000 then y else y - 0x10000000000000000.

Definition is_u8 (x : Z) : Prop := 0 ≤ x < 0x100.
Definition is_u16 (x : Z) : Prop := 0 ≤ x < 0x10000.
Definition is_u32 (x : Z) : Prop := 0 ≤ x < 0x100000000.
Definition is_u64 (x : Z) : Prop := 0 ≤ x < 0x10000000000000000.

Create HintDb widths.
#[export] Hint Unfold u8 u16 u32 u64 i32 i64 is_u8 is_u16 is_u32 is_u64 : widths.

(** Linear arithmetic on widths: unfold the wraps, name quotients and
    remainders, call [lia]. *)
Ltac unfold_widths := unfold is_u8, is_u16, is_u32, is_u64, i32, i64, u8, u16, u32, u64 in *.
Ltac width_lia := unfold_widths; Z.div_mod_to_equations; lia.

Lemma u8_range x : is_u8 (u8 x).
Proof. width_lia. Qed.
Lemma u16_range x : is_u16 (u16 x).
Proof. width_lia. Qed.
Lemma u32_range x : is_u32 (u32 x).
Proof. width_lia. Qed.
Lemma u64_range x : is_u64 (u64 x).
Proof. width_lia. Qed.
Lemma u8_id x : is_u8 x → u8 x = x.
Proof. intros; apply Z.mod_small; done. Qed.
Lemma u16_id x : is_u16 x → u16 x = x.
Proof. intros; apply Z.mod_small; done. Qed.
Lemma u32_id x : is_u32 x → u32 x = x.
Proof. intros; apply Z.mod_small; done. Qed.
Lemma u64_id x : is_u64 x → u64 x = x.
Proof. intros; apply Z.mod_small; done. Qed.

#[export] Hint Resolve u8_range u16_range u32_range u64_range : widths.

Lemma i64_diff (a b : Z) :
  - 0x8000000000000000 ≤ a - b < 0x8000000000000000 → i64 (u64 a - u64 b) = a - b.
Proof.
  intros H. unfold i64, u64. cbv zeta.
  rewrite <-Zminus_mod.
  destruct (Z.ltb_spec ((a - b) mod 0x10000000000000000) 0x8000000000000000);
    Z.div_mod_to_equations; lia.
Qed.

(** Equalities of [Z.lxor] expressions, bit by bit. *)
Ltac lxor_solve :=
  apply Z.bits_inj'; intros ? ?; rewrite ?Z.lxor_spec, ?Z.bits_0;
  repeat match goal with |- context [Z.testbit ?a ?i] => destruct (Z.testbit a i) end;
  reflexivity.

Lemma lxor_bound (k a b : Z) :
  0 ≤ k → 0 ≤ a < 2 ^ k → 0 ≤ b < 2 ^ k → 0 ≤ Z.lxor a b < 2 ^ k.
Proof.
  intros Hk Ha Hb. assert (0 ≤ Z.lxor a b) by (apply Z.lxor_nonneg; lia).
  split; [done|]. apply Z.bounded_iff_bits_nonneg; [done..|]. intros l Hl.
  rewrite Z.lxor_spec. pose proof (proj1 (Z.bounded_iff_bits_nonneg k a Hk ltac:(lia)) ltac:(lia) l Hl) as ->.
  by pose proof (proj1 (Z.bounded_iff_bits_nonneg k b Hk ltac:(lia)) ltac:(lia) l Hl) as ->.
Qed.

Lemma lxor_u32 a b : is_u32 a → is_u32 b → is_u32 (Z.lxor a b).
Proof. apply (lxor_bound 32). lia. Qed.
Lemma lxor_u8 a b : is_u8 a → is_u8 b → is_u8 (Z.lxor a b).
Proof. apply (lxor_bound 8). lia. Qed.

(** A value below [2^k] and a multiple of [2^k] share no bit. *)
Lemma land_low_high (k x y : Z) : 0 ≤ k → 0 ≤ y < 2 ^ k → Z.land y (2 ^ k * x) = 0.
Proof.
  intros Hk Hy. rewrite Z.mul_comm, <-Z.shiftl_mul_pow2 by done.
  apply Z.bits_inj'; intros i Hi. rewrite Z.land_spec, Z.bits_0, Z.shiftl_spec by done.
  destruct (decide (i < k)); [by rewrite (Z.testbit_neg_r x), andb_false_r by lia|].
  by rewrite (proj1 (Z.bounded_iff_bits_nonneg k y Hk ltac:(lia)) ltac:(lia) i ltac:(lia)).
Qed.

Lemma lxor_low_high (k x y : Z) :
  0 ≤ k → 0 ≤ y < 2 ^ k → Z.lxor y (2 ^ k * x) = y + 2 ^ k * x.
Proof. intros. by rewrite Z.add_nocarry_lxor by (by apply land_low_high). Qed.

(** [x << k | y] for [y] below [2^k] is a sum. *)
Lemma lor_shiftl_add (k x y : Z) :
  0 ≤ k → 0 ≤ y < 2 ^ k → Z.lor (Z.shiftl x k) y = x * 2 ^ k + y.
Proof.
  intros Hk Hy. rewrite Z.lor_comm, Z.shiftl_mul_pow2, (Z.mul_comm x) by done.
  rewrite <-Z.lxor_lor by (by apply land_low_high). rewrite lxor_low_high by done. lia.
Qed.

(** ** Generic lemmas on lists *)
Section lists.
  Context {A : Type}.
  Implicit Types l : list A.

Lemma lookup_insert_cases l (i j : nat) x :
    (i < length l)%nat →
    <[i:=x]> l !! j = if decide (i = j) then Some x else l !! j.
  Proof.
    intros Hi. case_decide as E; subst.
    - by apply list_lookup_insert_eq.
    - by apply list_lookup_insert_ne.
  Qed.

Lemma list_singleton_of_length l : length l = 1%nat → ∃ x, l = [x].
  Proof. destruct l as [|x [|??]]; cbn; intros; try lia; eauto. Qed.
End lists.
