(* ===== verification/Bytes.v ===== *)
(** * Byte strings, integers in memory order, packed structs

    The code runs on x86-64 (it uses the SSE 4.2 builtins), so an integer in
    memory is little-endian; [htons]/[htonl] (and [ntohs]/[ntohl]) swap the
    bytes.  A packed struct is laid out by a list of field widths: [pack]
    writes the fields one after the other, [unpack] reads them back. *)
From S2P Require Import Prelude.

Abbreviation bytes := (list Z).
Abbreviation bytes_ok := (Forall is_u8).

Fixpoint le_enc (n : nat) (z : Z) : bytes :=
  match n with
  | O => []
  | S n => u8 z :: le_enc n (z / 0x100)
  end.

Fixpoint le_dec (l : bytes) : Z :=
  match l with
  | [] => 0
  | b :: l => b + 0x100 * le_dec l
  end.

(** [htons]/[ntohs]/[__builtin_bswap16] and [htonl]/[ntohl]. *)
Definition htons (x : Z) : Z := le_dec (reverse (le_enc 2 x)).
Definition htonl (x : Z) : Z := le_dec (reverse (le_enc 4 x)).
Abbreviation ntohs := htons (only parsing).
Abbreviation ntohl := htonl (only parsing).

(** Packed structs: [ws] the widths in bytes, [vs] the field values. *)
Fixpoint pack (ws : list nat) (vs : list Z) : bytes :=
  match ws, vs with
  | w :: ws, v :: vs => le_enc w v ++ pack ws vs
  | _, _ => []
  end.

Fixpoint unpack (ws : list nat) (l : bytes) : list Z :=
  match ws with
  | [] => []
  | w :: ws => le_dec (take w l) :: unpack ws (drop w l)
  end.

Definition sizeof (ws : list nat) : Z := Z.of_nat (sum_list ws).

(** ** Lemmas *)
Lemma length_le_enc n z : length (le_enc n z) = n.
Proof. revert z; induction n; cbn; auto. Qed.

Lemma le_enc_ok n z : bytes_ok (le_enc n z).
Proof. revert z; induction n; intros z; constructor; [apply u8_range | apply IHn]. Qed.

Lemma le_dec_enc n z : le_dec (le_enc n z) = z mod 0x100 ^ Z.of_nat n.
Proof.
  revert z; induction n as [|n IH]; intros z; cbn [le_enc le_dec].
  - by rewrite Z.mod_1_r.
  - rewrite IH, Nat2Z.inj_succ, Z.pow_succ_r by lia. unfold u8.
    rewrite Z.rem_mul_r by lia. lia.
Qed.

Lemma le_dec_range l : bytes_ok l → 0 ≤ le_dec l < 0x100 ^ Z.of_nat (length l).
Proof.
  induction 1 as [|b l Hb _ IH]; cbn [le_dec length]; [lia|].
  rewrite Nat2Z.inj_succ, Z.pow_succ_r by lia. unfold is_u8 in Hb. lia.
Qed.

Lemma le_enc_dec l : bytes_ok l → le_enc (length l) (le_dec l) = l.
Proof.
  induction 1 as [|b l Hb _ IH]; cbn; [done|].
  assert ((b + 0x100 * le_dec l) / 0x100 = le_dec l) as -> by (unfold is_u8 in Hb; Z.div_mod_to_equations; lia).
  rewrite IH. f_equal. unfold u8, is_u8 in *. Z.div_mod_to_equations; lia.
Qed.

Lemma le_dec_app l1 l2 :
  le_dec (l1 ++ l2) = le_dec l1 + 0x100 ^ Z.of_nat (length l1) * le_dec l2.
Proof.
  induction l1 as [|b l IH]; cbn [le_dec app length]; [lia|].
  rewrite IH, Nat2Z.inj_succ, Z.pow_succ_r by lia. lia.
Qed.

Lemma le_dec_inj l1 l2 :
  bytes_ok l1 → bytes_ok l2 → length l1 = length l2 → le_dec l1 = le_dec l2 → l1 = l2.
Proof. intros H1 H2 Hl He. rewrite <-(le_enc_dec l1), <-(le_enc_dec l2), Hl, He; done. Qed.

(** Truncating to the width first, and splitting an encoding. *)
Lemma le_enc_mod n z : le_enc n (z mod 0x100 ^ Z.of_nat n) = le_enc n z.
Proof.
  apply le_dec_inj; auto using le_enc_ok; [by rewrite !length_le_enc|].
  rewrite !le_dec_enc. apply Z.mod_mod. pose proof (Z.pow_pos_nonneg 0x100 (Z.of_nat n)). lia.
Qed.

Lemma le_enc_app n m z : le_enc (n + m) z = le_enc n z ++ le_enc m (z / 0x100 ^ Z.of_nat n).
Proof.
  revert z; induction n as [|n IH]; intros z; cbn [Nat.add le_enc app].
  - by rewrite Z.div_1_r.
  - rewrite IH, Nat2Z.inj_succ, Z.pow_succ_r, Z.div_div by
      (try apply Z.pow_pos_nonneg; lia). done.
Qed.

Lemma le_enc_u32 z : le_enc 4 (u32 z) = le_enc 4 z.
Proof. apply (le_enc_mod 4). Qed.
Lemma le_enc_u16 z : le_enc 2 (u16 z) = le_enc 2 z.
Proof. apply (le_enc_mod 2). Qed.

Lemma le_dec_enc2 z : is_u16 z → le_dec (le_enc 2 z) = z.
Proof. intros. rewrite le_dec_enc. apply Z.mod_small. done. Qed.
Lemma le_dec_enc4 z : is_u32 z → le_dec (le_enc 4 z) = z.
Proof. intros. rewrite le_dec_enc. apply Z.mod_small. done. Qed.

Lemma bytes_ok_app l1 l2 : bytes_ok (l1 ++ l2) ↔ bytes_ok l1 ∧ bytes_ok l2.
Proof. apply Forall_app. Qed.
Lemma bytes_ok_reverse l : bytes_ok l → bytes_ok (reverse l).
Proof. apply Forall_reverse. Qed.
Lemma bytes_ok_take n l : bytes_ok l → bytes_ok (take n l).
Proof. apply Forall_take. Qed.
Lemma bytes_ok_drop n l : bytes_ok l → bytes_ok (drop n l).
Proof. apply Forall_drop. Qed.

Lemma bytes_ok_zeros n : bytes_ok (replicate n 0).
Proof. apply Forall_replicate. unfold is_u8. lia. Qed.

Lemma swap_involutive n l :
  bytes_ok l → length l = n → le_dec (reverse (le_enc n (le_dec (reverse l)))) = le_dec l.
Proof.
  intros Hl <-. rewrite <-(length_reverse l).
  rewrite le_enc_dec by (by apply bytes_ok_reverse). by rewrite reverse_involutive.
Qed.

Lemma htons_range x : is_u16 (htons x).
Proof.
  unfold htons. pose proof (le_dec_range (reverse (le_enc 2 x))) as H.
  rewrite length_reverse, length_le_enc in H. apply H, bytes_ok_reverse, le_enc_ok.
Qed.
Lemma htonl_range x : is_u32 (htonl x).
Proof.
  unfold htonl. pose proof (le_dec_range (reverse (le_enc 4 x))) as H.
  rewrite length_reverse, length_le_enc in H. apply H, bytes_ok_reverse, le_enc_ok.
Qed.

Lemma htons_htons x : is_u16 x → htons (htons x) = x.
Proof.
  intros Hx. unfold htons. rewrite swap_involutive by auto using le_enc_ok, length_le_enc.
  by apply le_dec_enc2.
Qed.
Lemma htonl_htonl x : is_u32 x → htonl (htonl x) = x.
Proof.
  intros Hx. unfold htonl. rewrite swap_involutive by auto using le_enc_ok, length_le_enc.
  by apply le_dec_enc4.
Qed.

Lemma length_pack ws vs : length ws = length vs → length (pack ws vs) = sum_list ws.
Proof.
  revert vs; induction ws as [|w ws IH]; intros [|v vs]; cbn; try done.
  intros H. rewrite length_app, length_le_enc, IH; lia.
Qed.

Lemma sum_take_le (ws : list nat) i w : ws !! i = Some w → (sum_list (take i ws) + w ≤ sum_list ws)%nat.
Proof.
  revert i; induction ws as [|w' ws IH]; intros [|i]; cbn; intros H; simplify_eq; [lia|].
  specialize (IH _ H). unfold sum_list in *. lia.
Qed.

Lemma pack_ok ws vs : bytes_ok (pack ws vs).
Proof.
  revert vs; induction ws as [|w ws IH]; intros [|v vs]; cbn; try by constructor.
  apply bytes_ok_app. auto using le_enc_ok.
Qed.

(** A field value that fits its width. *)
Definition fits (w : nat) (v : Z) : Prop := 0 ≤ v < 0x100 ^ Z.of_nat w.

Lemma unpack_pack ws vs rest :
  Forall2 fits ws vs → unpack ws (pack ws vs ++ rest) = vs.
Proof.
  induction 1 as [|w v ws vs Hw _ IH]; cbn; [done|].
  rewrite <-app_assoc, take_app_length', drop_app_length' by (by rewrite length_le_enc).
  rewrite IH, le_dec_enc, Z.mod_small; done.
Qed.

Lemma pack_unpack ws l :
  bytes_ok l → length l = sum_list ws → pack ws (unpack ws l) = l.
Proof.
  revert l; induction ws as [|w ws IH]; intros l Hok Hl; cbn in *.
  - by destruct l.
  - rewrite IH by (try apply bytes_ok_drop; rewrite ?length_drop; auto; lia).
    assert (length (take w l) = w) as Hw by (rewrite length_take; lia).
    rewrite <-Hw at 1. rewrite le_enc_dec by by apply bytes_ok_take.
    apply take_drop.
Qed.

Create HintDb bytes.
#[export] Hint Resolve le_enc_ok pack_ok htons_range htonl_range : bytes.
#[export] Hint Resolve bytes_ok_take bytes_ok_drop bytes_ok_reverse : bytes.
