(* ===== verification/Mem.v ===== *)
(** * The byte-addressed memory of the packet code

    [mem] maps the addresses of the allocated bytes to their contents; NULL is
    address 0, never allocated.  Pointer arithmetic is arithmetic on [Z], as in
    the code's casts between pointers and [u64].  A read or write that touches
    an unallocated byte is a [Fault]. *)
From S2P Require Import Prelude Bytes.

Abbreviation mem := (gmap Z Z).
Definition NULL : Z := 0.

Definition bytes_at (m : mem) (p : Z) (bs : bytes) : Prop :=
  ∀ i : nat, (i < length bs)%nat → m !! (p + Z.of_nat i) = bs !! i.
Definition mapped (m : mem) (p : Z) (n : nat) : Prop :=
  ∀ i : nat, (i < n)%nat → is_Some (m !! (p + Z.of_nat i)).

(** [memcpy] out of and into the memory. *)
Fixpoint read (m : mem) (p : Z) (n : nat) : option bytes :=
  match n with
  | O => Some []
  | S n => b ← m !! p; bs ← read m (p + 1) n; Some (b :: bs)
  end.

Fixpoint write (m : mem) (p : Z) (bs : bytes) : mem :=
  match bs with
  | [] => m
  | b :: bs => <[p:=b]> (write m (p + 1) bs)
  end.

Definition load (m : mem) (p : Z) (n : nat) : outcome bytes := get (read m p n).
Definition store (m : mem) (p : Z) (bs : bytes) : outcome mem :=
  match read m p (length bs) with
  | Some _ => Ret (write m p bs)
  | None => Fault
  end.

(** An [n]-byte integer field at [p]. *)
Definition ld (m : mem) (p : Z) (n : nat) : outcome Z := bs ← load m p n; Ret (le_dec bs).
Definition st (m : mem) (p : Z) (n : nat) (v : Z) : outcome mem := store m p (le_enc n v).

(** ** Lemmas *)
Lemma bytes_at_nil m p : bytes_at m p [].
Proof. intros i Hi; cbn in Hi; lia. Qed.

Lemma bytes_at_cons m p b bs : bytes_at m p (b :: bs) ↔ m !! p = Some b ∧ bytes_at m (p + 1) bs.
Proof.
  split.
  - intros H. split.
    + specialize (H 0%nat). rewrite Z.add_0_r in H. apply H; cbn; lia.
    + intros i Hi. specialize (H (S i) ltac:(cbn; lia)).
      replace (p + 1 + Z.of_nat i) with (p + Z.of_nat (S i)) by lia. exact H.
  - intros [H0 H] [|i] Hi; [by rewrite Z.add_0_r|].
    replace (p + Z.of_nat (S i)) with (p + 1 + Z.of_nat i) by lia.
    apply H. cbn in Hi; lia.
Qed.

Lemma bytes_at_app m p bs cs :
  bytes_at m p (bs ++ cs) ↔ bytes_at m p bs ∧ bytes_at m (p + Z.of_nat (length bs)) cs.
Proof.
  revert p; induction bs as [|b bs IH]; intros p; cbn [app length].
  - rewrite Z.add_0_r. split; [split; [apply bytes_at_nil | done] | tauto].
  - rewrite !bytes_at_cons, IH.
    replace (p + 1 + Z.of_nat (length bs)) with (p + Z.of_nat (S (length bs))) by lia. tauto.
Qed.

Lemma bytes_at_unique m p bs cs :
  length bs = length cs → bytes_at m p bs → bytes_at m p cs → bs = cs.
Proof.
  intros Hl Hb Hc. apply list_eq; intros i.
  destruct (decide (i < length bs)%nat) as [Hi|Hi].
  - by rewrite <-Hb, <-Hc by lia.
  - rewrite !lookup_ge_None_2 by lia; done.
Qed.

Lemma mapped_cons m p n : mapped m p (S n) ↔ is_Some (m !! p) ∧ mapped m (p + 1) n.
Proof.
  split.
  - intros H. split.
    + specialize (H 0%nat). rewrite Z.add_0_r in H. apply H; lia.
    + intros i Hi. specialize (H (S i)).
      replace (p + 1 + Z.of_nat i) with (p + Z.of_nat (S i)) by lia. apply H; lia.
  - intros [H0 H] [|i] Hi; [by rewrite Z.add_0_r|].
    replace (p + Z.of_nat (S i)) with (p + 1 + Z.of_nat i) by lia. apply H; lia.
Qed.

Lemma mapped_sub m p n q k : mapped m p n → p ≤ q → q + Z.of_nat k ≤ p + Z.of_nat n → mapped m q k.
Proof.
  intros H Hpq Hk i Hi.
  replace (q + Z.of_nat i) with (p + Z.of_nat (Z.to_nat (q - p) + i)) by lia. apply H; lia.
Qed.

Lemma bytes_at_mapped m p bs : bytes_at m p bs → mapped m p (length bs).
Proof. intros H i Hi. rewrite H by done. by apply lookup_lt_is_Some_2. Qed.

Lemma read_Some m p n bs : read m p n = Some bs ↔ length bs = n ∧ bytes_at m p bs.
Proof.
  revert p bs; induction n as [|n IH]; intros p bs; cbn.
  - split; [intros [= <-]; split; [done | apply bytes_at_nil]|].
    intros [H _]. by destruct bs.
  - split.
    + destruct (m !! p) as [b|] eqn:Hb; cbn; [|done].
      destruct (read m (p + 1) n) as [cs|] eqn:Hr; cbn; [|done]. intros [= <-].
      apply IH in Hr as [Hl Hat]. cbn. split; [lia|]. by apply bytes_at_cons.
    + intros [Hl Hat]. destruct bs as [|b cs]; [done|]. cbn in Hl.
      apply bytes_at_cons in Hat as [-> Hat]. cbn.
      rewrite (proj2 (IH (p + 1) cs)) by (split; [lia | done]). done.
Qed.

Lemma mapped_read m p n : mapped m p n → ∃ bs, read m p n = Some bs.
Proof.
  revert p; induction n as [|n IH]; intros p H; cbn; [eauto|].
  apply mapped_cons in H as [[b ->] H]. destruct (IH _ H) as [bs ->]. cbn. eauto.
Qed.

Lemma read_mapped m p n bs : read m p n = Some bs → mapped m p n.
Proof. intros [<- H]%read_Some. by apply bytes_at_mapped. Qed.

Lemma lookup_write m p bs q :
  write m p bs !! q =
    if decide (p ≤ q < p + Z.of_nat (length bs)) then bs !! Z.to_nat (q - p) else m !! q.
Proof.
  revert p; induction bs as [|b bs IH]; intros p; cbn [write length].
  - rewrite decide_False by lia. done.
  - destruct (decide (p = q)) as [->|Hne].
    + rewrite lookup_insert_eq, decide_True by lia. rewrite Z.sub_diag. done.
    + rewrite lookup_insert_ne by done. rewrite IH.
      destruct (decide (p + 1 ≤ q < p + 1 + Z.of_nat (length bs))).
      * rewrite decide_True by lia.
        replace (Z.to_nat (q - p)) with (S (Z.to_nat (q - (p + 1)))) by lia. done.
      * rewrite decide_False by lia. done.
Qed.

Lemma bytes_at_write m p bs : bytes_at (write m p bs) p bs.
Proof.
  intros i Hi. rewrite lookup_write, decide_True by lia. f_equal. lia.
Qed.

Lemma bytes_at_write_other m p bs q cs :
  bytes_at m q cs →
  q + Z.of_nat (length cs) ≤ p ∨ p + Z.of_nat (length bs) ≤ q →
  bytes_at (write m p bs) q cs.
Proof. intros H Hd i Hi. rewrite lookup_write, decide_False by lia. by apply H. Qed.

(** Overwriting the middle of a block. *)
Lemma bytes_at_write_mid m p a b b' c :
  bytes_at m p (a ++ b ++ c) → length b' = length b →
  bytes_at (write m (p + Z.of_nat (length a)) b') p (a ++ b' ++ c).
Proof.
  rewrite !bytes_at_app. intros (Ha & Hb & Hc) Hl. split; [|split].
  - apply bytes_at_write_other; [done | lia].
  - apply bytes_at_write.
  - rewrite Hl. apply bytes_at_write_other; [done | lia].
Qed.

Lemma mapped_write m p bs q n : mapped m q n → mapped (write m p bs) q n.
Proof.
  intros H i Hi. rewrite lookup_write. case_decide; [|by apply H].
  apply lookup_lt_is_Some_2. lia.
Qed.

Lemma load_at m p bs : bytes_at m p bs → load m p (length bs) = Ret bs.
Proof. intros H. unfold load. rewrite (proj2 (read_Some m p _ bs)); done. Qed.

Lemma load_at' m p n bs : bytes_at m p bs → length bs = n → load m p n = Ret bs.
Proof. intros H <-. by apply load_at. Qed.

Lemma store_mapped m p bs : mapped m p (length bs) → store m p bs = Ret (write m p bs).
Proof. intros H. unfold store. destruct (mapped_read _ _ _ H) as [cs ->]. done. Qed.

Lemma st_mapped m p n v : mapped m p n → st m p n v = Ret (write m p (le_enc n v)).
Proof. intros H. unfold st. apply store_mapped. by rewrite length_le_enc. Qed.

Lemma ld_at m p n v rest :
  bytes_at m p (le_enc n v ++ rest) → fits n v → ld m p n = Ret v.
Proof.
  intros [H _]%bytes_at_app Hv. unfold ld.
  rewrite (load_at' _ _ n (le_enc n v)) by auto using length_le_enc. cbn.
  by rewrite le_dec_enc, Z.mod_small.
Qed.

(** A read sees only its own bytes. *)
Lemma read_ext m m' p n :
  (∀ q, p ≤ q < p + Z.of_nat n → m' !! q = m !! q) → read m' p n = read m p n.
Proof.
  revert p; induction n as [|n IH]; intros p H; cbn; [done|].
  rewrite H by lia. by rewrite IH by (intros; apply H; lia).
Qed.

Lemma read_write_other m p bs q n :
  q + Z.of_nat n ≤ p ∨ p + Z.of_nat (length bs) ≤ q → read (write m p bs) q n = read m q n.
Proof. intros Hd. apply read_ext. intros r Hr. rewrite lookup_write, decide_False by lia. done. Qed.
