(* ===== verification/Checksum.v ===== *)
(** * The Internet checksum (ip_checksum.c, tcp_checksum.c) and its
    incremental update in the prefilled-header builders

    The two routines are equal to one reference, the one's complement sum
    [ocsum] of the 16-bit words of the data; from it follow the properties the
    rest of the library relies on: a header whose checksum was filled in sums
    to 0xFFFF, and changing the length of a prefilled header updates the
    checksum to the one a full computation would give. *)
From S2P Require Import Prelude Bytes.

(** ** Code *)

(** The bytes at a [u16 *], read as 16-bit words. *)
Fixpoint words16 (data : bytes) : list Z :=
  match data with
  | b0 :: b1 :: data => (b0 + 0x100 * b1) :: words16 data
  | _ => []
  end.

Definition ip_checksum_step (sum w : Z) : Z :=
  let sum := u32 (sum + w) in
  if 0xFFFF <? sum then u32 (Z.land sum 0xFFFF + Z.shiftr sum 16) else sum.

Definition ip_checksum (data : bytes) (len : Z) : Z :=
  foldl ip_checksum_step 0 (take (Z.to_nat (Z.shiftr len 1)) (words16 data)).

(** [while (nbytes > 1)]: the sum and the bytes left (at most one). *)
Fixpoint tcp_checksum_sum (data : bytes) (sum : Z) : Z :=
  match data with
  | b0 :: b1 :: data => tcp_checksum_sum data (u32 (sum + (b0 + 0x100 * b1)))
  | [b0] => u32 (sum + b0)
  | [] => sum
  end.

(** [while (sum >> 16)] *)
Fixpoint tcp_checksum_fold (fuel : nat) (sum : Z) : outcome Z :=
  match fuel with
  | O => Timeout
  | S fuel =>
      if Z.shiftr sum 16 =? 0 then Ret sum
      else tcp_checksum_fold fuel (u32 (Z.land sum 0xFFFF + Z.shiftr sum 16))
  end.

(** Three rounds are enough for a 32-bit sum ([tcp_checksum_total]). *)
Definition tcp_checksum (data : bytes) : outcome Z :=
  sum ← tcp_checksum_fold 3 (tcp_checksum_sum data 0);
  Ret (u16 (Z.lnot sum)).

(** [chk = ip->check; ip->len = len; chk += htons (0) - ip->len;
     if (chk > 0xFFFF) chk = (chk & 0xFFFF) + (chk >> 16); ip->check = chk;]
    in build_prefilled_mac_ip_sctp_cookie_echo_hdr.c *)
Definition fold_check (chk : Z) : Z :=
  u16 (if 0xFFFF <? chk then u32 (Z.land chk 0xFFFF + Z.shiftr chk 16) else chk).

Definition update_check_len (check len : Z) : Z :=
  fold_check (u32 (check + (htons 0 - len))).

(** The variant that also accounts for the destination address, in
    build_prefilled_mac_ip_sctp_cookie_ack_hdr.c and ..._init_ack_hdr.c:
    [chk += htons (0) - ip->len - ip->dest_addr;] *)
Definition update_check_len_dst (check len dest_addr : Z) : Z :=
  fold_check (u32 (check + (htons 0 - len - dest_addr))).

(** ** Specification: the one's complement sum *)
Fixpoint sum_words (ws : list Z) : Z :=
  match ws with [] => 0 | w :: ws => w + sum_words ws end.

(** The representative of [s] modulo 65535 that end-around carry computes:
    0 for 0, otherwise in 1..65535. *)
Definition ocsum (s : Z) : Z := if s =? 0 then 0 else (s - 1) mod 65535 + 1.

(** The words RFC 1071 sums: a last odd byte is padded with zero. *)
Definition padded_words (data : bytes) : list Z :=
  words16 (if Nat.even (length data) then data else data ++ [0]).

(** ** Lemmas *)
Lemma ocsum_range s : 0 ≤ s → is_u16 (ocsum s).
Proof. intros. unfold ocsum, is_u16. destruct (Z.eqb_spec s 0); Z.div_mod_to_equations; lia. Qed.

Lemma ocsum_pos s : 0 < s → 1 ≤ ocsum s ≤ 65535.
Proof. intros. unfold ocsum. destruct (Z.eqb_spec s 0); Z.div_mod_to_equations; lia. Qed.

Lemma ocsum_add s w : 0 ≤ s → 0 ≤ w → ocsum (ocsum s + w) = ocsum (s + w).
Proof.
  intros Hs Hw. unfold ocsum at 2. destruct (Z.eqb_spec s 0) as [->|]; [done|].
  unfold ocsum.
  destruct (Z.eqb_spec ((s - 1) mod 65535 + 1 + w) 0); [Z.div_mod_to_equations; lia|].
  destruct (Z.eqb_spec (s + w) 0); [lia|].
  replace ((s - 1) mod 65535 + 1 + w - 1) with ((s - 1) mod 65535 + w) by lia.
  rewrite Zplus_mod_idemp_l. do 2 f_equal. lia.
Qed.

Lemma ocsum_small s : 0 ≤ s ≤ 65535 → ocsum s = s.
Proof. intros. unfold ocsum. destruct (Z.eqb_spec s 0); [done|]. Z.div_mod_to_equations; lia. Qed.

Lemma ocsum_fold s : 0x10000 ≤ s → 0 ≤ s < 2 ^ 32 → ocsum (s mod 0x10000 + s / 0x10000) = ocsum s.
Proof.
  intros H1 H2. unfold ocsum.
  destruct (Z.eqb_spec (s mod 0x10000 + s / 0x10000) 0); [Z.div_mod_to_equations; lia|].
  destruct (Z.eqb_spec s 0); [lia|]. f_equal.
  replace (s - 1) with ((s mod 0x10000 + s / 0x10000 - 1) + (s / 0x10000) * 65535)
    by (Z.div_mod_to_equations; lia).
  by rewrite Z_mod_plus_full.
Qed.

Lemma land_ffff x : Z.land x 0xFFFF = x mod 0x10000.
Proof. change 0xFFFF with (Z.ones 16). by rewrite Z.land_ones. Qed.
Lemma shiftr16 x : Z.shiftr x 16 = x / 0x10000.
Proof. by rewrite Z.shiftr_div_pow2 by lia. Qed.

Lemma u16_lnot x : is_u16 x → u16 (Z.lnot x) = 65535 - x.
Proof. intros. unfold Z.lnot. width_lia. Qed.

Lemma ip_checksum_step_spec s w :
  is_u16 s → is_u16 w → ip_checksum_step s w = ocsum (s + w).
Proof.
  intros Hs Hw. unfold ip_checksum_step. rewrite u32_id by (unfold_widths; lia).
  destruct (Z.ltb_spec 0xFFFF (s + w)) as [H|H].
  - rewrite land_ffff, shiftr16, u32_id by (unfold_widths; Z.div_mod_to_equations; lia).
    unfold ocsum. destruct (Z.eqb_spec (s + w) 0); unfold_widths; Z.div_mod_to_equations; lia.
  - rewrite ocsum_small; [done | unfold_widths; lia].
Qed.

Lemma sum_words_nonneg ws : Forall is_u16 ws → 0 ≤ sum_words ws.
Proof. induction 1 as [|w ws Hw _ IH]; cbn; unfold_widths; lia. Qed.

Lemma ip_checksum_fold ws s :
  0 ≤ s → Forall is_u16 ws → foldl ip_checksum_step (ocsum s) ws = ocsum (s + sum_words ws).
Proof.
  intros Hs Hws. revert s Hs.
  induction Hws as [|w ws Hw Hws IH]; intros s Hs; cbn; [by rewrite Z.add_0_r|].
  rewrite ip_checksum_step_spec, ocsum_add by (try apply ocsum_range; unfold_widths; lia || done).
  rewrite IH by (unfold_widths; lia). f_equal. lia.
Qed.

Lemma list_pair_ind {A} (P : list A → Prop) :
  P [] → (∀ x, P [x]) → (∀ x y l, P l → P (x :: y :: l)) → ∀ l, P l.
Proof.
  intros H0 H1 H2 l. enough (P l ∧ ∀ x, P (x :: l)) as [??] by done.
  induction l as [|x l [IH1 IH2]]; split; auto.
Qed.

Lemma words16_ok data : bytes_ok data → Forall is_u16 (words16 data).
Proof.
  induction data as [|x|x y data IH] using list_pair_ind; cbn; intros H; auto.
  inversion H as [|?? Hx H']; subst. inversion H' as [|?? Hy H'']; subst.
  constructor; [unfold_widths; lia | auto].
Qed.

Lemma length_words16 data : length (words16 data) = Nat.div2 (length data).
Proof. induction data as [|x|x y data IH] using list_pair_ind; cbn; auto. Qed.

Lemma words16_app d1 d2 :
  Nat.even (length d1) = true → words16 (d1 ++ d2) = words16 d1 ++ words16 d2.
Proof.
  induction d1 as [|x|x y d1 IH] using list_pair_ind; cbn; intros He; [done | done |].
  by rewrite IH.
Qed.

Lemma sum_words_app w1 w2 : sum_words (w1 ++ w2) = sum_words w1 + sum_words w2.
Proof. induction w1 as [|w w1 IH]; cbn; [done|]. rewrite IH. lia. Qed.

Lemma ip_checksum_spec data :
  bytes_ok data → Nat.even (length data) = true →
  ip_checksum data (Z.of_nat (length data)) = ocsum (sum_words (words16 data)).
Proof.
  intros Hok He. unfold ip_checksum. rewrite take_ge.
  - rewrite (ip_checksum_fold _ 0); auto using words16_ok with lia.
  - rewrite length_words16, Z.shiftr_div_pow2, Nat.div2_div by lia.
    change (2 ^ 1) with (Z.of_nat 2). rewrite <-Nat2Z.inj_div, Nat2Z.id. done.
Qed.

Lemma tcp_checksum_sum_spec data s :
  bytes_ok data → 0 ≤ s → s + sum_words (padded_words data) < 2 ^ 32 →
  tcp_checksum_sum data s = s + sum_words (padded_words data).
Proof.
  revert s. unfold padded_words.
  induction data as [|x|x y data IH] using list_pair_ind; intros s Hok Hs Hlt.
  - cbn. lia.
  - cbn in *. inversion Hok; subst. rewrite u32_id; unfold_widths; lia.
  - cbn [length Nat.even tcp_checksum_sum] in *.
    assert (words16 (if Nat.even (length data) then x :: y :: data else (x :: y :: data) ++ [0])
      = x + 0x100 * y :: words16 (if Nat.even (length data) then data else data ++ [0])) as Hw
      by (by destruct (Nat.even (length data))).
    rewrite Hw in *. cbn [sum_words] in *.
    inversion Hok as [|?? Hx H']; subst. inversion H' as [|?? Hy H'']; subst.
    assert (0 ≤ sum_words (words16 (if Nat.even (length data) then data else data ++ [0]))).
    { apply sum_words_nonneg, words16_ok. destruct (Nat.even (length data)); [done|].
      apply bytes_ok_app; split; [done|]. apply (bytes_ok_zeros 1). }
    rewrite u32_id by (unfold_widths; lia). rewrite IH by (try done; unfold_widths; lia). lia.
Qed.

Lemma tcp_checksum_fold_spec s : 0 ≤ s < 2 ^ 32 → tcp_checksum_fold 3 s = Ret (ocsum s).
Proof.
  intros Hs. cbn [tcp_checksum_fold]. rewrite !land_ffff, !shiftr16.
  destruct (Z.eqb_spec (s / 0x10000) 0) as [H0|H0].
  { f_equal. symmetry. apply ocsum_small. Z.div_mod_to_equations; lia. }
  set (t := u32 (s mod 0x10000 + s / 0x10000)).
  assert (t = s mod 0x10000 + s / 0x10000) as Ht by (apply u32_id; unfold_widths; Z.div_mod_to_equations; lia).
  assert (0 ≤ t < 0x20000) as Htr by (rewrite Ht; Z.div_mod_to_equations; lia).
  assert (ocsum t = ocsum s) as Hot by (rewrite Ht; apply ocsum_fold; Z.div_mod_to_equations; lia).
  clearbody t.
  destruct (Z.eqb_spec (t / 0x10000) 0) as [H1|H1].
  { f_equal. rewrite <-Hot. symmetry. apply ocsum_small. Z.div_mod_to_equations; lia. }
  set (r := u32 (t mod 0x10000 + t / 0x10000)).
  assert (r = t mod 0x10000 + t / 0x10000) as Hr by (apply u32_id; unfold_widths; Z.div_mod_to_equations; lia).
  assert (r < 0x10000) by (rewrite Hr; Z.div_mod_to_equations; lia).
  assert (0 ≤ r) by (rewrite Hr; Z.div_mod_to_equations; lia).
  rewrite Z.div_small by lia. cbn. f_equal.
  rewrite <-Hot, <-(ocsum_fold t), <-Hr by (Z.div_mod_to_equations; lia).
  symmetry. apply ocsum_small. lia.
Qed.

(** Filling in a checksum computed over a header whose checksum word is 0
    makes the words of the header sum to 0xFFFF. *)
Lemma ocsum_complement s : 0 < s → ocsum (s + (65535 - ocsum s)) = 65535.
Proof.
  intros Hs. pose proof (ocsum_pos s Hs).
  rewrite <-ocsum_add by lia. rewrite Z.add_sub_assoc, Z.add_simpl_l. done.
Qed.

Lemma sum_words_bound ws : Forall is_u16 ws → sum_words ws ≤ 65535 * Z.of_nat (length ws).
Proof. induction 1 as [|w ws Hw _ IH]; cbn [sum_words length]; unfold_widths; lia. Qed.

Lemma padded_words_ok data : bytes_ok data → Forall is_u16 (padded_words data).
Proof.
  intros H. apply words16_ok. destruct (Nat.even (length data)); [done|].
  apply bytes_ok_app; split; [done|]. apply (bytes_ok_zeros 1).
Qed.

Lemma length_padded_words data : (2 * length (padded_words data) ≤ length data + 1)%nat.
Proof.
  unfold padded_words. rewrite length_words16.
  destruct (Nat.even (length data)); rewrite ?length_app; cbn;
    rewrite Nat.div2_div; pose proof (Nat.Div0.mul_div_le (length data) 2);
    pose proof (Nat.Div0.mul_div_le (length data + 1) 2); lia.
Qed.

Lemma htons_0 : htons 0 = 0.
Proof. reflexivity. Qed.

Lemma fold_check_spec v :
  is_u32 v →
  fold_check v = if 0xFFFF <? v then (v mod 0x10000 + v / 0x10000) mod 0x10000 else v.
Proof.
  intros Hv. unfold fold_check. rewrite land_ffff, shiftr16.
  destruct (Z.ltb_spec 0xFFFF v); [|apply u16_id; unfold_widths; lia].
  rewrite u32_id by (unfold_widths; Z.div_mod_to_equations; lia). done.
Qed.

Lemma update_check_len_spec (s len : Z) :
  0 < s → is_u16 len →
  update_check_len (65535 - ocsum s) len = 65535 - ocsum (s + len).
Proof.
  intros Hs Hl. unfold update_check_len. rewrite htons_0.
  rewrite <-(ocsum_add s len) by (unfold_widths; lia).
  pose proof (ocsum_pos s Hs) as Hk. generalize dependent (ocsum s). intros k Hk.
  rewrite fold_check_spec by apply u32_range. unfold ocsum.
  destruct (Z.ltb_spec 0xFFFF (u32 (65535 - k + (0 - len))));
    destruct (Z.eqb_spec (k + len) 0); width_lia.
Qed.

Lemma update_check_len_dst_spec (s len dst : Z) :
  0 < s → is_u16 len → 0 ≤ dst ≤ 0xFFFEFFFF →
  let check := 65535 - ocsum s in
  let v := u32 (check - len - dst) in
  update_check_len_dst check len dst
    = 65535 - ocsum (s + len + (dst mod 0x10000 + dst / 0x10000))
  ↔ len + dst ≤ check ∨ 0x10000 ≤ v mod 0x10000 + v / 0x10000.
Proof.
  intros Hs Hl Hd check v.
  assert (update_check_len_dst check len dst = fold_check v) as ->.
  { unfold update_check_len_dst, v. rewrite htons_0. do 2 f_equal. lia. }
  rewrite <-Z.add_assoc, <-(ocsum_add s) by (unfold_widths; Z.div_mod_to_equations; lia).
  subst check. pose proof (ocsum_pos s Hs) as Hk.
  generalize dependent (ocsum s). intros k v Hk.
  rewrite fold_check_spec by apply u32_range. unfold ocsum.
  destruct (Z.eqb_spec (k + (len + (dst mod 0x10000 + dst / 0x10000))) 0);
    [unfold_widths; Z.div_mod_to_equations; lia|].
  assert (v = 65535 - k - len - dst ∧ len + dst ≤ 65535 - k
          ∨ v = 65535 - k - len - dst + 0x100000000 ∧ 65535 - k < len + dst) as Hv
    by (unfold v; width_lia).
  clearbody v. destruct (Z.ltb_spec 0xFFFF v); unfold_widths; Z.div_mod_to_equations; lia.
Qed.

(** ** Properties *)

(** Over an even number of bytes, [ip_checksum] and the complement of
    [tcp_checksum] are the same one's complement sum; [tcp_checksum] returns
    (its folding loop ends within three rounds) for every datagram of at most
    65535 bytes, a last odd byte counting as if padded with zero. *)
Lemma checksum_routines_agree (data : bytes) :
  bytes_ok data → Z.of_nat (length data) ≤ 65535 →
  tcp_checksum data = Ret (65535 - ocsum (sum_words (padded_words data)))
  ∧ (Nat.even (length data) = true →
     tcp_checksum data = Ret (65535 - ip_checksum data (Z.of_nat (length data)))).
Proof.
  intros Hok Hl.
  pose proof (padded_words_ok _ Hok) as Hw.
  pose proof (sum_words_nonneg _ Hw). pose proof (sum_words_bound _ Hw).
  pose proof (length_padded_words data).
  assert (tcp_checksum data = Ret (65535 - ocsum (sum_words (padded_words data)))) as E.
  { unfold tcp_checksum. rewrite tcp_checksum_sum_spec by (done || lia).
    rewrite Z.add_0_l, tcp_checksum_fold_spec by lia. cbn.
    rewrite u16_lnot by (by apply ocsum_range). done. }
  split; [done|]. intros He.
  rewrite E, ip_checksum_spec by done. unfold padded_words. by rewrite He.
Qed.

(** Setting the length of a prefilled IPv4 header (whose checksum [65535 -
    ocsum s] was computed with length 0, [s > 0] being the sum of its other
    words) with the incremental formula gives exactly the checksum that a full
    recomputation over the header with the new length gives. *)
Lemma update_check_len_exact (s len : Z) :
  0 < s → is_u16 len →
  update_check_len (65535 - ocsum s) len = 65535 - ocsum (s + len).
Proof. apply update_check_len_spec. Qed.

(** The variant that also subtracts a 32-bit destination address is right
    exactly when the subtraction does not borrow, or when the single fold that
    follows carries out of 16 bits; otherwise the checksum sent is wrong. *)
Lemma update_check_len_dst_exact_iff (s len dst : Z) :
  0 < s → is_u16 len → 0 ≤ dst ≤ 0xFFFEFFFF →
  let check := 65535 - ocsum s in
  let v := u32 (check - len - dst) in
  update_check_len_dst check len dst
    = 65535 - ocsum (s + len + (dst mod 0x10000 + dst / 0x10000))
  ↔ len + dst ≤ check ∨ 0x10000 ≤ v mod 0x10000 + v / 0x10000.
Proof. apply update_check_len_dst_spec. Qed.

(** An INIT-ACK (chunk of 80 bytes) to 10.0.0.200 from a listening
    192.168.1.3: the checksum written differs from the checksum of the header. *)
Lemma update_check_len_dst_witness :
  update_check_len_dst (65535 - ocsum 0x1E0D5) 0x7000 0xC800000A
    ≠ 65535 - ocsum (0x1E0D5 + 0x7000 + (0xC800000A mod 0x10000 + 0xC800000A / 0x10000)).
Proof.
  intros E. apply (update_check_len_dst_exact_iff 0x1E0D5 0x7000 0xC800000A) in E;
    [|lia | unfold is_u16; lia | lia].
  destruct E as [E|E]; vm_compute in E; congruence.
Defined.

Lemma update_check_len_witness :
  update_check_len (65535 - ocsum 0x1E0D5) 0x7000 = 65535 - ocsum (0x1E0D5 + 0x7000).
Proof. apply update_check_len_exact; unfold is_u16; lia. Defined.

Lemma checksum_routines_witness :
  tcp_checksum [69; 2; 0; 48; 7]
  = Ret (65535 - ocsum (sum_words (padded_words [69; 2; 0; 48; 7]))).
Proof.
  apply checksum_routines_agree.
  - repeat constructor; unfold is_u8; lia.
  - cbn; lia.
Defined.
