(* ===== verification/Crc32c.v ===== *)
(** * CRC32c (generate_crc32c.c)

    The file has two implementations, chosen by the compiler: the SSE 4.2 one
    (eight bytes per [crc32] instruction), and the table-driven one of RFC 9260.
    Both are related to the bit-by-bit reference [crc32c_bits].

    The two [crc32] instructions are not code of the repository: the class
    [Crc32Insn] names them with their documented behaviour (Intel SDM, CRC32:
    the reflected CRC32c of the operand bytes, low byte first), and
    [crc32_soft] is a software instance. *)
From S2P Require Import Prelude Bytes.

(** ** Reference: one bit, one byte *)
Definition crc_poly : Z := 0x82F63B78.
Definition crc_bit (c : Z) : Z :=
  if Z.odd c then Z.lxor (Z.shiftr c 1) crc_poly else Z.shiftr c 1.
Definition crc_byte (c d : Z) : Z := Nat.iter 8 crc_bit (Z.lxor c d).
Definition crc32c_bits (data : bytes) (crc : Z) : Z := foldl crc_byte crc data.

(** ** Code: the SSE 4.2 implementation *)
Class Crc32Insn := {
  crc32qi : Z → Z → Z;
  crc32di : Z → Z → Z;
  crc32qi_spec c d : is_u32 c → is_u8 d → crc32qi c d = crc_byte c d;
  crc32di_spec c q : is_u32 c → is_u64 q → crc32di c q = crc32c_bits (le_enc 8 q) c
}.

#[export, refine] Instance crc32_soft : Crc32Insn := {|
  crc32qi := crc_byte;
  crc32di c q := crc32c_bits (le_enc 8 q) c
|}.
Proof. all: done. Defined.

Section code.
Context `{!Crc32Insn}.

(** Both loops of the SSE 4.2 functions: eight bytes at a time while eight are
    left, then one at a time. *)
Fixpoint crc32c_loops (data : bytes) (crc : Z) : Z :=
  match data with
  | b0 :: b1 :: b2 :: b3 :: b4 :: b5 :: b6 :: b7 :: data' =>
      crc32c_loops data' (crc32di crc (le_dec [b0; b1; b2; b3; b4; b5; b6; b7]))
  | _ => foldl crc32qi crc data
  end.

Definition generate_crc32c (data : bytes) : Z :=
  u32 (Z.lnot (u32 (crc32c_loops data 0xFFFFFFFF))).

Definition generate_crc32c_on_crc32c (data : bytes) (crc : Z) : Z :=
  crc32c_loops data crc.
End code.

(** ** Code: the table-driven implementation *)
Definition crc_c : list Z :=
  [
   0x00000000; 0xF26B8303; 0xE13B70F7; 0x1350F3F4; 0xC79A971F; 0x35F1141C;
   0x26A1E7E8; 0xD4CA64EB; 0x8AD958CF; 0x78B2DBCC; 0x6BE22838; 0x9989AB3B;
   0x4D43CFD0; 0xBF284CD3; 0xAC78BF27; 0x5E133C24; 0x105EC76F; 0xE235446C;
   0xF165B798; 0x030E349B; 0xD7C45070; 0x25AFD373; 0x36FF2087; 0xC494A384;
   0x9A879FA0; 0x68EC1CA3; 0x7BBCEF57; 0x89D76C54; 0x5D1D08BF; 0xAF768BBC;
   0xBC267848; 0x4E4DFB4B; 0x20BD8EDE; 0xD2D60DDD; 0xC186FE29; 0x33ED7D2A;
   0xE72719C1; 0x154C9AC2; 0x061C6936; 0xF477EA35; 0xAA64D611; 0x580F5512;
   0x4B5FA6E6; 0xB93425E5; 0x6DFE410E; 0x9F95C20D; 0x8CC531F9; 0x7EAEB2FA;
   0x30E349B1; 0xC288CAB2; 0xD1D83946; 0x23B3BA45; 0xF779DEAE; 0x05125DAD;
   0x1642AE59; 0xE4292D5A; 0xBA3A117E; 0x4851927D; 0x5B016189; 0xA96AE28A;
   0x7DA08661; 0x8FCB0562; 0x9C9BF696; 0x6EF07595; 0x417B1DBC; 0xB3109EBF;
   0xA0406D4B; 0x522BEE48; 0x86E18AA3; 0x748A09A0; 0x67DAFA54; 0x95B17957;
   0xCBA24573; 0x39C9C670; 0x2A993584; 0xD8F2B687; 0x0C38D26C; 0xFE53516F;
   0xED03A29B; 0x1F682198; 0x5125DAD3; 0xA34E59D0; 0xB01EAA24; 0x42752927;
   0x96BF4DCC; 0x64D4CECF; 0x77843D3B; 0x85EFBE38; 0xDBFC821C; 0x2997011F;
   0x3AC7F2EB; 0xC8AC71E8; 0x1C661503; 0xEE0D9600; 0xFD5D65F4; 0x0F36E6F7;
   0x61C69362; 0x93AD1061; 0x80FDE395; 0x72966096; 0xA65C047D; 0x5437877E;
   0x4767748A; 0xB50CF789; 0xEB1FCBAD; 0x197448AE; 0x0A24BB5A; 0xF84F3859;
   0x2C855CB2; 0xDEEEDFB1; 0xCDBE2C45; 0x3FD5AF46; 0x7198540D; 0x83F3D70E;
   0x90A324FA; 0x62C8A7F9; 0xB602C312; 0x44694011; 0x5739B3E5; 0xA55230E6;
   0xFB410CC2; 0x092A8FC1; 0x1A7A7C35; 0xE811FF36; 0x3CDB9BDD; 0xCEB018DE;
   0xDDE0EB2A; 0x2F8B6829; 0x82F63B78; 0x709DB87B; 0x63CD4B8F; 0x91A6C88C;
   0x456CAC67; 0xB7072F64; 0xA457DC90; 0x563C5F93; 0x082F63B7; 0xFA44E0B4;
   0xE9141340; 0x1B7F9043; 0xCFB5F4A8; 0x3DDE77AB; 0x2E8E845F; 0xDCE5075C;
   0x92A8FC17; 0x60C37F14; 0x73938CE0; 0x81F80FE3; 0x55326B08; 0xA759E80B;
   0xB4091BFF; 0x466298FC; 0x1871A4D8; 0xEA1A27DB; 0xF94AD42F; 0x0B21572C;
   0xDFEB33C7; 0x2D80B0C4; 0x3ED04330; 0xCCBBC033; 0xA24BB5A6; 0x502036A5;
   0x4370C551; 0xB11B4652; 0x65D122B9; 0x97BAA1BA; 0x84EA524E; 0x7681D14D;
   0x2892ED69; 0xDAF96E6A; 0xC9A99D9E; 0x3BC21E9D; 0xEF087A76; 0x1D63F975;
   0x0E330A81; 0xFC588982; 0xB21572C9; 0x407EF1CA; 0x532E023E; 0xA145813D;
   0x758FE5D6; 0x87E466D5; 0x94B49521; 0x66DF1622; 0x38CC2A06; 0xCAA7A905;
   0xD9F75AF1; 0x2B9CD9F2; 0xFF56BD19; 0x0D3D3E1A; 0x1E6DCDEE; 0xEC064EED;
   0xC38D26C4; 0x31E6A5C7; 0x22B65633; 0xD0DDD530; 0x0417B1DB; 0xF67C32D8;
   0xE52CC12C; 0x1747422F; 0x49547E0B; 0xBB3FFD08; 0xA86F0EFC; 0x5A048DFF;
   0x8ECEE914; 0x7CA56A17; 0x6FF599E3; 0x9D9E1AE0; 0xD3D3E1AB; 0x21B862A8;
   0x32E8915C; 0xC083125F; 0x144976B4; 0xE622F5B7; 0xF5720643; 0x07198540;
   0x590AB964; 0xAB613A67; 0xB831C993; 0x4A5A4A90; 0x9E902E7B; 0x6CFBAD78;
   0x7FAB5E8C; 0x8DC0DD8F; 0xE330A81A; 0x115B2B19; 0x020BD8ED; 0xF0605BEE;
   0x24AA3F05; 0xD6C1BC06; 0xC5914FF2; 0x37FACCF1; 0x69E9F0D5; 0x9B8273D6;
   0x88D28022; 0x7AB90321; 0xAE7367CA; 0x5C18E4C9; 0x4F48173D; 0xBD23943E;
   0xF36E6F75; 0x0105EC76; 0x12551F82; 0xE03E9C81; 0x34F4F86A; 0xC69F7B69;
   0xD5CF889D; 0x27A40B9E; 0x79B737BA; 0x8BDCB4B9; 0x988C474D; 0x6AE7C44E;
   0xBE2DA0A5; 0x4C4623A6; 0x5F16D052; 0xAD7D5351
  ].

(** [#define CRC32C(c,d) (c=(c>>8)^crc_c[(c^(d))&0xFF])] *)
Definition CRC32C (c d : Z) : Z :=
  Z.lxor (Z.shiftr c 8) (crc_c !!! Z.to_nat (Z.land (Z.lxor c d) 0xFF)).

Definition generate_crc32c_table (buffer : bytes) : Z :=
  let crc32 := foldl CRC32C 0xFFFFFFFF buffer in
  let result := u32 (Z.lnot crc32) in
  let byte0 := Z.land result 0xFF in
  let byte1 := Z.land (Z.shiftr result 8) 0xFF in
  let byte2 := Z.land (Z.shiftr result 16) 0xFF in
  let byte3 := Z.land (Z.shiftr result 24) 0xFF in
  let crc32 := Z.lor (Z.lor (Z.lor (Z.shiftl byte0 24) (Z.shiftl byte1 16))
                            (Z.shiftl byte2 8)) byte3 in
  htonl crc32.

(** ** Lemmas: the bit step is linear and injective *)
Lemma crc_bit_lxor a b : crc_bit (Z.lxor a b) = Z.lxor (crc_bit a) (crc_bit b).
Proof.
  unfold crc_bit. rewrite <-!Z.bit0_odd, Z.lxor_spec, Z.shiftr_lxor.
  destruct (Z.testbit a 0), (Z.testbit b 0); cbn [xorb]; lxor_solve.
Qed.

Lemma crc_bit_u32 c : is_u32 c → is_u32 (crc_bit c).
Proof.
  intros Hc. unfold crc_bit. rewrite Z.shiftr_div_pow2 by lia.
  assert (is_u32 (c / 2 ^ 1)) by width_lia.
  destruct (Z.odd c); [|done]. apply lxor_u32; [done|]. unfold is_u32, crc_poly; lia.
Qed.

Lemma crc_bit_kernel c : is_u32 c → crc_bit c = 0 → c = 0.
Proof.
  intros Hc. unfold crc_bit. rewrite Z.shiftr_div_pow2 by lia.
  pose proof (Zdiv.Zodd_mod c) as Ho. pose proof (Z.bit0_odd c) as Hb.
  destruct (Z.odd c) eqn:E.
  - intros H%Z.lxor_eq. unfold crc_poly in H. width_lia.
  - intros H. rewrite <-Z.negb_even in E. apply negb_false_iff, Z.even_spec in E as [k ->].
    width_lia.
Qed.

Lemma crc_bit_0 : crc_bit 0 = 0.
Proof. reflexivity. Qed.

Lemma crc_iter_lxor n a b :
  Nat.iter n crc_bit (Z.lxor a b) = Z.lxor (Nat.iter n crc_bit a) (Nat.iter n crc_bit b).
Proof. induction n as [|n IH]; [done|]. by rewrite !Nat.iter_succ, IH, crc_bit_lxor. Qed.

Lemma crc_iter_u32 n c : is_u32 c → is_u32 (Nat.iter n crc_bit c).
Proof. intros; induction n; [done|]. rewrite Nat.iter_succ. auto using crc_bit_u32. Qed.

Lemma crc_iter_inj n a b :
  is_u32 a → is_u32 b → Nat.iter n crc_bit a = Nat.iter n crc_bit b → a = b.
Proof.
  intros Ha Hb E. apply Z.lxor_eq.
  assert (Nat.iter n crc_bit (Z.lxor a b) = 0) as H by (by rewrite crc_iter_lxor, E, Z.lxor_nilpotent).
  pose proof (lxor_u32 a b Ha Hb) as Hx. generalize dependent (Z.lxor a b). clear.
  induction n as [|n IH]; intros x H Hx; [done|]. rewrite Nat.iter_succ in H.
  apply IH; [|done]. apply crc_bit_kernel; auto using crc_iter_u32.
Qed.

(** Shifting in a zero bit below is undone by one step. *)
Lemma crc_bit_double c : crc_bit (2 * c) = c.
Proof.
  unfold crc_bit. rewrite Z.odd_mul. cbn [Z.odd andb].
  rewrite Z.shiftr_div_pow2 by lia. change (2 ^ 1) with 2. rewrite Z.mul_comm. apply Z.div_mul. lia.
Qed.

Lemma crc_iter_shift n c : Nat.iter n crc_bit (2 ^ Z.of_nat n * c) = c.
Proof.
  induction n as [|n IH]; [cbn; lia|].
  rewrite Nat2Z.inj_succ, Z.pow_succ_r, Nat.iter_succ_r by lia.
  rewrite <-Z.mul_assoc, crc_bit_double. apply IH.
Qed.

Lemma crc_iter_0 n : Nat.iter n crc_bit 0 = 0.
Proof. induction n as [|n IH]; [done|]. by rewrite Nat.iter_succ, IH. Qed.

Lemma crc_byte_u32 c d : is_u32 c → is_u8 d → is_u32 (crc_byte c d).
Proof. intros. apply crc_iter_u32, lxor_u32; [done|]. unfold_widths; lia. Qed.

Lemma crc32c_bits_u32 data c : is_u32 c → bytes_ok data → is_u32 (crc32c_bits data c).
Proof.
  intros Hc Hd. revert c Hc. unfold crc32c_bits.
  induction Hd as [|d data Hb _ IH]; intros c Hc; cbn [foldl]; auto using crc_byte_u32.
Qed.

(** Feeding [n] bytes is [8n] bit steps on the CRC xored with their value. *)
Lemma crc32c_bits_iter data c :
  is_u32 c → bytes_ok data →
  crc32c_bits data c = Nat.iter (8 * length data) crc_bit (Z.lxor c (le_dec data)).
Proof.
  intros Hc Hd. revert c Hc. unfold crc32c_bits.
  induction Hd as [|d data Hb Hd IH]; intros c Hc; cbn [foldl le_dec length].
  - by rewrite Z.lxor_0_r.
  - rewrite IH by auto using crc_byte_u32.
    replace (8 * S (length data))%nat with (8 * length data + 8)%nat by lia.
    rewrite Nat.iter_add. f_equal. unfold crc_byte.
    rewrite <-(crc_iter_shift 8 (le_dec data)) at 1. rewrite <-crc_iter_lxor. f_equal.
    rewrite Z.lxor_assoc. f_equal. change (2 ^ Z.of_nat 8) with 256.
    by apply (lxor_low_high 8).
Qed.

Lemma crc32c_bits_app l1 l2 c : crc32c_bits (l1 ++ l2) c = crc32c_bits l2 (crc32c_bits l1 c).
Proof. apply foldl_app. Qed.

Lemma crc32c_bits_inj data c1 c2 :
  is_u32 c1 → is_u32 c2 → bytes_ok data →
  crc32c_bits data c1 = crc32c_bits data c2 → c1 = c2.
Proof.
  intros H1 H2 Hd. rewrite !crc32c_bits_iter, !crc_iter_lxor by done.
  intros E. apply (crc_iter_inj (8 * length data)); [done..|].
  apply (f_equal (fun z => Z.lxor z (Nat.iter (8 * length data) crc_bit (le_dec data)))) in E.
  by rewrite !Z.lxor_assoc, Z.lxor_nilpotent, !Z.lxor_0_r in E.
Qed.

(** ** Lemmas: the implementations compute the reference *)
Lemma crc32c_loops_spec `{!Crc32Insn} data c :
  is_u32 c → bytes_ok data → crc32c_loops data c = crc32c_bits data c.
Proof.
  remember (length data) as n eqn:Hn. revert data Hn c.
  induction n as [n IH] using lt_wf_ind; intros data Hn c Hc Hok.
  assert (∀ l, bytes_ok l → ∀ c, is_u32 c → foldl crc32qi c l = crc32c_bits l c) as Htail.
  { clear. induction 1 as [|d l Hd Hl IH]; intros c Hc; cbn [foldl]; [done|].
    rewrite crc32qi_spec by done. by apply IH, crc_byte_u32. }
  destruct data as [|b0 [|b1 [|b2 [|b3 [|b4 [|b5 [|b6 [|b7 data]]]]]]]]; try by apply Htail.
  change (b0 :: b1 :: b2 :: b3 :: b4 :: b5 :: b6 :: b7 :: data)
    with ([b0; b1; b2; b3; b4; b5; b6; b7] ++ data) in *.
  apply bytes_ok_app in Hok as [Hok1 Hok2].
  rewrite crc32c_bits_app. cbn [app crc32c_loops].
  rewrite crc32di_spec; [|done | by apply (le_dec_range _ Hok1)].
  change 8%nat with (length [b0; b1; b2; b3; b4; b5; b6; b7]).
  rewrite le_enc_dec by done. apply (IH (length data)); [|done| |done].
  - rewrite Hn, length_app; cbn; lia.
  - by apply crc32c_bits_u32.
Qed.

(** The table holds eight steps of every byte. *)
Lemma crc_c_table :
  crc_c = (λ i, Nat.iter 8 crc_bit (Z.of_nat i)) <$> seq 0 256.
Proof. vm_compute. reflexivity. Qed.

Lemma CRC32C_spec c d : is_u32 c → is_u8 d → CRC32C c d = crc_byte c d.
Proof.
  intros Hc Hd. unfold CRC32C, crc_byte.
  change 0xFF with (Z.ones 8). rewrite Z.land_ones by lia.
  pose proof (lxor_u32 c d Hc ltac:(unfold_widths; lia)) as Hx.
  assert (Z.shiftr c 8 = Z.lxor c d / 2 ^ 8) as ->.
  { rewrite <-Z.shiftr_div_pow2, Z.shiftr_lxor by lia.
    rewrite (Z.shiftr_div_pow2 d), (Z.div_small d) by (unfold_widths; lia). by rewrite Z.lxor_0_r. }
  generalize dependent (Z.lxor c d). clear c d Hc Hd. intros x Hx.
  assert (crc_c !!! Z.to_nat (x mod 2 ^ 8) = Nat.iter 8 crc_bit (x mod 2 ^ 8)) as ->.
  { apply list_lookup_total_correct. rewrite crc_c_table, list_lookup_fmap.
    rewrite lookup_seq_lt by (Z.div_mod_to_equations; lia). cbn [fmap option_fmap option_map].
    do 2 f_equal. rewrite Nat.add_0_l, Z2Nat.id; [done | Z.div_mod_to_equations; lia]. }
  rewrite <-(crc_iter_shift 8 (x / 2 ^ 8)), <-crc_iter_lxor.
  f_equal. change (2 ^ Z.of_nat 8) with (2 ^ 8). rewrite Z.lxor_comm.
  rewrite lxor_low_high by (Z.div_mod_to_equations; lia). Z.div_mod_to_equations; lia.
Qed.

Lemma CRC32C_foldl data c :
  is_u32 c → bytes_ok data → foldl CRC32C c data = crc32c_bits data c.
Proof.
  intros Hc Hd. revert c Hc. unfold crc32c_bits.
  induction Hd as [|d l Hd _ IH]; intros c Hc; cbn [foldl]; [done|].
  rewrite CRC32C_spec by done. by apply IH, crc_byte_u32.
Qed.

(** The byte shuffle and the final [htonl] cancel out on this machine, as the
    comment in the source says. *)
Lemma table_swap_cancels r :
  is_u32 r →
  htonl (Z.lor (Z.lor (Z.lor (Z.shiftl (Z.land r 0xFF) 24)
                             (Z.shiftl (Z.land (Z.shiftr r 8) 0xFF) 16))
                      (Z.shiftl (Z.land (Z.shiftr r 16) 0xFF) 8))
               (Z.land (Z.shiftr r 24) 0xFF)) = r.
Proof.
  intros Hr. change 0xFF with (Z.ones 8). rewrite !Z.land_ones, !Z.shiftr_div_pow2 by lia.
  rewrite <-!Z.lor_assoc.
  rewrite (lor_shiftl_add 8) by (Z.div_mod_to_equations; lia).
  rewrite (lor_shiftl_add 16) by (Z.div_mod_to_equations; lia).
  rewrite (lor_shiftl_add 24) by (Z.div_mod_to_equations; lia).
  rewrite <-(htonl_htonl r) at 5 by done. f_equal.
  unfold htonl. cbn [le_enc reverse rev_append le_dec]. width_lia.
Qed.

Lemma u32_lnot_inj a b : is_u32 a → is_u32 b → u32 (Z.lnot a) = u32 (Z.lnot b) → a = b.
Proof. unfold Z.lnot. width_lia. Qed.

Lemma crc_burst `{!Crc32Insn} (pre burst1 burst2 post : bytes) :
  bytes_ok (pre ++ burst1 ++ post) → bytes_ok burst2 →
  length burst1 = length burst2 → (length burst1 ≤ 4)%nat → burst1 ≠ burst2 →
  generate_crc32c (pre ++ burst1 ++ post) ≠ generate_crc32c (pre ++ burst2 ++ post).
Proof.
  intros Hok H2 Hl H4 Hne E.
  apply bytes_ok_app in Hok as [Hp [H1 Hs]%bytes_ok_app].
  apply Hne, le_dec_inj; [done..|].
  assert (is_u32 0xFFFFFFFF) as Hi by (unfold is_u32; lia).
  pose proof (crc32c_bits_u32 pre _ Hi Hp) as Hc.
  unfold generate_crc32c in E.
  rewrite !crc32c_loops_spec in E by (rewrite ?bytes_ok_app; auto).
  rewrite !crc32c_bits_app in E. set (c := crc32c_bits pre 0xFFFFFFFF) in *.
  rewrite !(u32_id (crc32c_bits _ _)) in E by auto using crc32c_bits_u32.
  apply u32_lnot_inj in E; [|auto using crc32c_bits_u32..].
  apply crc32c_bits_inj in E; [|auto using crc32c_bits_u32..].
  rewrite !crc32c_bits_iter, Hl in E by done.
  assert (∀ l, bytes_ok l → (length l ≤ 4)%nat → is_u32 (le_dec l)) as Hr.
  { intros l Hlo Hl4. pose proof (le_dec_range l Hlo) as Hb.
    assert (0x100 ^ Z.of_nat (length l) ≤ 0x100 ^ 4) by (apply Z.pow_le_mono_r; lia).
    unfold is_u32. lia. }
  apply crc_iter_inj in E; [|apply lxor_u32; auto; apply Hr; auto; lia..].
  apply (f_equal (Z.lxor c)) in E. by rewrite <-!Z.lxor_assoc, Z.lxor_nilpotent, !Z.lxor_0_l in E.
Qed.

(** ** Properties *)

(** C16: the SSE 4.2 implementation and the table-driven implementation return
    the same checksum on every buffer, the complement of the bit-by-bit CRC32c
    of RFC 9260; [~generate_crc32c_on_crc32c (.., 0xFFFFFFFF)], the form the
    prefilled builders and the validator use, is that checksum too. *)
Theorem crc32c_implementations_agree `{!Crc32Insn} (data : bytes) :
  bytes_ok data →
  generate_crc32c data = u32 (Z.lnot (crc32c_bits data 0xFFFFFFFF))
  ∧ generate_crc32c_table data = generate_crc32c data
  ∧ u32 (Z.lnot (u32 (generate_crc32c_on_crc32c data 0xFFFFFFFF))) = generate_crc32c data.
Proof.
  intros Hd. assert (is_u32 0xFFFFFFFF) as Hi by (unfold is_u32; lia).
  pose proof (crc32c_bits_u32 data _ Hi Hd) as Hc.
  assert (generate_crc32c data = u32 (Z.lnot (crc32c_bits data 0xFFFFFFFF))) as E.
  { unfold generate_crc32c. rewrite crc32c_loops_spec, (u32_id (crc32c_bits _ _)); done. }
  split_and!; [done| |done].
  rewrite E. unfold generate_crc32c_table. cbv zeta.
  rewrite CRC32C_foldl by done. apply table_swap_cancels, u32_range.
Qed.

(** A packet corrupted inside a window of at most four consecutive bytes
    never keeps its checksum: the CRC detects every error burst of up to 32
    bits, wherever it is in the packet. *)
Lemma crc32c_detects_burst `{!Crc32Insn} (pre burst1 burst2 post : bytes) :
  bytes_ok (pre ++ burst1 ++ post) → bytes_ok burst2 →
  length burst1 = length burst2 → (length burst1 ≤ 4)%nat → burst1 ≠ burst2 →
  generate_crc32c (pre ++ burst1 ++ post) ≠ generate_crc32c (pre ++ burst2 ++ post).
Proof. apply crc_burst. Qed.

Lemma crc32c_detects_burst_witness :
  generate_crc32c ([1; 2] ++ [3; 4] ++ [5]) ≠ generate_crc32c ([1; 2] ++ [3; 5] ++ [5]).
Proof.
  apply crc32c_detects_burst; try done; try (cbn; lia).
  all: repeat constructor; unfold is_u8; lia.
Defined.

(** RFC 3720 test vector: 32 bytes of zeros. *)
Lemma crc32c_agree_witness :
  generate_crc32c_table (replicate 32 0) = generate_crc32c (replicate 32 0)
  ∧ generate_crc32c (replicate 32 0) = 0x8A9136AA.
Proof.
  split; [|vm_compute; reflexivity].
  exact (proj1 (proj2 (crc32c_implementations_agree (replicate 32 0) (bytes_ok_zeros 32)))).
Defined.
