(* ===== verification/Md5.v ===== *)
(** * MD5 (md5.c, include/md5.h)

    The context, its three operations and the block transformation, statement
    by statement, and two references: the compression function as the loop over
    (word index, rotation, constant) of RFC 1321, and the digest of a whole
    message as padding followed by a fold over 64-byte blocks.  [ctx_rep] says
    what a context knows of the bytes fed so far: it does not depend on how the
    message was cut into calls of [MD5Update]. *)
From S2P Require Import Prelude Bytes.

(** ** Code: the block transformation *)
Definition S11 := 7.
Definition S12 := 12.
Definition S13 := 17.
Definition S14 := 22.
Definition S21 := 5.
Definition S22 := 9.
Definition S23 := 14.
Definition S24 := 20.
Definition S31 := 4.
Definition S32 := 11.
Definition S33 := 16.
Definition S34 := 23.
Definition S41 := 6.
Definition S42 := 10.
Definition S43 := 15.
Definition S44 := 21.

(** [~] on a 32-bit word. *)
Definition not32 (x : Z) : Z := u32 (Z.lnot x).

(** The macros of one letter, kept in a name space of their own. *)
Module MD5.
Definition F (x y z : Z) : Z := Z.lor (Z.land x y) (Z.land (not32 x) z).
Definition G (x y z : Z) : Z := Z.lor (Z.land x z) (Z.land y (not32 z)).
Definition H (x y z : Z) : Z := Z.lxor (Z.lxor x y) z.
Definition I (x y z : Z) : Z := Z.lxor y (Z.lor x (not32 z)).

End MD5.

Definition ROTATE_LEFT (x n : Z) : Z := Z.lor (u32 (Z.shiftl x n)) (Z.shiftr x (32 - n)).

(** The new value of [a]. *)
Definition FF (a b c d x s ac : Z) : Z :=
  let a := u32 (a + u32 (u32 (MD5.F b c d + x) + ac)) in
  let a := ROTATE_LEFT a s in
  u32 (a + b).
Definition GG (a b c d x s ac : Z) : Z :=
  let a := u32 (a + u32 (u32 (MD5.G b c d + x) + ac)) in
  let a := ROTATE_LEFT a s in
  u32 (a + b).
Definition HH (a b c d x s ac : Z) : Z :=
  let a := u32 (a + u32 (u32 (MD5.H b c d + x) + ac)) in
  let a := ROTATE_LEFT a s in
  u32 (a + b).
Definition II (a b c d x s ac : Z) : Z :=
  let a := u32 (a + u32 (u32 (MD5.I b c d + x) + ac)) in
  let a := ROTATE_LEFT a s in
  u32 (a + b).

(** [Encode]: words to bytes, low byte first; [Decode] back. *)
Fixpoint Encode (input : list Z) : bytes :=
  match input with
  | [] => []
  | w :: input =>
      Z.land w 0xff :: Z.land (Z.shiftr w 8) 0xff :: Z.land (Z.shiftr w 16) 0xff
        :: Z.land (Z.shiftr w 24) 0xff :: Encode input
  end.

Fixpoint Decode (input : bytes) : list Z :=
  match input with
  | b0 :: b1 :: b2 :: b3 :: input =>
      Z.lor (Z.lor (Z.lor b0 (Z.shiftl b1 8)) (Z.shiftl b2 16)) (Z.shiftl b3 24)
        :: Decode input
  | _ => []
  end.

(** The four state words. *)
Record md5_state := MD5State { st_a : Z; st_b : Z; st_c : Z; st_d : Z }.

(** [FF (a, b, c, d, ..)] assigns [a], [FF (d, a, b, c, ..)] assigns [d], .. *)
Definition macro : Type := Z → Z → Z → Z → Z → Z → Z → Z.
Definition abcd (f : macro) (x s ac : Z) (st : md5_state) : md5_state :=
  let '(MD5State a b c d) := st in MD5State (f a b c d x s ac) b c d.
Definition dabc (f : macro) (x s ac : Z) (st : md5_state) : md5_state :=
  let '(MD5State a b c d) := st in MD5State a b c (f d a b c x s ac).
Definition cdab (f : macro) (x s ac : Z) (st : md5_state) : md5_state :=
  let '(MD5State a b c d) := st in MD5State a b (f c d a b x s ac) d.
Definition bcda (f : macro) (x s ac : Z) (st : md5_state) : md5_state :=
  let '(MD5State a b c d) := st in MD5State a (f b c d a x s ac) c d.

(** The 64 statements, in order. *)
Definition MD5Transform_statements (x : nat → Z) : list (md5_state → md5_state) :=
  [
   (* Round 1 *)
    abcd FF (x 0) S11 0xd76aa478;
    dabc FF (x 1) S12 0xe8c7b756;
    cdab FF (x 2) S13 0x242070db;
    bcda FF (x 3) S14 0xc1bdceee;
    abcd FF (x 4) S11 0xf57c0faf;
    dabc FF (x 5) S12 0x4787c62a;
    cdab FF (x 6) S13 0xa8304613;
    bcda FF (x 7) S14 0xfd469501;
    abcd FF (x 8) S11 0x698098d8;
    dabc FF (x 9) S12 0x8b44f7af;
    cdab FF (x 10) S13 0xffff5bb1;
    bcda FF (x 11) S14 0x895cd7be;
    abcd FF (x 12) S11 0x6b901122;
    dabc FF (x 13) S12 0xfd987193;
    cdab FF (x 14) S13 0xa679438e;
    bcda FF (x 15) S14 0x49b40821;
   (* Round 2 *)
    abcd GG (x 1) S21 0xf61e2562;
    dabc GG (x 6) S22 0xc040b340;
    cdab GG (x 11) S23 0x265e5a51;
    bcda GG (x 0) S24 0xe9b6c7aa;
    abcd GG (x 5) S21 0xd62f105d;
    dabc GG (x 10) S22 0x2441453;
    cdab GG (x 15) S23 0xd8a1e681;
    bcda GG (x 4) S24 0xe7d3fbc8;
    abcd GG (x 9) S21 0x21e1cde6;
    dabc GG (x 14) S22 0xc33707d6;
    cdab GG (x 3) S23 0xf4d50d87;
    bcda GG (x 8) S24 0x455a14ed;
    abcd GG (x 13) S21 0xa9e3e905;
    dabc GG (x 2) S22 0xfcefa3f8;
    cdab GG (x 7) S23 0x676f02d9;
    bcda GG (x 12) S24 0x8d2a4c8a;
   (* Round 3 *)
    abcd HH (x 5) S31 0xfffa3942;
    dabc HH (x 8) S32 0x8771f681;
    cdab HH (x 11) S33 0x6d9d6122;
    bcda HH (x 14) S34 0xfde5380c;
    abcd HH (x 1) S31 0xa4beea44;
    dabc HH (x 4) S32 0x4bdecfa9;
    cdab HH (x 7) S33 0xf6bb4b60;
    bcda HH (x 10) S34 0xbebfbc70;
    abcd HH (x 13) S31 0x289b7ec6;
    dabc HH (x 0) S32 0xeaa127fa;
    cdab HH (x 3) S33 0xd4ef3085;
    bcda HH (x 6) S34 0x4881d05;
    abcd HH (x 9) S31 0xd9d4d039;
    dabc HH (x 12) S32 0xe6db99e5;
    cdab HH (x 15) S33 0x1fa27cf8;
    bcda HH (x 2) S34 0xc4ac5665;
   (* Round 4 *)
    abcd II (x 0) S41 0xf4292244;
    dabc II (x 7) S42 0x432aff97;
    cdab II (x 14) S43 0xab9423a7;
    bcda II (x 5) S44 0xfc93a039;
    abcd II (x 12) S41 0x655b59c3;
    dabc II (x 3) S42 0x8f0ccc92;
    cdab II (x 10) S43 0xffeff47d;
    bcda II (x 1) S44 0x85845dd1;
    abcd II (x 8) S41 0x6fa87e4f;
    dabc II (x 15) S42 0xfe2ce6e0;
    cdab II (x 6) S43 0xa3014314;
    bcda II (x 13) S44 0x4e0811a1;
    abcd II (x 4) S41 0xf7537e82;
    dabc II (x 11) S42 0xbd3af235;
    cdab II (x 2) S43 0x2ad7d2bb;
    bcda II (x 9) S44 0xeb86d391
  ]%nat.

Definition MD5Transform (state : md5_state) (block : bytes) : md5_state :=
  let x := Decode block in
  let '(MD5State a b c d) :=
    foldl (λ st stmt, stmt st) state (MD5Transform_statements (λ i, x !!! i)) in
  MD5State (u32 (st_a state + a)) (u32 (st_b state + b))
           (u32 (st_c state + c)) (u32 (st_d state + d)).

(** ** Code: the context *)
Record MD5_CTX := {
  state : md5_state;
  count0 : Z;          (* number of bits, low word *)
  count1 : Z;          (* number of bits, high word *)
  buffer : bytes       (* input buffer, 64 bytes *)
}.

Definition init_state : md5_state := MD5State 0x67452301 0xefcdab89 0x98badcfe 0x10325476.

(** [MD5Init] leaves the buffer as it is. *)
Definition MD5Init (context : MD5_CTX) : MD5_CTX :=
  {| state := init_state; count0 := 0; count1 := 0; buffer := buffer context |}.

(** [MD5_memcpy (&output[i], input, length input)] *)
Definition MD5_memcpy (output : bytes) (i : nat) (input : bytes) : bytes :=
  take i output ++ input ++ drop (i + length input) output.

(** [for (i = partLen; i + 63 < inputLen; i += 64) MD5Transform (.., &input[i])] *)
Fixpoint MD5Update_loop (fuel : nat) (st : md5_state) (input : bytes) (inputLen i : Z)
  : outcome (md5_state * Z) :=
  match fuel with
  | O => Timeout
  | S fuel =>
      if u32 (i + 63) <? inputLen
      then MD5Update_loop fuel (MD5Transform st (take 64 (drop (Z.to_nat i) input)))
                          input inputLen (u32 (i + 64))
      else Ret (st, i)
  end.

(** [input] holds the [inputLen] bytes; the loop runs at most once per 64. *)
Definition MD5Update (context : MD5_CTX) (input : bytes) : outcome MD5_CTX :=
  let inputLen := Z.of_nat (length input) in
  let index := Z.land (Z.shiftr (count0 context) 3) 0x3F in
  let c0 := u32 (count0 context + u32 (Z.shiftl inputLen 3)) in
  let c1 := if c0 <? u32 (Z.shiftl inputLen 3) then u32 (count1 context + 1) else count1 context in
  let c1 := u32 (c1 + Z.shiftr inputLen 29) in
  let partLen := 64 - index in
  '(st, buf, index, i) ←
    (if partLen <=? inputLen then
       let buf := MD5_memcpy (buffer context) (Z.to_nat index) (take (Z.to_nat partLen) input) in
       let st := MD5Transform (state context) buf in
       '(st, i) ← MD5Update_loop (S (length input)) st input inputLen partLen;
       Ret (st, buf, 0, i)
     else Ret (state context, buffer context, index, 0));
  Ret {| state := st; count0 := c0; count1 := c1;
         buffer := MD5_memcpy buf (Z.to_nat index) (drop (Z.to_nat i) input) |}.

Definition PADDING : bytes := 0x80 :: replicate 63 0.

Definition state_words (st : md5_state) : list Z := [st_a st; st_b st; st_c st; st_d st].

(** The digest; the context is zeroed. *)
Definition MD5Final (context : MD5_CTX) : outcome (bytes * MD5_CTX) :=
  let bits := Encode [count0 context; count1 context] in
  let index := Z.land (Z.shiftr (count0 context) 3) 0x3f in
  let padLen := if index <? 56 then 56 - index else 120 - index in
  context ← MD5Update context (take (Z.to_nat padLen) PADDING);
  context ← MD5Update context bits;
  Ret (Encode (state_words (state context)),
       {| state := MD5State 0 0 0 0; count0 := 0; count1 := 0; buffer := replicate 64 0 |}).

(** ** Reference: RFC 1321 *)
Definition md5_K : list Z :=
  [
   0xd76aa478; 0xe8c7b756; 0x242070db; 0xc1bdceee; 0xf57c0faf; 0x4787c62a; 0xa8304613; 0xfd469501;
   0x698098d8; 0x8b44f7af; 0xffff5bb1; 0x895cd7be; 0x6b901122; 0xfd987193; 0xa679438e; 0x49b40821;
   0xf61e2562; 0xc040b340; 0x265e5a51; 0xe9b6c7aa; 0xd62f105d; 0x2441453; 0xd8a1e681; 0xe7d3fbc8;
   0x21e1cde6; 0xc33707d6; 0xf4d50d87; 0x455a14ed; 0xa9e3e905; 0xfcefa3f8; 0x676f02d9; 0x8d2a4c8a;
   0xfffa3942; 0x8771f681; 0x6d9d6122; 0xfde5380c; 0xa4beea44; 0x4bdecfa9; 0xf6bb4b60; 0xbebfbc70;
   0x289b7ec6; 0xeaa127fa; 0xd4ef3085; 0x4881d05; 0xd9d4d039; 0xe6db99e5; 0x1fa27cf8; 0xc4ac5665;
   0xf4292244; 0x432aff97; 0xab9423a7; 0xfc93a039; 0x655b59c3; 0x8f0ccc92; 0xffeff47d; 0x85845dd1;
   0x6fa87e4f; 0xfe2ce6e0; 0xa3014314; 0x4e0811a1; 0xf7537e82; 0xbd3af235; 0x2ad7d2bb; 0xeb86d391
  ].

Definition md5_shifts : list (list Z) :=
  [[7; 12; 17; 22]; [5; 9; 14; 20]; [4; 11; 16; 23]; [6; 10; 15; 21]].

(** Step [i]: the word index, the mixing function, the rotation. *)
Definition md5_index (i : nat) : nat :=
  match (i / 16)%nat with
  | 0%nat => i | 1%nat => 5 * i + 1 | 2%nat => 3 * i + 5 | _ => 7 * i
  end mod 16.
Definition md5_mix (i : nat) : Z → Z → Z → Z :=
  match (i / 16)%nat with 0%nat => MD5.F | 1%nat => MD5.G | 2%nat => MD5.H | _ => MD5.I end.
Definition md5_shift (i : nat) : Z := (md5_shifts !!! (i / 16)%nat) !!! (i mod 4)%nat.

(** One step rotates the roles of the four words. *)
Definition md5_step (x : nat → Z) (st : md5_state) (i : nat) : md5_state :=
  let '(MD5State a b c d) := st in
  MD5State d
    (u32 (ROTATE_LEFT
            (u32 (a + u32 (u32 (md5_mix i b c d + x (md5_index i)) + md5_K !!! i)))
            (md5_shift i) + b))
    b c.

Definition md5_compress (st : md5_state) (block : bytes) : md5_state :=
  let '(MD5State a b c d) :=
    foldl (md5_step (λ i, le_dec (take 4 (drop (4 * i) block)))) st (seq 0 64) in
  MD5State (u32 (st_a st + a)) (u32 (st_b st + b)) (u32 (st_c st + c)) (u32 (st_d st + d)).

(** Cut into 64-byte blocks ([n] of them). *)
Fixpoint md5_blocks (n : nat) (l : bytes) : list bytes :=
  match n with O => [] | S n => take 64 l :: md5_blocks n (drop 64 l) end.

Definition md5_hash_blocks (l : bytes) : md5_state :=
  foldl md5_compress init_state (md5_blocks (length l / 64) l).

(** Padding: 0x80, zeros up to 56 modulo 64, the length in bits on 8 bytes. *)
Definition md5_pad (msg : bytes) : bytes :=
  let r := (length msg mod 64)%nat in
  msg ++ [0x80] ++ replicate ((119 - r) mod 64)%nat 0
      ++ le_enc 8 (8 * Z.of_nat (length msg)).

Definition md5 (msg : bytes) : bytes :=
  let st := md5_hash_blocks (md5_pad msg) in
  le_enc 4 (st_a st) ++ le_enc 4 (st_b st) ++ le_enc 4 (st_c st) ++ le_enc 4 (st_d st).

(** ** Lemmas: the block transformation is the RFC's loop *)
Lemma land_ff x : Z.land x 0xff = u8 x.
Proof. change 0xff with (Z.ones 8). by rewrite Z.land_ones. Qed.

Lemma Encode_cons w ws : Encode (w :: ws) = le_enc 4 w ++ Encode ws.
Proof.
  cbn [Encode le_enc app]. rewrite !land_ff, !Z.shiftr_div_pow2 by lia.
  rewrite !Z.div_div by lia. done.
Qed.

Lemma Encode_words ws : Encode ws = pack (replicate (length ws) 4%nat) ws.
Proof. induction ws as [|w ws IH]; [done|]. rewrite Encode_cons, IH. done. Qed.

Lemma decode_word b0 b1 b2 b3 :
  bytes_ok [b0; b1; b2; b3] →
  Z.lor (Z.lor (Z.lor b0 (Z.shiftl b1 8)) (Z.shiftl b2 16)) (Z.shiftl b3 24)
  = le_dec [b0; b1; b2; b3].
Proof.
  intros Hok. rewrite !Forall_cons in Hok. destruct Hok as (H0 & H1 & H2 & H3 & _). unfold is_u8 in *.
  rewrite (Z.lor_comm b0), (lor_shiftl_add 8) by lia.
  rewrite Z.lor_comm, (Z.lor_comm _ (Z.shiftl b2 16)), (lor_shiftl_add 16) by lia.
  rewrite (lor_shiftl_add 24) by lia. cbn [le_dec]. lia.
Qed.

Lemma Decode_lookup l i :
  bytes_ok l → (4 * i + 4 ≤ length l)%nat →
  Decode l !!! i = le_dec (take 4 (drop (4 * i) l)).
Proof.
  revert l; induction i as [|i IH]; intros l Hok Hl.
  - destruct l as [|b0 [|b1 [|b2 [|b3 l]]]]; cbn in Hl; try lia.
    cbn [Decode]. apply decode_word. by apply (bytes_ok_take 4) in Hok.
  - destruct l as [|b0 [|b1 [|b2 [|b3 l]]]]; cbn in Hl; try lia.
    cbn [Decode]. replace (4 * S i)%nat with (S (S (S (S (4 * i))))) by lia.
    cbn [skipn]. apply IH; [by apply (bytes_ok_drop 4) in Hok | lia].
Qed.

(** Statement [i] of the code, from the tables of the loop. *)
Definition md5_macro (i : nat) : macro :=
  match (i / 16)%nat with 0%nat => FF | 1%nat => GG | 2%nat => HH | _ => II end.
Definition md5_assign (i : nat) : macro → Z → Z → Z → md5_state → md5_state :=
  match (i mod 4)%nat with 0%nat => abcd | 1%nat => dabc | 2%nat => cdab | _ => bcda end.
Definition md5_stmt (x : nat → Z) (i : nat) : md5_state → md5_state :=
  md5_assign i (md5_macro i) (x (md5_index i)) (md5_shift i) (md5_K !!! i).

Lemma statements_table x : MD5Transform_statements x = md5_stmt x <$> seq 0 64.
Proof. reflexivity. Qed.

Lemma md5_step_macro x a b c d i :
  md5_step x (MD5State a b c d) i =
  MD5State d (md5_macro i a b c d (x (md5_index i)) (md5_shift i) (md5_K !!! i)) b c.
Proof. unfold md5_step, md5_mix, md5_macro. by destruct (i / 16)%nat as [|[|[|?]]]. Qed.

(** The loop rotates the roles of the words where the code renames them. *)
Definition md5_rot (n : nat) (st : md5_state) : md5_state :=
  let '(MD5State a b c d) := st in
  match n with
  | 0%nat => MD5State a b c d | 1%nat => MD5State d a b c
  | 2%nat => MD5State c d a b | _ => MD5State b c d a
  end.

Lemma md5_statements_loop x st n :
  foldl (md5_step x) st (seq 0 n) =
  md5_rot (n mod 4) (foldl (λ st stmt, stmt st) st (md5_stmt x <$> seq 0 n)).
Proof.
  induction n as [|n IH]; [by destruct st|].
  rewrite seq_S, fmap_app, !foldl_app. cbn [foldl fmap list_fmap Nat.add]. rewrite IH.
  set (s := foldl _ _ _). clearbody s. destruct s as [a b c d].
  assert (S n mod 4 = match n mod 4 with 0 => 1 | 1 => 2 | 2 => 3 | _ => 0 end)%nat as ->.
  { pose proof (Nat.mod_upper_bound n 4 ltac:(lia)).
    replace (S n) with (n + 1)%nat by lia. rewrite Nat.Div0.add_mod.
    by destruct (n mod 4)%nat as [|[|[|[|?]]]] eqn:?; try lia. }
  unfold md5_stmt, md5_assign. pose proof (Nat.mod_upper_bound n 4 ltac:(lia)).
  destruct (n mod 4)%nat as [|[|[|[|?]]]]; try lia;
    cbn [md5_rot abcd dabc cdab bcda]; by rewrite md5_step_macro.
Qed.

Lemma MD5Transform_compress st block :
  bytes_ok block → length block = 64%nat → MD5Transform st block = md5_compress st block.
Proof.
  intros Hok Hl. unfold MD5Transform, md5_compress. cbv zeta.
  rewrite md5_statements_loop, <-statements_table.
  replace (64 mod 4)%nat with 0%nat by done.
  assert (∀ x y : nat → Z, (∀ i : nat, (i < 16)%nat → x i = y i) →
    MD5Transform_statements x = MD5Transform_statements y) as Hext.
  { intros x y Hxy. rewrite !statements_table. apply list_fmap_ext. intros i k Hk.
    unfold md5_stmt. f_equal. apply Hxy. apply Nat.mod_upper_bound. lia. }
  rewrite (Hext _ (λ i, le_dec (take 4 (drop (4 * i) block)))).
  - by destruct (foldl _ _ _).
  - intros i Hi. apply Decode_lookup; [done | lia].
Qed.

(** ** Lemmas: absorbing a message block by block *)
Definition absorb (st : md5_state) (l : bytes) : md5_state :=
  foldl md5_compress st (md5_blocks (length l / 64) l).

Lemma absorb_short st l : (length l < 64)%nat → absorb st l = st.
Proof. intros Hl. unfold absorb. by rewrite Nat.div_small. Qed.

Lemma absorb_block st b l :
  length b = 64%nat → absorb st (b ++ l) = absorb (md5_compress st b) l.
Proof.
  intros Hb. unfold absorb. rewrite length_app, Hb.
  replace (64 + length l)%nat with (length l + 1 * 64)%nat by lia.
  rewrite Nat.div_add, Nat.add_1_r by lia. cbn [md5_blocks foldl].
  by rewrite take_app_length', drop_app_length' by done.
Qed.

Lemma absorb_app n st l1 l2 :
  length l1 = (64 * n)%nat → absorb st (l1 ++ l2) = absorb (absorb st l1) l2.
Proof.
  revert st l1. induction n as [|n IH]; intros st l1 Hl.
  - destruct l1; [|cbn in Hl; lia]. by rewrite (absorb_short st []) by (cbn; lia).
  - rewrite <-(take_drop 64 l1) at 1 2. rewrite <-app_assoc.
    rewrite !(absorb_block st (take 64 l1)) by (rewrite length_take; lia). apply IH. rewrite length_drop; lia.
Qed.

(** The blocks of [MD5Update]: all that remain from offset [i] on. *)
Lemma MD5Update_loop_absorb fuel st input i :
  bytes_ok input → Z.of_nat (length input) ≤ 0xFFFFFFC0 →
  0 ≤ i ≤ Z.of_nat (length input) →
  Z.of_nat (length input) - i < Z.of_nat fuel * 64 →
  MD5Update_loop fuel st input (Z.of_nat (length input)) i =
  Ret (absorb st (drop (Z.to_nat i) input),
       i + 64 * ((Z.of_nat (length input) - i) / 64)).
Proof.
  intros Hok Hmax. revert st i.
  induction fuel as [|fuel IH]; intros st i Hi Hf; [lia|]. cbn [MD5Update_loop].
  rewrite u32_id by (unfold is_u32; lia).
  destruct (Z.ltb_spec (i + 63) (Z.of_nat (length input))) as [Hlt|Hge].
  - rewrite u32_id by (unfold is_u32; lia). rewrite IH by lia. do 2 f_equal.
    + rewrite <-(take_drop 64 (drop (Z.to_nat i) input)) at 2.
      rewrite absorb_block by (rewrite length_take, length_drop; lia).
      rewrite MD5Transform_compress.
      * f_equal. rewrite drop_drop. f_equal. lia.
      * by apply bytes_ok_take, bytes_ok_drop.
      * rewrite length_take, length_drop. lia.
    + Z.div_mod_to_equations; lia.
  - rewrite absorb_short by (rewrite length_drop; lia). do 2 f_equal.
    rewrite Z.div_small by lia. lia.
Qed.

(** What a context holds of the message fed so far. *)
Definition md5_rest (msg : bytes) : bytes := drop (64 * (length msg / 64)) msg.
Definition ctx_rep (ctx : MD5_CTX) (msg : bytes) : Prop :=
  state ctx = absorb init_state msg
  ∧ length (buffer ctx) = 64%nat
  ∧ take (length msg mod 64) (buffer ctx) = md5_rest msg
  ∧ bytes_ok msg
  ∧ count0 ctx = u32 (8 * Z.of_nat (length msg))
  ∧ count1 ctx = u32 (8 * Z.of_nat (length msg) / 0x100000000).

Lemma length_md5_rest msg : length (md5_rest msg) = (length msg mod 64)%nat.
Proof. unfold md5_rest. rewrite length_drop. pose proof (Nat.div_mod_eq (length msg) 64). lia. Qed.

Lemma md5_rest_split msg :
  ∃ m, msg = m ++ md5_rest msg ∧ length m = (64 * (length msg / 64))%nat.
Proof.
  exists (take (64 * (length msg / 64)) msg). unfold md5_rest. rewrite take_drop.
  split; [done|]. rewrite length_take. pose proof (Nat.div_mod_eq (length msg) 64). lia.
Qed.

Lemma md5_rest_app n m r :
  length m = (64 * n)%nat → md5_rest (m ++ r) = md5_rest r.
Proof.
  intros Hm. unfold md5_rest. rewrite length_app, Hm.
  replace (64 * n + length r)%nat with (length r + n * 64)%nat by lia.
  rewrite Nat.div_add by lia. rewrite drop_app.
  rewrite drop_ge, app_nil_l by lia. f_equal. lia.
Qed.

Lemma md5_count c0 c1 L n :
  0 ≤ L → 0 ≤ n ≤ 0xFFFFFFC0 →
  c0 = u32 (8 * L) → c1 = u32 (8 * L / 0x100000000) →
  let c0' := u32 (c0 + u32 (Z.shiftl n 3)) in
  c0' = u32 (8 * (L + n))
  ∧ u32 ((if c0' <? u32 (Z.shiftl n 3) then u32 (c1 + 1) else c1) + Z.shiftr n 29)
    = u32 (8 * (L + n) / 0x100000000).
Proof.
  intros HL Hn -> -> c0'. unfold c0'. rewrite Z.shiftl_mul_pow2, Z.shiftr_div_pow2 by lia.
  change (2 ^ 3) with 8. change (2 ^ 29) with 0x20000000.
  destruct (Z.ltb_spec (u32 (u32 (8 * L) + u32 (n * 8))) (u32 (n * 8))); split; width_lia.
Qed.

Lemma md5_index_rest ctx msg :
  ctx_rep ctx msg → Z.land (Z.shiftr (count0 ctx) 3) 0x3F = Z.of_nat (length msg mod 64).
Proof.
  intros (_ & _ & _ & _ & -> & _).
  change 0x3F with (Z.ones 6). rewrite Z.land_ones, Z.shiftr_div_pow2 by lia.
  rewrite Nat2Z.inj_mod. change (2 ^ 3) with 8. change (2 ^ 6) with 64. width_lia.
Qed.

Lemma md5_rest_short l : (length l < 64)%nat → md5_rest l = l.
Proof. intros Hl. unfold md5_rest. by rewrite Nat.div_small. Qed.

Lemma length_MD5_memcpy out i inp :
  (i + length inp ≤ length out)%nat → length (MD5_memcpy out i inp) = length out.
Proof. intros. unfold MD5_memcpy. rewrite !length_app, length_take, length_drop. lia. Qed.

(** Feeding [input] when it fills the pending block, and when it does not. *)
Lemma absorb_fill msg input p :
  (length msg mod 64 + p = 64)%nat → (p ≤ length input)%nat →
  absorb init_state (msg ++ input) =
    absorb (md5_compress (absorb init_state msg) (md5_rest msg ++ take p input)) (drop p input)
  ∧ md5_rest (msg ++ input) = md5_rest (drop p input).
Proof.
  intros Hp Hn. pose proof (length_md5_rest msg) as Hr.
  destruct (md5_rest_split msg) as (m & Hm & Hlm).
  assert (msg ++ input = m ++ (md5_rest msg ++ take p input) ++ drop p input) as Happ
    by (rewrite <-app_assoc, take_drop, app_assoc; congruence).
  assert (length (md5_rest msg ++ take p input) = 64%nat) as H64
    by (rewrite length_app, length_take; lia).
  assert (absorb init_state msg = absorb init_state m) as ->.
  { rewrite Hm at 1. rewrite (absorb_app (length msg / 64)) by done.
    apply absorb_short. rewrite Hr. apply Nat.mod_upper_bound. lia. }
  rewrite Happ. split.
  - rewrite (absorb_app (length msg / 64)) by done. by apply absorb_block.
  - rewrite (md5_rest_app (length msg / 64)) by done. apply (md5_rest_app 1). lia.
Qed.

Lemma absorb_keep msg input :
  (length msg mod 64 + length input < 64)%nat →
  absorb init_state (msg ++ input) = absorb init_state msg
  ∧ md5_rest (msg ++ input) = md5_rest msg ++ input.
Proof.
  intros Hn. pose proof (length_md5_rest msg) as Hr.
  destruct (md5_rest_split msg) as (m & Hm & Hlm).
  assert (msg ++ input = m ++ (md5_rest msg ++ input)) as Happ by (rewrite app_assoc; congruence).
  split.
  - rewrite Happ. rewrite Hm at 2. rewrite !(absorb_app (length msg / 64) _ m) by done.
    rewrite (absorb_short _ (md5_rest msg ++ input)), (absorb_short _ (md5_rest msg));
      rewrite ?length_app; (done || lia).
  - rewrite Happ, (md5_rest_app (length msg / 64)) by done.
    apply md5_rest_short. rewrite length_app. lia.
Qed.

(** What is left after the blocks of an update. *)
Lemma drop_whole_blocks (input : bytes) (idx : nat) :
  (idx < 64)%nat → 64 - Z.of_nat idx ≤ Z.of_nat (length input) →
  drop (Z.to_nat (64 - Z.of_nat idx + 64 * ((Z.of_nat (length input) - (64 - Z.of_nat idx)) / 64))) input
  = md5_rest (drop (64 - idx) input).
Proof.
  intros Hi Hle. unfold md5_rest. rewrite drop_drop, length_drop. f_equal.
  rewrite Z2Nat.inj_add, Z2Nat.inj_mul, Z2Nat.inj_div by (Z.div_mod_to_equations; lia).
  replace (Z.to_nat (Z.of_nat (length input) - (64 - Z.of_nat idx)))
    with (length input - (64 - idx))%nat by lia.
  change (Z.to_nat 64) with 64%nat. lia.
Qed.

Lemma MD5Update_rep ctx msg input :
  ctx_rep ctx msg → bytes_ok input → Z.of_nat (length input) ≤ 0xFFFFFFC0 →
  ∃ ctx', MD5Update ctx input = Ret ctx' ∧ ctx_rep ctx' (msg ++ input).
Proof.
  intros Hrep Hok Hmax. pose proof (md5_index_rest _ _ Hrep) as Hidx.
  destruct Hrep as (Hst & Hlb & Hbuf & Hmok & Hc0 & Hc1).
  pose proof (Nat.mod_upper_bound (length msg) 64 ltac:(lia)) as Hi64.
  destruct (md5_count _ _ (Z.of_nat (length msg)) (Z.of_nat (length input))
              ltac:(lia) ltac:(lia) Hc0 Hc1) as [Hc0' Hc1'].
  rewrite <-Nat2Z.inj_add, <-length_app in Hc0', Hc1'.
  unfold MD5Update. cbv zeta. rewrite Hidx, Nat2Z.id.
  set (idx := (length msg mod 64)%nat) in *.
  assert (∀ n, bytes_ok (md5_rest msg ++ take n input)) as Hbok.
  { intros n. apply bytes_ok_app. split; [by apply bytes_ok_drop | by apply bytes_ok_take]. }
  destruct (Z.leb_spec (64 - Z.of_nat idx) (Z.of_nat (length input))) as [Hle|Hlt].
  - rewrite MD5Update_loop_absorb by (done || lia).
    cbn [mbind outcome_bind]. eexists; split; [reflexivity|].
    destruct (absorb_fill msg input (64 - idx)) as [Hab Hre]; [lia..|].
    replace (Z.to_nat (64 - Z.of_nat idx)) with (64 - idx)%nat by lia.
    rewrite drop_whole_blocks by lia.
    assert (MD5_memcpy (buffer ctx) idx (take (64 - idx) input) = md5_rest msg ++ take (64 - idx) input) as Hb.
    { unfold MD5_memcpy. rewrite Hbuf, (drop_ge (buffer ctx)), app_nil_r; [done|].
      rewrite length_take; lia. }
    rewrite Hb.
    assert (length (md5_rest msg ++ take (64 - idx) input) = 64%nat) as Hl64.
    { rewrite length_app, length_md5_rest, length_take. fold idx. lia. }
    rewrite <-Hre. pose proof (length_md5_rest (msg ++ input)) as Hlr.
    pose proof (Nat.mod_upper_bound (length (msg ++ input)) 64 ltac:(lia)).
    split_and!; cbn [state buffer count0 count1]; try done.
    + rewrite Hab, <-Hst, MD5Transform_compress; done.
    + rewrite length_MD5_memcpy; lia.
    + unfold MD5_memcpy. cbn [take Nat.add]. by rewrite app_nil_l, take_app_length' by lia.
    + by apply bytes_ok_app.
  - cbn [mbind outcome_bind]. eexists; split; [reflexivity|]. rewrite Nat2Z.id.
    change (Z.to_nat 0) with 0%nat. rewrite drop_0.
    destruct (absorb_keep msg input) as [Hab Hre]; [lia|].
    pose proof (length_md5_rest msg). pose proof (length_md5_rest (msg ++ input)) as Hlr.
    rewrite Hre, length_app in Hlr.
    split_and!; cbn [state buffer count0 count1]; try done.
    + by rewrite Hab.
    + rewrite length_MD5_memcpy; lia.
    + unfold MD5_memcpy. rewrite Hbuf, Hre, app_assoc, take_app_length'; [done|].
      by rewrite <-Hlr, length_app.
    + by apply bytes_ok_app.
Qed.

Lemma MD5Init_rep ctx : length (buffer ctx) = 64%nat → ctx_rep (MD5Init ctx) [].
Proof. intros Hb. split_and!; try done; by constructor. Qed.

Lemma md5_pad_split msg :
  ∃ p, md5_pad msg = (msg ++ take p PADDING) ++ le_enc 8 (8 * Z.of_nat (length msg))
  ∧ Z.of_nat p = (let index := Z.of_nat (length msg mod 64) in
                  if index <? 56 then 56 - index else 120 - index)
  ∧ ((length msg + p) mod 64 = 56)%nat ∧ (p ≤ 64)%nat.
Proof.
  pose proof (Nat.mod_upper_bound (length msg) 64 ltac:(lia)) as Hr.
  unfold md5_pad. cbv zeta. set (r := (length msg mod 64)%nat) in *.
  exists (S ((119 - r) mod 64)). split; [|split; [|split]].
  - unfold PADDING. cbn [take]. rewrite take_replicate, Nat.min_l by
      (pose proof (Nat.mod_upper_bound (119 - r) 64 ltac:(lia)); lia).
    by rewrite <-!app_assoc.
  - rewrite Nat2Z.inj_succ, Nat2Z.inj_mod.
    destruct (Z.ltb_spec (Z.of_nat r) 56); Z.div_mod_to_equations; lia.
  - rewrite Nat.Div0.add_mod. fold r.
    assert (S ((119 - r) mod 64) = if (r <? 56)%nat then 56 - r else 120 - r)%nat as ->.
    { apply Nat2Z.inj. rewrite Nat2Z.inj_succ, Nat2Z.inj_mod.
      destruct (Nat.ltb_spec r 56); Z.div_mod_to_equations; lia. }
    apply Nat2Z.inj. rewrite !Nat2Z.inj_mod, Nat2Z.inj_add, !Nat2Z.inj_mod.
    destruct (Nat.ltb_spec r 56); Z.div_mod_to_equations; lia.
  - pose proof (Nat.mod_upper_bound (119 - r) 64 ltac:(lia)); lia.
Qed.

Lemma PADDING_ok : bytes_ok PADDING.
Proof. constructor; [unfold is_u8; lia | apply bytes_ok_zeros]. Qed.

Lemma encode_count msg ctx :
  ctx_rep ctx msg →
  Encode [count0 ctx; count1 ctx] = le_enc 8 (8 * Z.of_nat (length msg)).
Proof.
  intros (_ & _ & _ & _ & -> & ->). rewrite !Encode_cons, !le_enc_u32, app_nil_r.
  by rewrite (le_enc_app 4 4).
Qed.

Lemma absorb_words_ok st l : Forall is_u32 (state_words st) → Forall is_u32 (state_words (absorb st l)).
Proof.
  unfold absorb. generalize (md5_blocks (length l / 64) l). intros bs Hst.
  revert st Hst. induction bs as [|b bs IH]; intros st Hst; cbn [foldl]; [done|].
  apply IH. unfold md5_compress. destruct (foldl _ _ _). cbn. repeat constructor; apply u32_range.
Qed.

Lemma MD5Final_rep ctx msg :
  ctx_rep ctx msg →
  ∃ ctx', MD5Final ctx = Ret (md5 msg, ctx') ∧ length (buffer ctx') = 64%nat.
Proof.
  intros Hrep. unfold MD5Final. cbv zeta.
  rewrite (md5_index_rest _ _ Hrep), (encode_count _ _ Hrep).
  destruct (md5_pad_split msg) as (p & Hpad & Hp & Hmod & Hp64). cbv zeta in Hp.
  rewrite <-Hp, Nat2Z.id.
  destruct (MD5Update_rep ctx msg (take p PADDING)) as (c1 & -> & Hr1); [done| |..].
  { apply bytes_ok_take, PADDING_ok. }
  { rewrite length_take. lia. }
  cbn [mbind outcome_bind].
  destruct (MD5Update_rep c1 _ (le_enc 8 (8 * Z.of_nat (length msg))) Hr1) as (c2 & -> & Hr2).
  { apply le_enc_ok. }
  { rewrite length_le_enc. lia. }
  cbn [mbind outcome_bind]. eexists. split; [do 2 f_equal|]; cycle 1.
  { apply length_replicate. }
  destruct Hr2 as (Hst & _). rewrite <-Hpad in Hst. unfold md5, md5_hash_blocks.
  fold (absorb init_state (md5_pad msg)). rewrite <-Hst.
  unfold state_words. rewrite !Encode_cons. cbn [Encode]. by rewrite app_nil_r.
Qed.

(** ** Properties *)

(** The message fed by a sequence of calls of [MD5Update]. *)
Fixpoint MD5Updates (ctx : MD5_CTX) (chunks : list bytes) : outcome MD5_CTX :=
  match chunks with
  | [] => Ret ctx
  | c :: chunks => ctx ← MD5Update ctx c; MD5Updates ctx chunks
  end.

Lemma MD5Updates_rep ctx msg chunks :
  ctx_rep ctx msg → Forall bytes_ok chunks →
  Forall (λ c, Z.of_nat (length c) ≤ 0xFFFFFFC0) chunks →
  ∃ ctx', MD5Updates ctx chunks = Ret ctx' ∧ ctx_rep ctx' (msg ++ concat chunks).
Proof.
  intros Hrep Hok. revert ctx msg Hrep.
  induction Hok as [|c chunks Hc Hok IH]; intros ctx msg Hrep Hlen; cbn.
  - rewrite app_nil_r. eauto.
  - inversion Hlen; subst.
    destruct (MD5Update_rep ctx msg c) as (c1 & -> & Hr1); [done..|]. cbn.
    destruct (IH c1 _ Hr1) as (c2 & -> & Hr2); [done|].
    eexists; split; [done|]. by rewrite app_assoc.
Qed.

(** C14: whatever the calls of [MD5Update] a message is cut into (each of at
    most 2^32 - 64 bytes), [MD5Init], these calls and [MD5Final] return the
    RFC 1321 digest of the whole message: every loop ends, and neither the cuts
    nor what the context held before matter. *)
Theorem md5_streaming_correct (ctx : MD5_CTX) (chunks : list bytes) :
  length (buffer ctx) = 64%nat → Forall bytes_ok chunks →
  Forall (λ c, Z.of_nat (length c) ≤ 0xFFFFFFC0) chunks →
  ∃ ctx', (ctx ← MD5Updates (MD5Init ctx) chunks; MD5Final ctx)
          = Ret (md5 (concat chunks), ctx').
Proof.
  intros Hb Hok Hlen.
  destruct (MD5Updates_rep _ _ chunks (MD5Init_rep _ Hb)) as (c1 & -> & Hr); [done..|].
  destruct (MD5Final_rep _ _ Hr) as (c2 & E & _). by exists c2.
Qed.

(** The message "message digest" of RFC 1321 in two pieces. *)
Lemma md5_streaming_witness :
  (∃ ctx', (ctx ← MD5Updates (MD5Init {| state := MD5State 1 2 3 4; count0 := 5; count1 := 6;
                                buffer := replicate 64 7 |})
                   [[109; 101; 115; 115; 97]; [103; 101; 32; 100; 105; 103; 101; 115; 116]];
         MD5Final ctx)
   = Ret (md5 (concat [[109; 101; 115; 115; 97]; [103; 101; 32; 100; 105; 103; 101; 115; 116]]), ctx'))
  ∧ md5 (concat [[109; 101; 115; 115; 97]; [103; 101; 32; 100; 105; 103; 101; 115; 116]])
    = [0xf9; 0x6b; 0x69; 0x7d; 0x7c; 0xb7; 0x93; 0x8d;
       0x52; 0x5a; 0x2f; 0x31; 0xaa; 0xf1; 0x61; 0xd0].
Proof.
  split; [|vm_compute; reflexivity].
  apply md5_streaming_correct; [done| |].
  - repeat constructor; unfold is_u8; lia.
  - repeat constructor; cbn; lia.
Defined.
