(* ===== verification/Hmac.v ===== *)
(** * HMAC-MD5 (hmac_md5.c)

    The routine that authenticates the state cookie.  It is related to RFC
    2104, H (K xor opad, H (K xor ipad, text)), with H the digest [md5]. *)
From S2P Require Import Prelude Bytes Md5.

Definition HMAC_MD5_KEY_LEN : Z := 16.

(** ** Code *)

(** [MD5Init; MD5Update ..; MD5Update ..; MD5Final] on a local context whose
    initial contents [context] are whatever is on the stack. *)
Definition md5_of_two (context : MD5_CTX) (d1 d2 : bytes) : outcome (bytes * MD5_CTX) :=
  context ← MD5Update (MD5Init context) d1;
  context ← MD5Update context d2;
  MD5Final context.

(** [k_ipad[i] ^= 0x36] for [i < 64]; the pads have 65 bytes. *)
Definition xor_pad (pad : bytes) (v : Z) : bytes :=
  ((λ b, Z.lxor b v) <$> take 64 pad) ++ drop 64 pad.

Definition hmac_md5_on (context tctx : MD5_CTX) (text key : bytes) : outcome bytes :=
  key ← (if decide (64 < length key)%nat then
           c ← MD5Update (MD5Init tctx) key;
           '(tk, _) ← MD5Final c;
           Ret tk
         else Ret key);
  let k_ipad := xor_pad (MD5_memcpy (replicate 65 0) 0 key) 0x36 in
  let k_opad := xor_pad (MD5_memcpy (replicate 65 0) 0 key) 0x5c in
  '(digest, context) ← md5_of_two context (take 64 k_ipad) text;
  '(digest, _) ← md5_of_two context (take 64 k_opad) (take 16 digest);
  Ret digest.

(** The contexts are uninitialised locals; [hmac_md5_correct] shows that what
    they hold does not matter. *)
Definition stack_ctx : MD5_CTX :=
  {| state := MD5State 0 0 0 0; count0 := 0; count1 := 0; buffer := replicate 64 0 |}.
Definition hmac_md5 (text key : bytes) : outcome bytes := hmac_md5_on stack_ctx stack_ctx text key.

(** ** Reference: RFC 2104 *)
Definition hmac_key (key : bytes) : bytes :=
  let key := if decide (64 < length key)%nat then md5 key else key in
  key ++ replicate (64 - length key) 0.
Definition hmac (text key : bytes) : bytes :=
  let k := hmac_key key in
  md5 (((λ b, Z.lxor b 0x5c) <$> k) ++ md5 (((λ b, Z.lxor b 0x36) <$> k) ++ text)).

(** ** Lemmas *)
Lemma length_md5 msg : length (md5 msg) = 16%nat.
Proof. unfold md5. by rewrite !length_app, !length_le_enc. Qed.
Lemma md5_ok msg : bytes_ok (md5 msg).
Proof. unfold md5. repeat (apply bytes_ok_app; split); apply le_enc_ok. Qed.

Lemma md5_of_two_spec ctx d1 d2 :
  length (buffer ctx) = 64%nat → bytes_ok d1 → bytes_ok d2 →
  Z.of_nat (length d1) ≤ 0xFFFFFFC0 → Z.of_nat (length d2) ≤ 0xFFFFFFC0 →
  ∃ ctx', md5_of_two ctx d1 d2 = Ret (md5 (d1 ++ d2), ctx') ∧ length (buffer ctx') = 64%nat.
Proof.
  intros Hb H1 H2 Hl1 Hl2. unfold md5_of_two.
  destruct (MD5Update_rep _ [] d1 (MD5Init_rep ctx Hb)) as (c1 & -> & Hr1); [done..|]. cbn [mbind outcome_bind].
  destruct (MD5Update_rep c1 _ d2 Hr1) as (c2 & -> & Hr2); [done..|]. cbn [mbind outcome_bind].
  exact (MD5Final_rep _ _ Hr2).
Qed.

Lemma xor_pad_spec key v :
  (length key ≤ 64)%nat →
  take 64 (xor_pad (MD5_memcpy (replicate 65 0) 0 key) v)
  = (λ b, Z.lxor b v) <$> key ++ replicate (64 - length key) 0.
Proof.
  intros Hk. unfold xor_pad, MD5_memcpy. cbn [take]. rewrite app_nil_l, Nat.add_0_l.
  rewrite drop_replicate.
  assert (take 64 (key ++ replicate (65 - length key) 0) = key ++ replicate (64 - length key) 0) as ->.
  { rewrite take_app, take_ge, take_replicate by lia. do 2 f_equal. lia. }
  apply take_app_length'. rewrite length_fmap, length_app, length_replicate. lia.
Qed.

Lemma xor_ok v k : is_u8 v → bytes_ok k → bytes_ok ((λ b, Z.lxor b v) <$> k).
Proof. intros Hv Hk. apply Forall_fmap. eapply Forall_impl; [done|]. intros; cbn. by apply lxor_u8. Qed.

Lemma hmac_md5_on_spec (context tctx : MD5_CTX) (text key : bytes) :
  length (buffer context) = 64%nat → length (buffer tctx) = 64%nat →
  bytes_ok text → bytes_ok key →
  Z.of_nat (length text) ≤ 0xFFFFFFC0 → Z.of_nat (length key) ≤ 0xFFFFFFC0 →
  hmac_md5_on context tctx text key = Ret (hmac text key).
Proof.
  intros Hc Ht Htok Hkok Htl Hkl. unfold hmac_md5_on.
  assert ((if decide (64 < length key)%nat then
             c ← MD5Update (MD5Init tctx) key; '(tk, _) ← MD5Final c; Ret tk
           else Ret key) = Ret (if decide (64 < length key)%nat then md5 key else key)) as ->.
  { case_decide; [|done].
    destruct (MD5Update_rep _ [] key (MD5Init_rep tctx Ht)) as (c1 & -> & Hr1); [done..|].
    cbn [mbind outcome_bind]. by destruct (MD5Final_rep _ _ Hr1) as (c2 & -> & _). }
  unfold hmac, hmac_key. cbn [mbind outcome_bind].
  set (k := if decide (64 < length key)%nat then md5 key else key).
  assert (length k ≤ 64)%nat as Hk64.
  { unfold k. case_decide; [rewrite length_md5|]; lia. }
  assert (bytes_ok k) as Hkok'.
  { unfold k. case_decide; [apply md5_ok | done]. }
  clearbody k. rewrite !xor_pad_spec by done.
  assert (bytes_ok (k ++ replicate (64 - length k) 0)) as Hpok
    by (apply bytes_ok_app; split; [done | apply bytes_ok_zeros]).
  assert (length (k ++ replicate (64 - length k) 0) = 64%nat) as Hp64
    by (rewrite length_app, length_replicate; lia).
  destruct (md5_of_two_spec context ((λ b, Z.lxor b 0x36) <$> k ++ replicate (64 - length k) 0) text)
    as (c1 & -> & Hb1); [done| |done| |done|]; [apply xor_ok; [unfold is_u8; lia | done]|rewrite length_fmap; lia|].
  cbn [mbind outcome_bind]. rewrite take_ge by (rewrite length_md5; lia).
  destruct (md5_of_two_spec c1 ((λ b, Z.lxor b 0x5c) <$> k ++ replicate (64 - length k) 0)
              (md5 (((λ b, Z.lxor b 0x36) <$> k ++ replicate (64 - length k) 0) ++ text)))
    as (c2 & -> & Hb2);
    [done|apply xor_ok; [unfold is_u8; lia | done]|apply md5_ok|rewrite length_fmap; lia|rewrite length_md5; lia|].
  done.
Qed.

Lemma hmac_md5_ret text key :
  bytes_ok text → bytes_ok key →
  Z.of_nat (length text) ≤ 0xFFFFFFC0 → Z.of_nat (length key) ≤ 0xFFFFFFC0 →
  hmac_md5 text key = Ret (hmac text key).
Proof. by apply hmac_md5_on_spec. Qed.

Lemma hmac_ok text key : bytes_ok (hmac text key).
Proof. apply md5_ok. Qed.
Lemma length_hmac text key : length (hmac text key) = 16%nat.
Proof. apply length_md5. Qed.

(** ** Properties *)

(** C15: [hmac_md5] returns the RFC 2104 HMAC of the text under the key (keys
    longer than 64 bytes being hashed first), whatever its uninitialised
    contexts hold; it never runs out of its loops. *)
Theorem hmac_md5_correct (context tctx : MD5_CTX) (text key : bytes) :
  length (buffer context) = 64%nat → length (buffer tctx) = 64%nat →
  bytes_ok text → bytes_ok key →
  Z.of_nat (length text) ≤ 0xFFFFFFC0 → Z.of_nat (length key) ≤ 0xFFFFFFC0 →
  hmac_md5_on context tctx text key = Ret (hmac text key).
Proof. apply hmac_md5_on_spec. Qed.

(** RFC 2202, test case 2: key "Jefe", data "what do ya want for nothing?". *)
Lemma hmac_md5_witness :
  let text := [119; 104; 97; 116; 32; 100; 111; 32; 121; 97; 32; 119; 97; 110; 116; 32;
               102; 111; 114; 32; 110; 111; 116; 104; 105; 110; 103; 63] in
  let key := [74; 101; 102; 101] in
  hmac_md5_on stack_ctx stack_ctx text key = Ret (hmac text key)
  ∧ hmac text key = [0x75; 0x0c; 0x78; 0x3e; 0x6a; 0xb0; 0xb5; 0x03;
                     0xea; 0xa8; 0x6e; 0x31; 0x0a; 0x5d; 0xb7; 0x38].
Proof.
  cbv zeta. split; [|vm_compute; reflexivity].
  apply hmac_md5_correct; try done; try (cbn; lia).
  all: repeat constructor; unfold is_u8; lia.
Defined.
