(* ===== verification/RingBuf.v ===== *)
(** * The bounded ring buffer (create_ringbuf.c, push_ringbuf.c, pop_ringbuf.c)

    This file models the calls one after the other, as one thread makes them,
    with the 64-bit positions wrapping around; RingConc.v models the same two
    functions as the atomic steps of concurrent threads.

    [rb_rep rb q] relates a ring to the FIFO queue [q] of the (packet, plen)
    pairs it holds; the refinement theorem says that a ring whose size is a
    power of two from 2 to 2^58 is exactly a bounded FIFO. *)
From S2P Require Import Prelude Mem.

(** ** Code *)
Record ringbuf_cell := Cell { cell_seq : Z; cell_plen : Z; cell_packet : Z }.

Record ringbuf := RB {
  rb_size : Z;
  rb_mask : Z;
  rb_head : Z;
  rb_tail : Z;
  rb_cells : list ringbuf_cell
}.

(** [malloc (sizeof (ringbuf_t) * rb->size)] asks for 40 bytes for each cell of
    24, a product of 64 bits that wraps.  Does the block have room for every
    cell that the loop below it initialises?  If it has, [size] is less than
    2^63 and the [i64] counter does not overflow. *)
Definition sz_ringbuf : Z := 40.
Definition sz_cell : Z := 24.
Definition cells_fit (size : Z) : bool := sz_cell * size <=? u64 (sz_ringbuf * size).

(** [create_ringbuf size]: the two [malloc]s succeed or not; [junk] is what the
    fresh memory holds in the [plen] fields, which are not initialised. *)
Definition create_ringbuf (malloc_rb malloc_cells : bool) (junk : nat → Z) (size : Z)
  : outcome (option ringbuf) :=
  if malloc_rb then
    if malloc_cells then
      if cells_fit size then
        Ret (Some (RB size (u64 (size - 1)) 0 0
                     ((λ i, Cell (Z.of_nat i) (junk i) NULL) <$> List.seq 0 (Z.to_nat size))))
      else Fault
    else Ret None
  else Ret None.

(** [&rb->cells[pos & rb->mask]] *)
Definition cell_index (rb : ringbuf) (pos : Z) : nat := Z.to_nat (Z.land pos (rb_mask rb)).

(** The [for (;;)] of [push_ringbuf]: [None] is [return -1], [Some pos] is the
    exit by [break]; [atomic_compare_exchange] succeeds iff [head] is [pos]. *)
Fixpoint push_loop (fuel : nat) (rb : ringbuf) (pos : Z) : outcome (option Z) :=
  match fuel with
  | O => Timeout
  | S fuel =>
      cell ← get (rb_cells rb !! cell_index rb pos);
      let diff := i64 (cell_seq cell - pos) in
      if (diff =? 0) && (rb_head rb =? pos) then Ret (Some pos)
      else if diff <? 0 then Ret None
      else push_loop fuel rb (rb_head rb)
  end.

Definition push_ringbuf (rb : ringbuf) (packet plen : Z) : outcome (Z * ringbuf) :=
  r ← push_loop 2 rb (rb_head rb);
  match r with
  | None => Ret (-1, rb)
  | Some pos =>
      Ret (0, RB (rb_size rb) (rb_mask rb) (u64 (pos + 1)) (rb_tail rb)
                 (<[cell_index rb pos := Cell (u64 (pos + 1)) plen packet]> (rb_cells rb)))
  end.

Fixpoint pop_loop (fuel : nat) (rb : ringbuf) (pos : Z) : outcome (option Z) :=
  match fuel with
  | O => Timeout
  | S fuel =>
      cell ← get (rb_cells rb !! cell_index rb pos);
      let diff := i64 (cell_seq cell - (pos + 1)) in
      if (diff =? 0) && (rb_tail rb =? pos) then Ret (Some pos)
      else if diff <? 0 then Ret None
      else pop_loop fuel rb (rb_tail rb)
  end.

(** The result points into [cells]: [Some i] is [&rb->cells[i]]. *)
Definition pop_ringbuf (rb : ringbuf) : outcome (option nat * ringbuf) :=
  r ← pop_loop 2 rb (rb_tail rb);
  match r with
  | None => Ret (None, rb)
  | Some pos =>
      let i := cell_index rb pos in
      cell ← get (rb_cells rb !! i);
      Ret (Some i, RB (rb_size rb) (rb_mask rb) (rb_head rb) (u64 (pos + 1))
                      (<[i := Cell (u64 (pos + rb_mask rb + 1)) (cell_plen cell) (cell_packet cell)]> (rb_cells rb)))
  end.

(** [cell->packet] and [cell->plen] through a pointer that [pop_ringbuf]
    returned. *)
Definition deref_cell (rb : ringbuf) (cell : option nat) : outcome ringbuf_cell :=
  i ← get cell; get (rb_cells rb !! i).

(** ** Specification: a bounded FIFO *)
Abbreviation item := (Z * Z)%type.

Inductive rb_op := OpPush (packet plen : Z) | OpPop.
Inductive rb_result := RPush (ret : Z) | RPop (it : option item).

Definition fifo_step (cap : nat) (q : list item) (o : rb_op) : list item * rb_result :=
  match o, q with
  | OpPush p n, _ =>
      if decide (length q < cap)%nat then (q ++ [(p, n)], RPush 0) else (q, RPush (-1))
  | OpPop, [] => (q, RPop None)
  | OpPop, it :: q => (q, RPop (Some it))
  end.

Fixpoint fifo_run (cap : nat) (q : list item) (os : list rb_op) : list item * list rb_result :=
  match os with
  | [] => (q, [])
  | o :: os =>
      let '(q, r) := fifo_step cap q o in
      let '(q, rs) := fifo_run cap q os in (q, r :: rs)
  end.

(** The same sequence of calls on the ring; a caller of [pop_ringbuf] reads the
    two fields of the cell it gets. *)
Definition ring_step (rb : ringbuf) (o : rb_op) : outcome (ringbuf * rb_result) :=
  match o with
  | OpPush p n => '(ret, rb) ← push_ringbuf rb p n; Ret (rb, RPush ret)
  | OpPop =>
      '(cell, rb) ← pop_ringbuf rb;
      match cell with
      | None => Ret (rb, RPop None)
      | Some _ => c ← deref_cell rb cell; Ret (rb, RPop (Some (cell_packet c, cell_plen c)))
      end
  end.

Fixpoint ring_run (rb : ringbuf) (os : list rb_op) : outcome (ringbuf * list rb_result) :=
  match os with
  | [] => Ret (rb, [])
  | o :: os =>
      '(rb, r) ← ring_step rb o;
      '(rb, rs) ← ring_run rb os;
      Ret (rb, r :: rs)
  end.

(** Pushes in a row. *)
Fixpoint push_all (rb : ringbuf) (its : list item) : outcome ringbuf :=
  match its with
  | [] => Ret rb
  | (p, n) :: its => '(_, rb) ← push_ringbuf rb p n; push_all rb its
  end.

(** ** Representation *)

(** [n] cells, [h] pushes and [t] pops so far (unbounded counters whose low 64
    bits are [head] and [tail]); the positions [t .. h-1] are filled, the
    positions [h .. t+n-1] free. *)
Definition slot (n p : Z) : nat := Z.to_nat (p mod n).

Record rb_inv (rb : ringbuf) (k t : Z) (q : list item) : Prop := {
  inv_k : 1 ≤ k ≤ 63;
  inv_size : rb_size rb = 2 ^ k;
  inv_mask : rb_mask rb = 2 ^ k - 1;
  inv_len : Z.of_nat (length (rb_cells rb)) = 2 ^ k;
  inv_q : Z.of_nat (length q) ≤ 2 ^ k;
  inv_head : rb_head rb = u64 (t + Z.of_nat (length q));
  inv_tail : rb_tail rb = u64 t;
  inv_full i it : q !! i = Some it →
    rb_cells rb !! slot (2 ^ k) (t + Z.of_nat i) = Some (Cell (u64 (t + Z.of_nat i + 1)) it.2 it.1);
  inv_free i : Z.of_nat (length q) ≤ i < 2 ^ k →
    ∃ c, rb_cells rb !! slot (2 ^ k) (t + i) = Some c ∧ cell_seq c = u64 (t + i)
}.

Definition rb_rep (cap : nat) (rb : ringbuf) (q : list item) : Prop :=
  ∃ k t, rb_inv rb k t q ∧ Z.of_nat cap = 2 ^ k.

(** ** Lemmas *)
Lemma pow2_pos k : 0 ≤ k → 0 < 2 ^ k.
Proof. intros. apply Z.pow_pos_nonneg; lia. Qed.

Lemma pow2_bounds k : 1 ≤ k ≤ 63 → 2 ≤ 2 ^ k ≤ 2 ^ 63.
Proof.
  intros. pose proof (Z.pow_le_mono_r 2 1 k). pose proof (Z.pow_le_mono_r 2 k 63). lia.
Qed.

Lemma u64_mod_pow2 k p : 0 ≤ k ≤ 64 → u64 p mod 2 ^ k = p mod 2 ^ k.
Proof.
  intros Hk. unfold u64. change 0x10000000000000000 with (2 ^ 64).
  replace (2 ^ 64) with (2 ^ (64 - k) * 2 ^ k) by (rewrite <-Z.pow_add_r; [f_equal|..]; lia).
  apply Z.mod_mod_divide, Z.divide_factor_r.
Qed.

Lemma cell_index_slot rb k t q p : rb_inv rb k t q → cell_index rb (u64 p) = slot (2 ^ k) p.
Proof.
  intros H. pose proof (inv_k _ _ _ _ H). unfold cell_index, slot. rewrite (inv_mask _ _ _ _ H).
  rewrite Z.sub_1_r, <-Z.ones_equiv, Z.land_ones by lia. f_equal. apply u64_mod_pow2. lia.
Qed.

Lemma slot_inj n t i j :
  0 < n → 0 ≤ i < n → 0 ≤ j < n → slot n (t + i) = slot n (t + j) → i = j.
Proof.
  intros Hn Hi Hj E. unfold slot in E. apply Z2Nat.inj in E; [|apply Z.mod_pos_bound; lia..].
  assert ((i - j) mod n = 0) as E0.
  { replace (i - j) with ((t + i) - (t + j)) by lia. rewrite Zminus_mod, E, Z.sub_diag. done. }
  apply Z.mod_divide in E0 as [z Hz]; [|lia].
  assert (z < 1) by nia. assert (-1 < z) by nia. nia.
Qed.

Lemma slot_wrap n t : 0 < n → slot n (t + n) = slot n t.
Proof. intros. unfold slot. f_equal. rewrite <-(Z.mul_1_l n) at 1. apply Z_mod_plus_full. Qed.

Lemma slot_bound n p : 0 < n → Z.of_nat (slot n p) < n.
Proof. intros. unfold slot. pose proof (Z.mod_pos_bound p n). lia. Qed.

Lemma i64_u64 a b : i64 (u64 a - u64 b) = i64 (a - b).
Proof. unfold i64. cbv zeta. unfold u64. by rewrite <-Zminus_mod. Qed.

Lemma i64_small x : - 0x8000000000000000 ≤ x < 0x8000000000000000 → i64 x = x.
Proof. intros. pose proof (i64_diff x 0). rewrite i64_u64, Z.sub_0_r in *. auto with lia. Qed.

Section ops.
  Context (rb : ringbuf) (k t : Z) (q : list item) (Hinv : rb_inv rb k t q).
Let Hk := inv_k _ _ _ _ Hinv.
Let Hn := pow2_bounds k Hk.

Lemma push_full p n :
    Z.of_nat (length q) = 2 ^ k → push_ringbuf rb p n = Ret (-1, rb).
  Proof.
    intros Hq. unfold push_ringbuf. cbn [push_loop].
    rewrite (inv_head _ _ _ _ Hinv), (cell_index_slot _ _ _ _ _ Hinv), Hq, slot_wrap by lia.
    destruct q as [|it q'] eqn:Eq; [cbn in Hq; lia|].
    pose proof (inv_full _ _ _ _ Hinv 0%nat it eq_refl) as H0. rewrite Z.add_0_r in H0.
    rewrite H0. cbn [get mbind outcome_bind cell_seq]. rewrite i64_u64, i64_small by lia.
    destruct (Z.eqb_spec (t + 1 - (t + 2 ^ k)) 0); [lia|]. cbn [andb].
    destruct (Z.ltb_spec (t + 1 - (t + 2 ^ k)) 0); [done | lia].
  Qed.

(** What the two calls store when they succeed. *)
Lemma push_stores p n :
    Z.of_nat (length q) < 2 ^ k →
    push_ringbuf rb p n = Ret (0, RB (rb_size rb) (rb_mask rb) (u64 (rb_head rb + 1)) (rb_tail rb)
      (<[cell_index rb (rb_head rb) := Cell (u64 (rb_head rb + 1)) n p]> (rb_cells rb))).
  Proof.
    intros Hq. unfold push_ringbuf. cbn [push_loop].
    destruct (inv_free _ _ _ _ Hinv (Z.of_nat (length q))) as (c & Hc & Hs); [lia|].
    rewrite <-(cell_index_slot _ _ _ _ _ Hinv), <-(inv_head _ _ _ _ Hinv) in Hc.
    rewrite Hc. cbn [get mbind outcome_bind]. rewrite Hs, <-(inv_head _ _ _ _ Hinv), Z.sub_diag.
    change (i64 0) with 0. cbn [Z.eqb andb]. by rewrite Z.eqb_refl.
  Qed.

Lemma pop_stores it q' :
    q = it :: q' → ∃ c,
    rb_cells rb !! cell_index rb (rb_tail rb) = Some c ∧ cell_plen c = it.2 ∧ cell_packet c = it.1
    ∧ pop_ringbuf rb = Ret (Some (cell_index rb (rb_tail rb)),
        RB (rb_size rb) (rb_mask rb) (rb_head rb) (u64 (rb_tail rb + 1))
          (<[cell_index rb (rb_tail rb) := Cell (u64 (rb_tail rb + rb_mask rb + 1)) (cell_plen c) (cell_packet c)]> (rb_cells rb))).
  Proof.
    intros Hq. pose proof (inv_full _ _ _ _ Hinv 0%nat it) as H0. rewrite Hq in H0. specialize (H0 eq_refl).
    rewrite Z.add_0_r, <-(cell_index_slot _ _ _ _ _ Hinv), <-(inv_tail _ _ _ _ Hinv) in H0.
    eexists. split; [exact H0|]. do 2 (split; [done|]). unfold pop_ringbuf. cbn [pop_loop].
    rewrite H0. cbn [get mbind outcome_bind cell_seq].
    assert (i64 (u64 (t + 1) - (rb_tail rb + 1)) = 0) as ->.
    { rewrite (inv_tail _ _ _ _ Hinv).
      replace (u64 (t + 1) - (u64 t + 1)) with (u64 (t + 1) - u64 t - 1) by lia.
      unfold i64. cbv zeta. unfold u64. rewrite Zminus_mod, <-Zminus_mod, <-(Zminus_mod_idemp_l (_ - _)).
      rewrite <-Zminus_mod. replace (t + 1 - t) with 1 by lia. done. }
    cbn [Z.eqb andb]. rewrite Z.eqb_refl. cbn [mbind outcome_bind]. by rewrite H0.
  Qed.

Lemma push_ok p n :
    Z.of_nat (length q) < 2 ^ k →
    ∃ rb', push_ringbuf rb p n = Ret (0, rb') ∧ rb_inv rb' k t (q ++ [(p, n)]).
  Proof.
    intros Hq. rewrite push_stores by done. eexists; split; [reflexivity|].
    rewrite (inv_head _ _ _ _ Hinv), (cell_index_slot _ _ _ _ _ Hinv).
    pose proof (slot_bound (2 ^ k) (t + Z.of_nat (length q)) ltac:(lia)) as Hb.
    pose proof (inv_len _ _ _ _ Hinv) as Hlen.
    split; cbn [rb_size rb_mask rb_head rb_tail rb_cells]; try apply Hinv.
    - by rewrite length_insert.
    - rewrite length_app; cbn; lia.
    - rewrite length_app. cbn [length]. unfold u64. rewrite Zplus_mod_idemp_l. f_equal. lia.
    - intros i it Hit. destruct (decide (i = length q)) as [->|Hne].
      + rewrite lookup_app_r, Nat.sub_diag in Hit by lia. injection Hit as <-. cbn [fst snd].
        rewrite list_lookup_insert_eq by lia. do 2 f_equal. unfold u64.
        by rewrite Zplus_mod_idemp_l.
      + pose proof (lookup_lt_Some _ _ _ Hit) as Hi. rewrite length_app in Hi. cbn in Hi.
        rewrite lookup_app_l in Hit by lia.
        rewrite list_lookup_insert_ne; [by apply Hinv|].
        intros E%slot_inj; lia.
    - intros i. rewrite length_app. cbn [length]. intros Hi.
      rewrite list_lookup_insert_ne; [apply Hinv; lia|]. intros E%slot_inj; lia.
  Qed.

Lemma pop_empty : q = [] → pop_ringbuf rb = Ret (None, rb).
  Proof.
    intros Hq. unfold pop_ringbuf. cbn [pop_loop].
    rewrite (inv_tail _ _ _ _ Hinv), (cell_index_slot _ _ _ _ _ Hinv).
    destruct (inv_free _ _ _ _ Hinv 0) as (c & Hc & Hs); [rewrite Hq; cbn; lia|].
    rewrite Z.add_0_r in *. rewrite Hc. cbn [get mbind outcome_bind]. rewrite Hs.
    replace (u64 t - (u64 t + 1)) with (-1) by lia. done.
  Qed.

Lemma pop_ok it q' :
    q = it :: q' →
    ∃ i rb', pop_ringbuf rb = Ret (Some i, rb') ∧ rb_inv rb' k (t + 1) q'
    ∧ ∃ s, rb_cells rb' !! i = Some (Cell s it.2 it.1).
  Proof.
    intros Hq. destruct (pop_stores it q' Hq) as (c & Hc & Hn2 & Hn1 & ->). rewrite Hn1, Hn2. clear Hc Hn1 Hn2 c.
    rewrite (inv_tail _ _ _ _ Hinv), (cell_index_slot _ _ _ _ _ Hinv).
    pose proof (inv_len _ _ _ _ Hinv) as Hlen. pose proof (inv_q _ _ _ _ Hinv) as Hql.
    pose proof (slot_bound (2 ^ k) t ltac:(lia)) as Hb.
    rewrite Hq in Hql. cbn [length] in Hql.
    eexists _, _; split; [reflexivity|]. split; cycle 1.
    { cbn [rb_cells]. rewrite list_lookup_insert_eq by lia. eauto. }
    split; cbn [rb_size rb_mask rb_head rb_tail rb_cells]; try apply Hinv.
    - by rewrite length_insert.
    - lia.
    - rewrite (inv_head _ _ _ _ Hinv), Hq. cbn [length]. f_equal. lia.
    - unfold u64. by rewrite Zplus_mod_idemp_l.
    - intros i it' Hi. pose proof (lookup_lt_Some _ _ _ Hi).
      replace (t + 1 + Z.of_nat i) with (t + Z.of_nat (S i)) by lia.
      rewrite list_lookup_insert_ne.
      + apply Hinv. by rewrite Hq.
      + rewrite <-(Z.add_0_r t) at 1. intros E%slot_inj; lia.
    - intros i Hi. destruct (decide (i = 2 ^ k - 1)) as [->|Hne].
      + replace (t + 1 + (2 ^ k - 1)) with (t + 2 ^ k) by lia. rewrite slot_wrap by lia.
        rewrite list_lookup_insert_eq by lia. eexists; split; [reflexivity|]. cbn [cell_seq].
        rewrite (inv_mask _ _ _ _ Hinv). unfold u64. rewrite <-Z.add_assoc, Zplus_mod_idemp_l.
        f_equal. lia.
      + destruct (inv_free _ _ _ _ Hinv (i + 1)) as (c & Hc & Hs); [rewrite Hq; cbn [length]; lia|].
        replace (t + 1 + i) with (t + (i + 1)) by lia.
        rewrite list_lookup_insert_ne; [eauto|]. rewrite <-(Z.add_0_r t) at 1. intros E%slot_inj; lia.
  Qed.
End ops.

Lemma fresh_inv (f : nat → ringbuf_cell) k :
  1 ≤ k ≤ 63 → (∀ i, cell_seq (f i) = Z.of_nat i) →
  rb_inv (RB (2 ^ k) (u64 (2 ^ k - 1)) 0 0 (f <$> List.seq 0 (Z.to_nat (2 ^ k)))) k 0 [].
Proof.
  intros Hk Hf. pose proof (pow2_bounds k Hk).
  split; cbn [rb_size rb_mask rb_head rb_tail rb_cells length]; try done; try lia.
  - apply u64_id. unfold is_u64. lia.
  - rewrite length_fmap, length_seq. lia.
  - intros i Hi. rewrite list_lookup_fmap. unfold slot.
    rewrite Z.add_0_l, Z.mod_small by lia. rewrite lookup_seq_lt by lia.
    eexists; split; [reflexivity|]. rewrite Hf, u64_id by (unfold is_u64; lia). lia.
Qed.

(** 40 times 2^59 is more than 2^64. *)
Lemma cells_fit_spec k : 0 ≤ k ≤ 63 → cells_fit (2 ^ k) = (k <=? 58).
Proof.
  intros Hk. unfold cells_fit, sz_cell, sz_ringbuf. pose proof (pow2_pos k ltac:(lia)).
  destruct (Z.leb_spec k 58) as [Hle|Hgt].
  - pose proof (Z.pow_le_mono_r 2 k 58 ltac:(lia) ltac:(lia)). rewrite u64_id by (unfold is_u64; lia).
    apply Z.leb_le. lia.
  - assert (k = 59 ∨ k = 60 ∨ k = 61 ∨ k = 62 ∨ k = 63) as [->|[->|[->|[->| ->]]]] by lia; reflexivity.
Qed.

Lemma create_inv junk k :
  1 ≤ k ≤ 58 →
  ∃ rb, create_ringbuf true true junk (2 ^ k) = Ret (Some rb) ∧ rb_inv rb k 0 [].
Proof.
  intros Hk. unfold create_ringbuf. rewrite cells_fit_spec, (proj2 (Z.leb_le _ _)) by lia.
  eexists; split; [reflexivity|]. apply fresh_inv; [lia | done].
Qed.

Lemma ring_step_refines cap rb q o :
  rb_rep cap rb q →
  ∃ rb', ring_step rb o = Ret (rb', (fifo_step cap q o).2) ∧ rb_rep cap rb' (fifo_step cap q o).1.
Proof.
  intros (k & t & Hinv & Hcap). destruct o as [p n|]; cbn [ring_step fifo_step].
  - destruct (decide (length q < cap)%nat) as [Hlt|Hge].
    + destruct (push_ok rb k t q Hinv p n) as (rb' & -> & Hinv'); [lia|].
      eexists; split; [done|]. by exists k, t.
    + rewrite (push_full rb k t q Hinv p n); [|pose proof (inv_q _ _ _ _ Hinv); lia].
      eexists; split; [done|]. by exists k, t.
  - destruct q as [|it q].
    + rewrite (pop_empty rb k t [] Hinv eq_refl). eexists; split; [done|]. by exists k, t.
    + destruct (pop_ok rb k t _ Hinv it q eq_refl) as (i & rb' & -> & Hinv' & s & Hc).
      cbn [mbind outcome_bind deref_cell get]. rewrite Hc. cbn [get mbind outcome_bind].
      eexists; split; [by destruct it|]. by exists k, (t + 1).
Qed.

Lemma ring_run_refines cap os : ∀ rb q,
  rb_rep cap rb q →
  ∃ rb', ring_run rb os = Ret (rb', (fifo_run cap q os).2) ∧ rb_rep cap rb' (fifo_run cap q os).1.
Proof.
  induction os as [|o os IH]; intros rb q Hrep; cbn [ring_run fifo_run]; [eauto|].
  destruct (ring_step_refines cap rb q o Hrep) as (rb1 & -> & Hrep1).
  destruct (fifo_step cap q o) as [q1 r]. cbn [fst snd] in *. cbn [mbind outcome_bind].
  destruct (IH rb1 q1 Hrep1) as (rb2 & -> & Hrep2).
  destruct (fifo_run cap q1 os) as [q2 rs]. cbn [mbind outcome_bind fst snd] in *. eauto.
Qed.

(** ** The interface the users of a ring rely on

    A ring of packets, seen from a caller: what it holds is a list, [push]
    appends or reports that the ring is full, [pop] gives the oldest.

    [pop] gives a pointer to a cell.  [pq_kept r i d it]: reading through it
    still gives [it], and will after up to [d] more pushes; a push into the
    cell itself comes when as many pushes have been made as the ring has cells. *)
Class PacketQueue (Q : Type) := {
  pq_rep : nat → Q → list item → Prop;
  pq_kept : Q → nat → nat → item → Prop;
  pq_push : Q → Z → Z → outcome (Z * Q);
  pq_pop : Q → outcome (option nat * Q);
  pq_cell : Q → option nat → outcome ringbuf_cell;
  pq_push_ok cap r q p n :
    pq_rep cap r q → (length q < cap)%nat →
    ∃ r', pq_push r p n = Ret (0, r') ∧ pq_rep cap r' (q ++ [(p, n)]);
  pq_push_full cap r q p n :
    pq_rep cap r q → (cap ≤ length q)%nat → pq_push r p n = Ret (-1, r);
  pq_pop_empty cap r : pq_rep cap r [] → pq_pop r = Ret (None, r);
  pq_cell_null r : pq_cell r None = Fault;
  pq_pop_ok cap r it q :
    pq_rep cap r (it :: q) →
    ∃ i r', pq_pop r = Ret (Some i, r') ∧ pq_rep cap r' q
    ∧ ∃ s, pq_cell r' (Some i) = Ret (Cell s it.2 it.1);
  pq_pop_kept cap r it q i r' :
    pq_rep cap r (it :: q) → pq_pop r = Ret (Some i, r') → pq_kept r' i (cap - S (length q)) it;
  pq_push_kept cap r q p n z r' i d it :
    pq_rep cap r q → pq_push r p n = Ret (z, r') → pq_kept r i (S d) it → pq_kept r' i d it;
  pq_kept_cell r i d it : pq_kept r i d it → ∃ s, pq_cell r (Some i) = Ret (Cell s it.2 it.1)
}.

(** The next [d] pushes write other cells than [i]. *)
Definition rb_kept (rb : ringbuf) (i d : nat) (it : item) : Prop :=
  (∃ s, rb_cells rb !! i = Some (Cell s it.2 it.1))
  ∧ ∀ j, 0 ≤ j < Z.of_nat d → cell_index rb (u64 (rb_head rb + j)) ≠ i.

Lemma push_kept rb k t q p n z rb' i d it :
  rb_inv rb k t q → push_ringbuf rb p n = Ret (z, rb') → rb_kept rb i (S d) it → rb_kept rb' i d it.
Proof.
  intros Hinv E [(s & Hc) Hne]. destruct (decide (Z.of_nat (length q) = 2 ^ k)) as [Hfull|Hlt].
  - rewrite (push_full rb k t q Hinv p n Hfull) in E. injection E as <- <-.
    split; [eauto|]. intros j Hj. apply Hne. lia.
  - rewrite (push_stores rb k t q Hinv) in E by (pose proof (inv_q _ _ _ _ Hinv); lia). injection E as <- <-. split; cbn [rb_cells].
    + exists s. rewrite list_lookup_insert_ne; [done|]. specialize (Hne 0 ltac:(lia)).
      rewrite Z.add_0_r, u64_id in Hne; [done|]. rewrite (inv_head _ _ _ _ Hinv). apply u64_range.
    + intros j Hj. specialize (Hne (j + 1) ltac:(lia)). cbn [rb_head].
      unfold cell_index in *. cbn [rb_mask]. intros E'. apply Hne. rewrite <-E'. do 2 f_equal.
      unfold u64. rewrite Zplus_mod_idemp_l. f_equal. lia.
Qed.

Lemma pop_kept rb k t q it i rb' :
  rb_inv rb k t (it :: q) → pop_ringbuf rb = Ret (Some i, rb') →
  rb_kept rb' i (Z.to_nat (2 ^ k) - S (length q)) it.
Proof.
  intros Hinv E. destruct (pop_ok rb k t _ Hinv it q eq_refl) as (i0 & rb0 & E0 & Hinv' & Hc).
  rewrite E0 in E. injection E as -> ->. split; [exact Hc|]. intros j Hj.
  destruct (pop_stores rb k t _ Hinv it q eq_refl) as (c & _ & _ & _ & E). rewrite E0 in E. injection E as -> _.
  rewrite (inv_tail _ _ _ _ Hinv), (cell_index_slot _ _ _ _ _ Hinv).
  pose proof (pow2_bounds k (inv_k _ _ _ _ Hinv)). rewrite (inv_head _ _ _ _ Hinv').
  assert (u64 (u64 (t + 1 + Z.of_nat (length q)) + j) = u64 (t + (1 + Z.of_nat (length q) + j))) as ->
    by (unfold u64; rewrite Zplus_mod_idemp_l; f_equal; lia).
  rewrite (cell_index_slot _ _ _ _ _ Hinv'). rewrite <-(Z.add_0_r t) at 2. intros E%slot_inj; lia.
Qed.

Lemma push_all_app rb its1 its2 : push_all rb (its1 ++ its2) = (rb ← push_all rb its1; push_all rb its2).
Proof.
  revert rb. induction its1 as [|[p n] its1 IH]; intros rb; [done|]. cbn [app push_all].
  destruct (push_ringbuf rb p n) as [[z rb1]| |]; cbn [mbind outcome_bind]; [apply IH|done|done].
Qed.

Lemma push_all_ok its : ∀ rb k t q,
  rb_inv rb k t q → Z.of_nat (length q + length its) ≤ 2 ^ k →
  ∃ rb', push_all rb its = Ret rb' ∧ rb_inv rb' k t (q ++ its)
  ∧ ∀ i d it, rb_kept rb i (length its + d) it → rb_kept rb' i d it.
Proof.
  induction its as [|[p n] its IH]; intros rb k t q Hinv Hlen; cbn [push_all].
  - exists rb. by rewrite app_nil_r.
  - cbn in Hlen. destruct (push_ok rb k t q Hinv p n) as (rb1 & E & Hinv1); [lia|].
    destruct (IH rb1 k t _ Hinv1) as (rb2 & E2 & Hinv2 & Hk); [rewrite length_app; cbn; lia|].
    exists rb2. rewrite E. cbn [mbind outcome_bind]. split; [exact E2|]. rewrite <-app_assoc in Hinv2.
    split; [exact Hinv2|]. intros i d it Hi. apply Hk.
    exact (push_kept rb k t q p n 0 rb1 i _ it Hinv E Hi).
Qed.

(** The push that takes the last free cell writes the cell popped last. *)
Lemma push_last rb k t q it i rb' :
  rb_inv rb k t (it :: q) → pop_ringbuf rb = Ret (Some i, rb') →
  ∀ rb1 its p n, rb_inv rb1 k (t + 1) (q ++ its) → Z.of_nat (length q + length its) + 1 = 2 ^ k →
  ∃ rb2 s, push_ringbuf rb1 p n = Ret (0, rb2) ∧ rb_inv rb2 k (t + 1) ((q ++ its) ++ [(p, n)])
  ∧ rb_cells rb2 !! i = Some (Cell s n p).
Proof.
  intros Hinv E rb1 its p n Hinv1 Hlen. pose proof (pow2_bounds k (inv_k _ _ _ _ Hinv)).
  destruct (pop_stores rb k t _ Hinv it q eq_refl) as (c & _ & _ & _ & E'). rewrite E in E'. injection E' as -> _.
  destruct (push_ok rb1 k (t + 1) _ Hinv1 p n) as (rb2 & E2 & Hinv2); [rewrite length_app; lia|].
  rewrite (push_stores rb1 k (t + 1) _ Hinv1) in E2 by (rewrite length_app; lia). injection E2 as <-.
  eexists _, _. rewrite (push_stores rb1 k (t + 1) _ Hinv1) by (rewrite length_app; lia).
  split; [reflexivity|]. split; [exact Hinv2|]. cbn [rb_cells].
  rewrite (inv_tail _ _ _ _ Hinv), (cell_index_slot _ _ _ _ _ Hinv), (inv_head _ _ _ _ Hinv1), (cell_index_slot _ _ _ _ _ Hinv1).
  rewrite length_app. replace (t + 1 + Z.of_nat (length q + length its)) with (t + 2 ^ k) by lia.
  rewrite slot_wrap by lia. apply list_lookup_insert_eq.
  pose proof (slot_bound (2 ^ k) t ltac:(lia)). pose proof (inv_len _ _ _ _ Hinv1). lia.
Qed.

#[export, refine] Instance ringbuf_queue : PacketQueue ringbuf := {|
  pq_rep := rb_rep;
  pq_push := push_ringbuf;
  pq_pop := pop_ringbuf;
  pq_cell := deref_cell;
  pq_kept := rb_kept
|}.
Proof.
  - intros cap r q p n (k & t & Hinv & Hcap) Hlt.
    destruct (push_ok r k t q Hinv p n) as (r' & -> & Hinv'); [lia|].
    eexists; split; [done|]. by exists k, t.
  - intros cap r q p n (k & t & Hinv & Hcap) Hge. pose proof (inv_q _ _ _ _ Hinv).
    apply (push_full r k t q Hinv). lia.
  - intros cap r (k & t & Hinv & Hcap). by apply (pop_empty r k t []).
  - done.
  - intros cap r it q (k & t & Hinv & Hcap).
    destruct (pop_ok r k t _ Hinv it q eq_refl) as (i & r' & -> & Hinv' & s & Hc).
    exists i, r'. split; [done|]. split; [by exists k, (t + 1)|].
    exists s. unfold deref_cell. cbn [get mbind outcome_bind]. by rewrite Hc.
  - intros cap r it q i r' (k & t & Hinv & Hcap) E. pose proof (pop_kept r k t q it i r' Hinv E) as H.
    by rewrite <-Hcap, Nat2Z.id in H.
  - intros cap r q p n z r' i d it (k & t & Hinv & _). by apply (push_kept r k t q).
  - intros r i d it ((s & Hc) & _). exists s. unfold deref_cell. cbn [get mbind outcome_bind]. by rewrite Hc.
Defined.

(** ** Properties *)

(** C2: a ring created with a power-of-two size from 2 to 2^58 (from 2^59 on
    [create_ringbuf] writes past its block) behaves, through any sequence of [push_ringbuf] and [pop_ringbuf] calls, exactly as a FIFO
    queue bounded by its size: the same return values, the same packets and
    lengths in the same order, -1 exactly when full, NULL exactly when empty,
    and no call ever fails to return.  There is no bound on the number of
    calls: the 64-bit positions and sequence numbers may wrap. *)
Theorem ring_refines_fifo (junk : nat → Z) (k : Z) (os : list rb_op) :
  1 ≤ k ≤ 58 →
  ∃ rb rb', create_ringbuf true true junk (2 ^ k) = Ret (Some rb)
  ∧ ring_run rb os = Ret (rb', (fifo_run (Z.to_nat (2 ^ k)) [] os).2).
Proof.
  intros Hk. destruct (create_inv junk k Hk) as (rb & Hrb & Hinv).
  pose proof (pow2_bounds k ltac:(lia)).
  destruct (ring_run_refines (Z.to_nat (2 ^ k)) os rb []) as (rb' & Hrun & _).
  { exists k, 0. split; [done|]. lia. }
  by exists rb, rb'.
Qed.

(** The product of [malloc]'s argument wraps from 2^59 cells on: the block is
    too small and the initialisation writes past its end. *)
Lemma create_ringbuf_wraps (junk : nat → Z) (k : Z) :
  59 ≤ k ≤ 63 → create_ringbuf true true junk (2 ^ k) = Fault.
Proof.
  intros Hk. unfold create_ringbuf. by rewrite cells_fit_spec, (proj2 (Z.leb_gt _ _)) by lia.
Qed.

(** C27: the pointer that [pop_ringbuf] gives is good for as long as the ring
    has not filled up again.  However many packets are pushed after the pop,
    up to the size of the ring, reading the two fields through the pointer
    finds the popped packet while a cell is free, and the packet pushed last
    once there is none: a caller that reads late loses its packet and gets
    another one, which is still queued, a second time. *)
Theorem popped_cell_reused cap (rb : ringbuf) it q its i rb' :
  rb_rep cap rb (it :: q) → pop_ringbuf rb = Ret (Some i, rb') → (length q + length its ≤ cap)%nat →
  let found := if decide (length q + length its = cap)%nat then List.last its it else it in
  ∃ rb2 s, push_all rb' its = Ret rb2 ∧ rb_rep cap rb2 (q ++ its)
  ∧ deref_cell rb2 (Some i) = Ret (Cell s found.2 found.1).
Proof.
  intros (k & t & Hinv & Hcap) E Hlen found. pose proof (inv_q _ _ _ _ Hinv) as Hq. cbn in Hq.
  pose proof (pop_kept _ _ _ _ _ _ _ Hinv E) as Hk.
  destruct (pop_ok _ _ _ _ Hinv it q eq_refl) as (i' & rb0 & E' & Hinv' & _). rewrite E in E'. injection E' as <- <-.
  destruct (decide (length q + length its = cap)%nat) as [Hfull|Hfree]; subst found.
  - destruct its as [|[p n] its _] using rev_ind; [cbn in Hfull; lia|]. rewrite length_app in Hfull. cbn in Hfull.
    destruct (push_all_ok its _ _ _ _ Hinv') as (rb1 & E1 & Hinv1 & _); [lia|].
    destruct (push_last _ _ _ _ _ _ _ Hinv E rb1 its p n Hinv1) as (rb2 & s & E2 & Hinv2 & Hc); [lia|].
    exists rb2, s. rewrite push_all_app, E1. cbn [mbind outcome_bind push_all]. rewrite E2. split; [done|].
    split; [exists k, (t + 1); by rewrite app_assoc|]. rewrite last_last. unfold deref_cell. cbn. by rewrite Hc.
  - destruct (push_all_ok its _ _ _ _ Hinv') as (rb1 & E1 & Hinv1 & Hk1); [lia|].
    destruct (Hk1 i 0%nat it) as [(s & Hc) _].
    { destruct Hk as [Hc Hne]. split; [exact Hc|]. intros j Hj. apply Hne. lia. }
    exists rb1, s. split; [done|]. split; [by exists k, (t + 1)|]. unfold deref_cell. cbn. by rewrite Hc.
Qed.

(** A full ring of two cells: the push after the pop writes the popped cell. *)
Definition two_packets : ringbuf := RB 2 1 2 0 [Cell 1 7 100; Cell 2 8 200].

Lemma two_packets_rep : rb_rep 2 two_packets [(100, 7); (200, 8)].
Proof.
  exists 1, 0. split; [|done]. split; try done; try (cbn; lia).
  intros [|[|i]] it Hit; cbn in Hit; try done; injection Hit as <-; reflexivity.
Qed.

Lemma popped_cell_reused_witness :
  ∃ rb' rb2 s, pop_ringbuf two_packets = Ret (Some 0%nat, rb') ∧ push_all rb' [(300, 9)] = Ret rb2
  ∧ rb_rep 2 rb2 [(200, 8); (300, 9)] ∧ deref_cell rb2 (Some 0%nat) = Ret (Cell s 9 300).
Proof.
  eexists. destruct (popped_cell_reused 2 two_packets (100, 7) [(200, 8)] [(300, 9)] 0 _ two_packets_rep eq_refl
    ltac:(cbn; lia)) as (rb2 & s & H1 & H2 & H3). exists rb2, s. split; [reflexivity|]. split; [exact H1|].
  split; [exact H2|exact H3].
Defined.

Lemma ring_refines_fifo_witness :
  ∃ rb rb', create_ringbuf true true (λ _, 0) (2 ^ 1) = Ret (Some rb)
  ∧ ring_run rb [OpPop; OpPush 10 1; OpPush 20 2; OpPush 30 3; OpPop; OpPush 40 4; OpPop; OpPop]
    = Ret (rb', [RPop None; RPush 0; RPush 0; RPush (-1); RPop (Some (10, 1)); RPush 0;
                 RPop (Some (20, 2)); RPop (Some (40, 4))]).
Proof. apply (ring_refines_fifo (λ _, 0) 1). lia. Defined.

(** The step the refinement above rests on, at any point of the life of a
    ring, in particular just before [head] wraps from 2^64 - 1 to 0. *)
Lemma ring_step_refines_fifo (rb : ringbuf) (k t : Z) (q : list item) (o : rb_op) :
  rb_inv rb k t q →
  ∃ rb' t', ring_step rb o = Ret (rb', (fifo_step (Z.to_nat (2 ^ k)) q o).2)
  ∧ rb_inv rb' k t' (fifo_step (Z.to_nat (2 ^ k)) q o).1.
Proof.
  intros Hinv. pose proof (pow2_bounds k (inv_k _ _ _ _ Hinv)).
  destruct o as [p n|]; cbn [ring_step fifo_step].
  - destruct (decide (length q < Z.to_nat (2 ^ k))%nat) as [Hlt|Hge].
    + destruct (push_ok rb k t q Hinv p n) as (rb' & -> & Hinv'); [lia|]. by exists rb', t.
    + rewrite (push_full rb k t q Hinv p n); [|pose proof (inv_q _ _ _ _ Hinv); lia].
      by exists rb, t.
  - destruct q as [|it q].
    + rewrite (pop_empty rb k t [] Hinv eq_refl). by exists rb, t.
    + destruct (pop_ok rb k t _ Hinv it q eq_refl) as (i & rb' & -> & Hinv' & s & Hc).
      cbn [mbind outcome_bind deref_cell get]. rewrite Hc. cbn [get mbind outcome_bind].
      exists rb', (t + 1). by destruct it.
Qed.

(** A ring of two cells after 2^64 - 1 pushes and pops. *)
Definition wrapping_ring : ringbuf :=
  RB 2 1 0xFFFFFFFFFFFFFFFF 0xFFFFFFFFFFFFFFFF [Cell 0 7 8; Cell 0xFFFFFFFFFFFFFFFF 5 6].

Lemma wrapping_ring_inv : rb_inv wrapping_ring 1 0xFFFFFFFFFFFFFFFF [].
Proof.
  split; try done; try (cbn; lia).
  intros i Hi. cbn in Hi. assert (i = 0 ∨ i = 1) as [->| ->] by lia; eexists; split; reflexivity.
Qed.

Lemma ring_step_refines_fifo_witness :
  ∃ rb' t', ring_step wrapping_ring (OpPush 30 3) = Ret (rb', RPush 0) ∧ rb_inv rb' 1 t' [(30, 3)].
Proof. exact (ring_step_refines_fifo wrapping_ring 1 _ [] (OpPush 30 3) wrapping_ring_inv). Defined.

(** A ring created with size 1 loses packets and then blocks: two pushes
    in a row succeed, the second overwrites the first, and [pop_ringbuf] then
    spins forever. *)
Lemma ring_size_one_broken (junk : nat → Z) (p1 n1 p2 n2 : Z) (fuel : nat) :
  ∃ rb0 rb1 rb2, create_ringbuf true true junk 1 = Ret (Some rb0)
  ∧ push_ringbuf rb0 p1 n1 = Ret (0, rb1)
  ∧ push_ringbuf rb1 p2 n2 = Ret (0, rb2)
  ∧ rb_cells rb2 = [Cell 2 n2 p2]
  ∧ pop_loop fuel rb2 (rb_tail rb2) = Timeout.
Proof.
  do 3 eexists. split; [reflexivity|]. split; [reflexivity|]. split; [reflexivity|].
  split; [reflexivity|]. induction fuel as [|fuel IH]; [done|]. apply IH.
Qed.
