(* ===== verification/RingConc.v ===== *)
(** * The ring buffer under concurrency (push_ringbuf.c, pop_ringbuf.c)

    [push_ringbuf] and [pop_ringbuf] as the atomic steps of any number of
    threads on one ring: each load, compare-and-swap and store of the two
    functions is a step of its own, and so are the two reads a caller of
    [pop_ringbuf] makes through the pointer it got.  Threads interleave at
    these steps and all see one memory; reorderings that the weaker memory
    orders would add are not modelled.

    The theorems say what the interleavings may and may not do: no two
    threads, pushing or popping, are ever about to store into the same cell,
    the popped positions are distinct and a popped cell is the cell pushed at
    that position as long as no push has claimed the cell again; and a popped cell is free for that push before
    the caller has read it, so its contents may be another packet's. *)
From S2P Require Import Prelude Mem RingBuf.

(** ** Code

    The program counter of a thread: where it is in [push_ringbuf (rb, p, n)]
    or in [pop_ringbuf (rb)] and the reads after it. *)
Inductive pc :=
| Idle
| PushLoad (p n : Z)          (* pos = atomic_load (&rb->head)           *)
| PushSeq (p n pos : Z)       (* seq = atomic_load (&cell->seq), tests   *)
| PushCas (p n pos : Z)       (* atomic_compare_exchange_weak (head)     *)
| PushPacket (p n pos : Z)    (* cell->packet = packet                   *)
| PushPlen (p n pos : Z)      (* cell->plen = plen                       *)
| PushRelease (p n pos : Z)   (* atomic_store (&cell->seq, pos + 1)      *)
| PushDone (ret : Z)
| PopLoad                     (* pos = atomic_load (&rb->tail)           *)
| PopSeq (pos : Z)
| PopCas (pos : Z)
| PopRelease (pos : Z)        (* atomic_store (&cell->seq, pos+mask+1)   *)
| PopPacket (pos : Z)         (* the caller reads cell->packet           *)
| PopPlen (pos packet : Z)    (* ... and cell->plen                      *)
| PopDone (res : option (Z * item)).

(** What a scheduled thread does: begin a call, make its next step, or make
    it with a spurious failure of [atomic_compare_exchange_weak]. *)
Inductive act := CallPush (p n : Z) | CallPop | Go | Spurious.

(** Stores into the cell of position [pos]; [None]: out of the array. *)
Definition upd_cell (f : ringbuf_cell → ringbuf_cell) (pos : Z) (rb : ringbuf)
  : option ringbuf :=
  c ← rb_cells rb !! cell_index rb pos;
  Some (RB (rb_size rb) (rb_mask rb) (rb_head rb) (rb_tail rb)
           (<[cell_index rb pos := f c]> (rb_cells rb))).

Definition set_packet (p : Z) (c : ringbuf_cell) := Cell (cell_seq c) (cell_plen c) p.
Definition set_plen (n : Z) (c : ringbuf_cell) := Cell (cell_seq c) n (cell_packet c).
Definition set_seq (s : Z) (c : ringbuf_cell) := Cell s (cell_plen c) (cell_packet c).

(** One step of a thread inside [push_ringbuf].  After a failed
    compare-and-swap the test [diff < 0] fails and [pos] is loaded again. *)
Definition push_step (ok : bool) (rb : ringbuf) (t : pc) : option (ringbuf * pc) :=
  match t with
  | PushLoad p n => Some (rb, PushSeq p n (rb_head rb))
  | PushSeq p n pos =>
      c ← rb_cells rb !! cell_index rb pos;
      let diff := i64 (cell_seq c - pos) in
      Some (rb, if diff =? 0 then PushCas p n pos
                else if diff <? 0 then PushDone (-1) else PushLoad p n)
  | PushCas p n pos =>
      Some (if ok && (rb_head rb =? pos)
            then (RB (rb_size rb) (rb_mask rb) (u64 (pos + 1)) (rb_tail rb) (rb_cells rb),
                  PushPacket p n pos)
            else (rb, PushLoad p n))
  | PushPacket p n pos => rb ← upd_cell (set_packet p) pos rb; Some (rb, PushPlen p n pos)
  | PushPlen p n pos => rb ← upd_cell (set_plen n) pos rb; Some (rb, PushRelease p n pos)
  | PushRelease p n pos =>
      rb ← upd_cell (set_seq (u64 (pos + 1))) pos rb; Some (rb, PushDone 0)
  | _ => None
  end.

(** One step of a thread inside [pop_ringbuf] or of the reads that follow. *)
Definition pop_step (ok : bool) (rb : ringbuf) (t : pc) : option (ringbuf * pc) :=
  match t with
  | PopLoad => Some (rb, PopSeq (rb_tail rb))
  | PopSeq pos =>
      c ← rb_cells rb !! cell_index rb pos;
      let diff := i64 (cell_seq c - (pos + 1)) in
      Some (rb, if diff =? 0 then PopCas pos
                else if diff <? 0 then PopDone None else PopLoad)
  | PopCas pos =>
      Some (if ok && (rb_tail rb =? pos)
            then (RB (rb_size rb) (rb_mask rb) (rb_head rb) (u64 (pos + 1)) (rb_cells rb),
                  PopRelease pos)
            else (rb, PopLoad))
  | PopRelease pos =>
      rb' ← upd_cell (set_seq (u64 (pos + rb_mask rb + 1))) pos rb; Some (rb', PopPacket pos)
  | PopPacket pos =>
      c ← rb_cells rb !! cell_index rb pos; Some (rb, PopPlen pos (cell_packet c))
  | PopPlen pos packet =>
      c ← rb_cells rb !! cell_index rb pos;
      Some (rb, PopDone (Some (pos, (packet, cell_plen c))))
  | _ => None
  end.

(** A thread that is in neither call may begin one. *)
Definition at_rest (t : pc) : bool :=
  match t with Idle | PushDone _ | PopDone _ => true | _ => false end.

Definition thread_step (a : act) (rb : ringbuf) (t : pc) : option (ringbuf * pc) :=
  match a with
  | CallPush p n => if at_rest t then Some (rb, PushLoad p n) else None
  | CallPop => if at_rest t then Some (rb, PopLoad) else None
  | Go => match push_step true rb t with Some r => Some r | None => pop_step true rb t end
  | Spurious =>
      match t with
      | PushCas _ _ _ => push_step false rb t
      | PopCas _ => pop_step false rb t
      | _ => None
      end
  end.

(** The system: the ring, a log of the pushes in the order in which they
    claimed their position (a history that no step reads), the threads. *)
Record sys := Sys { s_ring : ringbuf; s_log : list item; s_threads : list pc }.

(** A push claims its position by the successful compare-and-swap. *)
Definition claimed (t t' : pc) : list item :=
  match t, t' with PushCas p n _, PushPacket _ _ _ => [(p, n)] | _, _ => [] end.

Definition sys_step (i : nat) (a : act) (s : sys) : option sys :=
  t ← s_threads s !! i;
  '(rb, t') ← thread_step a (s_ring s) t;
  Some (Sys rb (s_log s ++ claimed t t') (<[i := t']> (s_threads s))).

Fixpoint run (sched : list (nat * act)) (s : sys) : option sys :=
  match sched with
  | [] => Some s
  | (i, a) :: sched => s ← sys_step i a s; run sched s
  end.

(** [m] threads on a ring that [create_ringbuf] made. *)
Definition start (rb : ringbuf) (m : nat) : sys := Sys rb [] (replicate m Idle).

Definition reaches (n : nat) (s s' : sys) : Prop :=
  nsteps (λ s1 s2, ∃ i a, sys_step i a s1 = Some s2) n s s'.

(** ** The invariant *)

(** The position whose cell a pusher is writing; the position a pop claimed. *)
Definition push_pos (t : pc) : option Z :=
  match t with
  | PushPacket _ _ pos | PushPlen _ _ pos | PushRelease _ _ pos => Some pos
  | _ => None
  end.

Definition pop_pos (t : pc) : option Z :=
  match t with
  | PopRelease pos | PopPacket pos | PopPlen pos _ | PopDone (Some (pos, _)) => Some pos
  | _ => None
  end.

(** The position whose cell the next steps of a thread store into. *)
Definition store_pos (t : pc) : option Z :=
  match t with
  | PushPacket _ _ pos | PushPlen _ _ pos | PushRelease _ _ pos | PopRelease pos => Some pos
  | _ => None
  end.

Definition log_at (l : list item) (pos : Z) : option item := l !! Z.to_nat pos.
Definition contents (c : ringbuf_cell) : item := (cell_packet c, cell_plen c).

Section invariant.
  Context (k : Z).
Definition cap : Z := 2 ^ k.
Definition at_pos (rb : ringbuf) (pos : Z) : option ringbuf_cell := rb_cells rb !! slot cap pos.

(** The cell of a position in the window [tail .. tail+cap-1]: claimed by a
    push (being written, or released with what was pushed) or free (released
    by the pop of the lap before, or about to be). *)
Definition cell_inv (l : list item) (pos : Z) (c : ringbuf_cell) : Prop :=
  if decide (pos < Z.of_nat (length l))
  then cell_seq c = pos ∨ (cell_seq c = pos + 1 ∧ log_at l pos = Some (contents c))
  else cell_seq c = pos ∨ cell_seq c = pos - cap + 1.

Record mem_inv (rb : ringbuf) (l : list item) : Prop := {
  mi_mask : rb_mask rb = cap - 1;
  mi_len : Z.of_nat (length (rb_cells rb)) = cap;
  mi_head : rb_head rb = Z.of_nat (length l);
  mi_tail : 0 ≤ rb_tail rb ≤ rb_head rb;
  mi_room : rb_head rb ≤ rb_tail rb + cap;
  mi_cells pos : rb_tail rb ≤ pos < rb_tail rb + cap →
    ∃ c, at_pos rb pos = Some c ∧ cell_inv l pos c
}.

(** What a pusher at [pos] knows of its cell. *)
Definition pushing (rb : ringbuf) (l : list item) (p n pos : Z) (P : ringbuf_cell → Prop) : Prop :=
  rb_tail rb ≤ pos < rb_head rb ∧ log_at l pos = Some (p, n)
  ∧ ∃ c, at_pos rb pos = Some c ∧ cell_seq c = pos ∧ P c.

(** What a thread that popped [pos] knows while no push has the cell again. *)
Definition popped (rb : ringbuf) (l : list item) (pos : Z) (P : ringbuf_cell → Prop) : Prop :=
  0 ≤ pos < rb_tail rb ∧
  (rb_head rb ≤ pos + cap →
   ∃ c, at_pos rb (pos + cap) = Some c ∧ log_at l pos = Some (contents c) ∧ P c).

Definition pc_inv (rb : ringbuf) (l : list item) (t : pc) : Prop :=
  match t with
  | PushSeq _ _ pos => 0 ≤ pos ≤ rb_head rb
  | PushCas _ _ pos =>
      0 ≤ pos ≤ rb_head rb
      ∧ (pos = rb_head rb → pos < rb_tail rb + cap
                            ∧ ∃ c, at_pos rb pos = Some c ∧ cell_seq c = pos)
  | PushPacket p n pos => pushing rb l p n pos (λ _, True)
  | PushPlen p n pos => pushing rb l p n pos (λ c, cell_packet c = p)
  | PushRelease p n pos => pushing rb l p n pos (λ c, contents c = (p, n))
  | PopSeq pos => 0 ≤ pos ≤ rb_tail rb
  | PopCas pos =>
      0 ≤ pos ≤ rb_tail rb
      ∧ (pos = rb_tail rb → pos < rb_head rb
                            ∧ ∃ c, at_pos rb pos = Some c ∧ cell_seq c = pos + 1)
  | PopRelease pos =>
      rb_head rb ≤ pos + cap ∧ popped rb l pos (λ c, cell_seq c = pos + 1)
  | PopPacket pos => popped rb l pos (λ _, True)
  | PopPlen pos packet => popped rb l pos (λ c, cell_packet c = packet)
  | PopDone (Some (pos, it)) =>
      0 ≤ pos < rb_tail rb ∧ (rb_head rb ≤ pos + cap → log_at l pos = Some it)
  | _ => True
  end.

(** No two threads have the same value of [f]. *)
Definition exclusive (f : pc → option Z) (ts : list pc) : Prop :=
  ∀ i j ti tj pos, ts !! i = Some ti → ts !! j = Some tj →
    f ti = Some pos → f tj = Some pos → i = j.

Record sys_inv (s : sys) : Prop := {
  si_mem : mem_inv (s_ring s) (s_log s);
  si_pcs i t : s_threads s !! i = Some t → pc_inv (s_ring s) (s_log s) t;
  si_push : exclusive push_pos (s_threads s);
  si_pop : exclusive pop_pos (s_threads s)
}.

(** ** Lemmas *)
Context (Hk : 1 ≤ k ≤ 61).

Lemma cap_bounds : 2 ≤ cap ≤ 2 ^ 61.
  Proof.
    unfold cap. pose proof (Z.pow_le_mono_r 2 1 k). pose proof (Z.pow_le_mono_r 2 k 61). lia.
  Qed.

Lemma log_at_app l m pos it : log_at l pos = Some it → log_at (l ++ m) pos = Some it.
  Proof. apply lookup_app_l_Some. Qed.

Lemma log_at_end l it : log_at (l ++ [it]) (Z.of_nat (length l)) = Some it.
  Proof. unfold log_at. by rewrite Nat2Z.id, list_lookup_middle. Qed.

(** The ring with the cell of position [w] replaced. *)
Definition put (rb : ringbuf) (w : Z) (c : ringbuf_cell) : ringbuf :=
  RB (rb_size rb) (rb_mask rb) (rb_head rb) (rb_tail rb) (<[slot cap w := c]> (rb_cells rb)).

Lemma index_slot rb pos : rb_mask rb = cap - 1 → cell_index rb pos = slot cap pos.
  Proof.
    intros E. unfold cell_index, slot. rewrite E. unfold cap.
    by rewrite Z.sub_1_r, <-Z.ones_equiv, Z.land_ones by lia.
  Qed.

Lemma upd_put rb l f pos c :
    mem_inv rb l → at_pos rb pos = Some c → upd_cell f pos rb = Some (put rb pos (f c)).
  Proof.
    intros Hm Hc. unfold upd_cell. rewrite (index_slot _ _ (mi_mask _ _ Hm)).
    unfold at_pos in Hc. by rewrite Hc.
  Qed.

Lemma at_wrap rb pos : at_pos rb (pos + cap) = at_pos rb pos.
  Proof. unfold at_pos. rewrite slot_wrap; [done|]. pose proof cap_bounds. lia. Qed.

Lemma window_inj t p w :
    t ≤ p < t + cap → t ≤ w < t + cap → slot cap p = slot cap w → p = w.
  Proof.
    intros Hp Hw E. pose proof cap_bounds.
    replace p with (t + (p - t)) in E by lia. replace w with (t + (w - t)) in E by lia.
    apply slot_inj in E; lia.
  Qed.

Lemma at_put_ne rb w c p :
    rb_tail rb ≤ p < rb_tail rb + cap → rb_tail rb ≤ w < rb_tail rb + cap → p ≠ w →
    at_pos (put rb w c) p = at_pos rb p.
  Proof.
    intros Hp Hw Hne. unfold at_pos, put. cbn [rb_cells].
    apply list_lookup_insert_ne. by intros E%(window_inj (rb_tail rb)).
  Qed.

Lemma at_put_eq rb l w c : mem_inv rb l → at_pos (put rb w c) w = Some c.
  Proof.
    intros Hm. unfold at_pos, put. cbn [rb_cells]. apply list_lookup_insert_eq.
    pose proof (slot_bound cap w). pose proof (mi_len _ _ Hm). pose proof cap_bounds. lia.
  Qed.

(** *** The memory changes a step can make *)
Definition claim_head (rb : ringbuf) : ringbuf :=
  RB (rb_size rb) (rb_mask rb) (rb_head rb + 1) (rb_tail rb) (rb_cells rb).
Definition claim_tail (rb : ringbuf) : ringbuf :=
  RB (rb_size rb) (rb_mask rb) (rb_head rb) (rb_tail rb + 1) (rb_cells rb).

Lemma put_mem rb l w c :
    mem_inv rb l → rb_tail rb ≤ w < rb_tail rb + cap → cell_inv l w c →
    mem_inv (put rb w c) l.
  Proof.
    intros Hm Hw Hc. split; try apply Hm.
    - cbn. rewrite length_insert. apply Hm.
    - cbn [put rb_tail]. intros pos Hp. destruct (decide (pos = w)) as [->|Hne].
      + exists c. by rewrite (at_put_eq _ l).
      + rewrite at_put_ne by done. by apply Hm.
  Qed.

Lemma claim_head_mem rb l it :
    mem_inv rb l → rb_head rb < rb_tail rb + cap →
    (∃ c, at_pos rb (rb_head rb) = Some c ∧ cell_seq c = rb_head rb) →
    mem_inv (claim_head rb) (l ++ [it]).
  Proof.
    intros Hm Hroom (c & Hc & Hs). pose proof (mi_head _ _ Hm) as Hh.
    split; cbn [claim_head rb_mask rb_cells rb_head rb_tail]; try apply Hm.
    - rewrite length_app. cbn. lia.
    - pose proof (mi_tail _ _ Hm). lia.
    - lia.
    - intros pos Hp. destruct (mi_cells _ _ Hm pos Hp) as (c' & Hc' & Hi). exists c'. split; [done|].
      unfold cell_inv in *. rewrite length_app. cbn [length].
      destruct (decide (pos < Z.of_nat (length l))) as [Hlt|Hge].
      + rewrite decide_True by lia. destruct Hi as [?|[? ?]]; [by left|right].
        split; [done|]. by apply log_at_app.
      + case_decide; [|done]. left. assert (pos = rb_head rb) as -> by lia.
        unfold claim_head, at_pos in *. cbn [rb_cells] in *. congruence.
  Qed.

Lemma claim_tail_mem rb l :
    mem_inv rb l → rb_tail rb < rb_head rb →
    (∃ c, at_pos rb (rb_tail rb) = Some c ∧ cell_seq c = rb_tail rb + 1) →
    mem_inv (claim_tail rb) l.
  Proof.
    intros Hm Hlt (c & Hc & Hs). pose proof (mi_room _ _ Hm). pose proof (mi_tail _ _ Hm).
    split; cbn [claim_tail rb_mask rb_cells rb_head rb_tail]; try apply Hm; try lia.
    intros pos Hp. destruct (decide (pos = rb_tail rb + cap)) as [->|Hne].
    - exists c. change (at_pos (claim_tail rb)) with (at_pos rb). rewrite at_wrap. split; [done|].
      unfold cell_inv. rewrite decide_False by (rewrite <-(mi_head _ _ Hm); lia). right. lia.
    - destruct (mi_cells _ _ Hm pos) as (c' & ? & ?); [lia|]. by exists c'.
  Qed.

(** *** What the other threads know survives the change *)
Lemma claim_head_pc rb l it t :
    mem_inv rb l → (∃ c, at_pos rb (rb_head rb) = Some c ∧ cell_seq c = rb_head rb) →
    pc_inv rb l t → pc_inv (claim_head rb) (l ++ [it]) t.
  Proof.
    intros Hm (c & Hc & Hs) Ht. pose proof cap_bounds as Hcap.
    assert (∀ pos P, popped rb l pos P → popped (claim_head rb) (l ++ [it]) pos P) as Hpop.
    { intros pos P [? Hp]. split; [done|]. cbn [claim_head rb_head]. intros ?.
      destruct Hp as (c' & ? & ? & ?); [lia|]. exists c'. eauto using log_at_app. }
    assert (∀ p n pos P, pushing rb l p n pos P → pushing (claim_head rb) (l ++ [it]) p n pos P) as Hpush.
    { intros p n pos P (? & ? & ?). split; [cbn; lia|]. eauto using log_at_app. }
    destruct t as [| | | | | | | | | | |pos| | |[[pos it']|]]; cbn [pc_inv] in *; auto.
    - cbn. lia.
    - cbn [claim_head rb_head rb_tail]. split; [lia|]. lia.
    - destruct Ht as [? Ht]. split; [done|]. intros E. destruct (Ht E) as [? ?].
      split; [cbn; lia|done].
    - destruct Ht as [Hle [Hr Ht]]. split; [|by apply Hpop; split].
      cbn [claim_head rb_head]. destruct (Ht Hle) as (c' & Hc' & _ & Hs').
      destruct (decide (rb_head rb = pos + cap)) as [E|]; [|lia].
      rewrite <-E, Hc in Hc'. simplify_eq. lia.
    - destruct Ht as [? Ht]. split; [done|]. cbn [claim_head rb_head]. intros ?.
      apply log_at_app, Ht. lia.
  Qed.

Lemma claim_tail_pc rb l t :
    (∃ c, at_pos rb (rb_tail rb) = Some c ∧ cell_seq c = rb_tail rb + 1) →
    pc_inv rb l t → pc_inv (claim_tail rb) l t.
  Proof.
    intros (c & Hc & Hs) Ht.
    assert (∀ pos P, popped rb l pos P → popped (claim_tail rb) l pos P) as Hpop.
    { intros pos P [? Hp]. split; [cbn; lia|]. exact Hp. }
    assert (∀ p n pos P, pushing rb l p n pos P → pushing (claim_tail rb) l p n pos P) as Hpush.
    { intros p n pos P (? & ? & c' & Hc' & Hs' & ?). split; [|split; [done|eauto]].
      cbn [claim_tail rb_head rb_tail]. destruct (decide (pos = rb_tail rb)) as [->|]; [|lia].
      rewrite Hc in Hc'. simplify_eq. lia. }
    destruct t as [| | | | | | | | | | | | | |[[pos it']|]]; cbn [pc_inv] in *; auto.
    - destruct Ht as [? Ht]. split; [done|]. intros E. destruct (Ht E) as [? ?].
      split; [cbn; lia|done].
    - cbn. lia.
    - cbn [claim_tail rb_head rb_tail]. split; [lia|]. lia.
    - destruct Ht as [? Ht]. split; [done|]. by apply Hpop.
    - destruct Ht as [? Ht]. split; [cbn; lia|done].
  Qed.

(** A store into the cell of [w]: the pusher of [w] or, if [w] is unclaimed,
    the pop of the lap before makes it; no other thread looks at the cell. *)
Lemma put_pc rb l w c c' t :
    mem_inv rb l → rb_tail rb ≤ w < rb_tail rb + cap →
    at_pos rb w = Some c →
    (if decide (w < rb_head rb) then cell_seq c = w else cell_seq c = w - cap + 1) →
    push_pos t ≠ Some w → (rb_head rb ≤ w → pop_pos t ≠ Some (w - cap)) →
    pc_inv rb l t → pc_inv (put rb w c') l t.
  Proof.
    intros Hm Hw Hc Hs Hpu Hpo Ht. pose proof cap_bounds as Hcap. pose proof (mi_room _ _ Hm) as Hroom.
    pose proof (mi_tail _ _ Hm) as Htail.
    assert (∀ pos P, (rb_head rb ≤ w → Some pos ≠ Some (w - cap)) → popped rb l pos P → popped (put rb w c') l pos P) as Hpop.
    { intros pos P Hne [Hr Hp]. split; [done|]. intros Hle. rewrite at_put_ne; [by auto|cbn in Hle; lia..|].
      cbn [put rb_head] in Hle. intros <-. apply Hne; [lia|]. f_equal. lia. }
    assert (∀ p n pos P, pos ≠ w → pushing rb l p n pos P → pushing (put rb w c') l p n pos P) as Hpush.
    { intros p n pos P Hne (? & ? & Hp). split; [done|]. split; [done|]. rewrite at_put_ne; [done|lia..]. }
    destruct t as [| | | | | | | | | | | | | |[[pos it']|]]; cbn [pc_inv push_pos pop_pos] in *;
      auto with congruence.
    - destruct Ht as [? Ht]. split; [done|]. cbn [put rb_head rb_tail]. intros E.
      destruct (Ht E) as (Hlt & c0 & Hc0 & Hs0). split; [done|].
      destruct (decide (pos = w)) as [->|Hne].
      { rewrite Hc in Hc0. simplify_eq. rewrite decide_False in Hs by lia. lia. }
      rewrite at_put_ne by lia. eauto.
    - destruct Ht as [? Ht]. split; [done|]. cbn [put rb_head rb_tail]. intros E.
      destruct (Ht E) as (Hlt & c0 & Hc0 & Hs0). split; [done|].
      destruct (decide (pos = w)) as [->|Hne].
      { rewrite Hc in Hc0. simplify_eq. rewrite decide_True in Hs by lia. lia. }
      rewrite at_put_ne by lia. eauto.
    - destruct Ht as [? Ht]. split; [done|]. by apply Hpop.
  Qed.

(** *** One step *)
Lemma exclusive_insert f i t t' ts :
    exclusive f ts → ts !! i = Some t →
    (∀ pos, f t' = Some pos → f t = Some pos ∨ ∀ j tj, ts !! j = Some tj → f tj ≠ Some pos) →
    exclusive f (<[i := t']> ts).
  Proof.
    intros He Hi Hf. pose proof (lookup_lt_Some _ _ _ Hi) as Hlt.
    assert (∀ j tj pos, j ≠ i → ts !! j = Some tj → f tj = Some pos → f t' ≠ Some pos) as Hne.
    { intros j tj pos Hji Hj Hp Ht'. destruct (Hf _ Ht') as [Ht|Ht]; [|by eapply Ht].
      apply Hji. by eapply He. }
    intros a b ta tb pos. rewrite !lookup_insert_cases by done.
    repeat case_decide; subst; intros; simplify_eq; [done|..|by eapply He];
      exfalso; eapply Hne; eauto.
  Qed.

Lemma sys_inv_step rb l ts i t rb' m t' :
    sys_inv (Sys rb l ts) → ts !! i = Some t →
    mem_inv rb' (l ++ m) → pc_inv rb' (l ++ m) t' →
    (∀ j tj, j ≠ i → ts !! j = Some tj → pc_inv rb l tj → pc_inv rb' (l ++ m) tj) →
    (∀ pos, push_pos t' = Some pos → push_pos t = Some pos ∨ pos = rb_head rb) →
    (∀ pos, pop_pos t' = Some pos → pop_pos t = Some pos ∨ pos = rb_tail rb) →
    sys_inv (Sys rb' (l ++ m) (<[i := t']> ts)).
  Proof.
    intros [Hm Hpc Hpu Hpo] Hi Hm' Ht' Hother Hpush Hpop. cbn [s_ring s_log s_threads] in *.
    pose proof (lookup_lt_Some _ _ _ Hi) as Hlt. split; cbn [s_ring s_log s_threads]; [done|..].
    - intros j tj. rewrite lookup_insert_cases by done. case_decide; intros; simplify_eq; [done|].
      eapply Hother; eauto.
    - eapply exclusive_insert; [done..|]. intros pos Hp. destruct (Hpush _ Hp) as [?| ->]; [by left|right].
      intros j tj Hj E. apply Hpc in Hj. destruct tj; cbn in E, Hj; simplify_eq; destruct Hj; lia.
    - eapply exclusive_insert; [done..|]. intros pos Hp. destruct (Hpop _ Hp) as [?| ->]; [by left|right].
      intros j tj Hj E. apply Hpc in Hj. destruct tj as [| | | | | | | | | | | | | |[[]|]]; cbn in E, Hj; simplify_eq;
        unfold popped in *; lia.
  Qed.

(** A step that leaves the memory alone. *)
Lemma quiet_step rb l ts i t t' :
    sys_inv (Sys rb l ts) → ts !! i = Some t → pc_inv rb l t' →
    push_pos t' = None → (∀ pos, pop_pos t' = Some pos → pop_pos t = Some pos) →
    sys_inv (Sys rb (l ++ []) (<[i := t']> ts)).
  Proof.
    intros Hs Hi Ht' E1 E2. pose proof (si_mem _ Hs) as Hm. cbn [s_ring s_log] in Hm.
    eapply sys_inv_step; rewrite ?app_nil_r; eauto. rewrite E1. done.
  Qed.

(** A store of the owner of [w]: a pusher of [w], or the pop of the lap before. *)
Lemma store_step rb l ts i t t' w c c' :
    sys_inv (Sys rb l ts) → ts !! i = Some t →
    rb_tail rb ≤ w < rb_tail rb + cap → at_pos rb w = Some c → cell_inv l w c' →
    (if decide (w < rb_head rb) then cell_seq c = w ∧ push_pos t = Some w
     else cell_seq c = w - cap + 1 ∧ pop_pos t = Some (w - cap)) →
    pc_inv (put rb w c') l t' →
    (push_pos t' = push_pos t ∨ push_pos t' = None) → pop_pos t' = pop_pos t →
    sys_inv (Sys (put rb w c') (l ++ []) (<[i := t']> ts)).
  Proof.
    intros Hs Hi Hw Hc Hc' Hown Ht' E1 E2. pose proof (si_mem _ Hs) as Hm. cbn [s_ring s_log] in Hm.
    pose proof (si_pcs _ Hs) as Hpcs. cbn [s_ring s_log s_threads] in Hpcs.
    eapply sys_inv_step; rewrite ?app_nil_r; eauto.
    - by apply put_mem.
    - intros j tj Hji Hj Htj. eapply put_pc; eauto.
      + by case_decide; destruct Hown.
      + intros E. case_decide; destruct Hown as [Hseq E'].
        * apply Hji. by eapply (si_push _ Hs).
        * apply Hpcs in Hj. destruct tj; cbn in E, Hj; simplify_eq; unfold pushing in Hj; lia.
      + intros Hle E. case_decide; destruct Hown as [Hseq E'].
        * lia.
        * apply Hji. by eapply (si_pop _ Hs).
    - destruct E1 as [->| ->]; [by left|done].
    - rewrite E2. by left.
  Qed.

(** The position counters of a run of this length do not wrap. *)
Definition small (l : list item) : Prop := Z.of_nat (length l) < 2 ^ 61.

Lemma pos_cell rb l pos : mem_inv rb l → ∃ c, at_pos rb pos = Some c.
  Proof.
    intros Hm. unfold at_pos. apply lookup_lt_is_Some.
    pose proof (slot_bound cap pos). pose proof (mi_len _ _ Hm). pose proof cap_bounds. lia.
  Qed.

Lemma cell_seq_bounds rb l pos c :
    mem_inv rb l → small l → at_pos rb pos = Some c → - 2 ^ 61 ≤ cell_seq c ≤ 2 ^ 62.
  Proof.
    intros Hm Hl Hc. unfold small in Hl. pose proof cap_bounds. pose proof (mi_tail _ _ Hm).
    pose proof (mi_head _ _ Hm).
    destruct (mi_cells _ _ Hm (rb_tail rb + (pos - rb_tail rb) mod cap)) as (c' & Hc' & Hi).
    { pose proof (Z.mod_pos_bound (pos - rb_tail rb) cap). lia. }
    assert (c' = c) as ->.
    { unfold at_pos, slot in *. rewrite Zplus_mod_idemp_r in Hc'.
      replace (rb_tail rb + (pos - rb_tail rb)) with pos in Hc' by lia. congruence. }
    pose proof (Z.mod_pos_bound (pos - rb_tail rb) cap). unfold cell_inv in Hi. case_decide; lia.
  Qed.

(** The test on [seq]: [diff] does not overflow. *)
Lemma diff_exact rb l pos c off :
    mem_inv rb l → small l → at_pos rb pos = Some c → 0 ≤ off ≤ rb_head rb + 1 →
    i64 (cell_seq c - off) = cell_seq c - off.
  Proof.
    intros Hm Hl Hc Ho. pose proof (cell_seq_bounds _ _ _ _ Hm Hl Hc).
    pose proof (mi_head _ _ Hm). unfold small in Hl. apply i64_small. lia.
  Qed.

(** A free cell at [head]: [seq] is [head] only if there is room for a push. *)
Lemma free_at_head rb l c :
    mem_inv rb l → at_pos rb (rb_head rb) = Some c → cell_seq c = rb_head rb →
    rb_head rb < rb_tail rb + cap.
  Proof.
    intros Hm Hc Hs. pose proof (mi_room _ _ Hm). pose proof cap_bounds. pose proof (mi_head _ _ Hm).
    destruct (decide (rb_head rb = rb_tail rb + cap)) as [E|]; [|lia].
    rewrite E, at_wrap in Hc. destruct (mi_cells _ _ Hm (rb_tail rb)) as (c' & Hc' & Hi); [lia|].
    unfold cell_inv in Hi. rewrite decide_True in Hi by lia. simplify_eq. lia.
  Qed.

(** A filled cell at [tail]: [seq] is [tail+1] only if a push released it. *)
Lemma full_at_tail rb l c :
    mem_inv rb l → at_pos rb (rb_tail rb) = Some c → cell_seq c = rb_tail rb + 1 →
    rb_tail rb < rb_head rb ∧ log_at l (rb_tail rb) = Some (contents c).
  Proof.
    intros Hm Hc Hs. pose proof cap_bounds. pose proof (mi_head _ _ Hm).
    destruct (mi_cells _ _ Hm (rb_tail rb)) as (c' & Hc' & Hi); [lia|].
    unfold cell_inv in Hi. simplify_eq. case_decide; [|lia].
    destruct Hi as [?|[_ ?]]; [lia|]. split; [lia|done].
  Qed.

(** The loads and tests of the two loops. *)
Lemma load_cell rb l pos :
    mem_inv rb l → rb_cells rb !! cell_index rb pos = at_pos rb pos.
  Proof. intros Hm. by rewrite (index_slot _ _ (mi_mask _ _ Hm)). Qed.

Section thread.
  Context (rb : ringbuf) (l : list item) (ts : list pc) (i : nat).
  Context (Hs : sys_inv (Sys rb l ts)) (Hl : small l).
Let Hm : mem_inv rb l := si_mem _ Hs.
Definition after (t : pc) (r : ringbuf * pc) : Prop :=
  sys_inv (Sys r.1 (l ++ claimed t r.2) (<[i := r.2]> ts)).

Lemma tail_head : rb_head rb = Z.of_nat (length l) ∧ 0 ≤ rb_tail rb ≤ rb_head rb ≤ rb_tail rb + cap.
  Proof. destruct Hm. lia. Qed.

(** The load and the tests of [seq] in the two loops: [P] if it is the
    position's turn. *)
Lemma seq_tests {A} pos off (x y z : A) :
    0 ≤ off ≤ rb_head rb + 1 →
    ∃ c, at_pos rb pos = Some c ∧
      (c ← rb_cells rb !! cell_index rb pos;
       Some (rb, if i64 (cell_seq c - off) =? 0 then x
                 else if i64 (cell_seq c - off) <? 0 then y else z))
      = Some (rb, if decide (cell_seq c = off) then x
                  else if decide (cell_seq c < off) then y else z).
  Proof.
    intros Ho. destruct (pos_cell rb l pos Hm) as [c Hc]. exists c. split; [done|].
    rewrite (load_cell _ _ _ Hm), Hc. cbn [mbind option_bind].
    rewrite (diff_exact rb l pos c off) by done.
    repeat case_decide; destruct (Z.eqb_spec (cell_seq c - off) 0);
      destruct (Z.ltb_spec (cell_seq c - off) 0); done || lia.
  Qed.

Lemma push_seq_inv p n pos :
    ts !! i = Some (PushSeq p n pos) →
    ∃ r, push_step true rb (PushSeq p n pos) = Some r ∧ after (PushSeq p n pos) r.
  Proof.
    intros Hi. pose proof (si_pcs _ Hs _ _ Hi) as Ht. cbn [pc_inv s_ring s_log] in Ht.
    destruct (seq_tests pos pos (PushCas p n pos) (PushDone (-1)) (PushLoad p n)) as (c & Hc & E); [lia|].
    cbn [push_step]. rewrite E. eexists; split; [done|].
    unfold after. cbn [fst snd claimed]. repeat case_decide; eapply quiet_step; eauto; cbn [pc_inv]; try done.
    split; [lia|]. intros ->. split; [by eapply free_at_head|]. by exists c.
  Qed.

Lemma push_cas_inv ok p n pos :
    ts !! i = Some (PushCas p n pos) →
    ∃ r, push_step ok rb (PushCas p n pos) = Some r ∧ after (PushCas p n pos) r.
  Proof.
    intros Hi. pose proof (si_pcs _ Hs _ _ Hi) as [_ Ht]. cbn [s_ring] in Ht.
    destruct tail_head as [Hh Hth]. pose proof Hl as Hl'. unfold small in Hl'.
    eexists; split; [reflexivity|]. unfold after.
    destruct ok, (Z.eqb_spec (rb_head rb) pos) as [<-|]; cbn [andb fst snd claimed];
      try (eapply quiet_step; eauto; done).
    destruct (Ht eq_refl) as [Hroom Hc].
    rewrite u64_id by (unfold is_u64; lia). change (RB _ _ _ _ _) with (claim_head rb).
    eapply sys_inv_step; eauto.
    - by apply claim_head_mem.
    - split; [cbn; lia|]. rewrite Hh, log_at_end. split; [done|].
      rewrite <-Hh. destruct Hc as (c & ? & ?). by exists c.
    - intros. by apply claim_head_pc.
    - cbn. intros ? [= <-]. by right.
  Qed.

(** A store of a pusher into its cell. *)
Lemma push_store_inv t t' p n pos P f :
    ts !! i = Some t → push_pos t = Some pos → pushing rb l p n pos P →
    claimed t t' = [] → pop_pos t' = pop_pos t → push_pos t' = push_pos t ∨ push_pos t' = None →
    (∀ c, P c → cell_seq c = pos →
      cell_inv l pos (f c)
      ∧ (pushing (put rb pos (f c)) l p n pos (λ c', c' = f c ∧ cell_seq (f c) = pos) ∨ cell_seq (f c) ≠ pos →
         pc_inv (put rb pos (f c)) l t')) →
    ∃ rb', upd_cell f pos rb = Some rb' ∧ after t (rb', t').
  Proof.
    intros Hi Hpos (Hp & Hlog & c & Hc & Hseq & HP) Ecl Epop Epush Hf.
    destruct tail_head as [Hh Hth]. destruct (Hf c HP Hseq) as [Hinv Hpc].
    rewrite (upd_put _ _ _ _ _ Hm Hc). eexists; split; [done|].
    unfold after. cbn [fst snd]. rewrite Ecl.
    apply (store_step _ _ _ _ t t' pos c); try done; [lia|by rewrite decide_True by lia|].
    apply Hpc. destruct (decide (cell_seq (f c) = pos)); [left|by right].
    split; [done|]. split; [done|]. exists (f c). by rewrite (at_put_eq _ l).
  Qed.

Lemma pushing_in_window p n pos P : pushing rb l p n pos P → pos < Z.of_nat (length l) ∧ 0 ≤ pos.
  Proof. intros (? & _). destruct tail_head. lia. Qed.

Lemma push_writes_inv t p n pos :
    ts !! i = Some t →
    t = PushPacket p n pos ∨ t = PushPlen p n pos ∨ t = PushRelease p n pos →
    ∃ r, push_step true rb t = Some r ∧ after t r.
  Proof.
    intros Hi Ht. pose proof (si_pcs _ Hs _ _ Hi) as Hpc. cbn [s_ring s_log] in Hpc.
    pose proof Hl as Hl'. unfold small in Hl'.
    destruct Ht as [->|[->| ->]]; cbn [pc_inv] in Hpc; cbn [push_step];
      destruct (pushing_in_window _ _ _ _ Hpc) as [Hlt H0].
    - destruct (push_store_inv _ (PushPlen p n pos) p n pos _ (set_packet p) Hi eq_refl Hpc) as (rb' & -> & ?);
        [done|done|by left| |by eauto].
      intros c _ Hseq. unfold cell_inv. rewrite decide_True by done. split; [by left|].
      intros [(?&?&c'&?&?&->&?)|]; [|done]. split; [done|]. eauto.
    - destruct (push_store_inv _ (PushRelease p n pos) p n pos _ (set_plen n) Hi eq_refl Hpc) as (rb' & -> & ?);
        [done|done|by left| |by eauto].
      intros c Hpk Hseq. unfold cell_inv. rewrite decide_True by done. split; [by left|].
      intros [(?&?&c'&?&?&->&?)|]; [|done]. split; [done|]. split; [done|].
      eexists; split; [done|]. split; [done|]. unfold contents. cbn. by rewrite Hpk.
    - destruct (push_store_inv _ (PushDone 0) p n pos _ (set_seq (u64 (pos + 1))) Hi eq_refl Hpc) as (rb' & -> & ?);
        [done|done|by right| |by eauto].
      intros c Hct Hseq. split; [|done]. unfold cell_inv. rewrite decide_True by done. right.
      cbn [set_seq cell_seq]. rewrite u64_id by (unfold is_u64; lia). split; [done|].
      destruct Hpc as (_ & -> & _). by rewrite <-Hct.
  Qed.

Lemma pop_seq_inv pos :
    ts !! i = Some (PopSeq pos) →
    ∃ r, pop_step true rb (PopSeq pos) = Some r ∧ after (PopSeq pos) r.
  Proof.
    intros Hi. pose proof (si_pcs _ Hs _ _ Hi) as Ht. cbn [pc_inv s_ring s_log] in Ht.
    destruct tail_head as [Hh Hth].
    destruct (seq_tests pos (pos + 1) (PopCas pos) (PopDone None) PopLoad) as (c & Hc & E); [lia|].
    cbn [pop_step]. rewrite E. eexists; split; [done|].
    unfold after. cbn [fst snd claimed]. repeat case_decide; eapply quiet_step; eauto; cbn [pc_inv]; try done.
    split; [lia|]. intros ->. destruct (full_at_tail rb l c Hm Hc) as [? _]; [done|].
    split; [done|]. by exists c.
  Qed.

Lemma pop_cas_inv ok pos :
    ts !! i = Some (PopCas pos) →
    ∃ r, pop_step ok rb (PopCas pos) = Some r ∧ after (PopCas pos) r.
  Proof.
    intros Hi. pose proof (si_pcs _ Hs _ _ Hi) as [_ Ht]. cbn [s_ring] in Ht.
    destruct tail_head as [Hh Hth]. pose proof Hl as Hl'. unfold small in Hl'.
    eexists; split; [reflexivity|]. unfold after.
    destruct ok, (Z.eqb_spec (rb_tail rb) pos) as [<-|]; cbn [andb fst snd claimed];
      try (eapply quiet_step; eauto; done).
    destruct (Ht eq_refl) as [Hlt (c & Hc & Hseq)].
    destruct (full_at_tail rb l c Hm Hc Hseq) as [_ Hlog].
    rewrite u64_id by (unfold is_u64; lia). change (RB _ _ _ _ _) with (claim_tail rb).
    eapply sys_inv_step; rewrite ?app_nil_r; eauto.
    - apply claim_tail_mem; eauto.
    - split; [cbn; lia|]. split; [cbn; lia|]. intros _. rewrite at_wrap. by exists c.
    - intros. apply claim_tail_pc; eauto.
    - cbn. intros ? [= <-]. by right.
  Qed.

Lemma pop_release_inv pos :
    ts !! i = Some (PopRelease pos) →
    ∃ r, pop_step true rb (PopRelease pos) = Some r ∧ after (PopRelease pos) r.
  Proof.
    intros Hi. pose proof (si_pcs _ Hs _ _ Hi) as (Hle & Hp & Hpop). cbn [s_ring s_log] in *.
    destruct tail_head as [Hh Hth]. pose proof Hl as Hl'. unfold small in Hl'. pose proof cap_bounds.
    destruct (Hpop Hle) as (c & Hc & Hlog & Hseq). pose proof Hc as Hc'. rewrite at_wrap in Hc'.
    cbn [pop_step]. rewrite (upd_put _ _ _ _ _ Hm Hc'). cbn [mbind option_bind].
    eexists; split; [done|]. unfold after. cbn [fst snd claimed].
    assert (put rb pos = put rb (pos + cap)) as ->. { unfold put. by rewrite slot_wrap by lia. }
    rewrite (mi_mask _ _ Hm), u64_id by (unfold is_u64; lia).
    apply (store_step _ _ _ _ (PopRelease pos) (PopPacket pos) (pos + cap) c); try done; auto.
    - lia.
    - unfold cell_inv. rewrite decide_False by lia. left. cbn. lia.
    - rewrite decide_False by lia. cbn [pop_pos]. split; [lia|]. f_equal. lia.
    - split; [done|]. intros _. rewrite (at_put_eq _ l) by done. by eexists.
  Qed.

Lemma pop_reads_inv t pos packet :
    ts !! i = Some t → t = PopPacket pos ∨ t = PopPlen pos packet →
    ∃ r, pop_step true rb t = Some r ∧ after t r.
  Proof.
    intros Hi Ht. pose proof (si_pcs _ Hs _ _ Hi) as Hpc. cbn [s_ring s_log] in Hpc.
    destruct (pos_cell rb l pos Hm) as [c Hc].
    destruct Ht as [->| ->]; cbn [pc_inv] in Hpc; cbn [pop_step]; destruct Hpc as [Hp Hpop];
      rewrite (load_cell _ _ _ Hm), Hc; cbn [mbind option_bind]; (eexists; split; [done|]);
      unfold after; cbn [fst snd claimed]; eapply quiet_step; eauto; (split; [done|]); intros Hle;
      destruct (Hpop Hle) as (c' & Hc' & Hlog & ?); rewrite at_wrap in Hc'; simplify_eq.
    - exists c. by rewrite at_wrap.
    - done.
  Qed.

(** The cell a thread stores into is that of one position [w] of the window, its
    own or, for a pop, that of the next lap. *)
Lemma store_window t pos :
    ts !! i = Some t → store_pos t = Some pos →
    ∃ w, rb_tail rb ≤ w < rb_tail rb + cap ∧ slot cap pos = slot cap w
    ∧ (w < rb_head rb ∧ push_pos t = Some w ∨ rb_head rb ≤ w ∧ pop_pos t = Some (w - cap)).
  Proof.
    intros Hi Hpos. pose proof (si_pcs _ Hs _ _ Hi) as Ht. destruct tail_head as [_ Hth]. pose proof cap_bounds.
    destruct t; cbn in Hpos, Ht; simplify_eq; [destruct Ht as (? & _); exists pos; split; [lia|]; split; [done|]; left; split; [lia|done]..|].
    destruct Ht as (Hle & ? & _). exists (pos + cap). split; [lia|]. split; [by rewrite slot_wrap by lia|].
    right. split; [lia|]. cbn. f_equal. lia.
  Qed.

(** Every enabled step exists and keeps the invariant. *)
Lemma go_inv t :
    ts !! i = Some t → at_rest t = false →
    ∃ r, thread_step Go rb t = Some r ∧ after t r.
  Proof.
    intros Hi Hrest. destruct tail_head as [Hh Hth].
    destruct t as [|p n|p n pos|p n pos|p n pos|p n pos|p n pos| | |pos|pos|pos|pos|pos packet|];
      try done; cbn [thread_step].
    - eexists; split; [reflexivity|]. unfold after. cbn [fst snd claimed].
      eapply quiet_step; eauto; cbn; done || lia.
    - by (destruct (push_seq_inv p n pos Hi) as (r & -> & ?); eauto).
    - by (destruct (push_cas_inv true p n pos Hi) as (r & -> & ?); eauto).
    - by (destruct (push_writes_inv _ p n pos Hi) as (r & -> & ?); eauto).
    - by (destruct (push_writes_inv _ p n pos Hi) as (r & -> & ?); eauto).
    - by (destruct (push_writes_inv _ p n pos Hi) as (r & -> & ?); eauto).
    - eexists; split; [reflexivity|]. unfold after. cbn [fst snd claimed].
      eapply quiet_step; eauto; cbn; done || lia.
    - by apply pop_seq_inv.
    - by apply pop_cas_inv.
    - by apply pop_release_inv.
    - apply (pop_reads_inv _ pos 0 Hi); by left.
    - apply (pop_reads_inv _ pos packet Hi); by right.
  Qed.

Lemma step_inv a t r :
    ts !! i = Some t → thread_step a rb t = Some r → after t r.
  Proof.
    intros Hi Hr. destruct a; cbn [thread_step] in Hr.
    - destruct (at_rest t) eqn:E; simplify_eq. unfold after. cbn [fst snd].
      destruct t; try done; eapply quiet_step; eauto; done.
    - destruct (at_rest t) eqn:E; simplify_eq. unfold after. cbn [fst snd].
      destruct t; try done; eapply quiet_step; eauto; done.
    - destruct (at_rest t) eqn:E; [by destruct t|].
      destruct (go_inv t Hi E) as (r' & Hr' & ?). cbn [thread_step] in Hr'. by simplify_eq.
    - destruct t; try done.
      + by (destruct (push_cas_inv false p n pos Hi) as (r' & Hr' & ?); simplify_eq).
      + by (destruct (pop_cas_inv false pos Hi) as (r' & Hr' & ?); simplify_eq).
  Qed.
End thread.
End invariant.

(** ** Reachable states *)
Lemma sys_step_inv k (Hk : 1 ≤ k ≤ 61) i a s1 s2 :
  sys_inv k s1 → small (s_log s1) → sys_step i a s1 = Some s2 →
  sys_inv k s2 ∧ (length (s_log s2) ≤ S (length (s_log s1)))%nat.
Proof.
  intros Hs Hl Hstep. destruct s1 as [rb l ts]. unfold sys_step in Hstep. cbn [s_threads s_ring s_log] in *.
  destruct (ts !! i) as [t|] eqn:Hi; [|done]. cbn [mbind option_bind] in Hstep.
  destruct (thread_step a rb t) as [[rb' t']|] eqn:E; [|done]. cbn in Hstep. simplify_eq.
  split; [exact (step_inv k Hk rb l ts i Hs Hl a t _ Hi E)|].
  cbn [s_log]. rewrite length_app. assert (length (claimed t t') ≤ 1)%nat; [|lia].
  destruct t, t'; cbn; lia.
Qed.

Section reachable.
  Context (junk : nat → Z) (k : Z) (rb0 : ringbuf) (m n : nat) (s : sys).
  Context (Hk : 1 ≤ k ≤ 58) (Hcreate : create_ringbuf true true junk (2 ^ k) = Ret (Some rb0)).
  Context (Hn : Z.of_nat n < 2 ^ 61) (Hreach : reaches n (start rb0 m) s).

Let Hk61 : 1 ≤ k ≤ 61.
  Proof. lia. Qed.

Lemma created_sys_inv : sys_inv k (start rb0 m).
  Proof.
    pose proof (cap_bounds k Hk61) as Hcap.
    destruct (create_inv junk k) as (rb & E & Hinv); [lia|]. rewrite Hcreate in E. simplify_eq.
    assert (∀ i t, replicate m Idle !! i = Some t → t = Idle) as Hidle.
    { intros i t. by intros [-> _]%lookup_replicate_1. }
    split; cbn [start s_ring s_log s_threads].
    - pose proof (inv_head _ _ _ _ Hinv) as Hh. pose proof (inv_tail _ _ _ _ Hinv) as Ht.
      change (rb_head rb = 0) in Hh. change (rb_tail rb = 0) in Ht.
      split; rewrite ?Hh, ?Ht; [apply Hinv|apply Hinv|done|lia|lia|].
      intros pos Hp. destruct (inv_free _ _ _ _ Hinv pos) as (c & Hc & Hseq); [exact Hp|].
      exists c. split; [exact Hc|]. unfold cell_inv. rewrite decide_False by (cbn; lia).
      left. rewrite Hseq. apply u64_id. unfold is_u64. lia.
    - intros i t ->%Hidle. done.
    - intros i j ti tj pos ->%Hidle. done.
    - intros i j ti tj pos ->%Hidle. done.
  Qed.

Lemma reachable_inv : sys_inv k s ∧ small (s_log s).
  Proof.
    assert (∀ n s1 s2, reaches n s1 s2 → ∀ d, sys_inv k s1 → (length (s_log s1) ≤ d)%nat →
      Z.of_nat (d + n) < 2 ^ 61 → sys_inv k s2 ∧ small (s_log s2)) as Hgen.
    { clear -Hk61. intros n s1 s2 H. induction H as [s1|n s1 s2 s3 (i & a & Hstep) _ IH]; intros d Hs Hd Hlt.
      - split; [done|]. unfold small. lia.
      - destruct (sys_step_inv k Hk61 i a s1 s2 Hs) as [Hs2 Hlen]; [unfold small; lia|done|].
        apply (IH (S d)); [done|lia|lia]. }
    apply (Hgen n _ _ Hreach 0%nat); [apply created_sys_inv|cbn; lia|lia].
  Qed.
End reachable.

(** ** Theorems *)

(** C4: however the threads interleave, in fewer than 2^61 steps, no two of them are ever about to store
    into the same cell, whether they push (packet, length and sequence number)
    or pop (sequence number), and no thread leaves the array: every thread
    inside a call has a next step.  The ring never holds more claims than it
    has cells.  The size is a power of two up to 2^58, the largest for which
    [create_ringbuf] allocates the array. *)
Theorem pushers_never_collide (junk : nat → Z) (k : Z) (rb0 : ringbuf) (m n : nat) (s : sys)
    (Hk : 1 ≤ k ≤ 58) (Hcreate : create_ringbuf true true junk (2 ^ k) = Ret (Some rb0))
    (Hn : Z.of_nat n < 2 ^ 61) (Hreach : reaches n (start rb0 m) s) :
  (∀ i j ti tj p q, i ≠ j → s_threads s !! i = Some ti → s_threads s !! j = Some tj →
     store_pos ti = Some p → store_pos tj = Some q →
     cell_index (s_ring s) p ≠ cell_index (s_ring s) q)
  ∧ (∀ i t, s_threads s !! i = Some t → at_rest t = false → ∃ s', sys_step i Go s = Some s')
  ∧ 0 ≤ rb_head (s_ring s) - rb_tail (s_ring s) ≤ 2 ^ k.
Proof.
  assert (1 ≤ k ≤ 61) as Hk' by lia.
  destruct (reachable_inv junk k rb0 m n s Hk Hcreate Hn Hreach) as [Hs Hl].
  destruct s as [rb l ts]. pose proof (si_mem _ _ Hs) as Hm. cbn [s_ring s_log s_threads] in *.
  destruct (tail_head k rb l ts Hs) as [_ Hth]. change (cap k) with (2 ^ k) in Hth.
  split; [|split; [|lia]].
  - intros i j ti tj p q Hij Hi Hj Hp Hq. rewrite !(index_slot k Hk' _ _ (mi_mask _ _ _ Hm)).
    destruct (store_window k Hk' rb l ts i Hs ti p Hi Hp) as (v & Hv & -> & Hvo).
    destruct (store_window k Hk' rb l ts j Hs tj q Hj Hq) as (w & Hw & -> & Hwo).
    intros E%(window_inj k Hk' (rb_tail rb)); [|done..]. subst w. apply Hij.
    destruct Hvo as [[? Hv1]|[? Hv1]], Hwo as [[? Hw1]|[? Hw1]]; try lia;
      [by eapply (si_push _ _ Hs) | by eapply (si_pop _ _ Hs)].
  - intros i t Hi Hrest. unfold sys_step. cbn [s_threads s_ring]. rewrite Hi. cbn [mbind option_bind].
    destruct (go_inv k Hk' rb l ts i Hs Hl t Hi Hrest) as ([rb' t'] & -> & _). by eexists.
Qed.

(** C5: no position is popped twice, and the pair read through the pointer of
    the pop of position [pos] is the [pos]-th pushed pair, packet and length,
    if at the second read no push had claimed the cell again ([head] at most
    [pos] plus the capacity).  The size is a power of two up to 2^58, and the
    threads have made fewer than 2^61 steps. *)
Theorem popped_pairs_in_push_order (junk : nat → Z) (k : Z) (rb0 : ringbuf) (m n : nat) (s s' : sys)
    (Hk : 1 ≤ k ≤ 58) (Hcreate : create_ringbuf true true junk (2 ^ k) = Ret (Some rb0))
    (Hn : Z.of_nat n < 2 ^ 61) (Hreach : reaches n (start rb0 m) s) :
  (∀ i j ti tj pos, s_threads s !! i = Some ti → s_threads s !! j = Some tj →
     pop_pos ti = Some pos → pop_pos tj = Some pos → i = j)
  ∧ (∀ i pos packet, s_threads s !! i = Some (PopPlen pos packet) →
       rb_head (s_ring s) ≤ pos + 2 ^ k →
       sys_step i Go s = Some s' →
       ∃ it, s_threads s' !! i = Some (PopDone (Some (pos, it))) ∧ log_at (s_log s) pos = Some it).
Proof.
  assert (1 ≤ k ≤ 61) as Hk' by lia.
  destruct (reachable_inv junk k rb0 m n s Hk Hcreate Hn Hreach) as [Hs Hl].
  split; [exact (si_pop _ _ Hs)|]. intros i pos packet Hi Hle Hstep.
  destruct s as [rb l ts]. pose proof (si_mem _ _ Hs) as Hm. cbn [s_ring s_log s_threads] in *.
  unfold sys_step in Hstep. cbn [s_threads s_ring s_log] in Hstep. rewrite Hi in Hstep.
  destruct (si_pcs _ _ Hs _ _ Hi) as [_ Ht]. destruct (Ht Hle) as (c & Hc & Hlog & Hpk).
  rewrite at_wrap in Hc by done. cbn [mbind option_bind thread_step push_step pop_step] in Hstep.
  rewrite (load_cell k Hk' _ _ _ Hm) in Hstep. cbn [s_ring] in Hc. rewrite Hc in Hstep. cbn in Hstep. simplify_eq.
  exists (contents c). split; [|exact Hlog]. cbn [s_threads].
  rewrite list_lookup_insert_eq by (by eapply lookup_lt_Some). done.
Qed.

(** The interleaving of [popped_cell_overwritten]: thread 0 pops while thread
    1 pushes. *)
Definition go (i m : nat) : list (nat * act) := replicate m (i, Go).
Definition overwrite_schedule (p0 n0 p1 n1 p2 n2 : Z) : list (nat * act) :=
  (1%nat, CallPush p0 n0) :: go 1 6
  ++ (0%nat, CallPop) :: go 0 5
  ++ (1%nat, CallPush p1 n1) :: go 1 6
  ++ (1%nat, CallPush p2 n2) :: go 1 6 ++ go 0 1.

(** [pop_ringbuf] gives the cell back before its caller has read it.  On a
    ring of two cells, a caller that is between its two reads while another
    thread pushes twice (both pushes succeed) ends up with the packet of the
    first push and the length of the third; the first pair is the one it
    popped. *)
Lemma popped_cell_overwritten (p0 n0 p1 n1 p2 n2 : Z) :
  ∃ rb0 s, create_ringbuf true true (λ _, 0) 2 = Ret (Some rb0)
  ∧ run (overwrite_schedule p0 n0 p1 n1 p2 n2) (start rb0 2) = Some s
  ∧ s_log s = [(p0, n0); (p1, n1); (p2, n2)]
  ∧ s_threads s = [PopDone (Some (0, (p0, n2))); PushDone 0].
Proof.
  exists (RB 2 1 0 0 [Cell 0 0 NULL; Cell 1 0 NULL]).
  exists (Sys (RB 2 1 3 1 [Cell 3 n2 p2; Cell 2 n1 p1]) [(p0, n0); (p1, n1); (p2, n2)]
              [PopDone (Some (0, (p0, n2))); PushDone 0]).
  split; [reflexivity|]. split; [by vm_compute|]. done.
Qed.

(** ** Witnesses *)
Definition demo_conc_ring : ringbuf :=
  RB 2 1 0 0 [Cell 0 0 NULL; Cell 1 0 NULL].

Lemma run_reaches sched s s' : run sched s = Some s' → reaches (length sched) s s'.
Proof.
  revert s. induction sched as [|[i a] sched IH]; intros s H; cbn in H.
  - simplify_eq. constructor.
  - destruct (sys_step i a s) as [s1|] eqn:E; [|done]. cbn in H.
    apply nsteps_l with s1; [by exists i, a|by apply IH].
Qed.

(** Thread 1 has pushed one packet, thread 2 is writing another, thread 0 is
    between its two reads. *)
Definition demo_conc_schedule : list (nat * act) :=
  (1%nat, CallPush 70 7) :: go 1 6 ++ (0%nat, CallPop) :: go 0 5
  ++ (2%nat, CallPush 80 8) :: go 2 4.
Definition demo_conc_sys : sys :=
  Sys (RB 2 1 2 1 [Cell 2 7 70; Cell 1 0 80]) [(70, 7); (80, 8)]
      [PopPlen 0 70; PushDone 0; PushPlen 80 8 1].

Lemma demo_conc_reach : reaches 18 (start demo_conc_ring 3) demo_conc_sys.
Proof. exact (run_reaches demo_conc_schedule (start demo_conc_ring 3) demo_conc_sys eq_refl). Defined.

(** A pop that is about to release its cell while a push writes the other one. *)
Definition demo_storing_schedule : list (nat * act) :=
  (1%nat, CallPush 70 7) :: go 1 6 ++ (0%nat, CallPop) :: go 0 3 ++ (2%nat, CallPush 80 8) :: go 2 3.
Definition demo_storing_sys : sys :=
  Sys (RB 2 1 2 1 [Cell 1 7 70; Cell 1 0 NULL]) [(70, 7); (80, 8)]
      [PopRelease 0; PushDone 0; PushPacket 80 8 1].

Lemma pushers_never_collide_witness :
  run demo_storing_schedule (start demo_conc_ring 3) = Some demo_storing_sys
  ∧ cell_index (s_ring demo_storing_sys) 0 ≠ cell_index (s_ring demo_storing_sys) 1.
Proof.
  assert (run demo_storing_schedule (start demo_conc_ring 3) = Some demo_storing_sys) as E by (vm_compute; reflexivity).
  split; [exact E|].
  exact (proj1 (pushers_never_collide (λ _, 0) 1 demo_conc_ring 3 15 demo_storing_sys ltac:(lia) eq_refl ltac:(lia)
    (run_reaches demo_storing_schedule _ _ E)) 0%nat 2%nat _ _ 0 1 ltac:(lia) eq_refl eq_refl eq_refl eq_refl).
Defined.

Lemma popped_pairs_in_push_order_witness :
  ∃ s' it, sys_step 0 Go demo_conc_sys = Some s'
  ∧ s_threads s' !! 0%nat = Some (PopDone (Some (0, it))) ∧ it = (70, 7).
Proof.
  eexists. exists (70, 7). split; [reflexivity|]. split; [|reflexivity].
  destruct (proj2 (popped_pairs_in_push_order (λ _, 0) 1 demo_conc_ring 3 18 demo_conc_sys _
    ltac:(lia) eq_refl ltac:(lia) demo_conc_reach) 0%nat 0 70 eq_refl ltac:(cbn; lia) eq_refl)
    as (it & E & Hit).
  injection Hit as <-. exact E.
Defined.
