(* ===== verification/RingTimer.v ===== *)
(** * The timer wheel (create_ringtimer.c, insert_ringtimer.c, tick_ringtimer.c)
    and the block allocator it draws from (create_allocator.c)

    A wheel has [max] slots; a slot is NULL or the first node of a circular
    doubly linked list.  The nodes are blocks of the allocator, a ring buffer
    of free blocks, known here by the interface [PacketQueue] only.

    [wheel] is the abstract state, a list of (signal, retries) entries per
    slot; [timer_rep] relates a wheel to the timer in memory, and the
    theorems say what [insert_ringtimer] and [tick_ringtimer] do to it. *)
From S2P Require Import Prelude Mem RingBuf.

(** ** Code: the data *)
Record ringtimer_callback := Node { retries : Z; signal : Z; prev : Z; next : Z }.

(** The blocks handed out by the allocator, read as nodes. *)
Abbreviation heap := (gmap Z ringtimer_callback).

Record ringtimer (Q : Type) := RT {
  timers : list Z;
  current : Z;
  max : Z;
  allocator : Q;
  nodes : heap
}.
Arguments RT {Q}.
Arguments timers {Q}.
Arguments current {Q}.
Arguments max {Q}.
Arguments allocator {Q}.
Arguments nodes {Q}.

Definition MAX_TICK_TIME : nat := 64.
Definition CACHELINE_SIZE : Z := 64.

Definition set_retries (v : Z) (n : ringtimer_callback) : ringtimer_callback :=
  Node v (signal n) (prev n) (next n).
Definition set_signal (v : Z) (n : ringtimer_callback) : ringtimer_callback :=
  Node (retries n) v (prev n) (next n).
Definition set_prev (v : Z) (n : ringtimer_callback) : ringtimer_callback :=
  Node (retries n) (signal n) v (next n).
Definition set_next (v : Z) (n : ringtimer_callback) : ringtimer_callback :=
  Node (retries n) (signal n) (prev n) v.

(** [p->field = v] *)
Definition assign (p : Z) (f : ringtimer_callback → ringtimer_callback) (h : heap) : outcome heap :=
  n ← get (h !! p); Ret (<[p := f n]> h).

Section code.
Context {Q : Type} `{!PacketQueue Q}.

(** [timers] is [None] where the code returns NULL. *)
Definition create_ringtimer (malloc_timer calloc_timers : bool) (timers_count : Z)
    (alloc : Q) (blocks : heap) : option (ringtimer Q) :=
  if malloc_timer then
    if calloc_timers then
      Some (RT (replicate (Z.to_nat timers_count) NULL) 0 timers_count alloc blocks)
    else None
  else None.

(** [for (; (cell = pop_ringbuf (ring->allocator)) == 0;) ;] *)
Fixpoint wait_block (fuel : nat) (q : Q) : outcome (option nat * Q) :=
  match fuel with
  | O => Timeout
  | S fuel =>
      '(cell, q) ← pq_pop q;
      match cell with
      | None => wait_block fuel q
      | Some _ => Ret (cell, q)
      end
  end.

(** The node [packet] as the only one of its slot, and as the last one of the
    list that starts at [first]: the two branches of [insert_ringtimer]. *)
Definition insert_only (packet sig rounds : Z) (h : heap) : outcome heap :=
  let first := packet in
  h ← assign first (set_prev first) h;
  h ← assign first (set_next first) h;
  h ← assign first (set_signal sig) h;
  assign first (set_retries rounds) h.

Definition insert_last (first packet sig rounds : Z) (h : heap) : outcome heap :=
  f ← get (h !! first);
  let last := prev f in
  h ← assign last (set_next packet) h;
  l ← get (h !! last);
  let cur := next l in
  h ← assign cur (set_next first) h;
  h ← assign cur (set_prev last) h;
  h ← assign cur (set_signal sig) h;
  h ← assign cur (set_retries rounds) h;
  assign first (set_prev cur) h.

(** The result is [true] for [return ring], [false] for [return NULL]. *)
Definition insert_ringtimer (fuel : nat) (sig time : Z) (ring : ringtimer Q)
  : outcome (bool * ringtimer Q) :=
  let time := u64 (time - 1) in
  let slot := u32 (current ring + time) in
  '(cell, q) ← wait_block fuel (allocator ring);
  c ← pq_cell q cell;
  let packet := cell_packet c in
  if packet =? NULL then
    '(_, q) ← pq_push q packet 0;
    Ret (false, RT (timers ring) (current ring) (max ring) q (nodes ring))
  else if max ring =? 0 then Fault
  else
    let i := Z.to_nat (slot mod max ring) in
    first ← get (timers ring !! i);
    if first =? NULL then
      h ← insert_only packet sig (slot / max ring) (nodes ring);
      Ret (true, RT (<[i := packet]> (timers ring)) (current ring) (max ring) q h)
    else
      h ← insert_last first packet sig (slot / max ring) (nodes ring);
      Ret (true, RT (timers ring) (current ring) (max ring) q h).

(** The body of the [if (t->retries == 0)] branch. *)
Definition expire (ring : ringtimer Q) (cur : nat) (t : Z) : outcome (ringtimer Q) :=
  n ← get (nodes ring !! t);
  '(tms, h) ←
    (if next n =? t then Ret (<[cur := NULL]> (timers ring), nodes ring)
     else
       h ← assign (prev n) (set_next (next n)) (nodes ring);
       n ← get (h !! t);
       h ← assign (next n) (set_prev (prev n)) h;
       slot ← get (timers ring !! cur);
       n ← get (h !! t);
       Ret (if slot =? t then <[cur := next n]> (timers ring) else timers ring, h));
  '(_, q) ← pq_push (allocator ring) t 64;
  Ret (RT tms (current ring) (max ring) q h).

(** What the loop body does with the node [t]; [sigs] is
    [res.signals[0 .. count-1]].  A 65th signal is written past the end of
    [res.signals]. *)
Definition tick_node (cur : nat) (ring : ringtimer Q) (t : Z) (sigs : list Z)
  : outcome (ringtimer Q * list Z) :=
  n ← get (nodes ring !! t);
  if signal n =? 0 then Ret (ring, sigs)
  else if retries n =? 0 then
    if decide (length sigs < MAX_TICK_TIME)%nat then
      ring ← expire ring cur t; Ret (ring, sigs ++ [i32 (signal n)])
    else Fault
  else
    h ← assign t (set_retries (retries n - 1)) (nodes ring);
    Ret (RT (timers ring) (current ring) (max ring) (allocator ring) h, sigs).

(** The [do .. while (t != head)] loop. *)
Fixpoint tick_loop (fuel : nat) (cur : nat) (head : Z) (ring : ringtimer Q) (t : Z)
    (sigs : list Z) : outcome (ringtimer Q * list Z) :=
  match fuel with
  | O => Timeout
  | S fuel =>
      n ← get (nodes ring !! t);
      let nxt := next n in
      '(ring, sigs) ← tick_node cur ring t sigs;
      slot ← get (timers ring !! cur);
      if slot =? NULL then Ret (ring, sigs)
      else if nxt =? head then Ret (ring, sigs)
      else tick_loop fuel cur head ring nxt sigs
  end.

Definition tick_ringtimer (fuel : nat) (ring : ringtimer Q) : outcome (ringtimer Q * list Z) :=
  let cur := Z.to_nat (current ring) in
  head ← get (timers ring !! cur);
  '(ring, sigs) ←
    (if head =? NULL then Ret (ring, [])
     else tick_loop fuel cur head ring head []);
  if max ring =? 0 then Fault
  else Ret (RT (timers ring) (u32 (current ring + 1) mod max ring) (max ring)
               (allocator ring) (nodes ring), sigs).

(** [n] ticks, with the signals of each. *)
Fixpoint ticks (fuel n : nat) (ring : ringtimer Q) : outcome (ringtimer Q * list (list Z)) :=
  match n with
  | O => Ret (ring, [])
  | S n =>
      '(ring, sigs) ← tick_ringtimer fuel ring;
      '(ring, rest) ← ticks fuel n ring;
      Ret (ring, sigs :: rest)
  end.
End code.

(** [create_allocator]: [cacheline] is CACHELINE_SIZE, which hwinfo.h defines
    as a call of [sysconf]; [aligned_alloc i] is the block of the [i]-th call,
    NULL when it fails.  After a failure the code empties the ring, calling
    [free] on the packets and on the cells, which are inside [rb->cells], and
    reading [rb->cells] again: with a cell to free that is undefined.  The cells
    are allocated as in [create_ringbuf]. *)
Definition round_cacheline (cacheline n : Z) : Z :=
  Z.land (u64 (n + (cacheline - 1))) (u64 (Z.lnot (cacheline - 1))).

Fixpoint allocator_fill (aligned_alloc : nat → Z) (size : Z) (i n : nat) (rb : ringbuf)
  : outcome ringbuf :=
  match n with
  | O => Ret rb
  | S n =>
      let memory := aligned_alloc i in
      rb ← (if memory =? NULL then
              '(cell, rb) ← pop_ringbuf rb;
              match cell with Some _ => Fault | None => Ret rb end
            else Ret rb);
      '(_, rb) ← push_ringbuf rb memory size;
      allocator_fill aligned_alloc size (S i) n rb
  end.

Definition create_allocator (malloc_rb malloc_cells : bool) (junk : nat → Z * Z)
    (cacheline : Z) (aligned_alloc : nat → Z) (memory_size memory_num : Z)
  : outcome (option ringbuf) :=
  if malloc_rb then
    if malloc_cells then
      if cells_fit memory_num then
        let cells := (λ i, Cell (Z.of_nat i) (junk i).1 (junk i).2)
                       <$> List.seq 0 (Z.to_nat memory_num) in
        rb ← allocator_fill aligned_alloc (round_cacheline cacheline memory_size) 0
               (Z.to_nat memory_num) (RB memory_num (u64 (memory_num - 1)) 0 0 cells);
        Ret (Some rb)
      else Fault
    else Ret None
  else Ret None.

(** ** Circular lists *)

(** [link h a b]: [b] follows [a], through both pointers. *)
Definition link (h : heap) (a b : Z) : Prop :=
  ∃ na nb, h !! a = Some na ∧ h !! b = Some nb ∧ next na = b ∧ prev nb = a.

(** The nodes from [a] through [l] to [b]; [circle] closes the walk. *)
Fixpoint walk (h : heap) (a : Z) (l : list Z) (b : Z) : Prop :=
  match l with
  | [] => link h a b
  | c :: l => link h a c ∧ walk h c l b
  end.

Definition circle (h : heap) (l : list Z) : Prop :=
  match l with [] => True | p :: l => walk h p l p end.

(** What the nodes hold: (signal, retries). *)
Abbreviation entry := (Z * Z)%type.
Definition holds (h : heap) (p : Z) (e : entry) : Prop :=
  ∃ n, h !! p = Some n ∧ signal n = e.1 ∧ retries n = e.2.

Definition slot_rep (h : heap) (head : Z) (ps : list Z) (es : list entry) : Prop :=
  head = hd NULL ps ∧ circle h ps ∧ Forall2 (holds h) ps es.

Lemma walk_app h a l1 c l2 b : walk h a (l1 ++ c :: l2) b ↔ walk h a l1 c ∧ walk h c l2 b.
Proof. revert a; induction l1 as [|d l1 IH]; intros a; cbn [app walk]; [done|]. rewrite IH. tauto. Qed.

Lemma circle_rotate h l1 l2 : circle h (l1 ++ l2) → circle h (l2 ++ l1).
Proof.
  destruct l1 as [|a l1], l2 as [|b l2]; cbn [app circle]; rewrite ?app_nil_r; try done.
  rewrite !walk_app. tauto.
Qed.

Lemma circle_dup h l1 a l2 : circle h (a :: l1 ++ l2) → circle h (l2 ++ a :: l1).
Proof. apply (circle_rotate h (a :: l1) l2). Qed.

(** A link needs the [next] of its source and the [prev] of its target. *)
Definition same_next (h h' : heap) (p : Z) : Prop :=
  ∀ n, h !! p = Some n → ∃ n', h' !! p = Some n' ∧ next n' = next n.
Definition same_prev (h h' : heap) (p : Z) : Prop :=
  ∀ n, h !! p = Some n → ∃ n', h' !! p = Some n' ∧ prev n' = prev n.
Definition same_data (h h' : heap) (p : Z) : Prop := ∀ e, holds h p e → holds h' p e.

Lemma link_same h h' a b : same_next h h' a → same_prev h h' b → link h a b → link h' a b.
Proof.
  intros Ha Hb (na & nb & Hna & Hnb & Hn & Hp).
  destruct (Ha _ Hna) as (na' & ? & ?), (Hb _ Hnb) as (nb' & ? & ?).
  exists na', nb'. repeat split; congruence.
Qed.

Lemma walk_same h h' a l b :
  Forall (same_next h h') (a :: l) → Forall (same_prev h h') (l ++ [b]) →
  walk h a l b → walk h' a l b.
Proof.
  revert a; induction l as [|c l IH]; intros a Hn Hp; cbn [walk app] in *.
  - apply link_same; [by inversion Hn | by inversion Hp].
  - inversion Hn as [|? ? Ha Hn']; inversion Hp as [|? ? Hc Hp']; subst.
    intros [Hl Hw]. split; [by apply (link_same h) | by apply IH].
Qed.

Lemma circle_same h h' l :
  (∀ p, p ∈ l → same_next h h' p ∧ same_prev h h' p) → circle h l → circle h' l.
Proof.
  destruct l as [|a l]; [done|]. intros Hs. apply walk_same; apply Forall_forall.
  - intros p Hp. by apply Hs.
  - intros p Hp. apply Hs. rewrite elem_of_app, list_elem_of_singleton in Hp.
    rewrite elem_of_cons. tauto.
Qed.

Lemma same_eq h h' p :
  h' !! p = h !! p → same_next h h' p ∧ same_prev h h' p ∧ same_data h h' p.
Proof.
  intros E. repeat split; [intros n Hn; exists n; by rewrite E..|].
  intros e (n & Hn & ?). exists n. by rewrite E.
Qed.

Lemma slot_rep_same h h' head ps es :
  (∀ p, p ∈ ps → h' !! p = h !! p) → slot_rep h head ps es → slot_rep h' head ps es.
Proof.
  intros Hs (-> & Hc & Hd). split; [done|]. split.
  - eapply circle_same; [|done]. intros p Hp. split; by apply same_eq, Hs.
  - eapply Forall2_impl; [|exact (λ p e H, H)].
    apply Forall2_same_length_lookup. pose proof (Forall2_length _ _ _ Hd). split; [done|].
    intros i p e Hp He. apply (same_eq h h' p); [eauto using list_elem_of_lookup_2|].
    exact (Forall2_lookup_lr _ _ _ _ _ _ Hd Hp He).
Qed.

Lemma walk_first h a l b : walk h a l b → ∃ n, h !! a = Some n ∧ next n = hd b l.
Proof.
  destruct l; cbn [walk hd].
  - intros (na & nb & ? & ? & ? & ?). eauto.
  - intros [(na & nb & ? & ? & ? & ?) _]. eauto.
Qed.

Lemma walk_last h a l b : walk h a l b → ∃ n, h !! b = Some n ∧ prev n = default a (last l).
Proof.
  revert a; induction l as [|c l IH]; intros a; cbn [walk].
  - intros (na & nb & ? & ? & ? & ?). eauto.
  - intros [_ Hw]. destruct (IH _ Hw) as (n & ? & ?). exists n. split; [done|].
    rewrite last_cons. by destruct (last l).
Qed.

(** *** The assignments *)
Lemma assign_Some h p f n : h !! p = Some n → assign p f h = Ret (<[p := f n]> h).
Proof. intros H. unfold assign. by rewrite H. Qed.

(** What an assignment to one field of [q] keeps. *)
Section assignments.
Context (h : heap) (q v : Z) (n : ringtimer_callback) (Hn : h !! q = Some n).
Ltac assignment p :=
  intros m ?; destruct (decide (q = p)) as [->|];
  [rewrite lookup_insert_eq; simplify_eq; eauto | rewrite lookup_insert_ne by done; eauto].

Lemma set_next_prev p : same_prev h (<[q := set_next v n]> h) p.
Proof using Hn. assignment p. Qed.
Lemma set_prev_next p : same_next h (<[q := set_prev v n]> h) p.
Proof using Hn. assignment p. Qed.
Lemma set_retries_next p : same_next h (<[q := set_retries v n]> h) p.
Proof using Hn. assignment p. Qed.
Lemma set_retries_prev p : same_prev h (<[q := set_retries v n]> h) p.
Proof using Hn. assignment p. Qed.
Lemma set_next_data p : same_data h (<[q := set_next v n]> h) p.
Proof using Hn.
  intros e (m & Hm & He). destruct (decide (q = p)) as [->|].
  - exists (set_next v n). rewrite lookup_insert_eq. by simplify_eq.
  - exists m. by rewrite lookup_insert_ne.
Qed.
Lemma set_prev_data p : same_data h (<[q := set_prev v n]> h) p.
Proof using Hn.
  intros e (m & Hm & He). destruct (decide (q = p)) as [->|].
  - exists (set_prev v n). rewrite lookup_insert_eq. by simplify_eq.
  - exists m. by rewrite lookup_insert_ne.
Qed.
End assignments.

(** The changes an operation on the nodes [ps] makes to the heap. *)
Definition frame (ps : list Z) (h h' : heap) : Prop :=
  (∀ p, p ∉ ps → h' !! p = h !! p) ∧ (∀ p, is_Some (h !! p) → is_Some (h' !! p)).

Lemma frame_trans ps h1 h2 h3 : frame ps h1 h2 → frame ps h2 h3 → frame ps h1 h3.
Proof. intros [H1 H2] [H3 H4]. split; [|eauto]. intros p Hp. by rewrite H3, H1. Qed.

Lemma frame_weaken ps ps' h h' : (∀ p, p ∈ ps → p ∈ ps') → frame ps h h' → frame ps' h h'.
Proof. intros Hs [H1 H2]. split; [|done]. intros p Hp. apply H1. eauto. Qed.

Lemma frame_insert ps h p n : p ∈ ps → frame ps h (<[p:=n]> h).
Proof.
  intros Hp. split; intros q Hq.
  - rewrite lookup_insert_ne; [done|]. by intros <-.
  - destruct (decide (p = q)) as [->|]; [by rewrite lookup_insert_eq|].
    by rewrite lookup_insert_ne.
Qed.

(** Closing a walk from [a] to [b] into a circle, by the two assignments
    [b->next = a] and [a->prev = b]. *)
Lemma close_walk h a l b na nb h' :
  NoDup (a :: l) → b = default a (last l) →
  h !! b = Some nb → <[b := set_next a nb]> h !! a = Some na →
  h' = <[a := set_prev b na]> (<[b := set_next a nb]> h) →
  match rev l with [] => True | c :: k => walk h a (rev k) c end →
  circle h' (a :: l) ∧ (∀ p, same_data h h' p).
Proof.
  intros Hnd Hb Hnb Hna -> Hw. split; cycle 1.
  { intros p e He. by apply (set_prev_data _ a _ _ Hna), (set_next_data _ b _ _ Hnb). }
  destruct (rev l) as [|c k] eqn:El.
  - apply (f_equal (@rev Z)) in El. rewrite rev_involutive in El. cbn in El. subst l.
    cbn in Hb. subst b. rewrite lookup_insert_eq in Hna. simplify_eq.
    cbn [circle walk]. do 2 eexists. rewrite !lookup_insert_eq. done.
  - apply (f_equal (@rev Z)) in El. rewrite rev_involutive in El. cbn [rev] in El. subst l.
    rewrite last_snoc in Hb. cbn in Hb. subst b. set (m := rev k) in *.
    cbn [circle]. rewrite walk_app. cbn [walk].
    apply NoDup_cons in Hnd as [Ha Hnd]. apply NoDup_app in Hnd as (Hm & Hd & _).
    split.
    + eapply walk_same; [..|exact Hw]; apply Forall_forall; intros p Hp.
      * assert (p ≠ c) by (intros ->; set_solver).
        intros n Hn. apply (set_prev_next _ a c na Hna p n). by rewrite lookup_insert_ne.
      * assert (p ≠ a) by (intros ->; set_solver).
        intros n Hn. rewrite lookup_insert_ne by done.
        by apply (set_next_prev _ c a nb Hnb p n).
    + assert (a ≠ c) by (intros ->; set_solver).
      exists (set_next a nb), (set_prev c na). rewrite lookup_insert_ne, !lookup_insert_eq by done.
      done.
Qed.

(** ** The steps of [tick_ringtimer] *)
Section steps.
Context {Q : Type} `{!PacketQueue Q}.
Implicit Types (ring : ringtimer Q) (q : list item) (ps : list Z) (es : list entry).

(** Unlinking [t], the [else] branch of [expire]. *)
Lemma unlink h t a l n :
  NoDup (t :: a :: l) → circle h (t :: a :: l) → h !! t = Some n →
  ∃ nb na, next n = a ∧ h !! prev n = Some nb
  ∧ <[prev n := set_next a nb]> h !! t = Some n
  ∧ <[prev n := set_next a nb]> h !! a = Some na
  ∧ let h' := <[a := set_prev (prev n) na]> (<[prev n := set_next a nb]> h) in
    h' !! t = Some n ∧ circle h' (a :: l) ∧ (∀ p, same_data h h' p) ∧ frame (a :: l) h h'.
Proof.
  intros Hnd Hc Hn. cbn [circle] in Hc.
  pose proof (walk_first _ _ _ _ Hc) as (n1 & Hn1 & Hnx). pose proof (walk_last _ _ _ _ Hc) as (n2 & Hn2 & Hpv).
  assert (n1 = n) as -> by congruence. assert (n2 = n) as -> by congruence.
  cbn [hd] in Hnx. rewrite last_cons in Hpv.
  apply NoDup_cons in Hnd as [Ht Hnd].
  assert (Hb : prev n = default a (last l)) by (rewrite Hpv; by destruct (last l)).
  assert (Hbin : prev n ∈ a :: l).
  { rewrite Hb. destruct (last l) eqn:El; cbn; [|left]. right. by apply last_Some_elem_of. }
  assert (Hbt : prev n ≠ t) by (intros E; rewrite E in Hbin; done).
  assert (Hat : a ≠ t) by (intros ->; apply Ht; left).
  destruct Hc as [(? & na0 & _ & Hna0 & _) Hw].
  assert (∃ nb, h !! prev n = Some nb) as [nb Hnb].
  { destruct (rev l) as [|c k] eqn:El; apply (f_equal (@rev Z)) in El; rewrite rev_involutive in El; cbn in El.
    - subst l. rewrite Hb. eauto.
    - subst l. rewrite last_snoc in Hb. rewrite walk_app in Hw. destruct Hw as [_ (? & ? & ? & _)].
      rewrite Hb. eauto. }
  assert (∃ na, <[prev n := set_next a nb]> h !! a = Some na) as [na Hna].
  { destruct (decide (prev n = a)) as [->|]; [rewrite lookup_insert_eq|rewrite lookup_insert_ne by done]; eauto. }
  exists nb, na. split; [done|]. split; [done|]. split; [by rewrite lookup_insert_ne|].
  split; [done|]. cbv zeta. split; [by rewrite !lookup_insert_ne|].
  destruct (close_walk h a l (prev n) na nb _ Hnd Hb Hnb Hna eq_refl) as [Hc' Hd'].
  - destruct (rev l) as [|c k] eqn:El; [done|]. apply (f_equal (@rev Z)) in El.
    rewrite rev_involutive in El. cbn in El. subst l. rewrite walk_app in Hw. apply Hw.
  - split; [done|]. split; [done|]. eapply frame_trans; apply frame_insert; [done | left].
Qed.

Lemma expire_spec cap ring q cur t l s :
  NoDup (t :: l) → NULL ∉ t :: l → circle (nodes ring) (t :: l) →
  timers ring !! cur = Some s → s ∈ t :: l →
  pq_rep cap (allocator ring) q → (length q < cap)%nat →
  ∃ r h', expire ring cur t =
      Ret (RT (<[cur := if decide (s = t) then hd NULL l else s]> (timers ring))
              (current ring) (max ring) r h')
  ∧ pq_rep cap r (q ++ [(t, 64)])
  ∧ circle h' l ∧ (∀ p, same_data (nodes ring) h' p) ∧ frame (t :: l) (nodes ring) h'.
Proof.
  intros Hnd H0 Hc Hs Hin Hq Hlen. unfold expire.
  destruct (walk_first _ _ _ _ Hc) as (n & Hn & Hnx). rewrite Hn. cbn [get mbind outcome_bind].
  destruct (pq_push_ok _ _ _ t 64 Hq Hlen) as (r & Hr & Hrep). rewrite Hnx.
  destruct l as [|a l]; cbn [hd].
  - rewrite Z.eqb_refl. cbn [mbind outcome_bind]. rewrite Hr. cbn [mbind outcome_bind].
    apply list_elem_of_singleton in Hin as ->. rewrite decide_True by done.
    exists r, (nodes ring). split; [done|]. split; [done|]. split; [done|].
    split; [by intros p e|]. by split.
  - destruct (unlink _ _ _ _ _ Hnd Hc Hn) as (nb & na & _ & Hnb & Hn1 & Hna & Hn2 & Hc' & Hd & Hf).
    destruct (Z.eqb_spec a t) as [->|Hat].
    { apply NoDup_cons in Hnd as [Hnin _]. set_solver. }
    rewrite (assign_Some _ _ _ _ Hnb). cbn [mbind outcome_bind]. rewrite Hn1.
    cbn [get mbind outcome_bind]. rewrite Hnx. cbn [hd]. rewrite (assign_Some _ _ _ _ Hna).
    cbn [mbind outcome_bind]. rewrite Hs. cbn [get mbind outcome_bind]. rewrite Hn2.
    cbn [get mbind outcome_bind]. rewrite Hr. cbn [mbind outcome_bind].
    do 2 eexists. split; [|split; [exact Hrep|]; split; [exact Hc'|]; split; [exact Hd|]].
    + rewrite Hnx. cbn [hd]. do 2 f_equal. destruct (Z.eqb_spec s t).
      * by rewrite decide_True.
      * rewrite decide_False by done. by rewrite list_insert_id.
    + eapply frame_weaken; [|exact Hf]. intros p Hp. by right.
Qed.

Lemma decrement_spec h t l n :
  circle h (t :: l) → h !! t = Some n →
  let h' := <[t := set_retries (retries n - 1) n]> h in
  circle h' (t :: l) ∧ frame [t] h h' ∧ holds h' t (signal n, retries n - 1).
Proof.
  intros Hc Hn. cbv zeta. split; [|split].
  - eapply circle_same; [|exact Hc]. intros p _.
    split; [by apply set_retries_next | by apply set_retries_prev].
  - apply frame_insert. left.
  - eexists. rewrite lookup_insert_eq. done.
Qed.
(** What a pass over the slot should do to its entries: those with no
    revolution left fire, the others lose one. *)
Definition due (e : entry) : bool := e.2 =? 0.
Definition dec (e : entry) : entry := (e.1, e.2 - 1).
Fixpoint fired (es : list entry) : list Z :=
  match es with
  | [] => []
  | e :: es => if due e then i32 e.1 :: fired es else fired es
  end.
Fixpoint kept (es : list entry) : list entry :=
  match es with
  | [] => []
  | e :: es => if due e then kept es else dec e :: kept es
  end.
Definition entry_ok (e : entry) : Prop := e.1 ≠ 0 ∧ 0 ≤ e.2.

(** Where the node of an entry goes: back to the allocator or back in line. *)
Definition gone (e : entry) (t : Z) : list Z := if due e then [t] else [].
Definition stay (e : entry) (t : Z) : list Z := if due e then [] else [t].
Definition blocks : list Z → list item := fmap (λ p, (p, 64)).

Lemma fired_cons e es : fired (e :: es) = fired [e] ++ fired es.
Proof. cbn. by destruct (due e). Qed.
Lemma kept_cons e es : kept (e :: es) = kept [e] ++ kept es.
Proof. cbn. by destruct (due e). Qed.
Lemma stay_gone e t : stay e t ++ gone e t = [t].
Proof. unfold stay, gone. by destruct (due e). Qed.
Lemma blocks_fst ps : (blocks ps).*1 = ps.
Proof. induction ps as [|p ps IH]; [done|]. cbn. by f_equal. Qed.
Lemma blocks_app ps1 ps2 : blocks (ps1 ++ ps2) = blocks ps1 ++ blocks ps2.
Proof. apply fmap_app. Qed.

Lemma holds_mono (h h' : heap) (l : list Z) es :
  (∀ p, p ∈ l → same_data h h' p) → Forall2 (holds h) l es → Forall2 (holds h') l es.
Proof.
  intros Hs H. induction H as [|p e l es Hp _ IH]; constructor.
  - apply Hs; [left | done].
  - apply IH. intros q Hq. apply Hs. by right.
Qed.

(** The nodes [l] of a slot with their entries, and the free blocks [q]. *)
Record pass_inv (cap : nat) ring q ps es : Prop := {
  pass_circle : circle (nodes ring) ps;
  pass_nodup : NoDup ps;
  pass_null : NULL ∉ ps;
  pass_holds : Forall2 (holds (nodes ring)) ps es;
  pass_ok : Forall entry_ok es;
  pass_free : pq_rep cap (allocator ring) q;
  pass_cap : (length q + length ps ≤ cap)%nat
}.

Lemma pass_rotate cap ring q l1 l2 es1 es2 :
  length l1 = length es1 →
  pass_inv cap ring q (l1 ++ l2) (es1 ++ es2) → pass_inv cap ring q (l2 ++ l1) (es2 ++ es1).
Proof.
  intros Hlen [Hc Hnd H0 Hh Hok Hq Hcap]. split; try done.
  - by apply circle_rotate.
  - by rewrite Permutation_app_comm.
  - rewrite elem_of_app in *. tauto.
  - apply Forall2_app_inv in Hh as [Hh1 Hh2]; [|done]. by apply Forall2_app.
  - apply Forall_app in Hok as []. by apply Forall_app.
  - rewrite length_app in *. lia.
Qed.

Lemma tick_node_spec cap ring q cur t l s e es sigs :
  pass_inv cap ring q (t :: l) (e :: es) →
  timers ring !! cur = Some s → s ∈ t :: l →
  (length sigs + length (fired [e]) ≤ MAX_TICK_TIME)%nat →
  ∃ ring1, tick_node cur ring t sigs = Ret (ring1, sigs ++ fired [e])
  ∧ pass_inv cap ring1 (q ++ blocks (gone e t)) (l ++ stay e t) (es ++ kept [e])
  ∧ current ring1 = current ring ∧ max ring1 = max ring
  ∧ timers ring1 = <[cur := if due e then if decide (s = t) then hd NULL l else s else s]> (timers ring)
  ∧ frame (t :: l) (nodes ring) (nodes ring1).
Proof.
  intros [Hc Hnd H0 Hh Hok Hq Hcap] Hcur Hin Hsigs.
  inversion Hh as [|? ? ? ? (n & Hn & Hsig & Hret) Hh' E1 E2]; subst; clear Hh.
  inversion Hok as [|? ? [Hs0 Hr0] Hok']; subst.
  assert ((t ∉ l) ∧ NoDup l) as [Htl Hnd'] by (by apply NoDup_cons).
  unfold tick_node. rewrite Hn. cbn [get mbind outcome_bind length] in *.
  rewrite (proj2 (Z.eqb_neq (signal n) 0)) by congruence.
  unfold gone, stay. cbn [fired kept] in *. unfold due in *. rewrite Hret, Hsig.
  destruct (Z.eqb_spec e.2 0) as [Hz|Hz].
  - cbn [length] in Hsigs. rewrite decide_True by lia.
    destruct (expire_spec cap ring q cur t l s) as (r & h' & -> & Hr & Hc' & Hd & Hf);
      [done..|lia|].
    cbn [mbind outcome_bind]. eexists. split; [done|]. rewrite !app_nil_r.
    split; [|by do 3 (split; [done|])]. split; cbn [allocator nodes]; try done.
    + set_solver.
    + by eapply holds_mono; [|exact Hh'].
    + rewrite length_app. cbn. lia.
  - rewrite !app_nil_r. rewrite (assign_Some _ _ _ _ Hn). cbn [mbind outcome_bind].
    destruct (decrement_spec _ _ _ _ Hc Hn) as (Hc' & Hf & Hd). rewrite Hsig, Hret in Hd.
    rewrite Hret in Hc', Hf. cbv zeta in *.
    eexists. split; [done|]. cbn [current max timers allocator nodes].
    split; [|split; [done|split; [done|split; [by rewrite list_insert_id|]]]].
    + split; cbn [allocator nodes]; try done.
      * by apply (circle_rotate _ [t] l).
      * by rewrite <-Permutation_cons_append.
      * set_solver.
      * apply Forall2_app; [|by repeat constructor]. eapply holds_mono; [|exact Hh'].
        intros p Hp. apply (same_eq _ _ p). rewrite lookup_insert_ne; [done|]. by intros <-.
      * apply Forall_app. split; [done|]. repeat constructor; cbn; [done | lia].
      * rewrite length_app. cbn. lia.
    + eapply frame_weaken; [|exact Hf]. intros p Hp%list_elem_of_singleton. subst. left.
Qed.

(** One iteration of the loop that is not the last one. *)
Lemma tick_loop_next fuel cur head ring t l sigs ring1 sigs1 s :
  circle (nodes ring) (t :: l) → tick_node cur ring t sigs = Ret (ring1, sigs1) →
  timers ring1 !! cur = Some s → s ≠ NULL →
  tick_loop (S fuel) cur head ring t sigs =
    if hd t l =? head then Ret (ring1, sigs1) else tick_loop fuel cur head ring1 (hd t l) sigs1.
Proof.
  intros (n & Hn & <-)%walk_first Hstep Hs H0. cbn [tick_loop]. rewrite Hn.
  cbn [get mbind outcome_bind]. rewrite Hstep. cbn [mbind outcome_bind]. rewrite Hs.
  cbn [get mbind outcome_bind]. by rewrite (proj2 (Z.eqb_neq s NULL)).
Qed.

(** The pass, once the head is known to stay: [t :: todo] are the nodes still
    to visit, [dn] those already visited. *)
Lemma tick_loop_head_stays cap cur head todo : ∀ ring q t dn es eds sigs fuel,
  pass_inv cap ring q ((t :: todo) ++ head :: dn) (es ++ eds) →
  length es = length (t :: todo) → timers ring !! cur = Some head →
  (length sigs + length (fired es) ≤ MAX_TICK_TIME)%nat → (length (t :: todo) ≤ fuel)%nat →
  ∃ ring' kp freed,
    tick_loop fuel cur head ring t sigs = Ret (ring', sigs ++ fired es)
    ∧ pass_inv cap ring' (q ++ blocks freed) (head :: dn ++ kp) (eds ++ kept es)
    ∧ current ring' = current ring ∧ max ring' = max ring ∧ timers ring' = timers ring
    ∧ frame ((t :: todo) ++ head :: dn) (nodes ring) (nodes ring') ∧ kp ++ freed ≡ₚ t :: todo.
Proof.
  induction todo as [|t2 todo IH]; intros ring q t dn es eds sigs fuel Hinv Hes Hcur Hsigs Hfuel;
    (destruct fuel as [|fuel]; [cbn in Hfuel; lia|]);
    (destruct es as [|e es]; [done|]); cbn [app] in Hinv;
    rewrite (fired_cons e es), length_app in *;
    pose proof (pass_nodup _ _ _ _ _ Hinv) as Hnd; apply NoDup_cons in Hnd as [Ht Hnd];
    pose proof (pass_null _ _ _ _ _ Hinv) as H0;
    assert (head ≠ t ∧ head ≠ NULL) as [Hht Hh0] by set_solver;
    (destruct (tick_node_spec _ _ _ cur _ _ head e _ sigs Hinv Hcur ltac:(set_solver) ltac:(lia)) as
      (ring1 & Hstep & Hinv1 & Hcu & Hmx & Htm & Hf1));
    rewrite decide_False in Htm by done;
    (assert (timers ring1 = timers ring) as Htm1
      by (rewrite Htm; destruct (due e); by rewrite list_insert_id));
    rewrite <-Htm1 in Hcur;
    rewrite (tick_loop_next _ _ _ _ _ _ _ _ _ _ (pass_circle _ _ _ _ _ Hinv) Hstep Hcur Hh0);
    cbn [hd app].
  - destruct es; [|done]. rewrite Z.eqb_refl. exists ring1, (stay e t), (gone e t).
    cbn [fired app] in *. rewrite app_nil_r. do 5 (split; [done|]). split; [done|].
    by rewrite stay_gone.
  - rewrite (proj2 (Z.eqb_neq t2 head)) by (intros ->; apply NoDup_cons in Hnd as [Hnd _]; set_solver).
    destruct (IH ring1 (q ++ blocks (gone e t)) t2 (dn ++ stay e t) es (eds ++ kept [e])
                 (sigs ++ fired [e]) fuel)
      as (ring2 & kp & freed & -> & Hinv2 & ? & ? & ? & Hf2 & Hp2); try done.
    + cbn [app] in Hinv1. by rewrite <-!app_assoc in Hinv1.
    + cbn [length] in *. lia.
    + rewrite length_app. lia.
    + cbn [length] in *. lia.
    + exists ring2, (stay e t ++ kp), (gone e t ++ freed).
      rewrite (kept_cons e es), blocks_app, !(app_assoc q), !(app_assoc dn), !(app_assoc eds),
        !(app_assoc sigs). do 2 (split; [done|]). do 3 (split; [congruence|]). split.
      * eapply frame_trans; [exact Hf1|]. eapply frame_weaken; [|exact Hf2].
        unfold stay. destruct (due e); set_solver.
      * change (t :: t2 :: todo) with ([t] ++ t2 :: todo). rewrite <-Hp2, <-(stay_gone e t).
        solve_Permutation.
Qed.

(** *** The head of the slot fires *)
Definition signals (es : list entry) : list Z := (λ e, i32 e.1) <$> es.

(** Iterations until every node has fired. *)
Fixpoint rounds (es : list entry) : nat :=
  match es with [] => 0 | e :: es => S (Z.to_nat e.2) + rounds es end.

Lemma rounds_app es1 es2 : (rounds (es1 ++ es2) = rounds es1 + rounds es2)%nat.
Proof. induction es1; cbn [rounds app]; lia. Qed.

Lemma rounds_kept e : entry_ok e → (S (rounds (kept [e])) = rounds [e])%nat.
Proof.
  intros [_ H]. cbn [kept rounds]. unfold due. destruct (Z.eqb_spec e.2 0) as [->|]; [done|].
  cbn [rounds dec snd]. lia.
Qed.

Lemma fired_kept e es :
  (length (fired [e]) + length (es ++ kept [e]) = length (e :: es))%nat
  ∧ fired [e] ++ signals (es ++ kept [e]) ≡ₚ signals (e :: es).
Proof.
  unfold signals. rewrite length_app, fmap_app. cbn [fired kept]. destruct (due e); cbn.
  - by rewrite app_nil_r.
  - split; [lia|]. by rewrite Permutation_app_comm.
Qed.

Lemma tick_loop_last fuel cur head ring t l sigs ring1 sigs1 :
  circle (nodes ring) (t :: l) → tick_node cur ring t sigs = Ret (ring1, sigs1) →
  timers ring1 !! cur = Some NULL →
  tick_loop (S fuel) cur head ring t sigs = Ret (ring1, sigs1).
Proof.
  intros (n & Hn & _)%walk_first Hstep Hs. cbn [tick_loop]. rewrite Hn.
  cbn [get mbind outcome_bind]. rewrite Hstep. cbn [mbind outcome_bind]. by rewrite Hs.
Qed.

(** Once the head is gone, nothing stops the loop before the slot is empty. *)
Lemma tick_loop_head_gone cap cur head fuel : ∀ ring q t l es sigs s,
  pass_inv cap ring q (t :: l) es → head ∉ t :: l →
  timers ring !! cur = Some s → s ∈ t :: l →
  (length sigs + length es ≤ MAX_TICK_TIME)%nat → (rounds es ≤ fuel)%nat →
  ∃ ring' fs freed,
    tick_loop fuel cur head ring t sigs = Ret (ring', sigs ++ fs) ∧ fs ≡ₚ signals es
    ∧ pass_inv cap ring' (q ++ blocks freed) [] []
    ∧ current ring' = current ring ∧ max ring' = max ring
    ∧ timers ring' = <[cur := NULL]> (timers ring)
    ∧ frame (t :: l) (nodes ring) (nodes ring') ∧ freed ≡ₚ t :: l.
Proof.
  induction fuel as [|fuel IH]; intros ring q t l es sigs s Hinv Hhead Hcur Hs Hsigs Hfuel;
    pose proof (Forall2_length _ _ _ (pass_holds _ _ _ _ _ Hinv)) as Hlen;
    (destruct es as [|e es]; [done|]); [cbn in Hfuel; lia|].
  pose proof (pass_ok _ _ _ _ _ Hinv) as Hok. apply Forall_cons in Hok as [He _].
  pose proof (pass_null _ _ _ _ _ Hinv) as H0. pose proof (rounds_kept e He) as Hr.
  destruct (fired_kept e es) as [Hfk Hfp].
  destruct (tick_node_spec _ _ _ cur _ _ s e _ sigs Hinv Hcur Hs) as
      (ring1 & Hstep & Hinv1 & Hcu & Hmx & Htm & Hf1); [lia|].
  pose proof (lookup_lt_Some _ _ _ Hcur) as Hlt.
  set (s' := if due e then if decide (s = t) then hd NULL l else s else s) in *.
  assert (timers ring1 !! cur = Some s') as Hcur1 by (by rewrite Htm, list_lookup_insert_eq).
  pose proof (pass_circle _ _ _ _ _ Hinv) as Hc.
  destruct (l ++ stay e t) as [|t2 l2] eqn:El.
  - apply app_nil in El as [-> Hst]. unfold stay in Hst. destruct (due e) eqn:Edue; [|done].
    apply list_elem_of_singleton in Hs as ->.
    replace s' with NULL in * by (unfold s'; by rewrite decide_True).
    rewrite (tick_loop_last _ _ _ _ _ _ _ _ _ Hc Hstep Hcur1).
    destruct es; [|done]. exists ring1, (fired [e]), [t]. split; [done|].
    split; [cbn; by rewrite Edue|]. split; [cbn in Hinv1; rewrite Edue in Hinv1; unfold gone in Hinv1; by rewrite Edue in Hinv1|].
    by do 4 (split; [done|]).
  - assert (hd t l = t2) as Ht2 by (destruct l; cbn in El |- *; [|congruence]; unfold stay in El; destruct (due e); congruence).
    assert (s' ∈ t2 :: l2) as Hs'.
    { unfold s'. unfold stay in El. destruct (due e).
      - rewrite app_nil_r in El. destruct (decide (s = t)); rewrite El in *; [left | set_solver].
      - rewrite <-El. set_solver. }
    assert (∀ p, p ∈ t2 :: l2 → p ∈ t :: l) as Hsub.
    { intros p. rewrite <-El. unfold stay. destruct (due e); set_solver. }
    rewrite (tick_loop_next _ _ _ _ _ _ _ _ _ _ Hc Hstep Hcur1) by (intros E; rewrite E in Hs'; set_solver).
    rewrite Ht2, (proj2 (Z.eqb_neq t2 head)) by (intros ->; apply Hhead, Hsub; left).
    destruct (IH _ _ _ _ _ (sigs ++ fired [e]) _ Hinv1 ltac:(eauto) Hcur1 Hs')
      as (ring2 & fs & freed & -> & Hfs & Hinv2 & ? & ? & Htm2 & Hf2 & Hp2).
    { rewrite length_app. lia. }
    { rewrite rounds_app. cbn [rounds] in *. lia. }
    exists ring2, (fired [e] ++ fs), (gone e t ++ freed).
    rewrite blocks_app, !(app_assoc q), !(app_assoc sigs). split; [done|].
    split; [by rewrite Hfs|]. split; [done|]. do 2 (split; [congruence|]).
    split; [rewrite Htm2, Htm; apply list_insert_insert_eq|]. split.
    + eapply frame_trans; [exact Hf1|]. by eapply frame_weaken; [|exact Hf2].
    + rewrite Hp2, <-El. change (t :: l) with ([t] ++ l). rewrite <-(stay_gone e t). solve_Permutation.
Qed.
(** *** More signals than the result has room for *)
Lemma tick_node_full cap ring q cur t l e es sigs :
  pass_inv cap ring q (t :: l) (e :: es) → due e = true → (MAX_TICK_TIME ≤ length sigs)%nat →
  tick_node cur ring t sigs = Fault.
Proof.
  intros [_ _ _ Hh Hok _ _] He Hs. apply Forall2_cons in Hh as [(n & Hn & Hsig & Hret) _].
  apply Forall_cons in Hok as [[H0 _] _]. unfold tick_node. rewrite Hn. cbn [get mbind outcome_bind].
  unfold due in He. apply Z.eqb_eq in He. rewrite (proj2 (Z.eqb_neq (signal n) 0)) by congruence.
  rewrite Hret, He. cbn [Z.eqb]. by rewrite decide_False by lia.
Qed.

Lemma tick_loop_faults fuel cur head ring t l sigs :
  circle (nodes ring) (t :: l) → tick_node cur ring t sigs = Fault → tick_loop (S fuel) cur head ring t sigs = Fault.
Proof. intros (n & Hn & _)%walk_first E. cbn [tick_loop]. rewrite Hn. cbn [get mbind outcome_bind]. by rewrite E. Qed.

Lemma room_for_one e (sigs : list Z) :
  (length sigs ≤ MAX_TICK_TIME)%nat → ¬ (due e = true ∧ (MAX_TICK_TIME ≤ length sigs)%nat) →
  (length sigs + length (fired [e]) ≤ MAX_TICK_TIME)%nat.
Proof.
  intros Hs H. cbn [fired]. destruct (due e); cbn [length]; [|lia].
  destruct (decide (MAX_TICK_TIME ≤ length sigs)%nat); [tauto|lia].
Qed.

Lemma stays_overflow cap cur head todo : ∀ ring q t dn es eds sigs fuel,
  pass_inv cap ring q ((t :: todo) ++ head :: dn) (es ++ eds) →
  length es = length (t :: todo) → timers ring !! cur = Some head →
  (length sigs ≤ MAX_TICK_TIME < length sigs + length (fired es))%nat → (length (t :: todo) ≤ fuel)%nat →
  tick_loop fuel cur head ring t sigs = Fault.
Proof.
  induction todo as [|t2 todo IH]; intros ring q t dn es eds sigs fuel Hinv Hes Hcur Hsigs Hfuel;
    (destruct fuel as [|fuel]; [cbn in Hfuel; lia|]);
    (destruct es as [|e es]; [done|]); cbn [app] in Hinv;
    pose proof (pass_circle _ _ _ _ _ Hinv) as Hc;
    (destruct (decide (due e = true ∧ (MAX_TICK_TIME ≤ length sigs)%nat)) as [[He Hm]|Hroom];
      [eapply tick_loop_faults; [exact Hc | by eapply tick_node_full]|]);
    rewrite (fired_cons e es), length_app in Hsigs;
    pose proof (room_for_one e sigs ltac:(lia) Hroom) as Hle.
  - destruct es; [|done]. change (length (fired [])) with 0%nat in Hsigs. lia.
  - pose proof (pass_nodup _ _ _ _ _ Hinv) as Hnd. apply NoDup_cons in Hnd as [Ht Hnd].
    pose proof (pass_null _ _ _ _ _ Hinv) as H0. assert (head ≠ t ∧ head ≠ NULL) as [Hht Hh0] by set_solver.
    destruct (tick_node_spec _ _ _ cur _ _ head e _ sigs Hinv Hcur ltac:(set_solver) Hle) as
      (ring1 & Hstep & Hinv1 & _ & _ & Htm & _).
    rewrite decide_False in Htm by done.
    assert (timers ring1 !! cur = Some head) as Hcur1 by (rewrite Htm; destruct (due e); by rewrite list_insert_id).
    rewrite (tick_loop_next _ _ _ _ _ _ _ _ _ _ Hc Hstep Hcur1 Hh0). cbn [hd app].
    rewrite (proj2 (Z.eqb_neq t2 head)) by (intros ->; apply NoDup_cons in Hnd as [Hnd _]; set_solver).
    eapply (IH ring1 _ t2 (dn ++ stay e t) es (eds ++ kept [e])); [|by injection Hes|done| |by cbn in *; lia].
    + cbn [app] in Hinv1. rewrite <-!app_assoc in Hinv1. exact Hinv1.
    + rewrite length_app. lia.
Qed.

Lemma gone_overflow cap cur head fuel : ∀ ring q t l es sigs s,
  pass_inv cap ring q (t :: l) es → head ∉ t :: l →
  timers ring !! cur = Some s → s ∈ t :: l →
  (length sigs ≤ MAX_TICK_TIME < length sigs + length es)%nat → (rounds es ≤ fuel)%nat →
  tick_loop fuel cur head ring t sigs = Fault.
Proof.
  induction fuel as [|fuel IH]; intros ring q t l es sigs s Hinv Hhead Hcur Hs Hsigs Hfuel;
    pose proof (Forall2_length _ _ _ (pass_holds _ _ _ _ _ Hinv)) as Hlen;
    (destruct es as [|e es]; [done|]); [cbn in Hfuel; lia|].
  pose proof (pass_ok _ _ _ _ _ Hinv) as Hok. apply Forall_cons in Hok as [He _].
  pose proof (pass_null _ _ _ _ _ Hinv) as H0. pose proof (rounds_kept e He) as Hr.
  destruct (fired_kept e es) as [Hfk _]. pose proof (pass_circle _ _ _ _ _ Hinv) as Hc.
  destruct (decide (due e = true ∧ (MAX_TICK_TIME ≤ length sigs)%nat)) as [[Hd Hm]|Hroom];
    [eapply tick_loop_faults; [exact Hc | by eapply tick_node_full]|].
  pose proof (room_for_one e sigs ltac:(lia) Hroom) as Hle.
  destruct (tick_node_spec _ _ _ cur _ _ s e _ sigs Hinv Hcur Hs Hle) as (ring1 & Hstep & Hinv1 & _ & _ & Htm & _).
  pose proof (lookup_lt_Some _ _ _ Hcur) as Hlt.
  set (s' := if due e then if decide (s = t) then hd NULL l else s else s) in *.
  assert (timers ring1 !! cur = Some s') as Hcur1 by (by rewrite Htm, list_lookup_insert_eq).
  pose proof (Forall2_length _ _ _ (pass_holds _ _ _ _ _ Hinv1)) as Hlen1.
  destruct (l ++ stay e t) as [|t2 l2] eqn:El; [cbn [length] in *; lia|].
  assert (hd t l = t2) as Ht2 by (destruct l; cbn in El |- *; [|congruence]; unfold stay in El; destruct (due e); congruence).
  assert (∀ p, p ∈ t2 :: l2 → p ∈ t :: l) as Hsub.
  { intros p. rewrite <-El. unfold stay. destruct (due e); set_solver. }
  assert (s' ∈ t2 :: l2) as Hs'.
  { unfold s'. unfold stay in El. destruct (due e).
    - rewrite app_nil_r in El. destruct (decide (s = t)); rewrite El in *; [left | set_solver].
    - rewrite <-El. set_solver. }
  rewrite (tick_loop_next _ _ _ _ _ _ _ _ _ _ Hc Hstep Hcur1) by (intros E; rewrite E in Hs'; set_solver).
  rewrite Ht2, (proj2 (Z.eqb_neq t2 head)) by (intros ->; apply Hhead, Hsub; left).
  eapply (IH _ _ _ _ _ (sigs ++ fired [e]) _ Hinv1 ltac:(eauto) Hcur1 Hs').
  - rewrite length_app. lia.
  - rewrite rounds_app. cbn [rounds] in *. lia.
Qed.
End steps.

(** ** The abstract wheel *)
Abbreviation wheel := (list (list entry)).

(** What [tick_ringtimer] does to the current slot: when the first entry is
    not due, the due entries fire and the others lose a revolution; when it
    is due, the loop, which looks for the removed head, empties the slot. *)
Definition slot_tick (es : list entry) : list Z * list entry :=
  match es with
  | [] => ([], [])
  | e :: _ => if due e then (signals es, []) else (fired es, kept es)
  end.

Section wheels.
Context {Q : Type} `{!PacketQueue Q}.
Implicit Types (ring : ringtimer Q) (w : wheel).

(** [B] are the addresses of the blocks, [cap] the capacity of the allocator:
    every block is free, or a node of one slot. *)
Record timer_at (cap : nat) (B : list Z) ring w (ps : list (list Z)) (q : list item) : Prop := {
  at_ps : length ps = length w;
  at_timers : length (timers ring) = length w;
  at_max : max ring = Z.of_nat (length w);
  at_pos : 0 < max ring;
  at_u32 : is_u32 (max ring);
  at_current : 0 ≤ current ring < max ring;
  at_slot i t pl es : timers ring !! i = Some t → ps !! i = Some pl → w !! i = Some es →
    slot_rep (nodes ring) t pl es;
  at_ok i es : w !! i = Some es → Forall entry_ok es;
  at_free : pq_rep cap (allocator ring) q;
  at_blocks : concat ps ++ q.*1 ≡ₚ B;
  at_nodup : NoDup B;
  at_null : NULL ∉ B;
  at_nodes p : p ∈ B → is_Some (nodes ring !! p);
  at_cap : (length B ≤ cap)%nat
}.

Definition timer_rep (cap : nat) (B : list Z) ring w : Prop := ∃ ps q, timer_at cap B ring w ps q.

Lemma concat_insert {A} (ps : list (list A)) i pl pl' :
  ps !! i = Some pl → concat (<[i := pl']> ps) ++ pl ≡ₚ concat ps ++ pl'.
Proof.
  revert i; induction ps as [|x ps IH]; intros [|i] H; cbn in H; [done..| |].
  - simplify_eq. cbn. solve_Permutation.
  - cbn. specialize (IH i H). rewrite <-!app_assoc, IH. done.
Qed.

Lemma concat_lookup (ps : list (list Z)) i pl p : ps !! i = Some pl → p ∈ pl → p ∈ concat ps.
Proof.
  intros Hi Hp. apply list_elem_of_In, in_concat. exists pl. split; [|by apply list_elem_of_In].
  eapply list_elem_of_In, list_elem_of_lookup_2, Hi.
Qed.

Lemma concat_disjoint (ps : list (list Z)) i j pl pl' p :
  NoDup (concat ps) → ps !! i = Some pl → ps !! j = Some pl' → p ∈ pl → p ∈ pl' → i = j.
Proof.
  revert i j; induction ps as [|x ps IH]; intros i j Hnd Hi Hj Hp Hp'; [done|].
  cbn in Hnd. apply NoDup_app in Hnd as (_ & Hd & Hnd).
  destruct i as [|i], j as [|j]; cbn in Hi, Hj; simplify_eq; try done.
  - destruct (Hd p Hp). eapply concat_lookup; eauto.
  - destruct (Hd p Hp'). eapply concat_lookup; eauto.
  - f_equal. by eapply IH.
Qed.

(** Replacing the contents of slot [i]: the nodes that change were in the slot
    or among the free blocks. *)
Lemma timer_update cap B ring w ps q ring' i pl es pl' es' q' t' :
  timer_at cap B ring w ps q → ps !! i = Some pl → w !! i = Some es →
  frame (pl ++ q.*1) (nodes ring) (nodes ring') →
  timers ring' = <[i := t']> (timers ring) → slot_rep (nodes ring') t' pl' es' →
  Forall entry_ok es' → pq_rep cap (allocator ring') q' →
  pl' ++ q'.*1 ≡ₚ pl ++ q.*1 → max ring' = max ring → 0 ≤ current ring' < max ring →
  timer_at cap B ring' (<[i := es']> w) (<[i := pl']> ps) q'.
Proof.
  intros Hat Hpl Hes [Hf1 Hf2] Htm Hslot Hok Hq' Hperm Hmax Hcur. destruct Hat.
  pose proof (lookup_lt_Some _ _ _ Hes) as Hlt.
  assert (NoDup (concat ps ++ q.*1)) as Hnd by (by rewrite at_blocks0).
  apply NoDup_app in Hnd as (Hnd & Hdis & _).
  split; rewrite ?length_insert, ?Htm, ?Hmax; try done; try (rewrite length_insert; congruence).
  - intros j t plj esj. destruct (decide (i = j)) as [<-|Hne].
    + rewrite !list_lookup_insert_eq by (rewrite ?at_timers0, ?at_ps0; done). intros. by simplify_eq.
    + rewrite !list_lookup_insert_ne by done. intros Ht Hpj Hej.
      eapply slot_rep_same; [|by eapply at_slot0]. intros p Hp. apply Hf1.
      rewrite elem_of_app. intros [Hp'|Hp'].
      * apply Hne. by eapply (concat_disjoint ps).
      * eapply Hdis, Hp'. by eapply concat_lookup.
  - intros j esj. destruct (decide (i = j)) as [<-|Hne].
    + rewrite list_lookup_insert_eq by done. intros. by simplify_eq.
    + rewrite list_lookup_insert_ne by done. apply at_ok0.
  - rewrite <-at_blocks0. apply (Permutation_app_inv_r pl).
    rewrite <-!app_assoc, (Permutation_app_comm q'.*1), app_assoc, (concat_insert _ _ _ _ Hpl).
    rewrite <-!app_assoc, Hperm. solve_Permutation.
  - intros p Hp. by apply Hf2, at_nodes0.
Qed.

(** *** A tick *)
Lemma tick_slot_fires cap ring q cur head rest e es fuel :
  due e = true →
  pass_inv cap ring q (head :: rest) (e :: es) → timers ring !! cur = Some head →
  (length (e :: es) ≤ MAX_TICK_TIME)%nat → (rounds (e :: es) ≤ fuel)%nat →
  ∃ ring' fs freed,
    tick_loop fuel cur head ring head [] = Ret (ring', fs) ∧ fs ≡ₚ signals (e :: es)
    ∧ pass_inv cap ring' (q ++ blocks freed) [] []
    ∧ current ring' = current ring ∧ max ring' = max ring
    ∧ timers ring' = <[cur := NULL]> (timers ring)
    ∧ frame (head :: rest) (nodes ring) (nodes ring') ∧ freed ≡ₚ head :: rest.
Proof.
  intros Edue Hinv Hcur Hlen Hfuel. destruct fuel as [|fuel]; [cbn in Hfuel; lia|].
  pose proof (pass_null _ _ _ _ _ Hinv) as H0. pose proof (pass_nodup _ _ _ _ _ Hinv) as Hnd.
  apply NoDup_cons in Hnd as [Hh _]. pose proof (pass_circle _ _ _ _ _ Hinv) as Hc.
  pose proof (Forall2_length _ _ _ (pass_holds _ _ _ _ _ Hinv)) as Hl.
  destruct (tick_node_spec _ _ _ cur _ _ head e _ [] Hinv Hcur ltac:(left)) as
    (ring1 & Hstep & Hinv1 & Hcu & Hmx & Htm & Hf1); [cbn; rewrite Edue; cbn; unfold MAX_TICK_TIME; lia|].
  rewrite Edue, decide_True in Htm by done. pose proof (lookup_lt_Some _ _ _ Hcur) as Hlt.
  assert (fired [e] = [i32 e.1] ∧ kept [e] = [] ∧ gone e head = [head] ∧ stay e head = [])
    as (Ef & Ek & Eg & Es) by (unfold gone, stay; cbn; by rewrite Edue).
  rewrite Ef, Ek, Eg, Es, !app_nil_r in *. cbn [app] in Hstep.
  destruct rest as [|t2 rest]; cbn [hd] in Htm.
  - assert (timers ring1 !! cur = Some NULL) as Hcur1 by (by rewrite Htm, list_lookup_insert_eq).
    rewrite (tick_loop_last _ _ _ _ _ _ _ _ _ Hc Hstep Hcur1). destruct es; [|done].
    exists ring1, [i32 e.1], [head]. by do 6 (split; [done|]).
  - assert (timers ring1 !! cur = Some t2) as Hcur1 by (by rewrite Htm, list_lookup_insert_eq).
    rewrite (tick_loop_next _ _ _ _ _ _ _ _ _ _ Hc Hstep Hcur1) by (intros E; rewrite E in H0; set_solver).
    cbn [hd]. rewrite (proj2 (Z.eqb_neq t2 head)) by (intros ->; apply Hh; left).
    destruct (tick_loop_head_gone _ cur head fuel _ _ _ _ _ [i32 e.1] _ Hinv1 Hh Hcur1 ltac:(left))
      as (ring2 & fs & freed & -> & Hfs & Hinv2 & ? & ? & Htm2 & Hf2 & Hp2).
    { cbn [length] in *. lia. }
    { cbn [rounds] in *. lia. }
    exists ring2, ([i32 e.1] ++ fs), (head :: freed). split; [done|].
    split; [by rewrite Hfs|]. split; [by rewrite <-app_assoc in Hinv2|].
    do 2 (split; [congruence|]). split; [rewrite Htm2, Htm; apply list_insert_insert_eq|].
    split; [|by rewrite Hp2]. eapply frame_trans; [exact Hf1|].
    eapply frame_weaken; [|exact Hf2]. by right.
Qed.

Lemma length_fired es : (length (fired es) ≤ length es)%nat.
Proof. induction es as [|e es]; cbn; [lia|]. destruct (due e); cbn; lia. Qed.

Lemma length_slot_tick es : (length (slot_tick es).1 ≤ length es)%nat.
Proof.
  destruct es as [|e es]; [done|]. cbn [slot_tick]. destruct (due e); cbn [fst]; [unfold signals; by rewrite length_fmap|].
  apply length_fired.
Qed.

Lemma length_rounds es : (length es ≤ rounds es)%nat.
Proof. induction es as [|e es]; cbn; lia. Qed.

Lemma tick_slot_stays cap ring q cur head rest e es fuel :
  due e = false →
  pass_inv cap ring q (head :: rest) (e :: es) → timers ring !! cur = Some head →
  (length (fired es) ≤ MAX_TICK_TIME)%nat → (rounds (e :: es) ≤ fuel)%nat →
  ∃ ring' kp freed,
    tick_loop fuel cur head ring head [] = Ret (ring', fired es)
    ∧ pass_inv cap ring' (q ++ blocks freed) (head :: kp) (dec e :: kept es)
    ∧ current ring' = current ring ∧ max ring' = max ring ∧ timers ring' = timers ring
    ∧ frame (head :: rest) (nodes ring) (nodes ring') ∧ kp ++ freed ≡ₚ rest.
Proof.
  intros Edue Hinv Hcur Hlen Hfuel. destruct fuel as [|fuel]; [cbn in Hfuel; lia|].
  pose proof (pass_null _ _ _ _ _ Hinv) as H0. pose proof (pass_nodup _ _ _ _ _ Hinv) as Hnd.
  apply NoDup_cons in Hnd as [Hh _]. pose proof (pass_circle _ _ _ _ _ Hinv) as Hc.
  pose proof (Forall2_length _ _ _ (pass_holds _ _ _ _ _ Hinv)) as Hl. injection Hl as Hl.
  destruct (tick_node_spec _ _ _ cur _ _ head e _ [] Hinv Hcur ltac:(left)) as
    (ring1 & Hstep & Hinv1 & Hcu & Hmx & Htm & Hf1); [cbn; rewrite Edue; cbn; unfold MAX_TICK_TIME; lia|].
  rewrite Edue, list_insert_id in Htm by done.
  assert (fired [e] = [] ∧ kept [e] = [dec e] ∧ gone e head = [] ∧ stay e head = [head])
    as (Ef & Ek & Eg & Es) by (unfold gone, stay; cbn; by rewrite Edue).
  rewrite Ef, Ek, Eg, Es in *. cbn [app blocks fmap list_fmap] in *. rewrite app_nil_r in Hinv1.
  assert (timers ring1 !! cur = Some head) as Hcur1 by (by rewrite Htm).
  assert (head ≠ NULL) as Hh0 by (intros ->; set_solver).
  rewrite (tick_loop_next _ _ _ _ _ _ _ _ _ _ Hc Hstep Hcur1 Hh0).
  destruct rest as [|t2 rest]; cbn [hd].
  - rewrite Z.eqb_refl. destruct es; [|done]. exists ring1, [], [].
    cbn [blocks fmap list_fmap] in *. rewrite app_nil_r. by do 6 (split; [done|]).
  - rewrite (proj2 (Z.eqb_neq t2 head)) by (intros ->; apply Hh; left).
    pose proof (length_rounds es).
    destruct (tick_loop_head_stays _ cur head rest _ _ t2 [] es [dec e] [] fuel Hinv1)
      as (ring2 & kp & freed & -> & Hinv2 & ? & ? & Htm2 & Hf2 & Hp2); [by cbn in *|done|..].
    { cbn [length] in *. lia. }
    { cbn [length rounds] in *. lia. }
    exists ring2, kp, freed. split; [done|]. split; [done|]. do 3 (split; [congruence|]).
    split; [|done]. eapply frame_trans; [exact Hf1|].
    eapply frame_weaken; [|exact Hf2]. set_solver.
Qed.

Lemma tick_current (c n : Z) : 0 ≤ c < n → is_u32 n → u32 (c + 1) mod n = (c + 1) mod n.
Proof. intros. by rewrite u32_id by (unfold is_u32 in *; lia). Qed.

Lemma slot_pass cap B ring w ps q i t pl es :
  timer_at cap B ring w ps q → timers ring !! i = Some t → ps !! i = Some pl → w !! i = Some es →
  t = hd NULL pl ∧ pass_inv cap ring q pl es.
Proof.
  intros [] Ht Hpl Hes. destruct (at_slot0 _ _ _ _ Ht Hpl Hes) as (Hhd & Hc & Hh).
  assert (NoDup (concat ps ++ q.*1) ∧ NULL ∉ concat ps ++ q.*1) as [Hnd Hnull] by (by rewrite at_blocks0).
  apply NoDup_app in Hnd as (Hnd & _). rewrite elem_of_app in Hnull.
  pose proof (Permutation_length at_blocks0) as Hbl. rewrite length_app, length_fmap in Hbl.
  pose proof (concat_insert ps i pl [] Hpl) as Hperm. rewrite app_nil_r in Hperm.
  split; [done|]. split; eauto.
  - rewrite <-Hperm in Hnd. by apply NoDup_app in Hnd as (_ & _ & ?).
  - intros H. apply Hnull. left. by eapply concat_lookup.
  - apply Permutation_length in Hperm. rewrite length_app in Hperm. lia.
Qed.

(** [ring->current = (ring->current + 1) % ring->max] after a pass that leaves
    the nodes [kp] in the slot. *)
Definition advance ring : ringtimer Q :=
  RT (timers ring) (u32 (current ring + 1) mod max ring) (max ring) (allocator ring) (nodes ring).

Lemma tick_finish cap B ring w ps q i pl es ring' kp freed es' :
  timer_at cap B ring w ps q → ps !! i = Some pl → w !! i = Some es →
  pass_inv cap ring' (q ++ blocks freed) kp es' →
  current ring' = current ring → max ring' = max ring →
  timers ring' = <[i := hd NULL kp]> (timers ring) →
  frame pl (nodes ring) (nodes ring') → kp ++ freed ≡ₚ pl →
  timer_rep cap B (advance ring') (<[i := es']> w)
  ∧ current (advance ring') = (current ring + 1) mod max ring ∧ max (advance ring') = max ring.
Proof.
  intros Hat Hpl Hes [] Ecur Emax Etm Hf Hp. unfold advance. cbn [current max].
  pose proof (at_pos _ _ _ _ _ _ Hat). pose proof (at_u32 _ _ _ _ _ _ Hat).
  pose proof (at_current _ _ _ _ _ _ Hat).
  rewrite Ecur, Emax, tick_current by done. split; [|done].
  do 2 eexists. eapply (timer_update cap B ring w ps q _ i pl es kp es' (q ++ blocks freed) (hd NULL kp));
    cbn [nodes timers allocator max current]; eauto; [..|apply Z.mod_pos_bound; lia].
  - eapply frame_weaken; [|exact Hf]. intros p Hp'. apply elem_of_app. by left.
  - by split.
  - rewrite fmap_app, <-Hp, blocks_fst. solve_Permutation.
Qed.

Lemma tick_refines cap B ring w es fuel :
  timer_rep cap B ring w → w !! Z.to_nat (current ring) = Some es →
  (length (slot_tick es).1 ≤ MAX_TICK_TIME)%nat → (rounds es ≤ fuel)%nat →
  ∃ ring' fs, tick_ringtimer fuel ring = Ret (ring', fs) ∧ fs ≡ₚ (slot_tick es).1
  ∧ timer_rep cap B ring' (<[Z.to_nat (current ring) := (slot_tick es).2]> w)
  ∧ current ring' = (current ring + 1) mod max ring ∧ max ring' = max ring.
Proof.
  intros (ps & q & Hat) Hes Hlen Hfuel. unfold tick_ringtimer.
  set (c := Z.to_nat (current ring)) in *.
  pose proof (lookup_lt_Some _ _ _ Hes) as Hlt. pose proof (at_pos _ _ _ _ _ _ Hat) as Hpos.
  destruct (lookup_lt_is_Some_2 (timers ring) c) as [head Hhead].
  { by rewrite (at_timers _ _ _ _ _ _ Hat). }
  destruct (lookup_lt_is_Some_2 ps c) as [pl Hpl].
  { by rewrite (at_ps _ _ _ _ _ _ Hat). }
  destruct (slot_pass _ _ _ _ _ _ _ _ _ _ Hat Hhead Hpl Hes) as [-> Hinv].
  rewrite Hhead. cbn [get mbind outcome_bind].
  destruct pl as [|p0 pl]; cbn [hd] in *.
  - rewrite Z.eqb_refl. cbn [mbind outcome_bind].
    pose proof (pass_holds _ _ _ _ _ Hinv) as Hh. inversion Hh; subst es.
    rewrite (proj2 (Z.eqb_neq (max ring) 0)) by lia. exists (advance ring), []. split; [done|]. split; [done|].
    eapply (tick_finish _ _ _ _ _ _ _ _ _ ring [] []); try done.
    + cbn. by rewrite app_nil_r.
    + cbn. by rewrite list_insert_id.
  - assert (p0 ≠ NULL) as Hp0. { intros ->. apply (pass_null _ _ _ _ _ Hinv). left. }
    rewrite (proj2 (Z.eqb_neq p0 NULL)) by done.
    destruct es as [|e es]; [pose proof (pass_holds _ _ _ _ _ Hinv) as Hh; by inversion Hh|].
    cbn [slot_tick] in *. destruct (due e) eqn:Edue; cbn [fst] in Hlen.
    + unfold signals in Hlen. rewrite length_fmap in Hlen. destruct (tick_slot_fires _ _ _ _ _ _ _ _ _ Edue Hinv Hhead Hlen Hfuel)
        as (ring1 & fs & freed & -> & Hfs & Hinv1 & ? & Hm & ? & ? & ?). cbn [mbind outcome_bind].
      rewrite (proj2 (Z.eqb_neq (max ring1) 0)) by lia. exists (advance ring1), fs.
      split; [done|]. split; [done|]. by eapply (tick_finish _ _ _ _ _ _ _ _ _ ring1 [] freed []).
    + cbn [fired] in Hlen. rewrite Edue in Hlen. destruct (tick_slot_stays _ _ _ _ _ _ _ _ _ Edue Hinv Hhead Hlen Hfuel)
        as (ring1 & kp & freed & -> & Hinv1 & ? & Hm & Ht & ? & Hp). cbn [mbind outcome_bind].
      rewrite (proj2 (Z.eqb_neq (max ring1) 0)) by lia. exists (advance ring1), (fired es).
      split; [done|]. split; [cbn [fired]; by rewrite Edue|]. cbn [kept snd]. rewrite Edue.
      eapply (tick_finish _ _ _ _ _ _ _ _ _ ring1 (p0 :: kp) freed); try done.
      * cbn [hd]. by rewrite list_insert_id.
      * cbn. by rewrite Hp.
Qed.

(** More signals than fit: the tick stores the 65th past the end. *)
Lemma tick_overflows cap B ring w es fuel :
  timer_rep cap B ring w → w !! Z.to_nat (current ring) = Some es →
  (MAX_TICK_TIME < length (slot_tick es).1)%nat → (rounds es ≤ fuel)%nat → tick_ringtimer fuel ring = Fault.
Proof.
  intros (ps & q & Hat) Hes Hlen Hfuel. unfold tick_ringtimer. set (c := Z.to_nat (current ring)) in *.
  pose proof (lookup_lt_Some _ _ _ Hes) as Hlt. pose proof (length_rounds es) as Hle.
  destruct (lookup_lt_is_Some_2 (timers ring) c) as [head Hhead]; [by rewrite (at_timers _ _ _ _ _ _ Hat)|].
  destruct (lookup_lt_is_Some_2 ps c) as [pl Hpl]; [by rewrite (at_ps _ _ _ _ _ _ Hat)|].
  destruct (slot_pass _ _ _ _ _ _ _ _ _ _ Hat Hhead Hpl Hes) as [-> Hinv].
  destruct es as [|e es]; [cbn in Hlen; lia|]. pose proof (Forall2_length _ _ _ (pass_holds _ _ _ _ _ Hinv)) as Hl.
  destruct pl as [|p0 pl]; [done|]. rewrite Hhead. cbn [get mbind outcome_bind hd] in *.
  rewrite (proj2 (Z.eqb_neq p0 NULL)) by (intros ->; apply (pass_null _ _ _ _ _ Hinv); left).
  destruct fuel as [|fuel]; [cbn in Hfuel; lia|].
  pose proof (pass_nodup _ _ _ _ _ Hinv) as Hnd. apply NoDup_cons in Hnd as [Hh _].
  pose proof (pass_circle _ _ _ _ _ Hinv) as Hc. pose proof (pass_null _ _ _ _ _ Hinv) as H0.
  destruct (tick_node_spec _ _ _ c _ _ p0 e _ [] Hinv Hhead ltac:(left)) as (ring1 & Hstep & Hinv1 & _ & _ & Htm & _);
    [cbn [fired]; destruct (due e); unfold MAX_TICK_TIME; cbn [length]; lia|].
  pose proof (lookup_lt_Some _ _ _ Hhead) as Hlt1. cbn [slot_tick] in Hlen. unfold stay in Hinv1. cbn [fired kept] in *.
  destruct (due e) eqn:Ed; cbn [fst] in Hlen; cbn [app] in Hstep.
  - unfold signals in Hlen. rewrite length_fmap in Hlen. rewrite !app_nil_r in Hinv1. rewrite decide_True in Htm by done.
    destruct pl as [|t2 pl]; [destruct es; [cbn in Hlen; unfold MAX_TICK_TIME in Hlen; lia | done]|]. cbn [hd] in Htm.
    assert (timers ring1 !! c = Some t2) as Hcur1 by (by rewrite Htm, list_lookup_insert_eq).
    rewrite (tick_loop_next _ _ _ _ _ _ _ _ _ _ Hc Hstep Hcur1) by (intros E; rewrite E in H0; set_solver). cbn [hd].
    rewrite (proj2 (Z.eqb_neq t2 p0)) by (intros ->; apply Hh; left).
    by rewrite (gone_overflow _ _ _ fuel _ _ _ _ _ _ _ Hinv1 Hh Hcur1 ltac:(left))
      by (unfold MAX_TICK_TIME in *; cbn [length rounds] in *; lia).
  - rewrite list_insert_id in Htm by done. rewrite app_nil_r in Hinv1 || idtac.
    assert (timers ring1 !! c = Some p0) as Hcur1 by (by rewrite Htm).
    rewrite (tick_loop_next _ _ _ _ _ _ _ _ _ _ Hc Hstep Hcur1) by (intros ->; apply H0; left).
    destruct pl as [|t2 pl]; [destruct es; [cbn in Hlen; lia | done]|]. cbn [hd].
    rewrite (proj2 (Z.eqb_neq t2 p0)) by (intros ->; apply Hh; left).
    pose proof (length_rounds es).
    by rewrite (stays_overflow _ _ _ pl _ _ t2 [] es [dec e] [] fuel Hinv1)
      by (done || (cbn [length rounds] in *; lia)).
Qed.

(** *** An insertion *)

(** Linking the new node [p] between the last node and the first one, [f]:
    [last->next = p], the fields of [p], [f->prev = p]. *)
(** The pointers of the old nodes once [p] is linked between [last] and [f]. *)
Lemma link_links h f last p n nl nf1 (h1 := <[p := n]> (<[last := set_next p nl]> h)) (h2 := <[f := set_prev p nf1]> h1) :
  h !! last = Some nl → h1 !! f = Some nf1 →
  (∀ q, q ≠ p → same_data h h2 q)
  ∧ (∀ q, q ≠ p → q ≠ last → same_next h h2 q) ∧ (∀ q, q ≠ p → q ≠ f → same_prev h h2 q).
Proof.
  intros Hnl Hnf1. split_and!.
  - intros q Hq e He. unfold h2. apply (set_prev_data _ f _ _ Hnf1).
    apply (same_eq (<[last := set_next p nl]> h)); [unfold h1; by rewrite lookup_insert_ne|]. by apply (set_next_data _ last _ _ Hnl).
  - intros q ? ? n' Hn. apply (set_prev_next h1 f p nf1 Hnf1 q n'). unfold h1. by rewrite !lookup_insert_ne.
  - intros q ? ? n' Hn. unfold h2, h1. rewrite !lookup_insert_ne by done.
    by apply (set_next_prev h last p nl Hnl q n').
Qed.

Lemma append_circle h f l p sig r nl np :
  circle h (f :: l) → NoDup (f :: l) → p ∉ f :: l →
  let last := default f (last l) in
  h !! last = Some nl → h !! p = Some np →
  ∃ nf, h !! f = Some nf ∧ prev nf = last
  ∧ let h1 := <[p := Node r sig last f]> (<[last := set_next p nl]> h) in
    ∃ nf1, h1 !! f = Some nf1
    ∧ let h2 := <[f := set_prev p nf1]> h1 in
      circle h2 (f :: l ++ [p]) ∧ (∀ q, q ≠ p → same_data h h2 q) ∧ holds h2 p (sig, r)
      ∧ frame (p :: f :: l) h h2.
Proof.
  intros Hc Hnd Hp last Hnl Hnp. cbn [circle] in Hc.
  destruct (walk_last _ _ _ _ Hc) as (nf & Hnf & Hprev). exists nf. split; [done|]. split; [done|].
  cbv zeta. assert (p ≠ f ∧ p ∉ l) as [Hpf Hpl] by set_solver.
  assert (last ∈ f :: l) as Hlin.
  { subst last. destruct (list.last l) eqn:El; cbn; [right; by apply last_Some_elem_of|left]. }
  assert (p ≠ last) as Hplast by (intros <-; done).
  set (h0 := <[last := set_next p nl]> h).
  set (h1 := <[p := Node r sig last f]> h0).
  assert (∃ nf1, h0 !! f = Some nf1) as [nf1 Hnf1].
  { unfold h0. destruct (decide (last = f)) as [->|]; [rewrite lookup_insert_eq|rewrite lookup_insert_ne by done]; eauto. }
  assert (h1 !! f = Some nf1) as Hnf1' by (unfold h1; by rewrite lookup_insert_ne).
  exists nf1. split; [done|]. set (h2 := <[f := set_prev p nf1]> h1).
  assert (h2 !! p = Some (Node r sig last f)) as Hp2.
  { unfold h2, h1. rewrite lookup_insert_ne by done. by rewrite lookup_insert_eq. }
  destruct (link_links h f last p (Node r sig last f) nl nf1 Hnl Hnf1') as (Hdata & Hsn & Hsp). fold h0 h1 h2 in Hdata, Hsn, Hsp.
  split; [|split; [done|split]].
  - cbn [circle]. rewrite walk_app. split; cycle 1.
    { exists (Node r sig last f), (set_prev p nf1). unfold h2 at 2. by rewrite lookup_insert_eq. }
    destruct (rev l) as [|c k] eqn:El; apply (f_equal (@rev Z)) in El;
      rewrite rev_involutive in El; cbn [rev] in El; subst l.
    + cbn [walk]. exists (set_prev p nf1), (Node r sig last f).
      split; [by unfold h2; rewrite lookup_insert_eq|]. split; [done|]. split; [|done].
      unfold h0 in Hnf1. cbn in Hnf1. rewrite lookup_insert_eq in Hnf1. by simplify_eq.
    + assert (last = c) as Hlc by (subst last; by rewrite last_snoc).
      rewrite walk_app in Hc |- *. destruct Hc as [Hw _].
      apply NoDup_cons in Hnd as [Hf Hnd]. apply NoDup_app in Hnd as (_ & Hd & _).
      split.
      * eapply walk_same; [..|exact Hw]; apply Forall_forall; intros q Hq.
        -- apply Hsn; [set_solver|]. rewrite Hlc. intros ->. set_solver.
        -- apply Hsp; [set_solver|]. intros ->. set_solver.
      * cbn [walk]. assert (c ≠ f) as Hcf by (intros ->; apply Hf; set_solver).
        exists (set_next p nl), (Node r sig last f). rewrite <-Hlc in Hcf |- *.
        unfold h2 at 1, h1 at 1, h0. rewrite !lookup_insert_ne by done.
        by rewrite lookup_insert_eq.
  - by exists (Node r sig last f).
  - apply (frame_trans _ _ h0); [apply frame_insert; by right|].
    apply (frame_trans _ _ h1); apply frame_insert; [left | right; left].
Qed.

Lemma length_concat_eq {A B} (l1 : list (list A)) (l2 : list (list B)) :
  length l1 = length l2 →
  (∀ i x y, l1 !! i = Some x → l2 !! i = Some y → length x = length y) →
  length (concat l1) = length (concat l2).
Proof.
  revert l2; induction l1 as [|x l1 IH]; intros [|y l2] Hl H; cbn in *; try done.
  rewrite !length_app. f_equal; [by apply (H 0%nat)|].
  apply IH; [lia|]. intros i. apply (H (S i)).
Qed.

Lemma free_count cap B ring w ps q :
  timer_at cap B ring w ps q → (length (concat w) + length q = length B)%nat.
Proof.
  intros []. rewrite <-at_blocks0, length_app, length_fmap. f_equal. symmetry.
  apply length_concat_eq; [done|]. intros i pl es Hpl Hes.
  destruct (lookup_lt_is_Some_2 (timers ring) i) as [t Ht].
  { rewrite at_timers0. by eapply lookup_lt_Some. }
  destruct (at_slot0 _ _ _ _ Ht Hpl Hes) as (_ & _ & Hh). by eapply Forall2_length.
Qed.

Lemma last_elem (f : Z) l : default f (last l) ∈ f :: l.
Proof. destruct (last l) eqn:El; cbn; [right; by apply last_Some_elem_of|left]. Qed.

Lemma wait_block_ok cap r it q fuel :
  pq_rep cap r (it :: q) →
  ∃ cell r', wait_block (S fuel) r = Ret (cell, r') ∧ pq_rep cap r' q
  ∧ ∃ s, pq_cell r' cell = Ret (Cell s it.2 it.1).
Proof.
  intros Hr. destruct (pq_pop_ok _ _ _ _ Hr) as (i & r' & Hpop & Hr' & Hc). cbn [wait_block].
  rewrite Hpop. cbn [mbind outcome_bind]. eauto.
Qed.

Lemma assign_insert h p f n : assign p f (<[p:=n]> h) = Ret (<[p:=f n]> h).
Proof. unfold assign. rewrite lookup_insert_eq. cbn. by rewrite insert_insert_eq. Qed.

Lemma insert_only_spec h p sig r np :
  h !! p = Some np → insert_only p sig r h = Ret (<[p := Node r sig p p]> h).
Proof.
  intros Hnp. unfold insert_only. rewrite (assign_Some _ _ _ _ Hnp).
  do 2 (cbn [mbind outcome_bind]; rewrite assign_insert).
  cbn [mbind outcome_bind]. by rewrite assign_insert.
Qed.

Lemma insert_last_spec h p sig r np f nf nl nf1 :
  h !! p = Some np → h !! f = Some nf → p ≠ prev nf → h !! prev nf = Some nl →
  let h1 := <[p := Node r sig (prev nf) f]> (<[prev nf := set_next p nl]> h) in
  h1 !! f = Some nf1 →
  insert_last f p sig r h = Ret (<[f := set_prev p nf1]> h1).
Proof.
  intros Hnp Hnf Hne Hnl h1 Hnf1. unfold insert_last. rewrite Hnf. cbn [get mbind outcome_bind].
  rewrite (assign_Some _ _ _ _ Hnl). cbn [mbind outcome_bind].
  rewrite lookup_insert_eq. cbn [get mbind outcome_bind next set_next].
  rewrite (assign_Some _ p _ np) by (by rewrite lookup_insert_ne).
  do 3 (cbn [mbind outcome_bind]; rewrite assign_insert).
  cbn [mbind outcome_bind]. by rewrite (assign_Some _ _ _ _ Hnf1).
Qed.

(** A slot of the wheel in memory. *)
Lemma slot_there cap B ring w ps q i :
  timer_at cap B ring w ps q → (i < length w)%nat →
  ∃ es t pl, w !! i = Some es ∧ timers ring !! i = Some t ∧ ps !! i = Some pl.
Proof.
  intros Hat Hi. destruct (lookup_lt_is_Some_2 w i Hi) as [es Hes].
  destruct (lookup_lt_is_Some_2 (timers ring) i) as [t Ht]; [by rewrite (at_timers _ _ _ _ _ _ Hat)|].
  destruct (lookup_lt_is_Some_2 ps i) as [pl Hpl]; [by rewrite (at_ps _ _ _ _ _ _ Hat)|]. eauto 7.
Qed.

(** A free block is a node of its own. *)
Lemma free_apart cap B ring w ps p n q i pl :
  timer_at cap B ring w ps ((p, n) :: q) → ps !! i = Some pl →
  p ≠ NULL ∧ p ∉ pl ∧ is_Some (nodes ring !! p).
Proof.
  intros Hat Hpl. assert (p ∈ concat ps ++ p :: q.*1) as HpB by set_solver.
  pose proof (at_nodup _ _ _ _ _ _ Hat) as Hnd. rewrite <-(at_blocks _ _ _ _ _ _ Hat) in Hnd.
  rewrite (at_blocks _ _ _ _ _ _ Hat) in HpB. split_and!.
  - intros ->. by apply (at_null _ _ _ _ _ _ Hat).
  - apply NoDup_app in Hnd as (_ & Hd & _). intros Hp. apply (Hd p); [|left]. by eapply concat_lookup.
  - by apply (at_nodes _ _ _ _ _ _ Hat).
Qed.

Lemma entries_snoc es sig slot m :
  Forall entry_ok es → sig ≠ 0 → 0 ≤ slot → 0 < m → Forall entry_ok (es ++ [(sig, slot / m)]).
Proof. intros. apply Forall_app. split; [done|]. repeat constructor; cbn; [done|]. apply Z.div_pos; lia. Qed.

Lemma holds_last h f l es : Forall2 (holds h) (f :: l) es → is_Some (h !! default f (last l)).
Proof.
  intros Hh. pose proof (last_elem f l) as Hl. apply list_elem_of_lookup in Hl as [j Hj].
  destruct (Forall2_lookup_l _ _ _ _ _ Hh Hj) as (e & _ & n & Hn & _). eauto.
Qed.

Lemma insert_refines cap B ring w sig time fuel :
  let slot := u32 (current ring + u64 (time - 1)) in
  let i := Z.to_nat (slot mod max ring) in
  timer_rep cap B ring w → sig ≠ 0 → (length (concat w) < length B)%nat →
  ∃ ring' es, w !! i = Some es ∧ insert_ringtimer (S fuel) sig time ring = Ret (true, ring')
  ∧ timer_rep cap B ring' (<[i := es ++ [(sig, slot / max ring)]]> w)
  ∧ current ring' = current ring ∧ max ring' = max ring.
Proof.
  intros slot i (ps & q & Hat) Hsig Hfree. pose proof (free_count _ _ _ _ _ _ Hat) as Hcount.
  destruct q as [|[p pn] q]; [cbn in Hcount; lia|].
  destruct (wait_block_ok _ _ _ _ fuel (at_free _ _ _ _ _ _ Hat)) as (cell & r & Hw & Hr & s & Hcell).
  pose proof (at_max _ _ _ _ _ _ Hat) as Hmax. pose proof (at_pos _ _ _ _ _ _ Hat) as Hpos.
  assert (i < length w)%nat as Hi.
  { unfold i. pose proof (Z.mod_pos_bound slot (max ring) Hpos). lia. }
  destruct (slot_there _ _ _ _ _ _ i Hat Hi) as (es & t & pl & Hes & Ht & Hpl).
  destruct (slot_pass _ _ _ _ _ _ _ _ _ _ Hat Ht Hpl Hes) as [-> Hinv].
  destruct (free_apart _ _ _ _ _ _ _ _ _ _ Hat Hpl) as (Hp0 & Hppl & np & Hnp).
  unfold insert_ringtimer. rewrite Hw. cbn [mbind outcome_bind]. rewrite Hcell.
  cbn [mbind outcome_bind cell_packet fst]. rewrite (proj2 (Z.eqb_neq p NULL)) by done.
  rewrite (proj2 (Z.eqb_neq (max ring) 0)) by lia. fold slot i. rewrite Ht.
  cbn [get mbind outcome_bind]. destruct Hinv as [Hc Hnd H0 Hh Hok _ _].
  pose proof (entries_snoc es sig slot (max ring) Hok Hsig (proj1 (u32_range _)) Hpos) as Hok'.
  assert (∀ h' t', frame (p :: pl) (nodes ring) h' →
    slot_rep h' t' (pl ++ [p]) (es ++ [(sig, slot / max ring)]) →
    timer_rep cap B (RT (<[i := t']> (timers ring)) (current ring) (max ring) r h')
      (<[i := es ++ [(sig, slot / max ring)]]> w)) as Hfinish.
  { intros h' t' Hf Hslot. exists (<[i := pl ++ [p]]> ps), q.
    eapply timer_update; cbn [nodes timers allocator max current]; try done.
    - eapply frame_weaken; [|exact Hf]. cbn. set_solver.
    - cbn. solve_Permutation.
    - apply (at_current _ _ _ _ _ _ Hat). }
  destruct pl as [|f l]; cbn [hd] in *.
  - rewrite Z.eqb_refl, (insert_only_spec _ _ _ _ _ Hnp). cbn [mbind outcome_bind].
    inversion Hh; subst es. do 2 eexists. split; [done|]. split; [done|]. split; [|done].
    apply Hfinish; [apply frame_insert; left|]. cbn [app]. split; [done|]. split.
    + cbn. do 2 eexists. rewrite lookup_insert_eq. done.
    + repeat constructor. eexists. rewrite lookup_insert_eq. done.
  - rewrite (proj2 (Z.eqb_neq f NULL)) by (intros ->; set_solver).
    destruct (holds_last _ _ _ _ Hh) as [nl Hnl].
    destruct (append_circle _ f l p sig (slot / max ring) nl np Hc Hnd Hppl Hnl Hnp)
      as (nf & Hnf & Hprev & nf1 & Hnf1 & Hc' & Hd' & Hh' & Hf').
    rewrite <-Hprev in *.
    rewrite (insert_last_spec _ p sig _ np f nf nl nf1); try done; cycle 1.
    { rewrite Hprev. intros ->. apply Hppl, last_elem. }
    cbn [mbind outcome_bind]. do 2 eexists. split; [done|]. split; [done|].
    split; [|done]. rewrite <-(list_insert_id (timers ring) i f) by done.
    apply Hfinish; [done|]. split; [done|]. split; [done|].
    apply Forall2_app; [|by repeat constructor]. eapply holds_mono; [|exact Hh].
    intros p' Hp'. apply Hd'. by intros ->.
Qed.
End wheels.

(** ** The allocator *)
Lemma allocator_fill_spec alloc size k n : ∀ i rb q,
  rb_rep (2 ^ k) rb q → (length q + n ≤ 2 ^ k)%nat → (∀ j, (i ≤ j < i + n)%nat → alloc j ≠ NULL) →
  ∃ rb', allocator_fill alloc size i n rb = Ret rb'
  ∧ rb_rep (2 ^ k) rb' (q ++ ((λ j, (alloc j, size)) <$> List.seq i n)).
Proof.
  induction n as [|n IH]; intros i rb q Hrep Hlen Hnull; cbn [allocator_fill List.seq fmap list_fmap].
  - rewrite app_nil_r. eauto.
  - rewrite (proj2 (Z.eqb_neq (alloc i) NULL)) by (apply Hnull; lia). cbn [mbind outcome_bind].
    destruct (@pq_push_ok ringbuf ringbuf_queue (2 ^ k) rb q (alloc i) size Hrep) as (rb1 & Hpush & Hrep1); [lia|].
    cbn [pq_push ringbuf_queue] in Hpush. rewrite Hpush. cbn [mbind outcome_bind].
    destruct (IH (S i) rb1 _ Hrep1) as (rb2 & -> & Hrep2).
    { rewrite length_app. cbn. lia. }
    { intros j Hj. apply Hnull. lia. }
    exists rb2. split; [done|]. by rewrite <-app_assoc in Hrep2.
Qed.

Lemma create_allocator_spec junk cacheline alloc size (k : nat) :
  1 ≤ Z.of_nat k ≤ 58 → (∀ j, (j < 2 ^ k)%nat → alloc j ≠ NULL) →
  ∃ rb, create_allocator true true junk cacheline alloc size (2 ^ Z.of_nat k) = Ret (Some rb)
  ∧ rb_rep (2 ^ k) rb ((λ j, (alloc j, round_cacheline cacheline size)) <$> List.seq 0 (2 ^ k)).
Proof.
  intros Hk Hnull. unfold create_allocator. rewrite cells_fit_spec, (proj2 (Z.leb_le _ _)) by lia.
  assert (Z.to_nat (2 ^ Z.of_nat k) = 2 ^ k)%nat as Hn by (apply Nat2Z.inj; rewrite Nat2Z.inj_pow; lia).
  pose proof (fresh_inv (λ i, Cell (Z.of_nat i) (junk i).1 (junk i).2) (Z.of_nat k) ltac:(lia) ltac:(done)) as Hinv.
  rewrite Hn in *.
  destruct (allocator_fill_spec alloc (round_cacheline cacheline size) k (2 ^ k) 0
    (RB (2 ^ Z.of_nat k) (u64 (2 ^ Z.of_nat k - 1)) 0 0
        ((λ i, Cell (Z.of_nat i) (junk i).1 (junk i).2) <$> List.seq 0 (2 ^ k))) [])
    as (rb & -> & Hrep); [|cbn; lia|intros; apply Hnull; lia|].
  - exists (Z.of_nat k), 0. split; [done|]. rewrite Nat2Z.inj_pow. done.
  - cbn [mbind outcome_bind]. eauto.
Qed.

(** ** Properties *)
Section timer_properties.
Context {Q : Type} `{!PacketQueue Q}.
Implicit Types (ring : ringtimer Q) (w : wheel).

Lemma concat_replicate_nil {A} n : concat (replicate n (@nil A)) = [].
Proof. by induction n. Qed.

Lemma create_rep cap B N alloc blks :
  0 < N → is_u32 N → NoDup B → NULL ∉ B → (length B ≤ cap)%nat →
  (∀ p, p ∈ B → is_Some (blks !! p)) → pq_rep cap alloc (blocks B) →
  ∃ ring, create_ringtimer true true N alloc blks = Some ring
  ∧ timer_rep cap B ring (replicate (Z.to_nat N) []) ∧ current ring = 0 ∧ max ring = N.
Proof.
  intros HN HN32 Hnd H0 Hcap Hblk Hq. eexists. split; [reflexivity|]. split; [|done].
  exists (replicate (Z.to_nat N) []), (blocks B).
  split; cbn [timers max current nodes allocator]; rewrite ?length_replicate; try done; try lia.
  - intros i t pl es [-> _]%lookup_replicate [-> _]%lookup_replicate [-> _]%lookup_replicate. done.
  - intros i es [-> _]%lookup_replicate. constructor.
  - by rewrite blocks_fst, concat_replicate_nil.
Qed.

(** C20: [insert_ringtimer] takes one free block and adds one entry at the end of
    the slot [(current + time - 1) mod max], with the number of revolutions
    that the 32-bit slot number gives; no other timer changes and it does not
    wait. *)
Theorem insert_ringtimer_refines cap B ring w sig time fuel :
  let slot := u32 (current ring + u64 (time - 1)) in
  let i := Z.to_nat (slot mod max ring) in
  timer_rep cap B ring w → sig ≠ 0 → (length (concat w) < length B)%nat →
  ∃ ring' es, w !! i = Some es ∧ insert_ringtimer (S fuel) sig time ring = Ret (true, ring')
  ∧ timer_rep cap B ring' (<[i := es ++ [(sig, slot / max ring)]]> w)
  ∧ current ring' = current ring.
Proof.
  intros slot i Hrep Hsig Hfree.
  destruct (insert_refines cap B ring w sig time fuel Hrep Hsig Hfree) as (r & es & ? & ? & ? & ? & _).
  by exists r, es.
Qed.

(** With no free block [insert_ringtimer] never returns. *)
Lemma insert_ringtimer_blocks cap B ring w sig time fuel :
  timer_rep cap B ring w → length (concat w) = length B →
  insert_ringtimer fuel sig time ring = Timeout.
Proof.
  intros (ps & q & Hat) Hfull. pose proof (free_count _ _ _ _ _ _ Hat) as Hcount.
  destruct q; [|cbn in Hcount; lia]. pose proof (pq_pop_empty _ _ (at_free _ _ _ _ _ _ Hat)) as Hpop.
  unfold insert_ringtimer. assert (wait_block fuel (allocator ring) = Timeout) as ->; [|done].
  induction fuel as [|fuel IH]; [done|]. cbn [wait_block]. by rewrite Hpop.
Qed.

(** C19: a tick returns, with at most 64 timers firing.  When the
    first timer of the slot has revolutions left, exactly the timers with none
    left fire, the others lose one revolution; when the first timer is due,
    every timer of the slot fires, due or not.  No other slot changes, the
    blocks of the fired timers are free again, and the wheel advances. *)
Theorem tick_ringtimer_refines cap B ring w es fuel :
  timer_rep cap B ring w → w !! Z.to_nat (current ring) = Some es →
  (length (slot_tick es).1 ≤ MAX_TICK_TIME)%nat → (rounds es ≤ fuel)%nat →
  ∃ ring' fs, tick_ringtimer fuel ring = Ret (ring', fs) ∧ fs ≡ₚ (slot_tick es).1
  ∧ timer_rep cap B ring' (<[Z.to_nat (current ring) := (slot_tick es).2]> w)
  ∧ current ring' = (current ring + 1) mod max ring.
Proof.
  intros Hrep Hes Hlen Hfuel.
  destruct (tick_refines cap B ring w es fuel Hrep Hes Hlen Hfuel) as (r & fs & ? & ? & ? & ? & _).
  by exists r, fs.
Qed.

(** *** The deadline of one timer *)
Definition single (n s : nat) (e : entry) : wheel := <[s := [e]]> (replicate n []).

Lemma mod_pred x n : 0 < n → (x - 1) mod n = if x mod n =? 0 then n - 1 else x mod n - 1.
Proof.
  intros. pose proof (Z.mod_pos_bound x n). pose proof (Z.div_mod x n ltac:(lia)).
  destruct (Z.eqb_spec (x mod n) 0); symmetry.
  - apply (Z.mod_unique_pos _ _ (x / n - 1)); lia.
  - apply (Z.mod_unique_pos _ _ (x / n)); lia.
Qed.

Lemma lookup_single n s e i :
  (s < n)%nat → (i < n)%nat → single n s e !! i = Some (if decide (i = s) then [e] else []).
Proof.
  intros Hs Hi. unfold single. rewrite lookup_insert_cases by (rewrite length_replicate; done).
  repeat case_decide; try lia; try done. apply lookup_replicate. split; [done|lia].
Qed.

(** A tick of a slot whose timer is not due. *)
Lemma single_slot_tick n s sig r i (here := decide (i = s)) :
  (i = s → r ≠ 0) → (s < n)%nat → (i < n)%nat →
  let x := slot_tick (if here then [(sig, r)] else []) in
  x.1 = [] ∧ <[i := x.2]> (single n s (sig, r)) = single n s (sig, if here then r - 1 else r).
Proof.
  intros Hr Hs Hi x. subst x here. destruct (decide (i = s)) as [Hcs|Hne]; cbn [slot_tick].
  - subst i. specialize (Hr eq_refl). unfold due. cbn [snd fired kept]. unfold due. cbn [snd].
    rewrite (proj2 (Z.eqb_neq r 0)) by done. split; [done|]. apply list_insert_insert_eq.
  - split; [done|]. apply list_insert_id. rewrite lookup_single by done. by rewrite decide_False.
Qed.

(** The only timer of the wheel, [D] ticks before the one at which it fires. *)
Definition one_timer cap B ring (sig r : Z) (D : nat) : Prop :=
  ∃ s, (s < Z.to_nat (max ring))%nat ∧ 0 ≤ r ∧ timer_rep cap B ring (single (Z.to_nat (max ring)) s (sig, r))
  ∧ Z.of_nat D = (Z.of_nat s - current ring) mod max ring + max ring * r.

Lemma rep_current cap B ring w : timer_rep cap B ring w → 0 < max ring ∧ 0 ≤ current ring < max ring.
Proof. by intros (? & ? & []). Qed.

Lemma one_timer_fires cap B ring sig r fuel :
  sig ≠ 0 → (0 < fuel)%nat → one_timer cap B ring sig r 0 →
  ∃ ring', tick_ringtimer fuel ring = Ret (ring', [i32 sig])
  ∧ timer_rep cap B ring' (replicate (Z.to_nat (max ring')) []) ∧ max ring' = max ring.
Proof.
  intros Hsig Hfuel (s & Hs & Hr & Hrep & HD). destruct (rep_current _ _ _ _ Hrep) as [Hpos Hcur].
  pose proof (Z.mod_pos_bound (Z.of_nat s - current ring) (max ring) Hpos) as Hb.
  pose proof (lookup_single _ s (sig, r) (Z.to_nat (current ring)) Hs ltac:(lia)) as Hes.
  assert (Z.of_nat s = current ring) as Hsc.
  { assert ((Z.of_nat s - current ring) mod max ring = 0) as Hz by nia.
    apply Z.mod_divide in Hz as [z Hz]; [|lia]. assert (z = 0) by nia. lia. }
  assert (r = 0) as -> by nia. rewrite decide_True in Hes by lia.
  destruct (tick_refines _ _ _ _ _ fuel Hrep Hes) as (ring1 & fs & Htick & Hfs & Hrep1 & _ & Hmax);
    [cbn; unfold MAX_TICK_TIME; lia | cbn; lia |].
  cbn in Hfs, Hrep1. apply Permutation_singleton_r in Hfs as ->. exists ring1. split; [done|]. split; [|done].
  rewrite Hmax. unfold single in Hrep1. replace (Z.to_nat (current ring)) with s in Hrep1 by lia.
  by rewrite list_insert_insert_eq, list_insert_id in Hrep1 by (apply lookup_replicate; done).
Qed.

Lemma one_timer_waits cap B ring sig r D fuel :
  sig ≠ 0 → (Z.to_nat r < fuel)%nat → one_timer cap B ring sig r (S D) →
  ∃ ring' r', tick_ringtimer fuel ring = Ret (ring', []) ∧ one_timer cap B ring' sig r' D
  ∧ 0 ≤ r' ≤ r ∧ max ring' = max ring.
Proof.
  intros Hsig Hfuel (s & Hs & Hr & Hrep & HD). destruct (rep_current _ _ _ _ Hrep) as [Hpos Hcur].
  pose proof (Z.mod_pos_bound (Z.of_nat s - current ring) (max ring) Hpos) as Hb.
  pose proof (lookup_single _ s (sig, r) (Z.to_nat (current ring)) Hs ltac:(lia)) as Hes.
  set (N := Z.to_nat (max ring)) in *.
  destruct (tick_refines _ _ _ _ _ fuel Hrep Hes) as (ring1 & fs & Htick & Hfs & Hrep1 & Hcur1 & Hmax1).
  { etransitivity; [apply length_slot_tick|]. case_decide; cbn; unfold MAX_TICK_TIME; lia. }
  { case_decide; cbn; lia. }
  assert (Z.to_nat (current ring) = s → r ≠ 0) as Hr0.
  { intros Hcs ->. replace (Z.of_nat s - current ring) with 0 in HD by lia. rewrite Z.mod_0_l in HD; lia. }
  destruct (single_slot_tick N s sig r (Z.to_nat (current ring)) Hr0 Hs ltac:(lia)) as [Hx Hw].
  cbv zeta in Hx, Hw. rewrite Hx in Hfs. apply Permutation_nil_r in Hfs as ->. rewrite Hw in Hrep1.
  exists ring1, (if decide (Z.to_nat (current ring) = s) then r - 1 else r). split; [done|].
  assert (0 ≤ (if decide (Z.to_nat (current ring) = s) then r - 1 else r) ≤ r) as Hr'
    by (case_decide as Hcs; [specialize (Hr0 Hcs)|]; lia).
  split; [|done]. exists s. rewrite Hmax1. split; [done|]. split; [lia|]. split; [done|].
  rewrite Hcur1, Zminus_mod_idemp_r.
  replace (Z.of_nat s - (current ring + 1)) with (Z.of_nat s - current ring - 1) by lia.
  rewrite mod_pred by done. destruct (decide (Z.to_nat (current ring) = s)).
  - replace (Z.of_nat s - current ring) with 0 in * by lia. rewrite Z.mod_0_l in * by lia. cbn. lia.
  - destruct (Z.eqb_spec ((Z.of_nat s - current ring) mod max ring) 0) as [Hz|]; [|lia].
    apply Z.mod_divide in Hz as [z Hz]; [|lia]. assert (z = 0) by nia. lia.
Qed.

(** Setting it in an empty wheel. *)
Lemma one_timer_set cap B ring sig time fuel :
  timer_rep cap B ring (replicate (Z.to_nat (max ring)) []) → sig ≠ 0 → B ≠ [] →
  1 ≤ time → current ring + time ≤ 2 ^ 32 →
  let s := (current ring + time - 1) mod max ring in
  let r := (current ring + time - 1) / max ring in
  ∃ ring' D, insert_ringtimer (S fuel) sig time ring = Ret (true, ring') ∧ one_timer cap B ring' sig r D
  ∧ Z.of_nat D = (s - current ring) mod max ring + max ring * r
  ∧ max ring' = max ring ∧ current ring' = current ring.
Proof.
  intros Hrep Hsig HB Ht Hov s r. destruct (rep_current _ _ _ _ Hrep) as [Hpos Hcur].
  assert (u32 (current ring + u64 (time - 1)) = current ring + time - 1) as Hslot.
  { rewrite u64_id by (unfold is_u64; lia). rewrite u32_id; [lia|]. unfold is_u32; lia. }
  destruct (insert_refines cap B ring _ sig time fuel Hrep Hsig) as (ring1 & es & Hes & Hins & Hrep1 & Hcur1 & Hmax1).
  { rewrite concat_replicate_nil. destruct B; [done|]. cbn. lia. }
  rewrite Hslot in Hes, Hrep1. fold s r in Hes, Hrep1. apply lookup_replicate in Hes as [-> _].
  pose proof (Z.mod_pos_bound (current ring + time - 1) (max ring) Hpos) as Hs. fold s in Hs.
  pose proof (Z.div_pos (current ring + time - 1) (max ring) ltac:(lia) Hpos) as Hr. fold r in Hr.
  pose proof (Z.mod_pos_bound (s - current ring) (max ring) Hpos).
  exists ring1, (Z.to_nat ((s - current ring) mod max ring + max ring * r)). split; [done|].
  assert (0 ≤ (s - current ring) mod max ring + max ring * r) by nia.
  split; [|split; [lia|done]]. exists (Z.to_nat s). rewrite Hmax1, Hcur1.
  split; [lia|]. split; [done|]. split; [exact Hrep1|]. by rewrite !Z2Nat.id by lia.
Qed.

Lemma one_timer_ticks cap B sig fuel D : ∀ ring r,
  sig ≠ 0 → (Z.to_nat r < fuel)%nat → one_timer cap B ring sig r D →
  ∃ ring', ticks fuel (S D) ring = Ret (ring', replicate D [] ++ [[i32 sig]]).
Proof.
  induction D as [|D IH]; intros ring r Hsig Hfuel H.
  - destruct (one_timer_fires cap B ring sig r fuel Hsig ltac:(lia) H) as (ring1 & E & _).
    cbn [ticks]. rewrite E. cbn [mbind outcome_bind]. eauto.
  - destruct (one_timer_waits cap B ring sig r D fuel Hsig Hfuel H) as (ring1 & r1 & E & H1 & Hr1 & _).
    destruct (IH ring1 r1 Hsig ltac:(lia) H1) as (ring2 & Hrun). exists ring2.
    change (ticks fuel (S (S D)) ring) with
      ('(ring, sigs) ← tick_ringtimer fuel ring; '(ring, rest) ← ticks fuel (S D) ring; Ret (ring, sigs :: rest)).
    rewrite E. cbn [mbind outcome_bind]. by rewrite Hrun.
Qed.

(** The only timer of a wheel, set to [time] at most 2^32 - 1 ticks from the
    start of the wheel, fires exactly once, at the tick [late]: [time] ticks
    later when the slot is reached without passing the end of the array,
    otherwise a whole revolution after that. *)
Lemma timer_deadline cap B ring sig time fuel :
  let N := max ring in
  let c := current ring in
  let late := if c + (time - 1) mod N <? N then time else time + N in
  timer_rep cap B ring (replicate (Z.to_nat N) []) → B ≠ [] → sig ≠ 0 →
  1 ≤ time → c + time - 1 < 0x100000000 → (Z.to_nat ((c + time - 1) / N) < fuel)%nat →
  ∃ ring1 ring2, insert_ringtimer fuel sig time ring = Ret (true, ring1)
  ∧ ticks fuel (Z.to_nat late) ring1 = Ret (ring2, replicate (Z.to_nat (late - 1)) [] ++ [[i32 sig]]).
Proof.
  intros N c late Hrep HB Hsig Ht1 Ht2 Hfuel. destruct fuel as [|fuel]; [lia|].
  destruct (rep_current _ _ _ _ Hrep) as [Hpos Hcur]. fold N c in Hpos, Hcur.
  destruct (one_timer_set cap B ring sig time fuel Hrep Hsig HB Ht1) as (ring1 & D & Hins & H1 & HD & _ & _); [unfold c in Ht2; lia|].
  fold N c in HD, H1. pose proof (Z.mod_pos_bound (time - 1) N Hpos) as Hs'. pose proof (Z.div_mod (time - 1) N ltac:(lia)) as Hdm'.
  assert (late - 1 = Z.of_nat D) as Hlate.
  { rewrite HD. replace (((c + time - 1) mod N - c) mod N) with ((time - 1) mod N).
    2:{ rewrite Zminus_mod_idemp_l. f_equal. lia. }
    subst late. destruct (Z.ltb_spec (c + (time - 1) mod N) N).
    - replace ((c + time - 1) / N) with ((time - 1) / N); [lia|].
      apply (Z.div_unique_pos _ _ _ (c + (time - 1) mod N)); lia.
    - replace ((c + time - 1) / N) with ((time - 1) / N + 1); [lia|].
      apply (Z.div_unique_pos _ _ _ (c + (time - 1) mod N - N)); lia. }
  destruct (one_timer_ticks cap B sig (S fuel) D ring1 ((c + time - 1) / N)) as (ring2 & Hrun); [done|done|done|].
  exists ring1, ring2. split; [done|].
  replace (Z.to_nat late) with (S D) by lia. by replace (Z.to_nat (late - 1)) with D by lia.
Qed.
End timer_properties.

(** ** The timer over the ring buffer *)

(** When every allocation succeeds, the allocator of 2^k blocks is the queue
    of the 2^k blocks, in order, each with the size rounded up to the cache
    line. *)
Lemma create_allocator_fills junk cacheline alloc size (k : nat) :
  1 ≤ Z.of_nat k ≤ 58 → (∀ j, (j < 2 ^ k)%nat → alloc j ≠ NULL) →
  ∃ rb, create_allocator true true junk cacheline alloc size (2 ^ Z.of_nat k) = Ret (Some rb)
  ∧ rb_rep (2 ^ k) rb ((λ j, (alloc j, round_cacheline cacheline size)) <$> List.seq 0 (2 ^ k)).
Proof. apply create_allocator_spec. Qed.

(** Four blocks at 64, 128, 192, 256. *)
Definition block_at (i : nat) : Z := 64 * (Z.of_nat i + 1).

Lemma create_allocator_fills_witness :
  ∃ rb, create_allocator true true (λ _, (0, 0)) 64 block_at 64 4 = Ret (Some rb)
  ∧ rb_rep 4 rb [(64, 64); (128, 64); (192, 64); (256, 64)].
Proof.
  apply (create_allocator_fills (λ _, (0, 0)) 64 block_at 64 2); [lia|].
  intros j _. unfold block_at, NULL. lia.
Defined.

(** A wheel of [n] slots over 2^k blocks, the insertions [ins] of (signal,
    time) pairs at its start, and the signals of the first [t] ticks. *)
Definition blank (p : Z) : Z * ringtimer_callback := (p, Node 0 0 0 0).

Fixpoint inserts (ring : ringtimer ringbuf) (ins : list (Z * Z)) : outcome (ringtimer ringbuf) :=
  match ins with
  | [] => Ret ring
  | (sig, time) :: ins => '(_, ring) ← insert_ringtimer 1 sig time ring; inserts ring ins
  end.

Definition scenario (n k : Z) (ins : list (Z * Z)) : outcome (ringtimer ringbuf) :=
  o ← create_allocator true true (λ _, (0, 0)) 64 block_at 64 (2 ^ k);
  alloc ← get o;
  ring ← get (create_ringtimer true true n alloc
                (list_to_map (blank ∘ block_at <$> List.seq 0 (Z.to_nat (2 ^ k)))));
  inserts ring ins.

(** A timer fires a whole revolution early when it shares its slot with an
    earlier timer at the head of the list: with two timers set to 1 and 5 ticks
    on a wheel of 4 slots, both fire at the first tick; set in the other order
    each fires when it should. *)
Lemma timers_fire_early :
  (ring ← scenario 4 2 [(7, 1); (8, 5)]; '(_, sigs) ← ticks 8 5 ring; Ret sigs)
    = Ret [[7; 8]; []; []; []; []]
  ∧ (ring ← scenario 4 2 [(8, 5); (7, 1)]; '(_, sigs) ← ticks 8 5 ring; Ret sigs)
    = Ret [[7]; []; []; []; [8]].
Proof. split; vm_compute; reflexivity. Qed.

Lemma blank_blocks (l : list Z) p : p ∈ l → is_Some ((list_to_map (blank <$> l) : heap) !! p).
Proof.
  induction l as [|x l IH]; intros H; [by apply elem_of_nil in H|]. cbn.
  destruct (decide (x = p)) as [->|Hne]; [rewrite lookup_insert_eq; eauto|].
  rewrite lookup_insert_ne by done. apply IH. by apply elem_of_cons in H as [->|].
Qed.

(** A wheel of [N] slots over the 2^k blocks of [create_allocator], empty. *)
Definition made_blocks (k : nat) : list Z := block_at <$> seq 0 (2 ^ k).
Lemma wheel_made (N : Z) (k : nat) :
  0 < N → is_u32 N → 1 ≤ Z.of_nat k ≤ 58 →
  ∃ alloc ring, create_allocator true true (λ _, (0, 0)) 64 block_at 64 (2 ^ Z.of_nat k) = Ret (Some alloc)
  ∧ create_ringtimer true true N alloc (list_to_map (blank ∘ block_at <$> seq 0 (2 ^ k))) = Some ring
  ∧ timer_rep (2 ^ k) (made_blocks k) ring (replicate (Z.to_nat N) []) ∧ current ring = 0 ∧ max ring = N.
Proof.
  intros HN HN32 Hk. destruct (create_allocator_spec (λ _, (0, 0)) 64 block_at 64 k) as (alloc & Ea & Halloc);
    [lia | intros j _; unfold block_at, NULL; lia |].
  destruct (create_rep (2 ^ k) (made_blocks k) N alloc (list_to_map (blank <$> made_blocks k))) as (ring & Er & Hrep & Hc & Hm).
  - done.
  - done.
  - apply NoDup_fmap_2, NoDup_seq. intros i j. unfold block_at. lia.
  - intros (i & E & _)%list_elem_of_fmap. unfold block_at, NULL in E. lia.
  - unfold made_blocks. by rewrite length_fmap, length_seq.
  - apply blank_blocks.
  - unfold blocks, made_blocks. rewrite <-list_fmap_compose. exact Halloc.
  - exists alloc, ring. unfold made_blocks in Er. rewrite <-list_fmap_compose in Er. by split_and!.
Qed.

(** [n] timers set to the next tick, one behind the other. *)
Lemma inserts_due cap B sig n : ∀ ring w es (i := Z.to_nat (current ring)),
  timer_rep cap B ring w → sig ≠ 0 → w !! i = Some es → (n + length (concat w) ≤ length B)%nat →
  ∃ ring', inserts ring (replicate n (sig, 1)) = Ret ring' ∧ timer_rep cap B ring' (<[i := es ++ replicate n (sig, 0)]> w)
  ∧ current ring' = current ring.
Proof.
  induction n as [|n IH]; intros ring w es i Hrep Hsig Hes Hn; cbn [inserts replicate].
  - exists ring. rewrite app_nil_r, list_insert_id by done. by split_and!.
  - assert (0 ≤ current ring < max ring ∧ is_u32 (max ring)) as [Hc H32] by (destruct Hrep as (? & ? & []); done).
    assert (u32 (current ring + u64 (1 - 1)) = current ring) as Hslot
      by (change (u64 (1 - 1)) with 0; rewrite Z.add_0_r; apply u32_id; unfold is_u32 in *; lia).
    destruct (insert_refines cap B ring w sig 1 0 Hrep Hsig ltac:(lia)) as (r & es' & Hes' & -> & Hr & Hcur & Hmax).
    rewrite Hslot, (Z.mod_small _ _ Hc) in *. rewrite (Z.div_small _ _ Hc) in Hr. fold i in Hes', Hr.
    assert (es' = es) as -> by congruence. rewrite bind_ret. cbv beta iota.
    pose proof (lookup_lt_Some _ _ _ Hes) as Hlt.
    destruct (IH r _ (es ++ [(sig, 0)]) Hr Hsig) as (ring' & E & Hrep' & Hcur').
    { rewrite Hcur. fold i. by rewrite list_lookup_insert_eq. }
    { pose proof (Permutation_length (concat_insert w i es (es ++ [(sig, 0)]) Hes)) as Hl.
      rewrite !length_app in Hl. cbn in Hl. lia. }
    exists ring'. split; [exact E|]. split; [|congruence]. rewrite Hcur in Hrep'. fold i in Hrep'.
    rewrite list_insert_insert_eq, <-app_assoc in Hrep'. exact Hrep'.
Qed.

(** C36: how many timers a tick may find due: when at most 64 fire it returns their
    signals, and when more do, the 65th is stored past the end of the
    [signals] of [timer_tick_result_t]. *)
Theorem tick_overflow {Q : Type} `{!PacketQueue Q} cap B (ring : ringtimer Q) w es fuel :
  timer_rep cap B ring w → w !! Z.to_nat (current ring) = Some es → (rounds es ≤ fuel)%nat →
  if decide (length (slot_tick es).1 ≤ 64)%nat
  then ∃ ring' fs, tick_ringtimer fuel ring = Ret (ring', fs) ∧ fs ≡ₚ (slot_tick es).1
  else tick_ringtimer fuel ring = Fault.
Proof.
  intros Hrep Hes Hfuel. case_decide as Hlen.
  - destruct (tick_refines cap B ring w es fuel Hrep Hes Hlen Hfuel) as (r & fs & E & Hfs & _).
    by exists r, fs.
  - eapply tick_overflows; [exact Hrep | exact Hes | unfold MAX_TICK_TIME; lia | exact Hfuel].
Qed.

(** When an allocation other than the first fails, [create_allocator] frees
    cells in the middle of [rb->cells]: undefined behaviour, for every size. *)
Lemma create_allocator_oom junk cacheline alloc size (k : nat) :
  1 ≤ Z.of_nat k ≤ 58 → alloc 0%nat ≠ NULL → alloc 1%nat = NULL →
  create_allocator true true junk cacheline alloc size (2 ^ Z.of_nat k) = Fault.
Proof.
  intros Hk H0 H1. unfold create_allocator. rewrite cells_fit_spec, (proj2 (Z.leb_le _ _)) by lia.
  assert (Z.to_nat (2 ^ Z.of_nat k) = 2 ^ k)%nat as Hn by (apply Nat2Z.inj; rewrite Nat2Z.inj_pow; lia).
  pose proof (fresh_inv (λ i, Cell (Z.of_nat i) (junk i).1 (junk i).2) (Z.of_nat k) ltac:(lia) ltac:(done)) as Hinv.
  rewrite Hn in *. assert (∃ n, 2 ^ k = S (S n))%nat as [n Hn2].
  { pose proof (Nat.pow_le_mono_r 2 1 k). exists (2 ^ k - 2)%nat. change (2 ^ 1)%nat with 2%nat in *. lia. }
  rewrite Hn2 in *. cbn [allocator_fill]. rewrite (proj2 (Z.eqb_neq (alloc 0%nat) NULL)) by done.
  cbn [mbind outcome_bind].
  destruct (push_ok _ _ _ _ Hinv (alloc 0%nat) (round_cacheline cacheline size)) as (rb & -> & Hinv1).
  { cbn. pose proof (pow2_bounds (Z.of_nat k)). lia. }
  cbn [mbind outcome_bind]. rewrite H1. cbn [Z.eqb NULL].
  destruct (pop_ok _ _ _ _ Hinv1 _ _ eq_refl) as (i & rb' & -> & _). done.
Qed.

(** 65 timers due at the same tick. *)
Lemma tick_overflow_witness :
  ∃ ring, scenario 4 7 (replicate 65 (7, 1)) = Ret ring ∧ tick_ringtimer 65 ring = Fault.
Proof.
  destruct (wheel_made 4 7) as (alloc & ring & Ea & Er & Hrep & Hc & _); [lia | unfold is_u32; lia | lia |].
  destruct (inserts_due 128 (made_blocks 7) 7 65 ring _ [] Hrep) as (ring' & Ei & Hrep' & Hc');
    rewrite ?Hc in *; [done | done | vm_compute; lia |].
  exists ring'. split.
  - unfold scenario. change (2 ^ 7) with (2 ^ Z.of_nat 7). rewrite Ea, bind_ret. cbn [get]. rewrite bind_ret.
    change (Z.to_nat (2 ^ Z.of_nat 7)) with (2 ^ 7)%nat. by rewrite Er.
  - pose proof (tick_overflow 128 (made_blocks 7) ring' _ (replicate 65 (7, 0)) 65 Hrep') as H. rewrite Hc' in H.
    apply H; [reflexivity | vm_compute; lia].
Defined.

Lemma create_allocator_oom_witness :
  create_allocator true true (λ _, (0, 0)) 64 (λ i, if decide (i = 0%nat) then 64 else NULL) 64 4 = Fault.
Proof. apply (create_allocator_oom _ _ _ _ 2); [lia | done | done]. Defined.

(** *** Concrete timers for the theorems above *)
Definition demo_blocks : list Z := [64; 128; 192; 256].
Definition demo_alloc : ringbuf :=
  RB 4 3 4 0 [Cell 1 64 64; Cell 2 64 128; Cell 3 64 192; Cell 4 64 256].
Definition demo_ring : ringtimer ringbuf :=
  RT [0; 0; 0; 0] 0 4 demo_alloc (list_to_map (blank <$> demo_blocks)).

Lemma demo_alloc_rep : rb_rep 4 demo_alloc (blocks demo_blocks).
Proof.
  destruct (create_allocator_spec (λ _, (0, 0)) 64 block_at 64 2) as (rb & Hrb & Hrep); [lia|..].
  { intros j _. unfold block_at, NULL. lia. }
  assert (Ret (Some demo_alloc) = Ret (Some rb)) as [= <-] by (rewrite <-Hrb; vm_compute; reflexivity).
  exact Hrep.
Qed.

Lemma demo_rep : timer_rep 4 demo_blocks demo_ring [[]; []; []; []].
Proof.
  destruct (create_rep (Q:=ringbuf) 4 demo_blocks 4 demo_alloc (list_to_map (blank <$> demo_blocks)))
    as (ring & [= <-] & Hrep & _); try done.
  - apply (bool_decide_eq_true_1 (NoDup demo_blocks)). reflexivity.
  - apply (bool_decide_eq_true_1 (NULL ∉ demo_blocks)). reflexivity.
  - intros p Hp. unfold demo_blocks in Hp. rewrite !elem_of_cons, elem_of_nil in Hp.
    destruct Hp as [->|[->|[->|[->|[]]]]]; by eexists.
  - exact demo_alloc_rep.
Qed.

(** Two timers in slot 0, the first due, the second a revolution away. *)
Definition demo_ring2 : ringtimer ringbuf :=
  match inserts demo_ring [(7, 1); (8, 5)] with Ret r => r | _ => demo_ring end.

Lemma demo_rep2 : timer_rep 4 demo_blocks demo_ring2 [[(7, 0); (8, 1)]; []; []; []].
Proof.
  destruct (insert_refines 4 demo_blocks demo_ring _ 7 1 0 demo_rep) as (r1 & es1 & He1 & H1 & Hrep1 & _);
    [done | cbn; lia |].
  vm_compute in He1. injection He1 as <-.
  assert (∃ r, insert_ringtimer 1 7 1 demo_ring = Ret (true, r) ∧ current r = 0 ∧ max r = 4)
    as (r & E & Ec & Em) by (eexists; split; [reflexivity | by split]).
  assert (r = r1) as -> by (rewrite E in H1; by injection H1).
  change (timer_rep 4 demo_blocks r1 [[(7, 0)]; []; []; []]) in Hrep1.
  destruct (insert_refines 4 demo_blocks r1 _ 8 5 0 Hrep1) as (r2 & es2 & He2 & H2 & Hrep2 & _);
    [done | cbn; lia |].
  assert (demo_ring2 = r2) as ->.
  { unfold demo_ring2. cbn [inserts]. rewrite H1. cbn [mbind outcome_bind]. by rewrite H2. }
  rewrite Ec, Em in *. vm_compute in He2. injection He2 as <-. exact Hrep2.
Qed.

Lemma insert_ringtimer_refines_witness :
  ∃ ring' es, [[]; []; []; []] !! 1%nat = Some es
  ∧ insert_ringtimer 1 9 6 demo_ring = Ret (true, ring')
  ∧ timer_rep 4 demo_blocks ring' (<[1%nat := es ++ [(9, 1)]]> [[]; []; []; []])
  ∧ current ring' = 0.
Proof. apply (insert_ringtimer_refines 4 demo_blocks demo_ring _ 9 6 0 demo_rep); [done | cbn; lia]. Defined.

Lemma insert_ringtimer_blocks_witness :
  insert_ringtimer 1000 9 6 (RT [0; 0; 0; 0] 0 4 (RB 2 1 0 0 [Cell 0 0 0; Cell 1 0 0]) ∅) = Timeout.
Proof.
  apply (insert_ringtimer_blocks 2 [] _ [[]; []; []; []]); [|done].
  destruct (create_rep (Q:=ringbuf) 2 [] 4 (RB 2 1 0 0 [Cell 0 0 0; Cell 1 0 0]) ∅)
    as (ring & [= <-] & Hrep & _); try done.
  - constructor.
  - by apply not_elem_of_nil.
  - cbn; lia.
  - by intros p ?%not_elem_of_nil.
  - exists 1, 0. split; [|done]. exact (fresh_inv (λ i, Cell (Z.of_nat i) 0 0) 1 ltac:(lia) ltac:(done)).
Defined.

Lemma tick_ringtimer_refines_witness :
  ∃ ring' fs, tick_ringtimer 3 demo_ring2 = Ret (ring', fs) ∧ fs ≡ₚ [7; 8]
  ∧ timer_rep 4 demo_blocks ring' [[]; []; []; []] ∧ current ring' = 1.
Proof.
  apply (tick_ringtimer_refines 4 demo_blocks demo_ring2 _ [(7, 0); (8, 1)] 3 demo_rep2);
    [done | cbn; unfold MAX_TICK_TIME; lia | cbn; lia].
Defined.

Lemma timer_deadline_witness :
  ∃ ring1 ring2, insert_ringtimer 2 9 6 demo_ring = Ret (true, ring1)
  ∧ ticks 2 6 ring1 = Ret (ring2, [[]; []; []; []; []; [9]]).
Proof.
  exact (timer_deadline 4 demo_blocks demo_ring 9 6 2 demo_rep ltac:(done) ltac:(done) ltac:(lia)
           ltac:(cbn; lia) ltac:(vm_compute; lia)).
Defined.
