(* ===== verification/Resources.v ===== *)
(** * Acquiring and releasing resources (xdp_open.c, eth_open.c, eth_close.c,
    netlink_open.c, netlink_close.c, create_umem_stack.c, kpnet_env_init.c,
    free_ringbuf.c)

    The operating system is a list of the results its calls will give, in
    order, and the list of what the process holds: blocks of memory, file
    descriptors and mappings.  The set-up functions are translated with their
    cleanup labels; the theorems compare what is held before and after, on
    every path. *)
From S2P Require Import Prelude Bytes Mem RingBuf.

(** ** Code: the operating system *)
Inductive resource := RMem (p : Z) | RFd (fd : Z) | RMap (p : Z).
#[export] Instance resource_eq_dec : EqDecision resource.
Proof. solve_decision. Defined.

Record os := Os { os_results : list Z; os_held : list resource }.

Definition MAP_FAILED : Z := -1.

(** The next result; [fail] once they are used up. *)
Definition call (fail : Z) (s : os) : Z * os :=
  match os_results s with
  | [] => (fail, s)
  | r :: rs => (r, Os rs (os_held s))
  end.

Definition hold (r : resource) (s : os) : os := Os (os_results s) (r :: os_held s).

Fixpoint remove1 (r : resource) (l : list resource) : list resource :=
  match l with
  | [] => []
  | x :: l => if decide (x = r) then l else x :: remove1 r l
  end.
Definition drop_res (r : resource) (s : os) : os := Os (os_results s) (remove1 r (os_held s)).

(** [malloc], [calloc]; [free]: of NULL nothing, of what is not allocated
    undefined behaviour. *)
Definition malloc (s : os) : Z * os :=
  let '(p, s) := call NULL s in (p, if p =? NULL then s else hold (RMem p) s).
Definition free (p : Z) (s : os) : outcome os :=
  if p =? NULL then Ret s
  else if decide (RMem p ∈ os_held s) then Ret (drop_res (RMem p) s) else Fault.

Definition socket (s : os) : Z * os :=
  let '(fd, s) := call (-1) s in (fd, if fd <? 0 then s else hold (RFd fd) s).
Definition close (fd : Z) (s : os) : os := drop_res (RFd fd) s.

(** [munmap] of MAP_FAILED is an error without effect. *)
Definition mmap (s : os) : Z * os :=
  let '(p, s) := call MAP_FAILED s in (p, if p =? MAP_FAILED then s else hold (RMap p) s).
Definition munmap (p : Z) (s : os) : os :=
  if p =? MAP_FAILED then s else drop_res (RMap p) s.

(** [setsockopt], [getsockopt], [bind], [ioctl], [fcntl]: a status. *)
Definition status_call (s : os) : Z * os := call (-1) s.

(** ** Code: [xdp_open] *)

(** [xdp_mmap_offsets_t]: producer, consumer and descriptors of a ring. *)
Record xdp_ring_offset := RingOff { ro_producer : Z; ro_consumer : Z; ro_desc : Z }.
Record xdp_mmap_offsets := Offsets {
  off_rx : xdp_ring_offset; off_tx : xdp_ring_offset; off_fr : xdp_ring_offset; off_cr : xdp_ring_offset
}.

(** The addresses of a mapped ring. *)
Record ring_ptrs := RingPtrs { rp_mmap : Z; rp_consumer : Z; rp_producer : Z; rp_ring : Z }.
Record xdp_handle := XdpHandle {
  xh_self : Z; xh_fd : Z; xh_umem : Z;
  xh_rx : ring_ptrs; xh_tx : ring_ptrs; xh_fill : ring_ptrs; xh_completion : ring_ptrs
}.

Definition ring_at (base : Z) (o : xdp_ring_offset) : ring_ptrs :=
  RingPtrs base (base + ro_consumer o) (base + ro_producer o) (base + ro_desc o).

(** The cleanup labels, each falling through to the next. *)
Definition err_fd (xdp : Z) (s : os) : outcome (option xdp_handle * os) :=
  s ← free xdp s; Ret (None, s).
Definition err_umem_mmap (xdp fd : Z) (s : os) := err_fd xdp (close fd s).
Definition err_umem_reg (xdp fd umem : Z) (s : os) := err_umem_mmap xdp fd (munmap umem s).
Definition err_rx_ring (xdp fd umem rx : Z) (s : os) := err_umem_reg xdp fd umem (munmap rx s).
Definition err_tx_ring (xdp fd umem rx tx : Z) (s : os) := err_rx_ring xdp fd umem rx (munmap tx s).
Definition err_fr_ring (xdp fd umem rx tx fr : Z) (s : os) := err_tx_ring xdp fd umem rx tx (munmap fr s).
Definition err_cr_ring (xdp fd umem rx tx fr cr : Z) (s : os) :=
  err_fr_ring xdp fd umem rx tx fr (munmap cr s).

(** The five [setsockopt]: the first that fails ends them. *)
Fixpoint setsockopts (n : nat) (s : os) : bool * os :=
  match n with
  | O => (true, s)
  | S n => let '(r, s) := status_call s in if r <? 0 then (false, s) else setsockopts n s
  end.

(** [offs] is what [getsockopt (XDP_MMAP_OFFSETS)] fills in; [get_ifid], for
    the address that is bound, holds nothing when it returns. *)
Definition xdp_open (offs : xdp_mmap_offsets) (s : os) : outcome (option xdp_handle * os) :=
  let '(xdp, s) := malloc s in
  if xdp =? NULL then err_fd xdp s
  else
    let '(fd, s) := socket s in
    if fd <? 0 then err_fd xdp s
    else
      let '(umem, s) := mmap s in
      if umem =? MAP_FAILED then err_umem_mmap xdp fd s
      else
        let '(ok, s) := setsockopts 5 s in
        if negb ok then err_umem_reg xdp fd umem s
        else
          let '(r, s) := status_call s in
          if r <? 0 then err_umem_reg xdp fd umem s
          else
            let '(rx, s) := mmap s in
            if rx =? MAP_FAILED then err_rx_ring xdp fd umem rx s
            else
              let '(tx, s) := mmap s in
              if tx =? MAP_FAILED then err_tx_ring xdp fd umem rx tx s
              else
                let '(fr, s) := mmap s in
                if fr =? MAP_FAILED then err_fr_ring xdp fd umem rx tx fr s
                else
                  let '(cr, s) := mmap s in
                  if cr =? MAP_FAILED then err_cr_ring xdp fd umem rx tx fr cr s
                  else
                    let '(b, s) := status_call s in
                    if b <? 0 then err_cr_ring xdp fd umem rx tx fr cr s
                    else Ret (Some (XdpHandle xdp fd umem (ring_at rx (off_rx offs))
                                      (ring_at tx (off_tx offs)) (ring_at fr (off_fr offs))
                                      (ring_at cr (off_cr offs))), s).

(** ** Code: sockets *)

(** [eth_t]: its address and its descriptor; the address it is bound to is
    left out. *)
Record eth_handle := EthHandle { eh_self : Z; eh_fd : Z }.

Definition eth_close (eth : option eth_handle) (s : os) : outcome os :=
  match eth with
  | None => Ret s
  | Some e => free (eh_self e) (if 0 <=? eh_fd e then close (eh_fd e) s else s)
  end.

(** The result of the first [setsockopt] is only reported. *)
Definition eth_open (device : bool) (s : os) : outcome (option eth_handle * os) :=
  if negb device then Ret (None, s)
  else
    let '(p, s) := malloc s in
    if p =? NULL then Ret (None, s)
    else
      let '(fd, s) := socket s in
      let fail s := s ← eth_close (Some (EthHandle p fd)) s; Ret (None, s) in
      if fd <? 1 then fail s
      else
        let '(r, s) := status_call s in
        if r <? 0 then fail s
        else
          let '(b, s) := status_call s in
          if b <? 0 then fail s
          else
            let '(_, s) := status_call s in
            let '(flags, s) := status_call s in
            if flags <? 0 then fail s
            else
              let '(f, s) := status_call s in
              if f <? 0 then fail s else Ret (Some (EthHandle p fd), s).

Definition netlink_open (s : os) : Z * os :=
  let '(fd, s) := socket s in if fd <? 0 then (-1, s) else (fd, s).

(** [close] fails for what is not open. *)
Definition netlink_close (fd : Z) (s : os) : Z * os :=
  if decide (RFd fd ∈ os_held s) then (0, close fd s) else (-1, s).

(** The bounded copy of eth_open.c: [dst] is the destination buffer, [src] the
    bytes of the source before its NUL, [siz] the size; the result and what
    [dst] holds afterwards, [None] when the copy leaves the buffer. *)
Fixpoint strlcpy_loop (dst src : bytes) (n : nat) : option bytes :=
  match n, dst with
  | O, _ => None
  | S O, _ :: dst => Some (0 :: dst)
  | S n, _ :: dst =>
      match src with
      | [] => Some (0 :: dst)
      | c :: src => dst ← strlcpy_loop dst src n; Some (c :: dst)
      end
  | _, [] => None
  end.

Definition _strlcpy (dst src : bytes) (siz : nat) : option (bytes * Z) :=
  match siz with
  | O => Some (dst, Z.of_nat (length src))
  | _ => dst ← strlcpy_loop dst src siz; Some (dst, Z.of_nat (length src))
  end.

(** ** Code: the environment *)

(** [umem_stack_t]: its address and that of its array. *)
Record stack_handle := StackHandle { sh_self : Z; sh_addrs : Z }.

Definition create_stack (s : os) : outcome (option stack_handle * os) :=
  let '(p, s) := malloc s in
  if p =? NULL then Ret (None, s)
  else
    let '(addrs, s) := malloc s in
    if addrs =? NULL then s ← free p s; Ret (None, s)
    else Ret (Some (StackHandle p addrs), s).

Record env_handle := EnvHandle {
  nh_self : Z; nh_stack : stack_handle; nh_xdp : xdp_handle; nh_eth : eth_handle
}.

Definition err_stack (env : Z) (s : os) : outcome (option env_handle * os) :=
  s ← free env s; Ret (None, s).
Definition err_xdp (env : Z) (st : stack_handle) (s : os) : outcome (option env_handle * os) :=
  s ← free (sh_self st) s; err_stack env s.
Definition err_eth (env : Z) (st : stack_handle) (s : os) : outcome (option env_handle * os) :=
  err_xdp env st s.

Definition env_init (offs : xdp_mmap_offsets) (device : bool) (s : os) : outcome (option env_handle * os) :=
  let '(env, s) := malloc s in
  if env =? NULL then Ret (None, s)
  else
    '(st, s) ← create_stack s;
    match st with
    | None => err_stack env s
    | Some st =>
        '(x, s) ← xdp_open offs s;
        match x with
        | None => err_xdp env st s
        | Some x =>
            '(e, s) ← eth_open device s;
            match e with
            | None => err_eth env st s
            | Some e => Ret (Some (EnvHandle env st x e), s)
            end
        end
    end.

(** ** Code: [free_ringbuf] *)
Fixpoint free_cells (cells : list ringbuf_cell) (s : os) : outcome os :=
  match cells with
  | [] => Ret s
  | c :: cells => s ← free (cell_packet c) s; free_cells cells s
  end.

(** [self] and [cells] are the addresses of the ring and of its array. *)
Definition free_ringbuf (self cells : Z) (rb : ringbuf) (s : os) : outcome os :=
  s ← free_cells (take (Z.to_nat (rb_size rb)) (rb_cells rb)) s;
  s ← free cells s;
  free self s.

(** ** Lemmas *)
Lemma remove1_head r l : remove1 r (r :: l) = l.
Proof. cbn. by rewrite decide_True. Qed.

Lemma remove1_perm r l : r ∈ l → r :: remove1 r l ≡ₚ l.
Proof.
  induction l as [|x l IH]; intros Hr; [by apply elem_of_nil in Hr|]. cbn.
  destruct (decide (x = r)) as [->|Hne]; [done|].
  apply elem_of_cons in Hr as [Hr|Hr]; [done|]. by rewrite Permutation.perm_swap, IH.
Qed.

(** What a pointer of [malloc] or [mmap] and a descriptor stand for. *)
Definition blocks (p : Z) : list resource := if p =? NULL then [] else [RMem p].
Definition maps (p : Z) : list resource := if p =? MAP_FAILED then [] else [RMap p].
Definition fds (fd : Z) : list resource := if fd <? 0 then [] else [RFd fd].

Lemma call_held fail s r s' : call fail s = (r, s') → os_held s' = os_held s.
Proof. unfold call. destruct (os_results s); intros [= <- <-]; done. Qed.

Lemma status_held s r s' : status_call s = (r, s') → os_held s' = os_held s.
Proof. apply call_held. Qed.

Lemma malloc_held s p s' : malloc s = (p, s') → os_held s' = blocks p ++ os_held s.
Proof.
  unfold malloc, blocks. destruct (call NULL s) as [q s1] eqn:E. intros [= <- <-].
  rewrite <-(call_held _ _ _ _ E). by destruct (q =? NULL).
Qed.

Lemma mmap_held s p s' : mmap s = (p, s') → os_held s' = maps p ++ os_held s.
Proof.
  unfold mmap, maps. destruct (call MAP_FAILED s) as [q s1] eqn:E. intros [= <- <-].
  rewrite <-(call_held _ _ _ _ E). by destruct (q =? MAP_FAILED).
Qed.

Lemma socket_held s p s' : socket s = (p, s') → os_held s' = fds p ++ os_held s.
Proof.
  unfold socket, fds. destruct (call (-1) s) as [q s1] eqn:E. intros [= <- <-].
  rewrite <-(call_held _ _ _ _ E). by destruct (q <? 0).
Qed.

Lemma free_held p s h : os_held s = blocks p ++ h → ∃ s', free p s = Ret s' ∧ os_held s' = h.
Proof.
  unfold blocks, free. destruct (p =? NULL); [by eauto|]. intros E. rewrite E.
  rewrite decide_True by (cbn; by left). eexists; split; [done|]. cbn [drop_res os_held].
  rewrite E. apply remove1_head.
Qed.

(** The same in any order. *)
Lemma free_perm p s h :
  os_held s ≡ₚ blocks p ++ h → ∃ s', free p s = Ret s' ∧ os_held s' ≡ₚ h.
Proof.
  unfold blocks, free. destruct (p =? NULL); [by eauto|]. cbn [app]. intros E.
  assert (RMem p ∈ os_held s) as Hin by (rewrite E; by left). rewrite decide_True by done.
  eexists; split; [done|]. cbn [drop_res os_held].
  apply (Permutation.Permutation_cons_inv (a := RMem p)). by rewrite remove1_perm.
Qed.

Lemma munmap_held p s h : os_held s = maps p ++ h → os_held (munmap p s) = h.
Proof.
  unfold maps, munmap. destruct (p =? MAP_FAILED); [done|]. intros E. cbn [drop_res os_held].
  rewrite E. apply remove1_head.
Qed.

Lemma close_held fd s h : 0 ≤ fd → os_held s = fds fd ++ h → os_held (close fd s) = h.
Proof.
  intros Hfd E. unfold fds in E. rewrite (proj2 (Z.ltb_ge _ _)) in E by done.
  cbn [close drop_res os_held]. rewrite E. apply remove1_head.
Qed.

Lemma setsockopts_held n s ok s' : setsockopts n s = (ok, s') → os_held s' = os_held s.
Proof.
  revert s. induction n as [|n IH]; intros s; cbn [setsockopts]; [by intros [= <- <-]|].
  destruct (status_call s) as [r s1] eqn:E. rewrite <-(status_held _ _ _ E).
  destruct (r <? 0); [by intros [= <- <-]|apply IH].
Qed.

(** The cleanup labels release what is held at the jumps to them. *)
Section labels.
  Context (xdp fd umem rx tx fr cr : Z) (h : list resource) (Hfd : 0 ≤ fd).
Implicit Type s : os.

Lemma err_fd_held s :
  os_held s = blocks xdp ++ h → ∃ s', err_fd xdp s = Ret (None, s') ∧ os_held s' = h.
Proof. intros (s' & E & ?)%free_held. exists s'. unfold err_fd. rewrite E. done. Qed.

Lemma err_umem_mmap_held s :
  os_held s = fds fd ++ blocks xdp ++ h →
  ∃ s', err_umem_mmap xdp fd s = Ret (None, s') ∧ os_held s' = h.
Proof. intros E. by apply err_fd_held, close_held. Qed.

Lemma err_umem_reg_held s :
  os_held s = maps umem ++ fds fd ++ blocks xdp ++ h →
  ∃ s', err_umem_reg xdp fd umem s = Ret (None, s') ∧ os_held s' = h.
Proof. intros E. by apply err_umem_mmap_held, munmap_held. Qed.

Lemma err_rx_ring_held s :
  os_held s = maps rx ++ maps umem ++ fds fd ++ blocks xdp ++ h →
  ∃ s', err_rx_ring xdp fd umem rx s = Ret (None, s') ∧ os_held s' = h.
Proof. intros E. by apply err_umem_reg_held, munmap_held. Qed.

Lemma err_tx_ring_held s :
  os_held s = maps tx ++ maps rx ++ maps umem ++ fds fd ++ blocks xdp ++ h →
  ∃ s', err_tx_ring xdp fd umem rx tx s = Ret (None, s') ∧ os_held s' = h.
Proof. intros E. by apply err_rx_ring_held, munmap_held. Qed.

Lemma err_fr_ring_held s :
  os_held s = maps fr ++ maps tx ++ maps rx ++ maps umem ++ fds fd ++ blocks xdp ++ h →
  ∃ s', err_fr_ring xdp fd umem rx tx fr s = Ret (None, s') ∧ os_held s' = h.
Proof. intros E. by apply err_tx_ring_held, munmap_held. Qed.

Lemma err_cr_ring_held s :
  os_held s = maps cr ++ maps fr ++ maps tx ++ maps rx ++ maps umem ++ fds fd ++ blocks xdp ++ h →
  ∃ s', err_cr_ring xdp fd umem rx tx fr cr s = Ret (None, s') ∧ os_held s' = h.
Proof. intros E. by apply err_fr_ring_held, munmap_held. Qed.
End labels.

(** What an open XDP socket holds. *)
Definition xdp_holds (x : xdp_handle) : list resource :=
  maps (rp_mmap (xh_completion x)) ++ maps (rp_mmap (xh_fill x)) ++ maps (rp_mmap (xh_tx x))
  ++ maps (rp_mmap (xh_rx x)) ++ maps (xh_umem x) ++ fds (xh_fd x) ++ blocks (xh_self x).

Definition eth_holds (e : eth_handle) : list resource := fds (eh_fd e) ++ blocks (eh_self e).

(** A call that gave [r], all of it held, or failed and holds nothing new. *)
Definition acquires {A} (r : option A) (holds : A → list resource) (s s' : os) : Prop :=
  os_held s' = match r with Some x => holds x ++ os_held s | None => os_held s end.

(** A failing branch: the label's lemma says that all is released. *)
Ltac fails_by L := let s' := fresh "s'" in destruct L as (s' & -> & ?); by exists None, s'.

Lemma xdp_open_acquires offs s :
  ∃ r s', xdp_open offs s = Ret (r, s') ∧ acquires r xdp_holds s s'.
Proof.
  unfold xdp_open. set (h := os_held s).
  destruct (malloc s) as [xdp s1] eqn:E1. apply malloc_held in E1.
  destruct (Z.eqb_spec xdp NULL) as [->|Hx]. { fails_by (err_fd_held NULL h s1 E1). }
  destruct (socket s1) as [fd s2] eqn:E2. apply socket_held in E2. rewrite E1 in E2.
  destruct (Z.ltb_spec fd 0) as [Hf|Hf].
  { unfold fds in E2. rewrite (proj2 (Z.ltb_lt _ _)) in E2 by done.
    destruct (err_fd_held xdp h s2 E2) as (s' & -> & ?). by exists None, s'. }
  destruct (mmap s2) as [umem s3] eqn:E3. apply mmap_held in E3. rewrite E2 in E3.
  destruct (Z.eqb_spec umem MAP_FAILED) as [->|Hu]. { fails_by (err_umem_mmap_held xdp fd h Hf s3 E3). }
  destruct (setsockopts 5 s3) as [ok s4] eqn:E4. apply setsockopts_held in E4. rewrite E3 in E4.
  destruct ok; cbn [negb]; cycle 1. { fails_by (err_umem_reg_held xdp fd umem h Hf s4 E4). }
  destruct (status_call s4) as [r s5] eqn:E5. apply status_held in E5. rewrite E4 in E5.
  destruct (r <? 0). { fails_by (err_umem_reg_held xdp fd umem h Hf s5 E5). }
  destruct (mmap s5) as [rx s6] eqn:E6. apply mmap_held in E6. rewrite E5 in E6.
  destruct (rx =? MAP_FAILED). { fails_by (err_rx_ring_held xdp fd umem rx h Hf s6 E6). }
  destruct (mmap s6) as [tx s7] eqn:E7. apply mmap_held in E7. rewrite E6 in E7.
  destruct (tx =? MAP_FAILED). { fails_by (err_tx_ring_held xdp fd umem rx tx h Hf s7 E7). }
  destruct (mmap s7) as [fr s8] eqn:E8. apply mmap_held in E8. rewrite E7 in E8.
  destruct (fr =? MAP_FAILED). { fails_by (err_fr_ring_held xdp fd umem rx tx fr h Hf s8 E8). }
  destruct (mmap s8) as [cr s9] eqn:E9. apply mmap_held in E9. rewrite E8 in E9.
  destruct (cr =? MAP_FAILED). { fails_by (err_cr_ring_held xdp fd umem rx tx fr cr h Hf s9 E9). }
  destruct (status_call s9) as [b s10] eqn:E10. apply status_held in E10. rewrite E9 in E10.
  destruct (b <? 0). { fails_by (err_cr_ring_held xdp fd umem rx tx fr cr h Hf s10 E10). }
  eexists _, s10. split; [done|]. unfold acquires, xdp_holds. cbn [xh_completion xh_fill xh_tx xh_rx xh_umem
    xh_fd xh_self rp_mmap ring_at]. by rewrite E10, <-!app_assoc.
Qed.

Lemma eth_close_held e s h :
  os_held s = eth_holds e ++ h → ∃ s', eth_close (Some e) s = Ret s' ∧ os_held s' = h.
Proof.
  unfold eth_holds, fds. intros E. cbn [eth_close]. rewrite Z.ltb_antisym in E.
  destruct (Z.leb_spec 0 (eh_fd e)); cbn [negb] in E; [|by apply free_held].
  apply free_held. apply close_held; [done|]. unfold fds. rewrite (proj2 (Z.ltb_ge _ _)) by done. done.
Qed.

Lemma eth_open_acquires device s :
  ∃ r s', eth_open device s = Ret (r, s') ∧ acquires r eth_holds s s'.
Proof.
  unfold eth_open. destruct device; cbn [negb]; [|by eexists _, _].
  destruct (malloc s) as [p s1] eqn:E1. apply malloc_held in E1. set (h := os_held s) in *.
  destruct (Z.eqb_spec p NULL) as [->|Hp]; [by exists None, s1|].
  destruct (socket s1) as [fd s2] eqn:E2. apply socket_held in E2. rewrite E1 in E2.
  assert (∀ s0, os_held s0 = os_held s2 →
    ∃ (r : option eth_handle) s', (s' ← eth_close (Some (EthHandle p fd)) s0; Ret (None, s')) = Ret (r, s')
              ∧ acquires r eth_holds s s') as Hfail.
  { intros s0 E0. destruct (eth_close_held (EthHandle p fd) s0 h) as (s' & -> & ?).
    { rewrite E0, E2. unfold eth_holds. by rewrite <-app_assoc. }
    by exists None, s'. }
  destruct (fd <? 1); [by apply Hfail|].
  destruct (status_call s2) as [r s3] eqn:E3. apply status_held in E3.
  destruct (r <? 0); [by apply Hfail|].
  destruct (status_call s3) as [b s4] eqn:E4. apply status_held in E4. rewrite E3 in E4.
  destruct (b <? 0); [by apply Hfail|].
  destruct (status_call s4) as [o s5] eqn:E5. apply status_held in E5. rewrite E4 in E5.
  destruct (status_call s5) as [flags s6] eqn:E6. apply status_held in E6. rewrite E5 in E6.
  destruct (flags <? 0); [by apply Hfail|].
  destruct (status_call s6) as [f s7] eqn:E7. apply status_held in E7. rewrite E6 in E7.
  destruct (f <? 0); [by apply Hfail|].
  eexists _, s7. split; [done|]. unfold acquires, eth_holds. cbn [eh_fd eh_self].
  by rewrite E7, E2, <-app_assoc.
Qed.

Lemma create_stack_acquires s :
  ∃ r s', create_stack s = Ret (r, s')
  ∧ acquires r (λ st, blocks (sh_addrs st) ++ blocks (sh_self st)) s s'
  ∧ ∀ st, r = Some st → sh_addrs st ≠ NULL.
Proof.
  unfold create_stack. destruct (malloc s) as [p s1] eqn:E1. apply malloc_held in E1.
  destruct (Z.eqb_spec p NULL) as [->|Hp]; [by exists None, s1|].
  destruct (malloc s1) as [q s2] eqn:E2. apply malloc_held in E2. rewrite E1 in E2.
  destruct (Z.eqb_spec q NULL) as [->|Hq].
  - destruct (free_held p s2 (os_held s) E2) as (s' & -> & ?). rewrite bind_ret. by exists None, s'.
  - eexists _, s2. split; [done|]. split; [|by intros ? [= <-]].
    unfold acquires. cbn [sh_addrs sh_self]. by rewrite E2, <-app_assoc.
Qed.

Lemma err_stack_perm env s h :
  os_held s ≡ₚ blocks env ++ h → ∃ s', err_stack env s = Ret (None, s') ∧ os_held s' ≡ₚ h.
Proof. intros (s' & E & ?)%free_perm. exists s'. unfold err_stack. by rewrite E. Qed.

(** Only the stack itself is freed, not its array. *)
Lemma err_xdp_perm env st s h :
  os_held s ≡ₚ blocks (sh_self st) ++ blocks env ++ h →
  ∃ s', err_xdp env st s = Ret (None, s') ∧ os_held s' ≡ₚ h.
Proof.
  intros (s1 & E & H1)%free_perm. unfold err_xdp. rewrite E, bind_ret. by apply err_stack_perm.
Qed.

(** ** Properties *)

(** C26: on every path through [xdp_open] and [eth_open], whatever the system
    calls return: a failing call leaves the process with what it held before,
    a successful one with the socket's resources and nothing else; nothing is
    freed twice. *)
Theorem sockets_balanced (offs : xdp_mmap_offsets) (device : bool) (s : os) :
  (∃ r s', xdp_open offs s = Ret (r, s')
   ∧ os_held s' = match r with Some x => xdp_holds x ++ os_held s | None => os_held s end)
  ∧ (∃ r s', eth_open device s = Ret (r, s')
     ∧ os_held s' = match r with Some e => eth_holds e ++ os_held s | None => os_held s end)
  ∧ (∀ e h, os_held s = eth_holds e ++ h → ∃ s', eth_close (Some e) s = Ret s' ∧ os_held s' = h).
Proof.
  split; [apply xdp_open_acquires|]. split; [apply eth_open_acquires|].
  intros e h. apply eth_close_held.
Qed.

(** [kpnet_env_init] does not release all it holds when it fails: if
    [xdp_open] fails the array of the UMEM stack stays allocated, and if
    [eth_open] fails the whole AF_XDP socket does, too. *)
Lemma env_init_outcomes (offs : xdp_mmap_offsets) (device : bool) (s : os) :
  ∃ r s', env_init offs device s = Ret (r, s') ∧
  match r with
  | Some e => os_held s' ≡ₚ eth_holds (nh_eth e) ++ xdp_holds (nh_xdp e)
                ++ blocks (sh_addrs (nh_stack e)) ++ blocks (sh_self (nh_stack e)) ++ blocks (nh_self e) ++ os_held s
  | None => os_held s' ≡ₚ os_held s
      ∨ (∃ addrs, addrs ≠ NULL ∧ os_held s' ≡ₚ RMem addrs :: os_held s)
      ∨ (∃ x addrs, addrs ≠ NULL ∧ os_held s' ≡ₚ xdp_holds x ++ RMem addrs :: os_held s)
  end.
Proof.
  unfold env_init. destruct (malloc s) as [env s1] eqn:E1. apply malloc_held in E1.
  destruct (Z.eqb_spec env NULL) as [->|Hn]; [exists None, s1; split; [done|]; left; by rewrite E1|].
  destruct (create_stack_acquires s1) as (st & s2 & -> & E2 & Hst). rewrite bind_ret. unfold acquires in E2.
  destruct st as [st|]; cycle 1.
  { destruct (err_stack_perm env s2 (os_held s)) as (s' & -> & ?); [by rewrite E2, E1|].
    exists None, s'. split; [done|]. by left. }
  specialize (Hst _ eq_refl).
  assert (blocks (sh_addrs st) = [RMem (sh_addrs st)]) as Ea
    by (unfold blocks; by rewrite (proj2 (Z.eqb_neq _ _))).
  destruct (xdp_open_acquires offs s2) as (x & s3 & -> & E3). rewrite bind_ret. unfold acquires in E3.
  destruct x as [x|]; cycle 1.
  { destruct (err_xdp_perm env st s3 (RMem (sh_addrs st) :: os_held s)) as (s' & -> & ?).
    { rewrite E3, E2, E1, Ea. solve_Permutation. }
    exists None, s'. split; [done|]. right. left. by exists (sh_addrs st). }
  destruct (eth_open_acquires device s3) as (e & s4 & -> & E4). rewrite bind_ret. unfold acquires in E4.
  destruct e as [e|]; cycle 1.
  { destruct (err_xdp_perm env st s4 (xdp_holds x ++ RMem (sh_addrs st) :: os_held s)) as (s' & E & ?).
    { rewrite E4, E3, E2, E1, Ea. solve_Permutation. }
    exists None, s'. unfold err_eth. rewrite E. split; [done|]. right. right. by exists x, (sh_addrs st). }
  eexists _, s4. split; [done|]. cbn [nh_eth nh_xdp nh_stack nh_self].
  rewrite E4, E3, E2, E1, <-!app_assoc. done.
Qed.

(** Both leaks happen: there are results of the system calls for which
    [kpnet_env_init] returns NULL and the process holds the array of the UMEM
    stack, or the array, the AF_XDP handle, its descriptor and its five
    mappings. *)
Lemma env_init_leaks (offs : xdp_mmap_offsets) :
  (∃ s s', env_init offs true s = Ret (None, s') ∧ os_held s = [] ∧ os_held s' = [RMem 30])
  ∧ (∃ s s', env_init offs true s = Ret (None, s') ∧ os_held s = []
     ∧ os_held s' = [RMap 95; RMap 94; RMap 93; RMap 92; RMap 90; RFd 5; RMem 40; RMem 30]).
Proof.
  split.
  - exists (Os [10; 20; 30; 0] []), (Os [] [RMem 30]). split; [by vm_compute|done].
  - exists (Os [10; 20; 30; 40; 5; 90; 0; 0; 0; 0; 0; 0; 92; 93; 94; 95; 0; 60; -1] []),
      (Os [] [RMap 95; RMap 94; RMap 93; RMap 92; RMap 90; RFd 5; RMem 40; RMem 30]).
    split; [by vm_compute|done].
Qed.

(** *** Freeing a ring *)
Lemma free_live p s :
  p ≠ NULL → free p s = if decide (RMem p ∈ os_held s) then Ret (drop_res (RMem p) s) else Fault.
Proof. intros Hp. unfold free. by rewrite (proj2 (Z.eqb_neq _ _)). Qed.

Lemma free_cells_perm cs s h :
  os_held s ≡ₚ concat ((λ c, blocks (cell_packet c)) <$> cs) ++ h →
  ∃ s', free_cells cs s = Ret s' ∧ os_held s' ≡ₚ h.
Proof.
  revert s. induction cs as [|c cs IH]; intros s E; cbn in *; [by exists s|].
  rewrite <-app_assoc in E. destruct (free_perm _ _ _ E) as (s1 & -> & E1). rewrite bind_ret. by apply IH.
Qed.

(** [free_ringbuf] frees what the packets of all cells point to, the array
    and the ring, if each of them is allocated as often as it is named; but a
    cell keeps its packet when it is popped, so that a ring through which one
    packet went twice frees it twice. *)
Lemma free_ringbuf_outcomes (self cells : Z) (s : os) :
  (∀ rb h, length (rb_cells rb) = Z.to_nat (rb_size rb) →
     os_held s ≡ₚ concat ((λ c, blocks (cell_packet c)) <$> rb_cells rb) ++ blocks cells ++ blocks self ++ h →
     ∃ s', free_ringbuf self cells rb s = Ret s' ∧ os_held s' ≡ₚ h)
  ∧ (∀ junk p n, p ≠ NULL → NoDup (os_held s) →
     ∃ rb0 rb1 i rb2 rb3, create_ringbuf true true junk 2 = Ret (Some rb0)
     ∧ push_ringbuf rb0 p n = Ret (0, rb1) ∧ pop_ringbuf rb1 = Ret (Some i, rb2)
     ∧ push_ringbuf rb2 p n = Ret (0, rb3) ∧ free_ringbuf self cells rb3 s = Fault).
Proof.
  split.
  - intros rb h Hlen E. unfold free_ringbuf. rewrite take_ge by lia.
    destruct (free_cells_perm _ _ _ E) as (s1 & -> & E1). rewrite bind_ret.
    destruct (free_perm _ _ _ E1) as (s2 & -> & E2). rewrite bind_ret. by apply free_perm.
  - intros junk p n Hp Hnd. do 5 eexists. do 4 (split; [reflexivity|]).
    unfold free_ringbuf. cbn [rb_size rb_cells].
    change (take (Z.to_nat 2) _) with [Cell 2 n p; Cell 2 n p].
    cbn [free_cells cell_packet]. rewrite (free_live p s Hp).
    case_decide as Hin; [|done]. rewrite bind_ret, (free_live p _ Hp).
    rewrite decide_False; [done|]. cbn [drop_res os_held]. intros Hin'.
    pose proof (remove1_perm _ _ Hin) as Hperm. rewrite <-Hperm in Hnd. by apply NoDup_cons in Hnd as [? _].
Qed.

(** *** The bounded copy *)
Lemma strlcpy_loop_spec n (dst src : bytes) :
  (0 < n)%nat → (n ≤ length dst)%nat →
  ∃ rest, strlcpy_loop dst src n = Some (take (n - 1) src ++ 0 :: rest)
  ∧ length (take (n - 1) src ++ 0 :: rest) = length dst.
Proof.
  revert dst src. induction n as [|n IH]; intros dst src Hn Hl; [lia|].
  destruct dst as [|d dst]; [cbn in Hl; lia|]. destruct n as [|n].
  - exists dst. split; [done|]. done.
  - destruct src as [|c src]; cbn [strlcpy_loop].
    + exists dst. by rewrite take_nil.
    + destruct (IH dst src) as (rest & -> & E); [lia|cbn in Hl; lia|]. cbn [Nat.sub] in *.
      rewrite Nat.sub_0_r in *. exists rest. split; [done|]. cbn. by rewrite E.
Qed.

(** [_strlcpy] into a buffer of [siz] bytes stays inside it, leaves the
    first [siz - 1] characters of the source and a NUL in it, and returns the
    length of the source. *)
Lemma strlcpy_copies (dst src : bytes) (siz : nat) (Hs : (siz ≤ length dst)%nat) :
  ∃ dst', _strlcpy dst src siz = Some (dst', Z.of_nat (length src)) ∧ length dst' = length dst
  ∧ ((0 < siz)%nat → ∃ rest, dst' = take (siz - 1) src ++ 0 :: rest).
Proof.
  destruct siz as [|siz]; cbn [_strlcpy]; [exists dst; split; [done|]; split; [done|]; lia|].
  destruct (strlcpy_loop_spec (S siz) dst src) as (rest & -> & E); [lia|done|].
  eexists; split; [done|]. split; [done|]. eauto.
Qed.

(** ** Witnesses *)
Lemma strlcpy_copies_witness :
  ∃ dst', _strlcpy [7; 7; 7; 7] [97; 98; 99; 100; 101] 4 = Some (dst', 5) ∧ length dst' = 4%nat
  ∧ ((0 < 4)%nat → ∃ rest, dst' = [97; 98; 99] ++ 0 :: rest).
Proof. apply (strlcpy_copies [7; 7; 7; 7] [97; 98; 99; 100; 101] 4). cbn. lia. Defined.

Lemma sockets_balanced_witness :
  ∃ s', eth_close (Some (EthHandle 16 3)) (Os [] [RFd 3; RMem 16; RMem 8]) = Ret s' ∧ os_held s' = [RMem 8].
Proof.
  apply (sockets_balanced (Offsets (RingOff 0 0 0) (RingOff 0 0 0) (RingOff 0 0 0) (RingOff 0 0 0)) true
           (Os [] [RFd 3; RMem 16; RMem 8])). reflexivity.
Defined.

Lemma free_ringbuf_outcomes_witness :
  ∃ s', free_ringbuf 10 20 (RB 2 1 0 0 [Cell 0 0 30; Cell 1 0 NULL]) (Os [] [RMem 10; RMem 20; RMem 30; RMem 40]) = Ret s'
  ∧ os_held s' ≡ₚ [RMem 40].
Proof.
  apply (free_ringbuf_outcomes 10 20 (Os [] [RMem 10; RMem 20; RMem 30; RMem 40])); [reflexivity|].
  cbn. solve_Permutation.
Defined.
