(* ===== verification/Umem.v ===== *)
(** * UMEM chunks and 64-byte blocks (create_umem_stack.c, umem_stack_push.c,
    umem_stack_pop.c, slab_alloc_64b.c, slab_free_64b.c)

    A stack of chunk offsets, and on top of it a slab allocator that cuts the
    chunks into blocks of 64 bytes; the free blocks are linked through their
    own first eight bytes.  [slab_rep] lists the blocks the allocator will hand
    out, in order, so that allocation takes the head of that list and freeing
    puts the block back at the head. *)
From S2P Require Import Prelude Bytes Mem.

(** ** Code *)
Definition UMEM_CHUNK_SIZE : Z := 4096.
Definition UMEM_CHUNK_COUNT : Z := 4096.
Definition L1_CACHE_BYTES : Z := 64.

(** [(u64) -1] *)
Definition NO_CHUNK : Z := 0xFFFFFFFFFFFFFFFF.

Record umem_stack := UStack { addrs : list Z; top : Z; cap : Z }.

Definition create_umem_stack (malloc_stack malloc_addrs : bool) (num_chunks chunk_size : Z)
  : option umem_stack :=
  if malloc_stack then
    if malloc_addrs then
      Some (UStack ((λ i, u64 (Z.of_nat i * chunk_size)) <$> seq 0 (Z.to_nat num_chunks))
                   num_chunks num_chunks)
    else None
  else None.

Definition umem_stack_pop (stack : umem_stack) : outcome (Z * umem_stack) :=
  if top stack =? 0 then Ret (NO_CHUNK, stack)
  else
    let top := u32 (top stack - 1) in
    addr ← get (addrs stack !! Z.to_nat top);
    Ret (addr, UStack (addrs stack) top (cap stack)).

Definition umem_stack_push (stack : umem_stack) (addr : Z) : outcome umem_stack :=
  if top stack =? cap stack then Ret stack
  else
    _ ← get (addrs stack !! Z.to_nat (top stack));
    Ret (UStack (<[Z.to_nat (top stack) := addr]> (addrs stack)) (u32 (top stack + 1)) (cap stack)).

Record umem_slab_allocator := Slab {
  free_list : Z;
  stack : umem_stack;
  cur_pos : Z;
  cur_end : Z
}.

Definition slab_alloc_64b (m : mem) (alloc : umem_slab_allocator) (umem_base : Z)
  : outcome (Z * umem_slab_allocator) :=
  if negb (free_list alloc =? NULL) then
    let ptr := free_list alloc in
    next ← ld m ptr 8;
    Ret (ptr, Slab next (stack alloc) (cur_pos alloc) (cur_end alloc))
  else
    '(ok, alloc) ←
      (if cur_end alloc <=? cur_pos alloc then
         '(offset, st) ← umem_stack_pop (stack alloc);
         if offset =? NO_CHUNK then Ret (false, Slab (free_list alloc) st (cur_pos alloc) (cur_end alloc))
         else
           let pos := u64 (umem_base + offset) in
           Ret (true, Slab (free_list alloc) st pos (u64 (pos + UMEM_CHUNK_SIZE)))
       else Ret (true, alloc));
    if ok : bool then
      Ret (cur_pos alloc, Slab (free_list alloc) (stack alloc)
                            (u64 (cur_pos alloc + L1_CACHE_BYTES)) (cur_end alloc))
    else Ret (NULL, alloc).

Definition slab_free_64b (m : mem) (alloc : umem_slab_allocator) (ptr : Z)
  : outcome (mem * umem_slab_allocator) :=
  m ← st m ptr 8 (free_list alloc);
  Ret (m, Slab ptr (stack alloc) (cur_pos alloc) (cur_end alloc)).

(** ** The stack of chunks *)

(** [l]: the offsets it holds, the next one to pop first. *)
Record stack_rep (s : umem_stack) (l : list Z) : Prop := {
  stack_cap : cap s = Z.of_nat (length (addrs s));
  stack_u32 : is_u32 (cap s);
  stack_top : top s = Z.of_nat (length l);
  stack_fits : (length l ≤ length (addrs s))%nat;
  stack_items : take (length l) (addrs s) = reverse l
}.

Lemma stack_pop_spec s a l :
  stack_rep s (a :: l) → ∃ s', umem_stack_pop s = Ret (a, s') ∧ stack_rep s' l ∧ cap s' = cap s.
Proof.
  intros [Hc Hu Ht Hf Hi]. cbn [length] in *. unfold umem_stack_pop.
  rewrite (proj2 (Z.eqb_neq (top s) 0)) by lia.
  rewrite (u32_id (top s - 1)) by (unfold is_u32 in *; lia).
  replace (Z.to_nat (top s - 1)) with (length l) by lia.
  assert (addrs s !! length l = Some a) as ->.
  { rewrite <-(lookup_take_lt _ (S (length l))) by lia. rewrite Hi, reverse_cons.
    rewrite lookup_app_r by (rewrite length_reverse; lia). by rewrite length_reverse, Nat.sub_diag. }
  cbn [get mbind outcome_bind]. eexists. split; [done|]. split; [|done].
  split; cbn [addrs top cap]; try done; try lia.
  apply (f_equal (take (length l))) in Hi. rewrite take_take, Nat.min_l in Hi by lia.
  rewrite Hi, reverse_cons, take_app_length'; [done|]. by rewrite length_reverse.
Qed.

Lemma stack_pop_empty s : stack_rep s [] → umem_stack_pop s = Ret (NO_CHUNK, s).
Proof. intros [_ _ Ht _ _]. unfold umem_stack_pop. by rewrite Ht. Qed.

Lemma stack_push_spec s a l :
  stack_rep s l → Z.of_nat (length l) < cap s →
  ∃ s', umem_stack_push s a = Ret s' ∧ stack_rep s' (a :: l) ∧ cap s' = cap s.
Proof.
  intros [Hc Hu Ht Hf Hi] Hlt. unfold umem_stack_push.
  rewrite (proj2 (Z.eqb_neq (top s) (cap s))) by lia. rewrite Ht, Nat2Z.id.
  destruct (lookup_lt_is_Some_2 (addrs s) (length l)) as [x ->]; [lia|].
  cbn [get mbind outcome_bind]. eexists. split; [done|]. split; [|done].
  split; cbn [addrs top cap length]; rewrite ?length_insert; try done; try lia.
  - rewrite u32_id by (unfold is_u32 in *; lia). lia.
  - rewrite reverse_cons, <-Hi. rewrite (take_S_r _ _ a) by (apply list_lookup_insert_eq; lia).
    by rewrite take_insert_ge by lia.
Qed.

Lemma stack_push_full s a l :
  stack_rep s l → Z.of_nat (length l) = cap s → umem_stack_push s a = Ret s.
Proof. intros [_ _ Ht _ _] H. unfold umem_stack_push. by rewrite Ht, H, Z.eqb_refl. Qed.

Lemma create_stack_spec n size :
  is_u32 n →
  ∃ s, create_umem_stack true true n size = Some s ∧ cap s = n
  ∧ stack_rep s (reverse ((λ i, u64 (Z.of_nat i * size)) <$> seq 0 (Z.to_nat n))).
Proof.
  intros Hn. unfold is_u32 in Hn. eexists. split; [reflexivity|]. split; [done|].
  split; cbn [addrs top cap]; rewrite ?reverse_involutive, ?length_reverse, ?length_fmap, ?length_seq;
    try done; try lia.
  rewrite take_ge; [done|]. by rewrite length_fmap, length_seq.
Qed.

(** ** The blocks *)
Definition far (p q : Z) : Prop := p + 64 ≤ q ∨ q + 64 ≤ p.
Fixpoint spread (l : list Z) : Prop :=
  match l with [] => True | p :: l => Forall (far p) l ∧ spread l end.

#[export] Instance spread_perm : Proper ((≡ₚ) ==> iff) spread.
Proof.
  assert (∀ l1 l2, l1 ≡ₚ l2 → spread l1 → spread l2) as H.
  { induction 1 as [|p l1 l2 Hp IH|p q l|l1 l2 l3 _ IH1 _ IH2]; cbn [spread].
    - done.
    - intros [Hf Hs]. split; [by rewrite <-Hp | auto].
    - rewrite !Forall_cons. unfold far. naive_solver.
    - auto. }
  intros l1 l2 Hl. split; apply H; done.
Qed.

Lemma spread_app l1 l2 :
  spread (l1 ++ l2) ↔ spread l1 ∧ spread l2 ∧ Forall (λ p, Forall (far p) l2) l1.
Proof.
  induction l1 as [|p l1 IH]; cbn [app spread]; [rewrite Forall_nil; tauto|].
  rewrite IH, Forall_app, Forall_cons. tauto.
Qed.

Lemma spread_far l p q : spread (p :: l) → q ∈ l → far p q.
Proof. intros [H _] Hq. rewrite Forall_forall in H. auto. Qed.

(** Writes to one block leave the others alone. *)
Lemma far_write m p q bs cs :
  far p q → Z.of_nat (length bs) ≤ 64 → Z.of_nat (length cs) ≤ 64 →
  bytes_at m q cs → bytes_at (write m p bs) q cs.
Proof. intros Hf Hb Hc H. apply bytes_at_write_other; [done|]. unfold far in Hf. lia. Qed.

(** The free list: from [p] through the blocks [l]. *)
Fixpoint chain (m : mem) (p : Z) (l : list Z) : Prop :=
  match l with
  | [] => p = NULL
  | q :: l => p = q ∧ ∃ next, is_u64 next ∧ bytes_at m q (le_enc 8 next) ∧ chain m next l
  end.

Definition blocks_from (pos : Z) (n : nat) : list Z := (λ j, pos + 64 * Z.of_nat j) <$> seq 0 n.

Definition chunk_ok (base o : Z) : Prop :=
  is_u64 o ∧ o ≠ NO_CHUNK ∧ base + o + UMEM_CHUNK_SIZE < 0x10000000000000000.

(** The blocks the allocator will hand out, the next one first: the freed ones,
    what is left of the current chunk, the chunks of the stack. *)
Record slab_rep (base : Z) (m : mem) (a : umem_slab_allocator) (L : list Z) : Prop := {
  slab_base : 0 < base;
  slab_data : ∃ F k l,
    chain m (free_list a) F ∧ NULL ∉ F ∧ Forall is_u64 F
    ∧ 0 ≤ cur_pos a ∧ cur_end a < 0x10000000000000000 ∧ cur_end a = cur_pos a + 64 * Z.of_nat k
    ∧ (k ≠ 0%nat → 0 < cur_pos a)
    ∧ stack_rep (stack a) l ∧ Forall (chunk_ok base) l
    ∧ L = F ++ blocks_from (cur_pos a) k ++ concat ((λ o, blocks_from (base + o) 64) <$> l)
}.

Lemma blocks_from_S pos n : blocks_from pos (S n) = pos :: blocks_from (pos + 64) n.
Proof.
  unfold blocks_from. cbn [seq fmap list_fmap]. f_equal; [lia|].
  rewrite <-fmap_S_seq, <-list_fmap_compose. apply list_fmap_ext. intros i j _. cbn. lia.
Qed.

Lemma chain_write m p bs l : ∀ h,
  chain m h l → Forall (far p) l → Z.of_nat (length bs) ≤ 64 → chain (write m p bs) h l.
Proof.
  induction l as [|q l IH]; intros h Hc Hf Hb; cbn [chain] in *; [done|].
  apply Forall_cons in Hf as [Hpq Hf]. destruct Hc as [-> (nx & Hu & Hat & Hc)].
  split; [done|]. exists nx. split; [done|]. split; [|by apply IH].
  apply far_write; [done..| |done]. rewrite length_le_enc. lia.
Qed.

Lemma slab_write base m a L p bs :
  slab_rep base m a L → Forall (far p) L → Z.of_nat (length bs) ≤ 64 →
  slab_rep base (write m p bs) a L.
Proof.
  intros [Hb (F & k & l & Hc & HF & HF64 & ? & ? & ? & ? & ? & ? & ->)] Hf Hbs.
  split; [done|]. exists F, k, l. split; [|by repeat (split; [done|])].
  apply chain_write; [done| |done]. by apply Forall_app in Hf as [? _].
Qed.

Lemma ld_chain m p v : bytes_at m p (le_enc 8 v) → is_u64 v → ld m p 8 = Ret v.
Proof. intros H Hv. apply (ld_at _ _ _ _ []); [by rewrite app_nil_r|]. exact Hv. Qed.

Lemma slab_alloc_empty base m a :
  slab_rep base m a [] → slab_alloc_64b m a base = Ret (NULL, a).
Proof.
  intros [Hb (F & k & l & Hc & HF & _ & ? & ? & ? & _ & Hs & _ & HL)].
  symmetry in HL. apply app_nil in HL as [-> HL]. apply app_nil in HL as [Hk Hl].
  destruct k; [|done]. destruct l as [|o l]; [|done]. cbn in Hc.
  unfold slab_alloc_64b. rewrite Hc. cbn [Z.eqb NULL negb].
  rewrite (proj2 (Z.leb_le _ _)) by lia. rewrite (stack_pop_empty _ Hs).
  cbn [mbind outcome_bind]. rewrite Z.eqb_refl. cbn [mbind outcome_bind]. rewrite <-Hc.
  by destruct a.
Qed.

Lemma slab_alloc_spec base m a p L :
  slab_rep base m a (p :: L) →
  ∃ a', slab_alloc_64b m a base = Ret (p, a') ∧ p ≠ NULL ∧ slab_rep base m a' L.
Proof.
  intros [Hb (F & k & l & Hc & HF & HF64 & Hp0 & Hp1 & Hpk & Hpos & Hs & Hl & HL)].
  unfold slab_alloc_64b. destruct F as [|q F]; cbn [chain app] in *.
  - rewrite Hc. cbn [Z.eqb NULL negb]. destruct k as [|k].
    + change (blocks_from (cur_pos a) 0) with (@nil Z) in HL. destruct l as [|o l]; [done|].
      cbn [app fmap list_fmap concat] in HL. rewrite blocks_from_S in HL. injection HL as -> ->.
      apply Forall_cons in Hl as [(Ho & Ho1 & Ho2) Hl].
      rewrite (proj2 (Z.leb_le _ _)) by lia.
      destruct (stack_pop_spec _ _ _ Hs) as (s' & Hpop & Hs' & _). rewrite Hpop.
      cbn [mbind outcome_bind]. rewrite (proj2 (Z.eqb_neq o NO_CHUNK)) by done.
      unfold UMEM_CHUNK_SIZE, L1_CACHE_BYTES, is_u64 in *.
      cbn [mbind outcome_bind cur_pos cur_end stack free_list].
      rewrite !(u64_id (base + o)) by (unfold is_u64; lia).
      rewrite (u64_id (base + o + 4096)), (u64_id (base + o + 64)) by (unfold is_u64; lia).
      eexists. split; [done|]. split; [unfold NULL; lia|]. split; [done|].
      exists [], 63%nat, l. cbn [free_list cur_pos cur_end stack chain app].
      do 3 (split; [done|]). do 4 (split; [lia|]). done.
    + rewrite blocks_from_S in HL. injection HL as -> ->. specialize (Hpos ltac:(done)).
      rewrite (proj2 (Z.leb_gt _ _)) by lia. cbn [mbind outcome_bind]. unfold L1_CACHE_BYTES.
      rewrite (u64_id (cur_pos a + 64)) by (unfold is_u64; lia).
      eexists. split; [done|]. split; [unfold NULL; lia|]. split; [done|].
      exists [], k, l. cbn [free_list cur_pos cur_end stack chain app].
      do 3 (split; [done|]). do 4 (split; [lia|]). done.
  - injection HL as -> ->. destruct Hc as [-> (nx & Hnx & Hat & Hc)].
    apply not_elem_of_cons in HF as [Hq HF]. rewrite (proj2 (Z.eqb_neq q NULL)) by done.
    cbn [negb]. rewrite (ld_chain _ _ _ Hat Hnx). cbn [mbind outcome_bind].
    eexists. split; [done|]. split; [done|]. split; [done|].
    exists F, k, l. cbn [free_list cur_pos cur_end stack]. apply Forall_cons in HF64 as [_ HF64].
    by do 9 (split; [done|]).
Qed.

Lemma slab_free_spec base m a p L :
  slab_rep base m a L → spread (p :: L) → mapped m p 64 → 0 < p < 0x10000000000000000 →
  ∃ m' a', slab_free_64b m a p = Ret (m', a') ∧ slab_rep base m' a' (p :: L)
  ∧ m' = write m p (le_enc 8 (free_list a)).
Proof.
  intros Hrep [Hfar _] Hm Hp. unfold slab_free_64b.
  rewrite st_mapped by (eapply mapped_sub; [exact Hm|lia|lia]). cbn [mbind outcome_bind].
  do 2 eexists. split; [done|]. split; [|done].
  assert (Z.of_nat (length (le_enc 8 (free_list a))) ≤ 64) as Hlen by (rewrite length_le_enc; lia).
  pose proof (slab_write _ _ _ _ p _ Hrep Hfar Hlen) as [Hb (F & k & l & Hc & HF & HF64 & Hrest)].
  split; [done|]. destruct Hrest as (? & ? & ? & ? & ? & ? & ->). exists (p :: F), k, l.
  cbn [free_list cur_pos cur_end stack chain app].
  assert (is_u64 (free_list a)).
  { destruct F as [|q F]; cbn in Hc; [rewrite Hc; by cbv|]. destruct Hc as [-> _].
    by apply Forall_cons in HF64 as [? _]. }
  split; [split; [done|]; exists (free_list a); split; [done|]; split; [apply bytes_at_write | done]|].
  split; [apply not_elem_of_cons; split; [unfold NULL; lia | done]|].
  split; [constructor; [unfold is_u64; lia | done]|]. by do 6 (split; [done|]).
Qed.

(** ** A client of the allocator

    It allocates, frees the [i]-th block it owns, and writes up to 64 bytes at
    the start of the [i]-th block it owns.  The abstract state is the blocks it
    owns and the blocks that are free. *)
Inductive slab_op := SAlloc | SFree (i : nat) | SWrite (i : nat) (bs : bytes).

Definition abs_step (owned free : list Z) (o : slab_op) : Z * (list Z * list Z) :=
  match o with
  | SAlloc => match free with [] => (NULL, (owned, [])) | p :: free => (p, (p :: owned, free)) end
  | SFree i =>
      match owned !! i with
      | Some p => (p, (delete i owned, p :: free))
      | None => (NULL, (owned, free))
      end
  | SWrite i _ => (NULL, (owned, free))
  end.

Definition client_step (base : Z) (m : mem) (a : umem_slab_allocator) (owned : list Z) (o : slab_op)
  : outcome (Z * (mem * umem_slab_allocator * list Z)) :=
  match o with
  | SAlloc =>
      '(p, a) ← slab_alloc_64b m a base;
      Ret (p, (m, a, if p =? NULL then owned else p :: owned))
  | SFree i =>
      match owned !! i with
      | Some p => '(m, a) ← slab_free_64b m a p; Ret (p, (m, a, delete i owned))
      | None => Ret (NULL, (m, a, owned))
      end
  | SWrite i bs =>
      match owned !! i with
      | Some p => m ← store m p (take 64 bs); Ret (NULL, (m, a, owned))
      | None => Ret (NULL, (m, a, owned))
      end
  end.

Fixpoint abs_run (owned free : list Z) (os : list slab_op) : list Z * (list Z * list Z) :=
  match os with
  | [] => ([], (owned, free))
  | o :: os =>
      let '(r, (owned, free)) := abs_step owned free o in
      let '(rs, s) := abs_run owned free os in (r :: rs, s)
  end.

Fixpoint client_run (base : Z) (m : mem) (a : umem_slab_allocator) (owned : list Z) (os : list slab_op)
  : outcome (list Z * list Z) :=
  match os with
  | [] => Ret ([], owned)
  | o :: os =>
      '(r, (m, a, owned)) ← client_step base m a owned o;
      '(rs, owned) ← client_run base m a owned os;
      Ret (r :: rs, owned)
  end.

Definition slab_inv (base : Z) (m : mem) (a : umem_slab_allocator) (owned free : list Z) : Prop :=
  slab_rep base m a free ∧ spread (owned ++ free)
  ∧ Forall (λ p, mapped m p 64 ∧ 0 < p < 0x10000000000000000) (owned ++ free).

Lemma take_owned owned (i : nat) (p : Z) (free : list Z) :
  owned !! i = Some p → delete i owned ++ p :: free ≡ₚ owned ++ free.
Proof.
  intros H%delete_Permutation. rewrite <-Permutation_middle.
  apply (Permutation_app_tail free (l := p :: delete i owned)). by symmetry.
Qed.

Lemma client_step_refines base m a owned free o :
  slab_inv base m a owned free →
  ∃ m' a', let '(r, (owned', free')) := abs_step owned free o in
  client_step base m a owned o = Ret (r, (m', a', owned')) ∧ slab_inv base m' a' owned' free'.
Proof.
  intros (Hrep & Hsp & Hm). destruct o as [|i|i bs]; cbn [abs_step client_step].
  - destruct free as [|p free].
    + rewrite (slab_alloc_empty _ _ _ Hrep). exists m, a. by repeat (split; [done|]).
    + destruct (slab_alloc_spec _ _ _ _ _ Hrep) as (a' & -> & Hp & Hrep').
      exists m, a'. cbn [mbind outcome_bind]. rewrite (proj2 (Z.eqb_neq p NULL)) by done.
      split; [done|]. split; [done|]. cbn [app]. by rewrite Permutation_middle.
  - destruct (owned !! i) as [p|] eqn:Hi; [|by exists m, a].
    pose proof (take_owned _ _ _ free Hi) as Hperm. rewrite <-Hperm in Hsp, Hm.
    assert (mapped m p 64 ∧ 0 < p < 0x10000000000000000) as [Hmp Hp].
    { rewrite Forall_forall in Hm. apply Hm. set_solver. }
    destruct (slab_free_spec base m a p free Hrep) as (m' & a' & -> & Hrep' & ->); [|done|done|].
    { by apply spread_app in Hsp as (_ & ? & _). }
    do 2 eexists. split; [done|]. split; [done|]. split; [done|].
    eapply Forall_impl; [exact Hm|]. intros q [Hq ?]. split; [by apply mapped_write|done].
  - destruct (owned !! i) as [p|] eqn:Hi; [|by exists m, a].
    pose proof (take_owned _ _ _ free Hi) as Hperm.
    assert (mapped m p 64) as Hmp.
    { rewrite Forall_forall in Hm. apply Hm. apply list_elem_of_lookup_2 in Hi. set_solver. }
    assert (length (take 64 bs) ≤ 64)%nat as Hlen by (rewrite length_take; lia).
    rewrite store_mapped by (eapply mapped_sub; [exact Hmp|lia|lia]). cbn [mbind outcome_bind].
    do 2 eexists. split; [done|]. split; [|split; [done|]].
    + apply slab_write; [done| |lia]. rewrite <-Hperm in Hsp.
      apply spread_app in Hsp as (_ & [Hsp _] & _). done.
    + eapply Forall_impl; [exact Hm|]. intros q [Hq ?]. split; [by apply mapped_write|done].
Qed.

Lemma client_run_refines base os : ∀ m a owned free,
  slab_inv base m a owned free →
  let '(rs, (owned', free')) := abs_run owned free os in
  client_run base m a owned os = Ret (rs, owned') ∧ spread (owned' ++ free').
Proof.
  induction os as [|o os IH]; intros m a owned free Hinv; cbn [abs_run client_run].
  - split; [done|]. apply Hinv.
  - destruct (client_step_refines base m a owned free o Hinv) as (m' & a' & Hstep).
    destruct (abs_step owned free o) as [r [owned1 free1]]. destruct Hstep as [-> Hinv1].
    cbn [mbind outcome_bind]. specialize (IH m' a' owned1 free1 Hinv1).
    destruct (abs_run owned1 free1 os) as [rs [owned2 free2]]. destruct IH as [-> ?]. done.
Qed.

(** ** The fresh allocator *)
Lemma elem_blocks pos n q : q ∈ blocks_from pos n ↔ ∃ j, (j < n)%nat ∧ q = pos + 64 * Z.of_nat j.
Proof.
  unfold blocks_from. rewrite list_elem_of_fmap. split.
  - intros (j & -> & Hj%elem_of_seq). exists j. lia.
  - intros (j & Hj & ->). exists j. rewrite elem_of_seq. lia.
Qed.

Lemma spread_blocks pos n : spread (blocks_from pos n).
Proof.
  revert pos; induction n as [|n IH]; intros pos; [done|]. rewrite blocks_from_S. split; [|done].
  apply Forall_forall. intros q (j & _ & ->)%elem_blocks. unfold far. lia.
Qed.

(** The chunks [0 .. n-1], the last one first. *)
Definition fresh_offsets (n : nat) : list Z := reverse ((λ i, u64 (Z.of_nat i * UMEM_CHUNK_SIZE)) <$> seq 0 n).
Definition fresh_blocks (base : Z) (n : nat) : list Z :=
  concat ((λ o, blocks_from (base + o) 64) <$> fresh_offsets n).

Lemma fresh_offsets_S n :
  fresh_offsets (S n) = u64 (Z.of_nat n * UMEM_CHUNK_SIZE) :: fresh_offsets n.
Proof. unfold fresh_offsets. by rewrite seq_S, fmap_app, reverse_app. Qed.

Lemma fresh_blocks_spec base n :
  Z.of_nat n * UMEM_CHUNK_SIZE < 0x10000000000000000 →
  spread (fresh_blocks base n)
  ∧ ∀ p, p ∈ fresh_blocks base n → base ≤ p ∧ p + 64 ≤ base + Z.of_nat n * UMEM_CHUNK_SIZE.
Proof.
  unfold fresh_blocks. induction n as [|n IH]; intros Hn.
  - split; [done|]. intros p H. by apply not_elem_of_nil in H.
  - rewrite fresh_offsets_S. cbn [fmap list_fmap concat]. unfold UMEM_CHUNK_SIZE in *.
    destruct IH as [Hs Hr]; [lia|]. rewrite (u64_id (Z.of_nat n * 4096)) by (unfold is_u64; lia).
    assert (∀ p, p ∈ blocks_from (base + Z.of_nat n * 4096) 64 →
      base + Z.of_nat n * 4096 ≤ p ∧ p + 64 ≤ base + Z.of_nat (S n) * 4096) as Hb.
    { intros p (j & Hj & ->)%elem_blocks. lia. }
    split.
    + apply spread_app. split; [apply spread_blocks|]. split; [done|].
      apply Forall_forall. intros p Hp. apply Forall_forall. intros q Hq.
      specialize (Hb p Hp). specialize (Hr q Hq). unfold far. lia.
    + intros p [Hp|Hp]%elem_of_app; [specialize (Hb p Hp) | specialize (Hr p Hp)]; lia.
Qed.

Definition fresh_slab (s : umem_stack) : umem_slab_allocator := Slab NULL s NULL NULL.

Lemma fresh_chunks_ok base n :
  base + Z.of_nat n * UMEM_CHUNK_SIZE < 0x10000000000000000 → 0 < base →
  Forall (chunk_ok base) (fresh_offsets n).
Proof.
  intros Hn Hb. induction n as [|n IH]; [constructor|]. rewrite fresh_offsets_S.
  unfold UMEM_CHUNK_SIZE in *. constructor; [|apply IH; lia].
  rewrite u64_id by (unfold is_u64; lia). unfold chunk_ok, is_u64, NO_CHUNK, UMEM_CHUNK_SIZE. lia.
Qed.

(** The allocator of [kpnet_env_init] hands out these blocks, whatever the memory
    holds. *)
Lemma fresh_slab_rep base m n :
  is_u32 (Z.of_nat n) → 0 < base → base + Z.of_nat n * UMEM_CHUNK_SIZE < 0x10000000000000000 →
  ∃ s, create_umem_stack true true (Z.of_nat n) UMEM_CHUNK_SIZE = Some s
  ∧ slab_rep base m (fresh_slab s) (fresh_blocks base n).
Proof.
  intros Hn Hb Hmax. destruct (create_stack_spec _ UMEM_CHUNK_SIZE Hn) as (s & Hs & _ & Hrep).
  rewrite Nat2Z.id in Hrep. exists s. split; [done|].
  split; [done|]. exists [], 0%nat, (fresh_offsets n). cbn [fresh_slab free_list cur_pos cur_end stack].
  split; [done|]. split; [apply not_elem_of_nil|]. do 5 (split; [by constructor || done || (unfold NULL; lia)|]).
  split; [done|]. split; [|done].
  by apply fresh_chunks_ok.
Qed.

Lemma blocks_from_five pos n :
  blocks_from pos (5 + n) = pos :: pos + 64 :: pos + 128 :: pos + 192 :: pos + 256 :: blocks_from (pos + 320) n.
Proof.
  change (5 + n)%nat with (S (S (S (S (S n))))). rewrite !blocks_from_S.
  replace (pos + 64 + 64) with (pos + 128) by lia. replace (pos + 128 + 64) with (pos + 192) by lia.
  replace (pos + 192 + 64) with (pos + 256) by lia. by replace (pos + 256 + 64) with (pos + 320) by lia.
Qed.

(** The first five, at the start of the last chunk. *)
Lemma fresh_blocks_first base n :
  ∃ rest, let b := base + u64 (Z.of_nat n * UMEM_CHUNK_SIZE) in
  fresh_blocks base (S n) = b :: b + 64 :: b + 128 :: b + 192 :: b + 256 :: rest.
Proof.
  unfold fresh_blocks. rewrite fresh_offsets_S. cbn [fmap list_fmap concat].
  rewrite (blocks_from_five _ 59). cbn [app]. eexists. reflexivity.
Qed.

Lemma fresh_stack_inv base m n :
  is_u32 (Z.of_nat n) → 0 < base → base + Z.of_nat n * UMEM_CHUNK_SIZE < 0x10000000000000000 →
  mapped m base (n * 4096) →
  ∃ s, create_umem_stack true true (Z.of_nat n) UMEM_CHUNK_SIZE = Some s
  ∧ slab_inv base m (fresh_slab s) [] (fresh_blocks base n).
Proof.
  intros Hn Hb Hmax Hm. destruct (fresh_slab_rep base m n Hn Hb Hmax) as (s & Hs & Hrep).
  exists s. split; [done|]. destruct (fresh_blocks_spec base n) as [Hsp Hr]; [lia|].
  split; [done|]. split; [done|].
  apply Forall_forall. intros p Hp. specialize (Hr p Hp). unfold UMEM_CHUNK_SIZE in *.
  split; [|lia]. eapply mapped_sub; [exact Hm|lia|lia].
Qed.

(** ** Properties *)

(** The stack of chunks is a stack: what is pushed comes out in reverse
    order, [(u64) -1] exactly when it is empty, and a push on a full stack is
    dropped. *)
Lemma umem_stack_lifo s l a :
  stack_rep s l →
  match l with
  | [] => umem_stack_pop s = Ret (NO_CHUNK, s)
  | x :: l' => ∃ s', umem_stack_pop s = Ret (x, s') ∧ stack_rep s' l'
  end
  ∧ if decide (Z.of_nat (length l) < cap s)
    then ∃ s', umem_stack_push s a = Ret s' ∧ stack_rep s' (a :: l)
    else umem_stack_push s a = Ret s.
Proof.
  intros Hrep. split.
  - destruct l as [|x l']; [by apply stack_pop_empty|].
    destruct (stack_pop_spec _ _ _ Hrep) as (s' & ? & ? & _). eauto.
  - case_decide as H.
    + destruct (stack_push_spec s a l Hrep H) as (s' & ? & ? & _). eauto.
    + apply (stack_push_full _ _ l); [done|].
      pose proof (stack_cap _ _ Hrep). pose proof (stack_fits _ _ Hrep). lia.
Qed.

Lemma umem_stack_lifo_witness :
  (∃ s', umem_stack_pop (UStack [0; 4096] 2 2) = Ret (4096, s') ∧ stack_rep s' [0])
  ∧ umem_stack_push (UStack [0; 4096] 2 2) 8192 = Ret (UStack [0; 4096] 2 2).
Proof. apply (umem_stack_lifo (UStack [0; 4096] 2 2) [4096; 0] 8192). by split. Defined.

(** C18: over a UMEM of [n] chunks, any client of the slab allocator gets what the
    abstract allocator gives: a block that is nobody else's, the last one freed
    first, NULL exactly when none is left; and the blocks owned and free stay
    64 bytes apart whatever the client writes into its blocks. *)
Theorem slab_client_refines base m (n : nat) os :
  is_u32 (Z.of_nat n) → 0 < base → base + Z.of_nat n * UMEM_CHUNK_SIZE < 0x10000000000000000 →
  mapped m base (n * 4096) →
  ∃ s, create_umem_stack true true (Z.of_nat n) UMEM_CHUNK_SIZE = Some s
  ∧ let '(rs, (owned, free)) := abs_run [] (fresh_blocks base n) os in
    client_run base m (fresh_slab s) [] os = Ret (rs, owned) ∧ spread (owned ++ free).
Proof.
  intros Hn Hb Hmax Hm. destruct (fresh_stack_inv base m n Hn Hb Hmax Hm) as (s & Hs & Hinv).
  exists s. split; [done|]. by apply (client_run_refines base os m).
Qed.

Lemma slab_client_refines_witness :
  ∃ s, create_umem_stack true true 1 4096 = Some s
  ∧ client_run 65536 (write ∅ 65536 (replicate 4096 0)) (fresh_slab s) []
      [SAlloc; SAlloc; SWrite 0 (replicate 64 255); SFree 1; SAlloc; SAlloc]
    = Ret ([65536; 65600; 0; 65536; 65536; 65664], [65664; 65536; 65600])
    ∧ spread ([65664; 65536; 65600] ++ drop 3 (fresh_blocks 65536 1)).
Proof.
  apply (slab_client_refines 65536 _ 1 [SAlloc; SAlloc; SWrite 0 (replicate 64 255); SFree 1; SAlloc; SAlloc]).
  - unfold is_u32; lia.
  - lia.
  - unfold UMEM_CHUNK_SIZE; lia.
  - intros i Hi. rewrite lookup_write, decide_True by (rewrite length_replicate; lia).
    apply lookup_lt_is_Some_2. rewrite length_replicate. lia.
Defined.
