(* ===== verification/Random.v ===== *)
(** * The random source (random.c, generate_random_buffer.c,
    get_random_from_buffer_u16/u32/u64.c, get_random_u16/u32/u64.c)

    Verification tags and initial sequence numbers come from a buffer of 1024
    bytes that [getrandom] refills when it is exhausted.  The system call is a
    parameter: [getrandom i n] is what its [i]-th call, asked for [n] bytes,
    stores at its destination, [None] when it fails. *)
From S2P Require Import Prelude Bytes.

(** ** Code *)
Definition RANDOM_BUFFER_SIZE : nat := 1024.

(** The kernel's side of [getrandom]: at most [n] bytes. *)
Class Entropy := {
  getrandom : nat → nat → option bytes;
  getrandom_length i n bs : getrandom i n = Some bs → (length bs ≤ n)%nat;
  getrandom_ok i n bs : getrandom i n = Some bs → bytes_ok bs
}.

(** The two globals, and the number of calls of [getrandom] so far. *)
Record rng := Rng { random_buffer : bytes; random_buffer_head : Z; calls : nat }.

Definition rng_init : rng := Rng (replicate RANDOM_BUFFER_SIZE 0) 0 0.

Section code.
Context `{!Entropy}.

(** What [get_random] leaves in [buf]: also a short read is kept. *)
Definition get_random (i : nat) (buf : bytes) : bytes :=
  match getrandom i (length buf) with
  | None => buf
  | Some bs => bs ++ drop (length bs) buf
  end.

Definition generate_random_buffer (st : rng) : rng :=
  Rng (get_random (calls st) (random_buffer st)) 0 (S (calls st)).

(** The three [get_random_from_buffer_u<n>] differ in [sizeof] only; [n] is that
    size.  [sizeof (random_buffer) - random_buffer_head] is unsigned. *)
Fixpoint get_random_from_buffer (fuel n : nat) (st : rng) : outcome (Z * rng) :=
  match fuel with
  | O => Timeout
  | S fuel =>
      let head := random_buffer_head st in
      if Z.of_nat n <=? u64 (Z.of_nat RANDOM_BUFFER_SIZE - head) then
        let bs := take n (drop (Z.to_nat head) (random_buffer st)) in
        if decide (length bs = n)
        then Ret (le_dec bs, Rng (random_buffer st) (u32 (head + Z.of_nat n)) (calls st))
        else Fault
      else get_random_from_buffer fuel n (generate_random_buffer st)
  end.

Definition get_random_from_buffer_u16 (st : rng) : outcome (Z * rng) := get_random_from_buffer 2 2 st.
Definition get_random_from_buffer_u32 (st : rng) : outcome (Z * rng) := get_random_from_buffer 2 4 st.
Definition get_random_from_buffer_u64 (st : rng) : outcome (Z * rng) := get_random_from_buffer 2 8 st.

(** [get_random_u16], [get_random_u32] and [get_random_u64]: straight from the
    kernel, 0 on an error or a short read. *)
Definition get_random_int (n : nat) (st : rng) : Z * rng :=
  let st' := Rng (random_buffer st) (random_buffer_head st) (S (calls st)) in
  match getrandom (calls st) n with
  | None => (0, st')
  | Some bs => if decide (length bs = n) then (le_dec bs, st') else (0, st')
  end.

Definition get_random_u16 (st : rng) : Z * rng := get_random_int 2 st.
Definition get_random_u32 (st : rng) : Z * rng := get_random_int 4 st.
Definition get_random_u64 (st : rng) : Z * rng := get_random_int 8 st.

(** [k] draws of [n] bytes in a row. *)
Fixpoint draws (n k : nat) (st : rng) : outcome (list Z * rng) :=
  match k with
  | O => Ret ([], st)
  | S k =>
      '(v, st) ← get_random_from_buffer 2 n st;
      '(vs, st) ← draws n k st;
      Ret (v :: vs, st)
  end.
End code.

(** ** Lemmas *)
Record rng_ok (st : rng) : Prop := {
  rng_length : length (random_buffer st) = RANDOM_BUFFER_SIZE;
  rng_bytes : bytes_ok (random_buffer st);
  rng_head : 0 ≤ random_buffer_head st ≤ Z.of_nat RANDOM_BUFFER_SIZE
}.

Lemma rng_init_ok : rng_ok rng_init.
Proof.
  split; [done | apply bytes_ok_zeros | unfold RANDOM_BUFFER_SIZE; cbn [rng_init random_buffer_head]; lia].
Qed.

Section lemmas.
Context `{!Entropy}.

Lemma get_random_spec i buf :
  bytes_ok buf → length (get_random i buf) = length buf ∧ bytes_ok (get_random i buf).
Proof.
  intros Hok. unfold get_random. destruct (getrandom i (length buf)) as [bs|] eqn:E; [|done].
  pose proof (getrandom_length _ _ _ E). pose proof (getrandom_ok _ _ _ E).
  split; [rewrite length_app, length_drop; lia|].
  apply bytes_ok_app. split; [done | by apply bytes_ok_drop].
Qed.

Lemma generate_ok st : rng_ok st → rng_ok (generate_random_buffer st).
Proof.
  intros [Hl Hb Hh]. destruct (get_random_spec (calls st) _ Hb) as [Hl' Hb'].
  split; cbn [random_buffer random_buffer_head generate_random_buffer]; [congruence|done|].
  unfold RANDOM_BUFFER_SIZE; lia.
Qed.

(** A draw served by what is left in the buffer. *)
Lemma draw_left fuel n st :
  rng_ok st → random_buffer_head st + Z.of_nat n ≤ Z.of_nat RANDOM_BUFFER_SIZE →
  get_random_from_buffer (S fuel) n st =
    Ret (le_dec (take n (drop (Z.to_nat (random_buffer_head st)) (random_buffer st))),
         Rng (random_buffer st) (random_buffer_head st + Z.of_nat n) (calls st)).
Proof.
  intros [Hl Hb Hh] Hn. unfold RANDOM_BUFFER_SIZE in *. cbn [get_random_from_buffer].
  rewrite u64_id by (unfold is_u64, RANDOM_BUFFER_SIZE; lia).
  unfold RANDOM_BUFFER_SIZE. rewrite (proj2 (Z.leb_le _ _)) by lia.
  rewrite decide_True by (rewrite length_take, length_drop; lia).
  by rewrite u32_id by (unfold is_u32; lia).
Qed.

Lemma draw_refill fuel n st :
  rng_ok st → Z.of_nat RANDOM_BUFFER_SIZE < random_buffer_head st + Z.of_nat n →
  get_random_from_buffer (S fuel) n st = get_random_from_buffer fuel n (generate_random_buffer st).
Proof.
  intros [Hl Hb Hh] Hn. unfold RANDOM_BUFFER_SIZE in *. cbn [get_random_from_buffer].
  rewrite u64_id by (unfold is_u64, RANDOM_BUFFER_SIZE; lia).
  unfold RANDOM_BUFFER_SIZE. by rewrite (proj2 (Z.leb_gt _ _)) by lia.
Qed.

Lemma draws_left n k : ∀ st,
  rng_ok st → random_buffer_head st + Z.of_nat (n * k) ≤ Z.of_nat RANDOM_BUFFER_SIZE →
  draws n k st = Ret ((λ i, le_dec (take n (drop (Z.to_nat (random_buffer_head st) + n * i)
                                                 (random_buffer st)))) <$> seq 0 k,
                      Rng (random_buffer st) (random_buffer_head st + Z.of_nat (n * k)) (calls st)).
Proof.
  induction k as [|k IH]; intros st Hok Hk; cbn [draws seq fmap list_fmap].
  - rewrite Nat.mul_0_r, Z.add_0_r. by destruct st.
  - rewrite draw_left by (done || lia). cbn [mbind outcome_bind]. rewrite IH.
    + cbn [mbind outcome_bind random_buffer random_buffer_head calls]. do 2 f_equal; [|f_equal; lia].
      rewrite Nat.mul_0_r, Nat.add_0_r. f_equal. rewrite <-fmap_S_seq, <-list_fmap_compose.
      apply list_fmap_ext. intros i j _. cbn. do 3 f_equal. destruct Hok as [_ _ Hh]. lia.
    + destruct Hok as [Hl Hb Hh]. split; cbn [random_buffer random_buffer_head]; [done|done|lia].
    + cbn [random_buffer_head]. lia.
Qed.
Lemma draw_spec n st :
  rng_ok st → (1 ≤ n ≤ 8)%nat →
  let st0 := if decide (random_buffer_head st + Z.of_nat n ≤ Z.of_nat RANDOM_BUFFER_SIZE)
             then st else generate_random_buffer st in
  ∃ v st', get_random_from_buffer 2 n st = Ret (v, st')
  ∧ v = le_dec (take n (drop (Z.to_nat (random_buffer_head st0)) (random_buffer st0)))
  ∧ 0 ≤ v < 0x100 ^ Z.of_nat n
  ∧ random_buffer_head st' = random_buffer_head st0 + Z.of_nat n
  ∧ random_buffer st' = random_buffer st0 ∧ rng_ok st'.
Proof.
  intros Hok Hn st0.
  assert (rng_ok st0 ∧ random_buffer_head st0 + Z.of_nat n ≤ Z.of_nat RANDOM_BUFFER_SIZE
    ∧ get_random_from_buffer 2 n st = get_random_from_buffer 1 n st0) as (Hok0 & Hle & E).
  { subst st0. case_decide.
    - rewrite !draw_left by done. done.
    - split; [by apply generate_ok|]. split.
      + cbn [generate_random_buffer random_buffer_head]. unfold RANDOM_BUFFER_SIZE. lia.
      + apply draw_refill; [done | lia]. }
  rewrite E, draw_left by done. pose proof (rng_length _ Hok0) as Hl. pose proof (rng_head _ Hok0).
  do 2 eexists. split; [done|]. split; [done|]. split.
  - pose proof (le_dec_range (take n (drop (Z.to_nat (random_buffer_head st0)) (random_buffer st0)))) as Hr.
    rewrite length_take, length_drop, Nat.min_l in Hr by lia. apply Hr.
    apply bytes_ok_take, bytes_ok_drop, Hok0.
  - split; [done|]. split; [done|]. split; [done|apply Hok0|]. cbn [random_buffer_head]. lia.
Qed.

Lemma get_random_int_range n st : 0 ≤ fst (get_random_int n st) < 0x100 ^ Z.of_nat n.
Proof.
  assert (0 < 0x100 ^ Z.of_nat n) by (apply Z.pow_pos_nonneg; lia).
  unfold get_random_int. destruct (getrandom (calls st) n) as [bs|] eqn:E; [|cbn; lia].
  case_decide as Hl; cbn; [|lia]. rewrite <-Hl. apply le_dec_range. by apply getrandom_ok in E.
Qed.

Lemma get_random_int_ok n st : rng_ok st → rng_ok (snd (get_random_int n st)).
Proof.
  intros [Hl Hb Hh]. unfold get_random_int.
  destruct (getrandom (calls st) n) as [bs|]; [case_decide|]; by split.
Qed.

Lemma draw_u32 st :
  rng_ok st → ∃ v st', get_random_from_buffer_u32 st = Ret (v, st') ∧ is_u32 v ∧ rng_ok st'.
Proof.
  intros Hok. destruct (draw_spec 4 st Hok) as (v & st' & Hd & _ & Hv & _ & _ & Hok'); [lia|]. eauto.
Qed.
End lemmas.

(** ** Properties *)
Section properties.
Context `{!Entropy}.

(** A draw of 2, 4 or 8 bytes always returns, with at most one refill and no
    read past the buffer; the bytes it uses are not used again before the next
    refill, and the state stays well formed. *)
Lemma random_draw_total n st :
  rng_ok st → (1 ≤ n ≤ 8)%nat →
  let st0 := if decide (random_buffer_head st + Z.of_nat n ≤ Z.of_nat RANDOM_BUFFER_SIZE)
             then st else generate_random_buffer st in
  ∃ v st', get_random_from_buffer 2 n st = Ret (v, st')
  ∧ v = le_dec (take n (drop (Z.to_nat (random_buffer_head st0)) (random_buffer st0)))
  ∧ 0 ≤ v < 0x100 ^ Z.of_nat n
  ∧ random_buffer_head st' = random_buffer_head st0 + Z.of_nat n
  ∧ random_buffer st' = random_buffer st0 ∧ rng_ok st'.
Proof. apply draw_spec. Qed.

(** The buffer starts as zeros with [random_buffer_head] at 0, so the first
    256 draws of 32 bits of a process (its verification tags and initial
    sequence numbers) are 0, whatever the kernel would have given. *)
Lemma first_draws_are_zero :
  ∃ st, draws 4 256 rng_init = Ret (replicate 256 0, st).
Proof.
  eexists. rewrite draws_left.
  - reflexivity.
  - split; [done | apply bytes_ok_zeros | unfold RANDOM_BUFFER_SIZE; cbn [rng_init random_buffer_head]; lia].
  - unfold RANDOM_BUFFER_SIZE; cbn [rng_init random_buffer_head]; lia.
Qed.

(** When the refill fails (the kernel is asked not to block), the head is
    reset all the same and the same 256 values are drawn a second time. *)
Lemma failed_refill_replays st :
  rng_ok st → random_buffer_head st = 0 → getrandom (calls st) RANDOM_BUFFER_SIZE = None →
  ∃ vs st1 st2, draws 4 256 st = Ret (vs, st1) ∧ draws 4 256 st1 = Ret (vs, st2).
Proof.
  intros Hok Hh Hnone. do 3 eexists. rewrite (draws_left 4 256 st Hok) by (rewrite Hh; unfold RANDOM_BUFFER_SIZE; lia).
  split; [reflexivity|].
  set (st1 := Rng _ _ _). assert (rng_ok st1) as Hok1.
  { destruct Hok. split; cbn [st1 random_buffer random_buffer_head]; [done|done|]. rewrite Hh. unfold RANDOM_BUFFER_SIZE. lia. }
  assert (generate_random_buffer st1 = Rng (random_buffer st) 0 (S (calls st))) as Hgen.
  { unfold generate_random_buffer, get_random. cbn [st1 random_buffer calls].
    by rewrite (rng_length _ Hok), Hnone. }
  assert (draws 4 256 st1 = draws 4 256 (Rng (random_buffer st) 0 (S (calls st)))) as ->.
  { cbn [draws]. rewrite <-Hgen, draw_refill; [|done|cbn [st1 random_buffer_head]; rewrite Hh; unfold RANDOM_BUFFER_SIZE; lia].
    rewrite !draw_left; [done|by apply generate_ok|rewrite Hgen; cbn [random_buffer_head]; unfold RANDOM_BUFFER_SIZE; lia..|by apply generate_ok|rewrite Hgen; cbn [random_buffer_head]; unfold RANDOM_BUFFER_SIZE; lia]. }
  rewrite draws_left; [|split; [apply Hok | apply Hok | ] |]; cbn [random_buffer_head]; [|unfold RANDOM_BUFFER_SIZE; lia..].
  cbn [random_buffer random_buffer_head]. rewrite Hh. reflexivity.
Qed.
End properties.

(** A kernel whose first refill gives 1, 2, 3, .. and whose others fail. *)
#[refine] Definition once : Entropy := {|
  getrandom i n := if decide (i = 0%nat) then Some ((λ j, u8 (Z.of_nat j + 1)) <$> seq 0 n) else None
|}.
Proof.
  - intros i n bs. case_decide; [|done]. intros [= <-]. by rewrite length_fmap, length_seq.
  - intros i n bs. case_decide; [|done]. intros [= <-]. apply Forall_fmap, Forall_true.
    intros j. apply u8_range.
Defined.

Lemma random_draw_total_witness :
  ∃ v st', @get_random_from_buffer once 2 4 (Rng (replicate 1024 0) 1021 0) = Ret (v, st')
  ∧ v = 0x04030201 ∧ 0 ≤ v < 0x100 ^ 4 ∧ random_buffer_head st' = 4
  ∧ random_buffer st' = @get_random once 0 (replicate 1024 0) ∧ rng_ok st'.
Proof.
  refine (@random_draw_total once 4 (Rng (replicate 1024 0) 1021 0) _ ltac:(lia)).
  split; [done | apply bytes_ok_zeros | unfold RANDOM_BUFFER_SIZE; cbn [random_buffer_head]; lia].
Defined.

Lemma failed_refill_replays_witness :
  ∃ vs st1 st2, @draws once 4 256 (Rng ((λ j, u8 (Z.of_nat j)) <$> seq 0 1024) 0 1) = Ret (vs, st1)
  ∧ @draws once 4 256 st1 = Ret (vs, st2).
Proof.
  apply (@failed_refill_replays once); [|done|done]. split; [done| |unfold RANDOM_BUFFER_SIZE; cbn [random_buffer_head]; lia].
  apply Forall_fmap, Forall_true. intros j. apply u8_range.
Defined.
