(* ===== verification/Headers.v ===== *)
(** * Packet headers and protocol constants (if_packet.h, sctp.h, mac.h, ipv4.h,
    tcp.h, udp.h, arp.h)

    A packed struct is a record with its layout, the widths of its fields in
    memory order; [enc] and [dec] are the record's bytes and back.  Fields hold
    what the C field holds: a big-endian field of the wire is the byte-swapped
    value. *)
From S2P Require Import Prelude Bytes Mem.

(** ** Structs *)
Class Struct (T : Type) := {
  layout : list nat;
  fields : T → list Z;
  of_fields : list Z → T;
  of_fields_fields x : of_fields (fields x) = x;
  fields_of_fields vs : length vs = length layout → fields (of_fields vs) = vs;
  length_fields x : length (fields x) = length layout
}.
Arguments layout T {_}.

Definition enc `{!Struct T} (x : T) : bytes := pack (layout T) (fields x).
Definition dec `{!Struct T} (bs : bytes) : T := of_fields (unpack (layout T) bs).
Definition size (T : Type) `{!Struct T} : nat := sum_list (layout T).

(** Every field in the range of its type. *)
Definition wf `{!Struct T} (x : T) : Prop := Forall2 fits (layout T) (fields x).

(** [*(T * ) p], and the copy of a struct to [p]. *)
Definition ld_struct (T : Type) `{!Struct T} (m : mem) (p : Z) : outcome T :=
  bs ← load m p (size T); Ret (dec bs).
Definition st_struct `{!Struct T} (m : mem) (p : Z) (x : T) : outcome mem := store m p (enc x).

(** [offsetof]: the bytes before the [i]-th field. *)
Definition field_off (T : Type) `{!Struct T} (i : nat) : Z := Z.of_nat (sum_list (take i (layout T))).

(** The instances below are all proved the same way: a constructor applied to
    its projections, and a list of known length taken apart. *)
Ltac struct_laws :=
  first
  [ reflexivity
  | intros []; reflexivity
  | intros vs Hvs; repeat (destruct vs as [|? vs]; try discriminate Hvs); reflexivity ].

(** ** The headers *)
Record mac_t := Mac { mac_dst : Z; mac_src : Z; mac_type : Z }.
#[export, refine] Instance mac_struct : Struct mac_t := {|
  layout := [6; 6; 2]%nat;
  fields h := [mac_dst h; mac_src h; mac_type h];
  of_fields vs := match vs with [a; b; c] => Mac a b c | _ => Mac 0 0 0 end
|}.
Proof. all: struct_laws. Defined.

(** [ihl_ver] is the byte of the two bit fields, [ihl] in the low four bits. *)
Record ipv4_t := IPv4 {
  ihl_ver : Z; tos : Z; ip_len : Z; indent : Z; offset : Z;
  ttl : Z; proto : Z; ip_check : Z; src_addr : Z; dest_addr : Z
}.
#[export, refine] Instance ipv4_struct : Struct ipv4_t := {|
  layout := [1; 1; 2; 2; 2; 1; 1; 2; 4; 4]%nat;
  fields h := [ihl_ver h; tos h; ip_len h; indent h; offset h; ttl h; proto h; ip_check h;
               src_addr h; dest_addr h];
  of_fields vs := match vs with
    | [a; b; c; d; e; f; g; h; i; j] => IPv4 a b c d e f g h i j
    | _ => IPv4 0 0 0 0 0 0 0 0 0 0 end
|}.
Proof. all: struct_laws. Defined.

Record sctp_cmn_hdr_t := Cmn { srcp : Z; dstp : Z; tag : Z; cmn_check : Z }.
#[export, refine] Instance cmn_struct : Struct sctp_cmn_hdr_t := {|
  layout := [2; 2; 4; 4]%nat;
  fields h := [srcp h; dstp h; tag h; cmn_check h];
  of_fields vs := match vs with [a; b; c; d] => Cmn a b c d | _ => Cmn 0 0 0 0 end
|}.
Proof. all: struct_laws. Defined.

(** [sctp_fld_hdr_t], [sctp_cookie_echo_hdr_t] and [sctp_cookie_ack_hdr_t]. *)
Record sctp_fld_hdr_t := Fld { fld_type : Z; fld_flags : Z; fld_len : Z }.
#[export, refine] Instance fld_struct : Struct sctp_fld_hdr_t := {|
  layout := [1; 1; 2]%nat;
  fields h := [fld_type h; fld_flags h; fld_len h];
  of_fields vs := match vs with [a; b; c] => Fld a b c | _ => Fld 0 0 0 end
|}.
Proof. all: struct_laws. Defined.

(** [sctp_init_hdr_t] and [sctp_init_ack_hdr_t]. *)
Record sctp_init_hdr_t := Init {
  hdr_init_tag : Z; hdr_a_rwnd : Z; hdr_os : Z; hdr_mis : Z; init_tsn : Z
}.
#[export, refine] Instance init_struct : Struct sctp_init_hdr_t := {|
  layout := [4; 4; 2; 2; 4]%nat;
  fields h := [hdr_init_tag h; hdr_a_rwnd h; hdr_os h; hdr_mis h; init_tsn h];
  of_fields vs := match vs with [a; b; c; d; e] => Init a b c d e | _ => Init 0 0 0 0 0 end
|}.
Proof. all: struct_laws. Defined.

Record sctp_data_hdr_t := Data { data_tsn : Z; data_so : Z; data_sn : Z; proto_def : Z }.
#[export, refine] Instance data_struct : Struct sctp_data_hdr_t := {|
  layout := [4; 2; 2; 4]%nat;
  fields h := [data_tsn h; data_so h; data_sn h; proto_def h];
  of_fields vs := match vs with [a; b; c; d] => Data a b c d | _ => Data 0 0 0 0 end
|}.
Proof. all: struct_laws. Defined.

(** [sctp_parameter_t], also called [sctp_cookie_t]. *)
Record sctp_parameter_t := Param { param_type : Z; param_len : Z }.
#[export, refine] Instance param_struct : Struct sctp_parameter_t := {|
  layout := [2; 2]%nat;
  fields h := [param_type h; param_len h];
  of_fields vs := match vs with [a; b] => Param a b | _ => Param 0 0 end
|}.
Proof. all: struct_laws. Defined.

Record cookie_t := Cookie {
  ck_ver_tag : Z; ck_init_tag : Z; ck_a_rwnd : Z; ck_os : Z; ck_mis : Z; ck_tsn : Z;
  ck_dst_tsn : Z; ck_src_ip : Z; ck_dst_ip : Z; ck_src_port : Z; ck_dst_port : Z
}.
#[export, refine] Instance cookie_struct : Struct cookie_t := {|
  layout := [4; 4; 4; 2; 2; 4; 4; 4; 4; 4; 4]%nat;
  fields c := [ck_ver_tag c; ck_init_tag c; ck_a_rwnd c; ck_os c; ck_mis c; ck_tsn c;
               ck_dst_tsn c; ck_src_ip c; ck_dst_ip c; ck_src_port c; ck_dst_port c];
  of_fields vs := match vs with
    | [a; b; c; d; e; f; g; h; i; j; k] => Cookie a b c d e f g h i j k
    | _ => Cookie 0 0 0 0 0 0 0 0 0 0 0 end
|}.
Proof. all: struct_laws. Defined.

(** ** Constants *)
Inductive SCTP_STATUS :=
| SCTP_LISTEN | SCTP_COOKIE_WAIT | SCTP_INIT_SENT | SCTP_INIT_RECEIVED | SCTP_INIT_ACK_SENT
| SCTP_INIT_ACK_RECEIVED | SCTP_COOKIE_RECEIVED | SCTP_COOKIE_ECHO_SENT
| SCTP_COOKIE_ECHO_RECEIVED | SCTP_ESTABLISHED.
#[export] Instance sctp_status_eq_dec : EqDecision SCTP_STATUS.
Proof. solve_decision. Defined.

Definition SCTP_DATA : Z := 0.
Definition SCTP_INIT : Z := 1.
Definition SCTP_INIT_ACK : Z := 2.
Definition SCTP_COOKIE_ECHO : Z := 10.
Definition SCTP_COOKIE_ACK : Z := 11.
Definition SCTP_T1_INIT_EXPIRE : Z := 1.
Definition SCTP_EBIT : Z := 0x01.
Definition SCTP_BBIT : Z := 0x02.
Definition SCTP_RTO_MIN : Z := 1000.
Definition SCTP_RTO_MAX : Z := 60000.
Definition SCTP_ASSOC_MAX_RETRANS : Z := 10.
Definition SCTP_TIMER_STEP : Z := 1000.
Definition PROTO_SCTP : Z := 132.
Definition ETHERTYPE_IP : Z := 0x0800.
Definition NET_IP_ALIGN : Z := 2.

Definition sz_mac : Z := 14.
Definition sz_ip : Z := 20.
Definition sz_cmn : Z := 12.
Definition sz_fld : Z := 4.
Definition sz_init : Z := 16.
Definition sz_param : Z := 4.
Definition sz_cookie : Z := 40.

(** Offsets of the fields that the code writes in place. *)
Definition off_ip_len : Z := field_off ipv4_t 2.
Definition off_ip_check : Z := field_off ipv4_t 7.
Definition off_ip_dest : Z := field_off ipv4_t 9.
Definition off_fld_len : Z := field_off sctp_fld_hdr_t 2.
Definition off_cmn_dstp : Z := field_off sctp_cmn_hdr_t 1.
Definition off_cmn_tag : Z := field_off sctp_cmn_hdr_t 2.
Definition off_cmn_check : Z := field_off sctp_cmn_hdr_t 3.

(** ** Lemmas *)
Section structs.
Context `{!Struct T}.
Implicit Types (x : T) (bs : bytes).

Lemma length_enc x : length (enc x) = size T.
Proof. apply length_pack. by rewrite length_fields. Qed.

Lemma enc_ok x : bytes_ok (enc x).
Proof. apply pack_ok. Qed.

Lemma dec_enc_app x rest : wf x → dec (enc x ++ rest) = x.
Proof. intros Hx. unfold dec, enc. rewrite unpack_pack by done. apply of_fields_fields. Qed.

Lemma dec_enc x : wf x → dec (enc x) = x.
Proof. intros Hx. rewrite <-(app_nil_r (enc x)). by apply dec_enc_app. Qed.

Lemma length_unpack ws bs : length (unpack ws bs) = length ws.
Proof. revert bs; induction ws as [|w ws IH]; intros bs; cbn; [done|]. by rewrite IH. Qed.

Lemma enc_dec bs : bytes_ok bs → length bs = size T → enc (dec bs) = bs.
Proof.
  intros Hok Hl. unfold enc, dec. rewrite fields_of_fields by apply length_unpack.
  by apply pack_unpack.
Qed.

Lemma unpack_fits ws bs : bytes_ok bs → length bs = sum_list ws → Forall2 fits ws (unpack ws bs).
Proof.
  revert bs; induction ws as [|w ws IH]; intros bs Hok Hl; cbn in *; constructor.
  - pose proof (le_dec_range (take w bs) (bytes_ok_take _ _ Hok)) as H.
    rewrite length_take, Nat.min_l in H by lia. exact H.
  - apply IH; [by apply bytes_ok_drop|]. rewrite length_drop. lia.
Qed.

Lemma wf_dec bs : bytes_ok bs → length bs = size T → wf (dec bs).
Proof.
  intros Hok Hl. unfold wf, dec. rewrite fields_of_fields by apply length_unpack.
  by apply unpack_fits.
Qed.

Lemma wf_field x i w v : wf x → layout T !! i = Some w → fields x !! i = Some v → fits w v.
Proof. intros Hx Hw Hv. by apply (Forall2_lookup_lr fits _ _ i w v Hx). Qed.

Lemma ld_struct_at m p x rest : bytes_at m p (enc x ++ rest) → wf x → ld_struct T m p = Ret x.
Proof.
  intros [H _]%bytes_at_app Hx. unfold ld_struct.
  rewrite (load_at' _ _ _ _ H) by apply length_enc. cbn [mbind outcome_bind]. by rewrite dec_enc.
Qed.

Lemma st_struct_mapped m p x : mapped m p (size T) → st_struct m p x = Ret (write m p (enc x)).
Proof. intros H. unfold st_struct. apply store_mapped. by rewrite length_enc. Qed.

(** Writing one field in place, as [hdr->field = v] does. *)
Definition set_field (i : nat) (v : Z) (x : T) : T := of_fields (<[i := v]> (fields x)).

Lemma pack_split ws vs i w v0 :
  ws !! i = Some w → vs !! i = Some v0 →
  ∃ a c, length a = sum_list (take i ws)
  ∧ ∀ v, pack ws (<[i := v]> vs) = a ++ le_enc w v ++ c.
Proof.
  revert vs i; induction ws as [|w' ws IH]; intros [|v1 vs] [|i] Hw Hv; try done; cbn in *.
  - injection Hw as ->. exists [], (pack ws vs). done.
  - destruct (IH vs i Hw Hv) as (a & c & Ha & Hp). exists (le_enc w' v1 ++ a), c.
    split; [by rewrite length_app, length_le_enc, Ha|]. intros v. by rewrite Hp, <-!app_assoc.
Qed.

Lemma st_field m p pre x rest i w v :
  bytes_at m p (pre ++ enc x ++ rest) → layout T !! i = Some w →
  let off := Z.of_nat (length pre) + field_off T i in
  st m (p + off) w v = Ret (write m (p + off) (le_enc w v))
  ∧ bytes_at (write m (p + off) (le_enc w v)) p (pre ++ enc (set_field i v x) ++ rest).
Proof.
  intros Hat Hw off.
  assert (∃ v0, fields x !! i = Some v0) as [v0 Hv0].
  { apply lookup_lt_is_Some_2. rewrite length_fields. by eapply lookup_lt_Some. }
  destruct (pack_split _ _ _ _ _ Hw Hv0) as (a & c & Ha & Hp).
  assert (enc x = a ++ le_enc w v0 ++ c) as Ex.
  { unfold enc. rewrite <-Hp. by rewrite list_insert_id. }
  assert (enc (set_field i v x) = a ++ le_enc w v ++ c) as Ev.
  { unfold enc, set_field. rewrite fields_of_fields by (by rewrite length_insert, length_fields).
    apply Hp. }
  rewrite Ex in Hat. rewrite Ev.
  assert (p + off = p + Z.of_nat (length (pre ++ a))) as ->.
  { unfold off, field_off. rewrite length_app, Ha. lia. }
  replace (pre ++ (a ++ le_enc w v0 ++ c) ++ rest)
    with ((pre ++ a) ++ le_enc w v0 ++ (c ++ rest)) in Hat by (by rewrite <-!app_assoc).
  replace (pre ++ (a ++ le_enc w v ++ c) ++ rest)
    with ((pre ++ a) ++ le_enc w v ++ (c ++ rest)) by (by rewrite <-!app_assoc).
  split.
  - apply st_mapped. apply bytes_at_app in Hat as [_ Hat]. apply bytes_at_app in Hat as [Hat _].
    apply bytes_at_mapped in Hat. by rewrite length_le_enc in Hat.
  - apply (bytes_at_write_mid _ _ _ (le_enc w v0)); [done|]. by rewrite !length_le_enc.
Qed.

Lemma ld_field m p pre x rest i w v :
  bytes_at m p (pre ++ enc x ++ rest) → layout T !! i = Some w → fields x !! i = Some v → fits w v →
  ld m (p + (Z.of_nat (length pre) + field_off T i)) w = Ret v.
Proof.
  intros Hat Hw Hv Hf. destruct (pack_split _ _ _ _ _ Hw Hv) as (a & c & Ha & Hp).
  assert (enc x = a ++ le_enc w v ++ c) as Ex.
  { unfold enc. rewrite <-Hp. by rewrite list_insert_id. }
  rewrite Ex in Hat. apply bytes_at_app in Hat as [_ Hat].
  rewrite <-!app_assoc in Hat. apply bytes_at_app in Hat as [_ Hat].
  apply (ld_at _ _ _ _ (c ++ rest)); [|done]. unfold field_off. rewrite Ha in Hat.
  by rewrite Z.add_assoc.
Qed.

Lemma ld_field_at m p x rest i w v :
  bytes_at m p (enc x ++ rest) → wf x → layout T !! i = Some w → fields x !! i = Some v →
  ld m (p + field_off T i) w = Ret v.
Proof. intros Hat Hx Hw Hv. exact (ld_field m p [] x rest i w v Hat Hw Hv (wf_field x i w v Hx Hw Hv)). Qed.
End structs.

(** Well-formedness field by field. *)
Ltac wf_fields := intros; unfold wf; repeat match goal with |- Forall2 _ _ _ => constructor end; done.

Lemma wf_ipv4 a b c d e f g h i j :
  fits 1 a → fits 1 b → fits 2 c → fits 2 d → fits 2 e → fits 1 f → fits 1 g → fits 2 h → fits 4 i → fits 4 j →
  wf (IPv4 a b c d e f g h i j).
Proof. wf_fields. Qed.
Lemma wf_cmn a b c d : fits 2 a → fits 2 b → fits 4 c → fits 4 d → wf (Cmn a b c d).
Proof. wf_fields. Qed.
Lemma wf_fld a b c : fits 1 a → fits 1 b → fits 2 c → wf (Fld a b c).
Proof. wf_fields. Qed.
Lemma wf_init a b c d e : fits 4 a → fits 4 b → fits 2 c → fits 2 d → fits 4 e → wf (Init a b c d e).
Proof. wf_fields. Qed.
Lemma wf_cookie a b c d e f g h i j k :
  fits 4 a → fits 4 b → fits 4 c → fits 2 d → fits 2 e → fits 4 f → fits 4 g → fits 4 h → fits 4 i →
  fits 4 j → fits 4 k → wf (Cookie a b c d e f g h i j k).
Proof. wf_fields. Qed.

Lemma fits_htons x : fits 2 (htons x).
Proof. apply htons_range. Qed.
Lemma fits_htonl x : fits 4 (htonl x).
Proof. apply htonl_range. Qed.
Lemma fits_u16 x : fits 2 (u16 x).
Proof. apply u16_range. Qed.
Lemma fits_u32 x : fits 4 (u32 x).
Proof. apply u32_range. Qed.
Lemma fits4_u32 v : fits 4 v → is_u32 v.
Proof. done. Qed.
#[export] Hint Resolve fits_htons fits_htonl fits_u16 fits_u32 : bytes.
#[export] Hint Extern 1 (fits _ (Zpos _)) => (unfold fits; vm_compute; split; congruence) : bytes.
#[export] Hint Extern 1 (fits _ 0) => (unfold fits; vm_compute; split; congruence) : bytes.

(** ** Properties *)

(** The in-memory form of a header is unambiguous both ways: reading back the
    bytes written for a well-formed header gives the header, and writing the
    header read from [size] bytes gives the bytes. *)
Lemma header_roundtrip `{!Struct T} (x : T) (bs : bytes) :
  wf x → bytes_ok bs → length bs = size T →
  dec (enc x) = x ∧ enc (dec bs : T) = bs ∧ wf (dec bs : T).
Proof. intros. split; [by apply dec_enc|]. split; [by apply enc_dec | by apply wf_dec]. Qed.

Lemma header_roundtrip_witness :
  dec (enc (Cmn 0x5000 0x3930 7 9)) = Cmn 0x5000 0x3930 7 9
  ∧ enc (dec [0; 80; 0; 25; 1; 2; 3; 4; 5; 6; 7; 8] : sctp_cmn_hdr_t) = [0; 80; 0; 25; 1; 2; 3; 4; 5; 6; 7; 8]
  ∧ wf (dec [0; 80; 0; 25; 1; 2; 3; 4; 5; 6; 7; 8] : sctp_cmn_hdr_t).
Proof.
  apply (header_roundtrip (T:=sctp_cmn_hdr_t)); [| |done].
  - repeat constructor; cbn; lia.
  - repeat constructor; unfold is_u8; lia.
Defined.

(** The sizes the code gets from [sizeof]. *)
Lemma header_sizes :
  Z.of_nat (size mac_t) = sz_mac ∧ Z.of_nat (size ipv4_t) = sz_ip
  ∧ Z.of_nat (size sctp_cmn_hdr_t) = sz_cmn ∧ Z.of_nat (size sctp_fld_hdr_t) = sz_fld
  ∧ Z.of_nat (size sctp_init_hdr_t) = sz_init ∧ Z.of_nat (size sctp_parameter_t) = sz_param
  ∧ Z.of_nat (size cookie_t) = sz_cookie.
Proof. by repeat split. Qed.
