(* ===== verification/Xdp.v ===== *)
(** * AF_XDP rings (xdp_rx.c, xdp_tx.c, xdp_tx_sg.c, xdp_fill.c,
    xdp_complete_tx.c)

    Each ring is shared with the kernel: 4096 cells and two free-running 32-bit
    indices, one advanced by the code and one by the kernel.  [holds r q] says
    that the cells from the consumer to the producer are the queue [q]. *)
From S2P Require Import Prelude Bytes Mem Umem.

(** ** Code *)
Definition RING_MASK : Z := UMEM_CHUNK_COUNT - 1.
Definition XDP_MAX_SEGS : nat := 16.
Definition XDP_PKT_CONTD : Z := 1.

Record ring32 (A : Type) := Ring32 { producer : Z; consumer : Z; cells : list A }.
Arguments Ring32 {A}.
Arguments producer {A}.
Arguments consumer {A}.
Arguments cells {A}.

Record xdp_desc := Desc { d_addr : Z; d_len : Z; d_options : Z }.

Record xdp_t := Xdp {
  umem : Z;
  rx_ring : ring32 xdp_desc;
  tx_ring : ring32 xdp_desc;
  fill_ring : ring32 Z;
  completion_ring : ring32 Z
}.

(** [(pos + i) & RING_MASK] *)
Definition ring_idx (pos : Z) (i : nat) : nat := Z.to_nat (Z.land (u32 (pos + Z.of_nat i)) RING_MASK).

(** The loops: cell [(pos + i) & RING_MASK] is written or read, for [i] from
    [i0] on. *)
Fixpoint ring_write {A} (pos : Z) (i : nat) (xs : list A) (cs : list A) : outcome (list A) :=
  match xs with
  | [] => Ret cs
  | x :: xs =>
      _ ← get (cs !! ring_idx pos i);
      ring_write pos (S i) xs (<[ring_idx pos i := x]> cs)
  end.

Fixpoint ring_read {A} (pos : Z) (i n : nat) (cs : list A) : outcome (list A) :=
  match n with
  | O => Ret []
  | S n => x ← get (cs !! ring_idx pos i); xs ← ring_read pos (S i) n cs; Ret (x :: xs)
  end.

(** The result of the two receiving functions: the cells copied to the output
    arrays, their number being the value returned. *)
Definition ring_consume {A} (r : ring32 A) (max_n : Z) : outcome (list A * ring32 A) :=
  let prod := producer r in
  let cons := consumer r in
  let n := u32 (prod - cons) in
  if n =? 0 then Ret ([], r)
  else
    let n := if max_n <? n then max_n else n in
    out ← ring_read cons 0 (Z.to_nat n) (cells r);
    Ret (out, Ring32 prod (u32 (cons + n)) (cells r)).

Definition xdp_rx (xsk : xdp_t) (max_n : Z) : outcome (list (Z * Z) * xdp_t) :=
  '(out, r) ← ring_consume (rx_ring xsk) max_n;
  Ret ((λ d, (d_addr d, d_len d)) <$> (out : list xdp_desc),
       Xdp (umem xsk) r (tx_ring xsk) (fill_ring xsk) (completion_ring xsk)).

Definition xdp_complete_tx (xsk : xdp_t) (max_n : Z) : outcome (list Z * xdp_t) :=
  '(out, r) ← ring_consume (completion_ring xsk) max_n;
  Ret (out, Xdp (umem xsk) (rx_ring xsk) (tx_ring xsk) (fill_ring xsk) r).

Definition with_tx (xsk : xdp_t) (r : ring32 xdp_desc) : xdp_t :=
  Xdp (umem xsk) (rx_ring xsk) r (fill_ring xsk) (completion_ring xsk).

(** The descriptors of one packet of [n] segments; all but the last are marked
    as continued. *)
Fixpoint seg_descs (segs lens : list Z) (n : nat) : outcome (list xdp_desc) :=
  match n with
  | O => Ret []
  | S n =>
      addr ← get (head segs); len ← get (head lens);
      ds ← seg_descs (tail segs) (tail lens) n;
      Ret (Desc addr len (if (n =? 0)%nat then 0 else XDP_PKT_CONTD) :: ds)
  end.

(** [sendto] only wakes the kernel up; its result does not change the state. *)
Definition xdp_tx (xsk : xdp_t) (xdp_segs xdp_seg_lens : list Z) (n : Z) : outcome (Z * xdp_t) :=
  if (n =? 0) || (Z.of_nat XDP_MAX_SEGS <? n) then Ret (0, xsk)
  else
    let prod := producer (tx_ring xsk) in
    let cons := consumer (tx_ring xsk) in
    let diff := u32 (UMEM_CHUNK_COUNT - u32 (prod - cons)) in
    if diff <? n then Ret (0, xsk)
    else
      ds ← seg_descs xdp_segs xdp_seg_lens (Z.to_nat n);
      cs ← ring_write prod 0 ds (cells (tx_ring xsk));
      Ret (n, with_tx xsk (Ring32 (u32 (prod + n)) cons cs)).

Definition xdp_tx_sg (xsk : xdp_t) (reqs : list xdp_desc) (n : Z) : outcome (Z * xdp_t) :=
  let prod := producer (tx_ring xsk) in
  let cons := consumer (tx_ring xsk) in
  let free_space := u32 (UMEM_CHUNK_COUNT - u32 (prod - cons)) in
  let n := if free_space <? n then free_space else n in
  if n =? 0 then Ret (0, xsk)
  else if decide (Z.to_nat n ≤ length reqs)%nat then
    cs ← ring_write prod 0 (take (Z.to_nat n) reqs) (cells (tx_ring xsk));
    Ret (n, with_tx xsk (Ring32 (u32 (prod + n)) cons cs))
  else Fault.

(** The loop of [xdp_fill]: pops until [n] chunks are in the ring or the stack is
    empty; the result is the number of chunks. *)
Fixpoint fill_loop (prod : Z) (i n : nat) (s : umem_stack) (cs : list Z)
  : outcome (nat * umem_stack * list Z) :=
  match n with
  | O => Ret (i, s, cs)
  | S n =>
      '(addr, s) ← umem_stack_pop s;
      if addr =? NO_CHUNK then Ret (i, s, cs)
      else
        _ ← get (cs !! ring_idx prod i);
        fill_loop prod (S i) n s (<[ring_idx prod i := addr]> cs)
  end.

Definition xdp_fill (xsk : xdp_t) (s : umem_stack) (max_n : Z) : outcome (Z * xdp_t * umem_stack) :=
  let prod := producer (fill_ring xsk) in
  let cons := consumer (fill_ring xsk) in
  let free_entries := u32 (RING_MASK + 1 - u32 (prod - cons)) in
  let n := if free_entries <? max_n then free_entries else max_n in
  if n =? 0 then Ret (0, xsk, s)
  else
    '(i, s, cs) ← fill_loop prod 0 (Z.to_nat n) s (cells (fill_ring xsk));
    let n := Z.of_nat i in
    let prod := if 0 <? n then u32 (prod + n) else prod in
    Ret (n, Xdp (umem xsk) (rx_ring xsk) (tx_ring xsk) (Ring32 prod cons cs) (completion_ring xsk), s).

(** ** Rings as queues *)
Section rings.
Context {A : Type}.
Implicit Types (r : ring32 A) (q xs : list A).

Record holds r q : Prop := {
  holds_cells : length (cells r) = 4096%nat;
  holds_prod : is_u32 (producer r);
  holds_cons : is_u32 (consumer r);
  holds_count : u32 (producer r - consumer r) = Z.of_nat (length q);
  holds_max : (length q ≤ 4096)%nat;
  holds_at i x : q !! i = Some x → cells r !! ring_idx (consumer r) i = Some x
}.

Lemma ring_idx_mod pos i : ring_idx pos i = Z.to_nat ((pos + Z.of_nat i) mod 4096).
Proof.
  unfold ring_idx, RING_MASK, UMEM_CHUNK_COUNT. f_equal.
  change (4096 - 1) with (Z.ones 12). rewrite Z.land_ones by lia. change (2 ^ 12) with 4096.
  unfold u32. change 0x100000000 with (0x100000 * 4096). apply Z.mod_mod_divide, Z.divide_factor_r.
Qed.

Lemma ring_idx_lt pos i : (ring_idx pos i < 4096)%nat.
Proof. rewrite ring_idx_mod. pose proof (Z.mod_pos_bound (pos + Z.of_nat i) 4096). lia. Qed.

Lemma ring_idx_inj pos i j :
  (i < 4096)%nat → (j < 4096)%nat → ring_idx pos i = ring_idx pos j → i = j.
Proof.
  rewrite !ring_idx_mod. intros Hi Hj H.
  pose proof (Z.mod_pos_bound (pos + Z.of_nat i) 4096). pose proof (Z.mod_pos_bound (pos + Z.of_nat j) 4096).
  assert ((pos + Z.of_nat i) mod 4096 = (pos + Z.of_nat j) mod 4096) as E by lia.
  revert E. Z.div_mod_to_equations. lia.
Qed.

(** The [i]-th cell after the producer is the cell after the queue. *)
Lemma ring_idx_prod r q i : holds r q → ring_idx (producer r) i = ring_idx (consumer r) (length q + i).
Proof.
  intros [_ _ _ Hc _ _]. rewrite !ring_idx_mod. f_equal. revert Hc. unfold u32.
  Z.div_mod_to_equations. lia.
Qed.

Lemma ring_read_spec pos n : ∀ i cs q,
  (∀ j x, q !! j = Some x → cs !! ring_idx pos (i + j) = Some x) → (n ≤ length q)%nat →
  ring_read pos i n cs = Ret (take n q).
Proof.
  induction n as [|n IH]; intros i cs q Hq Hn; cbn [ring_read]; [done|].
  destruct q as [|x q]; [cbn in Hn; lia|]. pose proof (Hq 0%nat x eq_refl) as H0.
  rewrite Nat.add_0_r in H0. rewrite H0. cbn [get mbind outcome_bind].
  rewrite (IH (S i) cs q); [done| |cbn in Hn; lia].
  intros j y Hj. specialize (Hq (S j) y Hj). by rewrite <-Nat.add_succ_comm in Hq.
Qed.

Lemma ring_write_spec pos xs : ∀ i cs,
  length cs = 4096%nat → (i + length xs ≤ 4096)%nat →
  ∃ cs', ring_write pos i xs cs = Ret cs' ∧ length cs' = 4096%nat
  ∧ (∀ j x, xs !! j = Some x → cs' !! ring_idx pos (i + j) = Some x)
  ∧ (∀ k, (∀ j, (j < length xs)%nat → k ≠ ring_idx pos (i + j)) → cs' !! k = cs !! k).
Proof.
  induction xs as [|x xs IH]; intros i cs Hl Hi; cbn [ring_write length] in *.
  - exists cs. split; [done|]. split; [done|]. split; [done|]. done.
  - pose proof (ring_idx_lt pos i) as Hlt.
    destruct (lookup_lt_is_Some_2 cs (ring_idx pos i)) as [y ->]; [lia|]. cbn [get mbind outcome_bind].
    destruct (IH (S i) (<[ring_idx pos i:=x]> cs)) as (cs' & -> & Hl' & Hin & Hout).
    { by rewrite length_insert. }
    { lia. }
    exists cs'. split; [done|]. split; [done|]. split.
    + intros [|j] z Hz; cbn in Hz.
      * injection Hz as <-. rewrite Nat.add_0_r, Hout; [apply list_lookup_insert_eq; lia|].
        intros j Hj E. apply ring_idx_inj in E; lia.
      * rewrite <-Nat.add_succ_comm. by apply Hin.
    + intros k Hk. rewrite Hout, list_lookup_insert_ne; [done| |].
      * specialize (Hk 0%nat ltac:(lia)). rewrite Nat.add_0_r in Hk. done.
      * intros j Hj. rewrite Nat.add_succ_comm. apply Hk. lia.
Qed.

(** Appending to the ring, and removing from it. *)
Lemma holds_put r q xs :
  holds r q → (length q + length xs ≤ 4096)%nat →
  ∃ cs, ring_write (producer r) 0 xs (cells r) = Ret cs
  ∧ holds (Ring32 (u32 (producer r + Z.of_nat (length xs))) (consumer r) cs) (q ++ xs).
Proof.
  intros Hr Hlen. destruct (ring_write_spec (producer r) xs 0 (cells r)) as (cs & -> & Hl & Hin & Hout).
  { apply Hr. }
  { lia. }
  exists cs. split; [done|]. pose proof (ring_idx_prod r q) as Hidx. destruct Hr.
  split; cbn [cells producer consumer]; rewrite ?length_app; try done.
  - apply u32_range.
  - unfold u32 in *. rewrite Zminus_mod_idemp_l.
    replace (producer r + Z.of_nat (length xs) - consumer r)
      with (producer r - consumer r + Z.of_nat (length xs)) by lia.
    rewrite Zplus_mod, holds_count0, Zplus_mod_idemp_r. rewrite Z.mod_small; lia.
  - intros i x [Hi|[Hi Hx]]%lookup_app_Some.
    + rewrite Hout; [by apply holds_at0|]. intros j Hj E.
      rewrite Hidx in E by done. pose proof (lookup_lt_Some _ _ _ Hi).
      apply ring_idx_inj in E; lia.
    + specialize (Hin _ _ Hx). cbn [Nat.add] in Hin. rewrite Hidx in Hin by done.
      by replace (length q + (i - length q))%nat with i in Hin by lia.
Qed.

Lemma holds_drop r q n :
  holds r q → (n ≤ length q)%nat →
  holds (Ring32 (producer r) (u32 (consumer r + Z.of_nat n)) (cells r)) (drop n q).
Proof.
  intros [] Hn. split; cbn [cells producer consumer]; rewrite ?length_drop; try done; try lia.
  - apply u32_range.
  - unfold u32 in *. rewrite Zminus_mod_idemp_r.
    replace (producer r - (consumer r + Z.of_nat n)) with (producer r - consumer r - Z.of_nat n) by lia.
    rewrite Zminus_mod, holds_count0, Zminus_mod_idemp_r. rewrite Z.mod_small; lia.
  - intros i x Hx. rewrite lookup_drop in Hx. specialize (holds_at0 _ _ Hx).
    rewrite !ring_idx_mod in *. rewrite <-holds_at0. do 2 f_equal. unfold u32.
    Z.div_mod_to_equations. lia.
Qed.

Lemma ring_consume_spec r q max_n :
  holds r q → is_u32 max_n →
  let n := Nat.min (Z.to_nat max_n) (length q) in
  ∃ r', ring_consume r max_n = Ret (take n q, r') ∧ holds r' (drop n q).
Proof.
  intros Hr Hm n. unfold ring_consume. unfold is_u32 in Hm. rewrite (holds_count _ _ Hr).
  destruct (Z.eqb_spec (Z.of_nat (length q)) 0) as [H0|H0].
  - destruct q; [|done]. unfold n. cbn [length]. rewrite Nat.min_0_r. eauto.
  - set (n' := if max_n <? _ then _ else _).
    assert (n' = Z.of_nat n) as -> by (unfold n', n; destruct (Z.ltb_spec max_n (Z.of_nat (length q))); lia).
    rewrite Nat2Z.id. rewrite (ring_read_spec _ _ _ _ q) by (apply Hr || lia).
    cbn [mbind outcome_bind]. eexists. split; [done|]. apply holds_drop; [done | lia].
Qed.

Lemma free_space_spec r q : holds r q → u32 (4096 - u32 (producer r - consumer r)) = 4096 - Z.of_nat (length q).
Proof. intros []. rewrite holds_count0, u32_id; [done|]. unfold is_u32. lia. Qed.
End rings.

(** ** The operations on the queues *)
Fixpoint packet_descs (sl : list (Z * Z)) : list xdp_desc :=
  match sl with
  | [] => []
  | (addr, len) :: sl => Desc addr len (match sl with [] => 0 | _ => XDP_PKT_CONTD end) :: packet_descs sl
  end.

Lemma length_packet_descs sl : length (packet_descs sl) = length sl.
Proof. induction sl as [|[]]; cbn; congruence. Qed.

Lemma seg_descs_spec n : ∀ segs lens,
  (n ≤ length segs)%nat → (n ≤ length lens)%nat →
  seg_descs segs lens n = Ret (packet_descs (take n (zip segs lens))).
Proof.
  induction n as [|n IH]; intros [|a segs] [|l lens] Hs Hl; cbn in Hs, Hl; try lia; try done.
  cbn [seg_descs head tail get mbind outcome_bind]. rewrite IH by lia. cbn [mbind outcome_bind zip zip_with take packet_descs].
  do 3 f_equal. destruct n; [done|]. destruct segs, lens; cbn in *; lia || done.
Qed.

Lemma xdp_tx_spec xsk q segs lens n :
  holds (tx_ring xsk) q → is_u32 n → (Z.to_nat n ≤ length segs)%nat → (Z.to_nat n ≤ length lens)%nat →
  if decide (0 < n ≤ 16 ∧ Z.of_nat (length q) + n ≤ 4096)
  then ∃ r, xdp_tx xsk segs lens n = Ret (n, with_tx xsk r)
       ∧ holds r (q ++ packet_descs (take (Z.to_nat n) (zip segs lens)))
  else xdp_tx xsk segs lens n = Ret (0, xsk).
Proof.
  intros Hr Hn Hs Hl. unfold is_u32 in Hn. unfold xdp_tx, UMEM_CHUNK_COUNT, XDP_MAX_SEGS.
  rewrite (free_space_spec _ _ Hr). case_decide as Hd.
  - destruct (Z.eqb_spec n 0); [lia|]. destruct (Z.ltb_spec (Z.of_nat 16) n); [lia|]. cbn [orb].
    destruct (Z.ltb_spec (4096 - Z.of_nat (length q)) n); [lia|].
    rewrite seg_descs_spec by done. cbn [mbind outcome_bind].
    set (ds := packet_descs _). assert (length ds = Z.to_nat n) as Hds.
    { unfold ds. rewrite length_packet_descs, length_take, length_zip_with. lia. }
    destruct (holds_put _ q ds Hr) as (cs & -> & Hr'); [lia|]. cbn [mbind outcome_bind].
    rewrite Hds, Z2Nat.id in Hr' by lia. eauto.
  - destruct (Z.eqb_spec n 0); [done|]. destruct (Z.ltb_spec (Z.of_nat 16) n); [done|]. cbn [orb].
    destruct (Z.ltb_spec (4096 - Z.of_nat (length q)) n); [done|]. lia.
Qed.

Lemma fill_loop_spec prod n : ∀ i s cs l cs',
  stack_rep s l → NO_CHUNK ∉ l → let k := Nat.min n (length l) in
  ring_write prod i (take k l) cs = Ret cs' →
  ∃ s', fill_loop prod i n s cs = Ret ((i + k)%nat, s', cs') ∧ stack_rep s' (drop k l)
  ∧ Umem.cap s' = Umem.cap s.
Proof.
  induction n as [|n IH]; intros i s cs l cs' Hs Hl k Hw; cbn [fill_loop].
  - subst k. cbn in Hw. injection Hw as <-. rewrite Nat.add_0_r. eauto.
  - destruct l as [|a l].
    + rewrite (stack_pop_empty _ Hs). cbn [mbind outcome_bind]. rewrite Z.eqb_refl.
      cbn in Hw. injection Hw as <-. subst k. rewrite Nat.add_0_r. eauto.
    + destruct (stack_pop_spec _ _ _ Hs) as (s1 & -> & Hs1 & Hcap). cbn [mbind outcome_bind].
      apply not_elem_of_cons in Hl as [Ha Hl]. rewrite (proj2 (Z.eqb_neq a NO_CHUNK)) by done.
      subst k. cbn [length Nat.min take ring_write] in Hw.
      apply bind_ret_inv in Hw as (x & -> & Hw). cbn [mbind outcome_bind].
      destruct (IH (S i) s1 _ l cs' Hs1 Hl Hw) as (s' & -> & Hs' & Hcap').
      exists s'. split; [|split; [done|congruence]]. do 3 f_equal. cbn [length Nat.min]. lia.
Qed.

Lemma xdp_fill_spec xsk s q l max_n :
  holds (fill_ring xsk) q → stack_rep s l → NO_CHUNK ∉ l → is_u32 max_n →
  let n := Nat.min (Nat.min (Z.to_nat max_n) (4096 - length q)) (length l) in
  ∃ r s', xdp_fill xsk s max_n
    = Ret (Z.of_nat n, Xdp (umem xsk) (rx_ring xsk) (tx_ring xsk) r (completion_ring xsk), s')
  ∧ holds r (q ++ take n l) ∧ stack_rep s' (drop n l) ∧ Umem.cap s' = Umem.cap s.
Proof.
  intros Hr Hs Hl Hm n. unfold is_u32 in Hm. pose proof (holds_max _ _ Hr) as Hq. unfold xdp_fill.
  change (RING_MASK + 1) with 4096. rewrite (free_space_spec _ _ Hr).
  set (m := if _ <? max_n then _ else max_n).
  assert (m = Z.of_nat (Nat.min (Z.to_nat max_n) (4096 - length q))) as ->.
  { unfold m. destruct (Z.ltb_spec (4096 - Z.of_nat (length q)) max_n); lia. }
  destruct (Z.eqb_spec (Z.of_nat (Nat.min (Z.to_nat max_n) (4096 - length q))) 0) as [H0|H0].
  - assert (n = 0%nat) as -> by (unfold n; lia). exists (fill_ring xsk), s.
    rewrite app_nil_r. split; [by destruct xsk|]. done.
  - rewrite Nat2Z.id. destruct (holds_put _ q (take n l) Hr) as (cs & Hcs & Hr').
    { rewrite length_take. unfold n. lia. }
    destruct (fill_loop_spec _ _ _ _ _ _ _ Hs Hl Hcs) as (s' & -> & Hs' & Hcap).
    cbn [mbind outcome_bind Nat.add]. fold n. rewrite length_take, Nat.min_l in Hr' by (unfold n; lia).
    do 2 eexists. split; [reflexivity|]. split; [|done].
    destruct (Z.ltb_spec 0 (Z.of_nat n)) as [|Hn0]; [done|].
    assert (n = 0%nat) as En by lia. rewrite En in *. cbn [take] in *. rewrite Z.add_0_r in Hr'.
    rewrite u32_id in Hr' by apply Hr. done.
Qed.

(** ** Where the chunks are

    The receive path as a transition system: the code fills and receives, the
    kernel takes chunks from the fill ring and returns them, filled, in the
    receive ring, and the application gives each received chunk back to the
    stack with [umem_stack_push]. *)
Record rx_state := RxState {
  xs_stack : umem_stack; xs_xsk : xdp_t; xs_kernel : list Z; xs_app : list Z
}.

Definition with_rx (xsk : xdp_t) (r : ring32 xdp_desc) : xdp_t :=
  Xdp (umem xsk) r (tx_ring xsk) (fill_ring xsk) (completion_ring xsk).
Definition with_fill (xsk : xdp_t) (r : ring32 Z) : xdp_t :=
  Xdp (umem xsk) (rx_ring xsk) (tx_ring xsk) r (completion_ring xsk).

Inductive rx_step : rx_state → rx_state → Prop :=
| step_fill s xsk k app max_n n xsk' s' :
    is_u32 max_n → xdp_fill xsk s max_n = Ret (n, xsk', s') →
    rx_step (RxState s xsk k app) (RxState s' xsk' k app)
| step_kernel_take s xsk k app c cs r :
    ring_consume (fill_ring xsk) 1 = Ret ([c], r) → cs = k ++ [c] →
    rx_step (RxState s xsk k app) (RxState s (with_fill xsk r) cs app)
| step_kernel_rx s xsk k1 c k2 app len cs :
    u32 (producer (rx_ring xsk) - consumer (rx_ring xsk)) < 4096 →
    ring_write (producer (rx_ring xsk)) 0 [Desc c len 0] (cells (rx_ring xsk)) = Ret cs →
    rx_step (RxState s xsk (k1 ++ c :: k2) app)
      (RxState s (with_rx xsk (Ring32 (u32 (producer (rx_ring xsk) + 1)) (consumer (rx_ring xsk)) cs))
         (k1 ++ k2) app)
| step_rx s xsk k app max_n out xsk' :
    is_u32 max_n → xdp_rx xsk max_n = Ret (out, xsk') →
    rx_step (RxState s xsk k app) (RxState s xsk' k (app ++ out.*1))
| step_return s xsk k a1 c a2 s' :
    umem_stack_push s c = Ret s' →
    rx_step (RxState s xsk k (a1 ++ c :: a2)) (RxState s' xsk k (a1 ++ a2)).

(** Every chunk of [C] is in exactly one place. *)
Definition rx_inv (C : list Z) (st : rx_state) : Prop :=
  ∃ l qf qr, stack_rep (xs_stack st) l
  ∧ holds (fill_ring (xs_xsk st)) qf ∧ holds (rx_ring (xs_xsk st)) qr
  ∧ l ++ qf ++ xs_kernel st ++ (d_addr <$> qr) ++ xs_app st ≡ₚ C
  ∧ NO_CHUNK ∉ C ∧ Z.of_nat (length C) ≤ Umem.cap (xs_stack st).

Lemma rx_step_inv C st st' : rx_inv C st → rx_step st st' → rx_inv C st'.
Proof.
  intros (l & qf & qr & Hs & Hf & Hr & Hperm & Hno & Hcap) Hstep.
  destruct Hstep as [s xsk k app max_n n xsk' s' Hm Hfill|s xsk k app c cs r Hk ->
    |s xsk k1 c k2 app len cs Hlt Hw|s xsk k app max_n out xsk' Hm Hrx|s xsk k a1 c a2 s' Hpush];
    cbn [xs_stack xs_xsk xs_kernel xs_app] in *.
  - assert (NO_CHUNK ∉ l) as Hnl by (rewrite <-Hperm in Hno; set_solver).
    destruct (xdp_fill_spec _ _ _ _ _ Hf Hs Hnl Hm) as (r & s1 & E & Hf1 & Hs1 & Hc1).
    rewrite E in Hfill. injection Hfill as _ <- <-. set (n' := Nat.min _ _) in *.
    exists (drop n' l), (qf ++ take n' l), qr. cbn [xs_stack xs_xsk xs_kernel xs_app fill_ring rx_ring].
    do 3 (split; [done|]). split; [|split; [done|lia]].
    rewrite <-Hperm. transitivity ((take n' l ++ drop n' l) ++ qf ++ k ++ (d_addr <$> qr) ++ app);
      [solve_Permutation | by rewrite take_drop].
  - destruct (ring_consume_spec _ _ 1 Hf) as (r' & E & Hf'); [by unfold is_u32|].
    rewrite E in Hk. injection Hk as Ht <-. destruct qf as [|c' qf]; [done|].
    change (Z.to_nat 1) with 1%nat in *. cbn [length Nat.min take drop] in *. injection Ht as ->.
    exists l, qf, qr. cbn [xs_stack xs_xsk xs_kernel xs_app fill_ring rx_ring with_fill]. do 3 (split; [done|]). split; [|done].
    rewrite <-Hperm. solve_Permutation.
  - rewrite (holds_count _ _ Hr) in Hlt. destruct (holds_put _ qr [Desc c len 0] Hr) as (cs' & E & Hr').
    { cbn. lia. }
    rewrite E in Hw. injection Hw as <-. exists l, qf, (qr ++ [Desc c len 0]).
    cbn [xs_stack xs_xsk xs_kernel xs_app fill_ring rx_ring with_rx]. do 3 (split; [done|]). split; [|done].
    rewrite <-Hperm, fmap_app. cbn [fmap list_fmap d_addr]. solve_Permutation.
  - destruct (ring_consume_spec _ _ _ Hr Hm) as (r' & E & Hr'). unfold xdp_rx in Hrx.
    rewrite E in Hrx. cbn [mbind outcome_bind] in Hrx. injection Hrx as <- <-.
    set (n := Nat.min _ _) in *. exists l, qf, (drop n qr). cbn [xs_stack xs_xsk xs_kernel xs_app fill_ring rx_ring].
    do 3 (split; [done|]). split; [|done].
    rewrite <-Hperm, <-list_fmap_compose.
    change ((fst ∘ (λ d, (d_addr d, d_len d))) <$> take n qr) with (d_addr <$> take n qr).
    transitivity (l ++ qf ++ k ++ ((d_addr <$> take n qr) ++ (d_addr <$> drop n qr)) ++ app);
      [solve_Permutation | by rewrite <-fmap_app, take_drop].
  - assert (Z.of_nat (length l) < Umem.cap s) as Hlt.
    { apply Permutation_length in Hperm. rewrite !length_app in Hperm. cbn in Hperm. lia. }
    destruct (stack_push_spec _ c _ Hs Hlt) as (s1 & E & Hs1 & Hc1). rewrite E in Hpush. injection Hpush as <-.
    exists (c :: l), qf, qr. cbn [xs_stack xs_xsk xs_kernel xs_app]. do 3 (split; [done|]). split; [|split; [done|lia]].
    rewrite <-Hperm. solve_Permutation.
Qed.

Definition empty_ring {A} (junk : A) (pos : Z) : ring32 A := Ring32 pos pos (replicate 4096 junk).

Lemma empty_holds {A} (junk : A) pos : is_u32 pos → holds (empty_ring junk pos) [].
Proof.
  intros Hp. split; cbn [empty_ring cells producer consumer length]; rewrite ?length_replicate, ?Z.sub_diag;
    done || lia.
Qed.

Lemma fresh_no_chunk n :
  Z.of_nat n * UMEM_CHUNK_SIZE < 0x10000000000000000 - 1 → NO_CHUNK ∉ fresh_offsets n.
Proof.
  induction n as [|n IH]; intros Hn; [by intros ?%not_elem_of_nil|]. rewrite fresh_offsets_S.
  unfold UMEM_CHUNK_SIZE in *. apply not_elem_of_cons. split; [|apply IH; lia].
  rewrite u64_id by (unfold is_u64; lia). unfold NO_CHUNK. lia.
Qed.

Lemma length_fresh_offsets n : length (fresh_offsets n) = n.
Proof. unfold fresh_offsets. by rewrite length_reverse, length_fmap, length_seq. Qed.

(** ** Properties *)

(** [xdp_tx] is all or nothing: it refuses an empty packet, one of more than
    16 segments and one for which the ring lacks room, leaving the ring as it
    is; otherwise it appends the segments in order, marked as continued but
    for the last, and overwrites no descriptor that the kernel has not
    consumed. *)
Lemma xdp_tx_all_or_nothing xsk q segs lens n :
  holds (tx_ring xsk) q → is_u32 n → (Z.to_nat n ≤ length segs)%nat → (Z.to_nat n ≤ length lens)%nat →
  if decide (0 < n ≤ 16 ∧ Z.of_nat (length q) + n ≤ 4096)
  then ∃ r, xdp_tx xsk segs lens n = Ret (n, with_tx xsk r)
       ∧ holds r (q ++ packet_descs (take (Z.to_nat n) (zip segs lens)))
  else xdp_tx xsk segs lens n = Ret (0, xsk).
Proof. apply xdp_tx_spec. Qed.

Definition demo_xsk : xdp_t :=
  Xdp 65536 (empty_ring (Desc 0 0 0) 7) (empty_ring (Desc 0 0 0) 0xFFFFFFFF) (empty_ring 0 9) (empty_ring 0 0).

Lemma xdp_tx_all_or_nothing_witness :
  ∃ r, xdp_tx demo_xsk [0; 64; 128] [46; 20; 9] 2 = Ret (2, with_tx demo_xsk r)
  ∧ holds r [Desc 0 46 1; Desc 64 20 0].
Proof.
  exact (xdp_tx_all_or_nothing demo_xsk [] [0; 64; 128] [46; 20; 9] 2
    (empty_holds (Desc 0 0 0) 0xFFFFFFFF ltac:(unfold is_u32; lia)) ltac:(unfold is_u32; lia) ltac:(vm_compute; lia) ltac:(vm_compute; lia)).
Defined.

(** [xdp_tx_sg] sends what fits: when the ring has room for [k] of the [n]
    requests only the first [k] are queued; if the [k]-th one carries
    XDP_PKT_CONTD the kernel is left with a packet whose end never comes, and
    the next packet becomes its continuation. *)
Lemma xdp_tx_sg_truncates xsk q reqs n :
  holds (tx_ring xsk) q → is_u32 n → n = Z.of_nat (length reqs) →
  let k := Nat.min (length reqs) (4096 - length q) in
  ∃ r, xdp_tx_sg xsk reqs n = Ret (Z.of_nat k, with_tx xsk r) ∧ holds r (q ++ take k reqs).
Proof.
  intros Hr Hn -> k. pose proof (holds_max _ _ Hr) as Hq. unfold xdp_tx_sg, UMEM_CHUNK_COUNT.
  rewrite (free_space_spec _ _ Hr).
  set (m := if _ <? _ then _ else _).
  assert (m = Z.of_nat k) as ->.
  { unfold m, k. destruct (Z.ltb_spec (4096 - Z.of_nat (length q)) (Z.of_nat (length reqs))); lia. }
  destruct (Z.eqb_spec (Z.of_nat k) 0) as [H0|H0].
  - assert (k = 0%nat) as -> by lia. exists (tx_ring xsk). rewrite app_nil_r. split; [by destruct xsk|done].
  - rewrite Nat2Z.id, decide_True by (unfold k; lia).
    destruct (holds_put _ q (take k reqs) Hr) as (cs & -> & Hr'); [rewrite length_take; unfold k; lia|].
    cbn [mbind outcome_bind]. rewrite length_take, Nat.min_l in Hr' by (unfold k; lia). eauto.
Qed.

Lemma xdp_tx_sg_truncates_witness :
  ∃ r, xdp_tx_sg demo_xsk [Desc 0 46 1; Desc 64 20 0] 2 = Ret (2, with_tx demo_xsk r)
  ∧ holds r [Desc 0 46 1; Desc 64 20 0].
Proof.
  exact (xdp_tx_sg_truncates demo_xsk [] [Desc 0 46 1; Desc 64 20 0] 2
    (empty_holds (Desc 0 0 0) 0xFFFFFFFF ltac:(unfold is_u32; lia)) ltac:(unfold is_u32; lia) eq_refl).
Defined.

(** [xdp_fill] moves chunks from the stack to the fill ring, in stack order,
    as many as asked for, free and available; none is lost or duplicated. *)
Lemma xdp_fill_moves_chunks xsk s q l max_n :
  holds (fill_ring xsk) q → stack_rep s l → NO_CHUNK ∉ l → is_u32 max_n →
  let n := Nat.min (Nat.min (Z.to_nat max_n) (4096 - length q)) (length l) in
  ∃ r s', xdp_fill xsk s max_n
    = Ret (Z.of_nat n, Xdp (umem xsk) (rx_ring xsk) (tx_ring xsk) r (completion_ring xsk), s')
  ∧ holds r (q ++ take n l) ∧ stack_rep s' (drop n l).
Proof.
  intros Hr Hs Hl Hm n. destruct (xdp_fill_spec xsk s q l max_n Hr Hs Hl Hm) as (r & s' & ? & ? & ? & _).
  by exists r, s'.
Qed.

Lemma xdp_fill_moves_chunks_witness :
  ∃ r s', xdp_fill demo_xsk (UStack [0; 4096; 8192] 3 3) 2
    = Ret (2, Xdp 65536 (empty_ring (Desc 0 0 0) 7) (empty_ring (Desc 0 0 0) 0xFFFFFFFF) r (empty_ring 0 0), s')
  ∧ holds r [8192; 4096] ∧ stack_rep s' [0].
Proof.
  refine (xdp_fill_moves_chunks demo_xsk (UStack [0; 4096; 8192] 3 3) [] [8192; 4096; 0] 2
    (empty_holds 0 9 ltac:(unfold is_u32; lia)) _ _ ltac:(unfold is_u32; lia)).
  - split; try done; cbn; unfold is_u32; lia.
  - unfold NO_CHUNK. rewrite !not_elem_of_cons. repeat split; try lia. apply not_elem_of_nil.
Defined.

(** [xdp_rx] and [xdp_complete_tx] return the oldest entries of their rings,
    at most [max_n] of them, once each and in order. *)
Lemma xdp_receive_in_order xsk qr qc max_n :
  holds (rx_ring xsk) qr → holds (completion_ring xsk) qc → is_u32 max_n →
  let n := Nat.min (Z.to_nat max_n) (length qr) in
  let k := Nat.min (Z.to_nat max_n) (length qc) in
  (∃ xsk', xdp_rx xsk max_n = Ret ((λ d, (d_addr d, d_len d)) <$> take n qr, xsk')
     ∧ holds (rx_ring xsk') (drop n qr) ∧ completion_ring xsk' = completion_ring xsk)
  ∧ (∃ xsk', xdp_complete_tx xsk max_n = Ret (take k qc, xsk')
     ∧ holds (completion_ring xsk') (drop k qc) ∧ rx_ring xsk' = rx_ring xsk).
Proof.
  intros Hr Hc Hm n k. unfold xdp_rx, xdp_complete_tx.
  destruct (ring_consume_spec _ _ _ Hr Hm) as (r1 & -> & ?).
  destruct (ring_consume_spec _ _ _ Hc Hm) as (r2 & -> & ?). cbn [mbind outcome_bind].
  split; eexists; (split; [reflexivity | by split]).
Qed.

Lemma demo_rx_holds :
  holds (Ring32 0 0xFFFFFFFE (<[4095%nat := Desc 4096 60 0]> (<[4094%nat := Desc 0 46 0]> (replicate 4096 (Desc 0 0 0)))))
    [Desc 0 46 0; Desc 4096 60 0].
Proof.
  split; cbn [cells producer consumer length]; try done; try lia.
  intros [|[|i]] x [= <-]; reflexivity.
Qed.

Lemma xdp_receive_in_order_witness :
  (∃ xsk', xdp_rx (with_rx demo_xsk (Ring32 0 0xFFFFFFFE (<[4095%nat := Desc 4096 60 0]>
               (<[4094%nat := Desc 0 46 0]> (replicate 4096 (Desc 0 0 0)))))) 8
       = Ret ([(0, 46); (4096, 60)], xsk')
     ∧ holds (rx_ring xsk') [] ∧ completion_ring xsk' = empty_ring 0 0)
  ∧ (∃ xsk', xdp_complete_tx (with_rx demo_xsk (Ring32 0 0xFFFFFFFE (<[4095%nat := Desc 4096 60 0]>
               (<[4094%nat := Desc 0 46 0]> (replicate 4096 (Desc 0 0 0)))))) 8 = Ret ([], xsk')
     ∧ holds (completion_ring xsk') []
     ∧ rx_ring xsk' = Ring32 0 0xFFFFFFFE (<[4095%nat := Desc 4096 60 0]>
               (<[4094%nat := Desc 0 46 0]> (replicate 4096 (Desc 0 0 0))))).
Proof.
  exact (xdp_receive_in_order (with_rx demo_xsk _) _ [] 8 demo_rx_holds
    (empty_holds 0 0 ltac:(unfold is_u32; lia)) ltac:(unfold is_u32; lia)).
Defined.

(** C17: along every interleaving of the code, the kernel and the application on
    the receive path, every chunk of the UMEM is in exactly one place: the
    stack, the fill ring, the kernel, the receive ring or the application;
    none is lost, and none is in two places. *)
Theorem chunks_conserved (n : nat) xsk s st :
  is_u32 (Z.of_nat n) →
  create_umem_stack true true (Z.of_nat n) UMEM_CHUNK_SIZE = Some s →
  holds (fill_ring xsk) [] → holds (rx_ring xsk) [] →
  rtc rx_step (RxState s xsk [] []) st →
  ∃ l qf qr, stack_rep (xs_stack st) l
  ∧ holds (fill_ring (xs_xsk st)) qf ∧ holds (rx_ring (xs_xsk st)) qr
  ∧ l ++ qf ++ xs_kernel st ++ (d_addr <$> qr) ++ xs_app st ≡ₚ fresh_offsets n.
Proof.
  intros Hn Hs Hf Hr Hsteps. unfold is_u32 in Hn.
  assert (rx_inv (fresh_offsets n) (RxState s xsk [] [])) as Hinv.
  { destruct (create_stack_spec (Z.of_nat n) UMEM_CHUNK_SIZE Hn) as (s' & E & Hcap & Hrep).
    rewrite E in Hs. injection Hs as <-. rewrite Nat2Z.id in Hrep.
    exists (fresh_offsets n), [], []. cbn [xs_stack xs_xsk xs_kernel xs_app app fmap list_fmap].
    rewrite app_nil_r. do 4 (split; [done|]).
    split; [apply fresh_no_chunk; unfold UMEM_CHUNK_SIZE; lia | rewrite length_fresh_offsets; lia]. }
  assert (rx_inv (fresh_offsets n) st) as (l & qf & qr & ? & ? & ? & ? & _).
  { clear Hs Hf Hr. induction Hsteps as [|x y z Hxy _ IH]; [done|]. apply IH.
    by eapply rx_step_inv. }
  by exists l, qf, qr.
Qed.

Definition demo_stack : umem_stack := UStack [0; 4096] 2 2.

Lemma chunks_conserved_witness :
  ∃ st, rtc rx_step (RxState demo_stack demo_xsk [] []) st ∧ xs_kernel st = [4096]
  ∧ ∃ l qf qr, stack_rep (xs_stack st) l
    ∧ holds (fill_ring (xs_xsk st)) qf ∧ holds (rx_ring (xs_xsk st)) qr
    ∧ l ++ qf ++ xs_kernel st ++ (d_addr <$> qr) ++ xs_app st ≡ₚ [4096; 0].
Proof.
  assert (∃ st, rtc rx_step (RxState demo_stack demo_xsk [] []) st ∧ xs_kernel st = [4096]) as (st & Hst & Hk).
  { eexists. split.
    - eapply rtc_l; [eapply (step_fill _ _ _ _ 1); [by unfold is_u32 | vm_compute; reflexivity]|].
      eapply rtc_l; [eapply step_kernel_take; [vm_compute; reflexivity | reflexivity]|]. apply rtc_refl.
    - reflexivity. }
  exists st. split; [done|]. split; [done|].
  apply (chunks_conserved 2 demo_xsk demo_stack st); try done.
  - apply empty_holds. unfold is_u32; lia.
  - apply empty_holds. unfold is_u32; lia.
Defined.
