(* ===== verification/Assoc.v ===== *)
(** * The association and its AF_XDP transmit path (sctp.h, prefill_sctp_mac_ip.c,
    sctp_prepare_packet.c, sctp_push_to_xdp_segs.c, eth_send_sctp.c,
    build_prefilled_mac_ip_sctp_init_hdr.c, kpnet_env_init.c)

    An outgoing packet is a list of UMEM segments: segment 0 is the prefilled
    Ethernet, IP and SCTP common headers, the others are chunks written at
    [umem_hdrs_cursor]. *)
From S2P Require Import Prelude Bytes Mem RingBuf RingTimer Umem Random Headers Xdp.

(** ** Code: the state *)
Record sctp_ulp_config := Ulp {
  ulp_src_ip : Z; ulp_dst_ip : Z; ulp_src_port : Z; ulp_dst_port : Z;
  ulp_src_arwnd : Z; ulp_src_os : Z; ulp_src_mis : Z
}.

(** What the association knows of its peer; the fields a cookie carries. *)
Record sctp_peer := Peer {
  ver_tag : Z; init_tag : Z; a_rwnd : Z; os : Z; mis : Z; tsn : Z; dst_tsn : Z;
  dst_ip : Z; dst_port : Z
}.

(** The packet being built: [prefilled_umem_packet] and its length, the cursor,
    the room left and the segments. *)
Record sctp_tx := Tx {
  prefilled_umem_packet : Z; prefilled_umem_packet_len : Z;
  umem_hdrs_cursor : Z; remain_plen : Z;
  xdp_segs : list Z; xdp_seg_lens : list Z; xdp_seg_count : Z
}.

(** A stream of the association; [misses] and [buffer] are pointers. *)
Record sctp_thread := Thread {
  th_id : Z; th_buffer : Z; pos_low : Z; pos_current : Z; pos_high : Z; misses : Z; num_misses : Z;
  ssn : Z; sin : Z; th_proto : Z; th_flags : Z; buffer_remain : Z; active : bool
}.

(** [threads]: the array that [mis_threads] points to, and the index in it of
    [os_threads]. *)
Record sctp_association := Assoc {
  assoc_id : Z; status : SCTP_STATUS; peer : sctp_peer; tx : sctp_tx; mtu : Z;
  srtt : Z; rttvar : Z; rto : Z; retry_ring : Z; ulp : sctp_ulp_config;
  threads : option (list sctp_thread * nat)
}.

Definition with_peer (a : sctp_association) (p : sctp_peer) : sctp_association :=
  Assoc (assoc_id a) (status a) p (tx a) (mtu a) (srtt a) (rttvar a) (rto a) (retry_ring a) (ulp a) (threads a).
Definition with_sctp_tx (a : sctp_association) (t : sctp_tx) : sctp_association :=
  Assoc (assoc_id a) (status a) (peer a) t (mtu a) (srtt a) (rttvar a) (rto a) (retry_ring a) (ulp a) (threads a).
Definition with_status (a : sctp_association) (s : SCTP_STATUS) : sctp_association :=
  Assoc (assoc_id a) s (peer a) (tx a) (mtu a) (srtt a) (rttvar a) (rto a) (retry_ring a) (ulp a) (threads a).

(** ** Code: building a packet *)

(** The packed header of [prefill_sctp_mac_ip]: two bytes of alignment, then
    the three headers. *)
Definition prefilled_mac (mac_gateway mac_dev : Z) : mac_t :=
  Mac (mac_gateway mod 2 ^ 48) (mac_dev mod 2 ^ 48) (htons ETHERTYPE_IP).
Definition prefilled_ip (u : sctp_ulp_config) (random : Z) : ipv4_t :=
  IPv4 0x45 0x2 0 (u16 random) 0 141 PROTO_SCTP 0 (ulp_src_ip u) (ulp_dst_ip u).
Definition prefilled_cmn (u : sctp_ulp_config) : sctp_cmn_hdr_t :=
  Cmn (htons (u16 (ulp_src_port u))) (htons (u16 (ulp_dst_port u))) 0 0.

Definition prefill_sctp_mac_ip `{!Entropy} (m : mem) (st : rng) (a : sctp_association)
    (mac_gateway mac_dev : Z) : outcome (mem * rng * sctp_association) :=
  let packet := prefilled_umem_packet (tx a) in
  '(r, st) ← get_random_from_buffer_u32 st;
  let hdr := replicate 2 0 ++ enc (prefilled_mac mac_gateway mac_dev) ++ enc (prefilled_ip (ulp a) r)
               ++ enc (prefilled_cmn (ulp a)) in
  m ← store m packet hdr;
  Ret (m, st, with_sctp_tx a
    (Tx (packet + NET_IP_ALIGN) (Z.of_nat (length hdr) - NET_IP_ALIGN) (umem_hdrs_cursor (tx a))
        (remain_plen (tx a)) (xdp_segs (tx a)) (xdp_seg_lens (tx a)) (xdp_seg_count (tx a)))).

Definition sctp_prepare_packet (umem : Z) (a : sctp_association) : outcome (Z * sctp_association) :=
  let t := tx a in
  _ ← get (xdp_segs t !! 0%nat); _ ← get (xdp_seg_lens t !! 0%nat);
  Ret (0, with_sctp_tx a
    (Tx (prefilled_umem_packet t) (prefilled_umem_packet_len t) (umem_hdrs_cursor t) (mtu a)
        (<[0%nat := u64 (prefilled_umem_packet t - umem)]> (xdp_segs t))
        (<[0%nat := prefilled_umem_packet_len t]> (xdp_seg_lens t)) 1)).

(** The result is [u64]: [(u64) -1] when there are 16 segments already. *)
Definition sctp_push_to_xdp_segs (umem : Z) (a : sctp_association) (len : Z)
  : outcome (Z * sctp_association) :=
  let t := tx a in
  if Z.of_nat XDP_MAX_SEGS <=? xdp_seg_count t then Ret (u64 (-1), a)
  else
    let i := Z.to_nat (xdp_seg_count t) in
    let offset := u64 (umem_hdrs_cursor t - umem) in
    _ ← get (xdp_segs t !! i); _ ← get (xdp_seg_lens t !! i);
    Ret (0, with_sctp_tx a
      (Tx (prefilled_umem_packet t) (prefilled_umem_packet_len t) (umem_hdrs_cursor t) (remain_plen t)
          (<[i := offset]> (xdp_segs t)) (<[i := u32 len]> (xdp_seg_lens t)) (u32 (xdp_seg_count t + 1)))).

(** The [retry:] loop of [eth_send_sctp]: [kernel i] is what the kernel does to
    the rings before the [i]-th retry. *)
Fixpoint send_retry (fuel i : nat) (kernel : nat → xdp_t → xdp_t) (xsk : xdp_t) (t : sctp_tx)
  : outcome xdp_t :=
  match fuel with
  | O => Timeout
  | S fuel =>
      '(r, xsk) ← xdp_tx xsk (xdp_segs t) (xdp_seg_lens t) (xdp_seg_count t);
      if r <=? 0 then send_retry fuel (S i) kernel (kernel i xsk) t else Ret xsk
  end.

Definition eth_send_sctp (fuel : nat) (kernel : nat → xdp_t → xdp_t) (m : mem) (xsk : xdp_t)
    (a : sctp_association) : outcome (mem * xdp_t) :=
  let t := tx a in
  m ← st m (prefilled_umem_packet t + sz_mac + off_ip_len) 2
        (htons (u32 (mtu a - remain_plen t) + sz_ip + sz_cmn));
  xsk ← send_retry fuel 0 kernel xsk t;
  Ret (m, xsk).

Definition build_prefilled_mac_ip_sctp_init_hdr `{!Entropy} (fuel : nat) (kernel : nat → xdp_t → xdp_t)
    (m : mem) (st : rng) (xsk : xdp_t) (a : sctp_association)
  : outcome (mem * rng * xdp_t * sctp_association) :=
  let u := ulp a in
  let packet := umem_hdrs_cursor (tx a) in
  '(tag, st) ← get_random_from_buffer_u32 st;
  '(tsn, st) ← get_random_from_buffer_u32 st;
  let init := Init tag (htonl (ulp_src_arwnd u)) (htons (ulp_src_os u)) (htons (ulp_src_mis u)) tsn in
  let hdr := enc (Fld SCTP_INIT 0 (htons (sz_fld + sz_init))) ++ enc init in
  m ← store m packet hdr;
  let t := tx a in
  let a := with_sctp_tx a (Tx (prefilled_umem_packet t) (prefilled_umem_packet_len t) (umem_hdrs_cursor t)
             (u32 (remain_plen t - (sz_fld + sz_init))) (xdp_segs t) (xdp_seg_lens t) (xdp_seg_count t)) in
  '(_, a) ← sctp_push_to_xdp_segs (umem xsk) a (sz_fld + sz_init);
  '(m, xsk) ← eth_send_sctp fuel kernel m xsk a;
  Ret (m, st, xsk, a).

(** ** Code: creation *)
Record kpnet_env := Env { env_xdp : xdp_t; state_alloc : umem_slab_allocator }.

(** [env->stack] and [env->state_alloc.stack] are the same stack. *)
Definition env_stack (env : kpnet_env) : umem_stack := stack (state_alloc env).

(** [xdp_open] and [eth_open] are system calls: [xsk] is the handle or NULL,
    [eth] whether the socket opened. *)
Definition kpnet_env_init (malloc_env malloc_stack malloc_addrs : bool) (xsk : option xdp_t) (eth : bool)
  : option kpnet_env :=
  if malloc_env then
    match create_umem_stack malloc_stack malloc_addrs UMEM_CHUNK_COUNT UMEM_CHUNK_SIZE, xsk with
    | Some s, Some xsk => if eth then Some (Env xsk (Slab NULL s NULL NULL)) else None
    | _, _ => None
    end
  else None.

Definition zero_peer : sctp_peer := Peer 0 0 0 0 0 0 0 0 0.
Definition zero_tx : sctp_tx := Tx 0 0 0 0 (replicate XDP_MAX_SEGS 0) (replicate XDP_MAX_SEGS 0) 0.

(** ** Lemmas *)

(** What the kernel has done before the [j]-th try. *)
Fixpoint kernel_run (kernel : nat → xdp_t → xdp_t) (i j : nat) (xsk : xdp_t) : xdp_t :=
  match j with O => xsk | S j => kernel_run kernel (S i) j (kernel i xsk) end.

Definition segments (t : sctp_tx) : list (Z * Z) :=
  take (Z.to_nat (xdp_seg_count t)) (zip (xdp_segs t) (xdp_seg_lens t)).

Definition tx_ok (t : sctp_tx) : Prop :=
  length (xdp_segs t) = XDP_MAX_SEGS ∧ length (xdp_seg_lens t) = XDP_MAX_SEGS
  ∧ 0 ≤ xdp_seg_count t ≤ Z.of_nat XDP_MAX_SEGS.

(** The tries fail while the ring has no room; the first that finds room sends
    the packet. *)
Lemma send_retry_spec kernel (J : nat) t (q : nat → list xdp_desc) : ∀ i xsk,
  tx_ok t → 0 < xdp_seg_count t →
  (∀ j, (j ≤ J)%nat → holds (tx_ring (kernel_run kernel i j xsk)) (q j)) →
  (∀ j, (j < J)%nat → 4096 < Z.of_nat (length (q j)) + xdp_seg_count t) →
  Z.of_nat (length (q J)) + xdp_seg_count t ≤ 4096 →
  ∃ r, send_retry (S J) i kernel xsk t = Ret (with_tx (kernel_run kernel i J xsk) r)
  ∧ holds r (q J ++ packet_descs (segments t)).
Proof.
  revert q; induction J as [|J IH]; intros q i xsk Hok Hpos Hq Hfull Hroom;
    pose proof Hok as (Hs & Hl & Hn); unfold XDP_MAX_SEGS in *;
    (pose proof (xdp_tx_spec xsk (q 0%nat) (xdp_segs t) (xdp_seg_lens t) (xdp_seg_count t)) as Htx;
     specialize (Htx (Hq 0%nat ltac:(lia)) ltac:(unfold is_u32; lia) ltac:(lia) ltac:(lia))).
  - rewrite decide_True in Htx by lia. destruct Htx as (r & E & Hr). cbn [send_retry].
    rewrite E. cbn [mbind outcome_bind]. rewrite (proj2 (Z.leb_gt _ _)) by lia. cbn [kernel_run]. eauto.
  - rewrite decide_False in Htx by (specialize (Hfull 0%nat ltac:(lia)); lia).
    change (send_retry (S (S J)) i kernel xsk t) with
      ('(r, xsk) ← xdp_tx xsk (xdp_segs t) (xdp_seg_lens t) (xdp_seg_count t);
       if r <=? 0 then send_retry (S J) (S i) kernel (kernel i xsk) t else Ret xsk).
    rewrite Htx. cbn [mbind outcome_bind]. change (0 <=? 0) with true. cbn iota. cbn [kernel_run].
    apply (IH (λ j, q (S j))); try done.
    + intros j Hj. apply (Hq (S j)). lia.
    + intros j Hj. apply (Hfull (S j)). lia.
Qed.

Lemma send_retry_empty kernel t fuel : ∀ i xsk,
  xdp_seg_count t = 0 → send_retry fuel i kernel xsk t = Timeout.
Proof.
  induction fuel as [|fuel IH]; intros i xsk H0; [done|]. cbn [send_retry]. unfold xdp_tx.
  rewrite H0. cbn [Z.eqb orb mbind outcome_bind]. change (0 <=? 0) with true. by apply IH.
Qed.

Lemma push_seg_spec um a len :
  tx_ok (tx a) → xdp_seg_count (tx a) < 16 →
  let t := tx a in
  let t' := Tx (prefilled_umem_packet t) (prefilled_umem_packet_len t) (umem_hdrs_cursor t) (remain_plen t)
     (<[Z.to_nat (xdp_seg_count t) := u64 (umem_hdrs_cursor t - um)]> (xdp_segs t))
     (<[Z.to_nat (xdp_seg_count t) := u32 len]> (xdp_seg_lens t)) (xdp_seg_count t + 1) in
  sctp_push_to_xdp_segs um a len = Ret (0, with_sctp_tx a t')
  ∧ tx_ok t' ∧ segments t' = segments t ++ [(u64 (umem_hdrs_cursor t - um), u32 len)].
Proof.
  intros (Hs & Hl & Hn) Hlt t t'. unfold XDP_MAX_SEGS in *. unfold sctp_push_to_xdp_segs.
  rewrite (proj2 (Z.leb_gt _ _)) by (unfold XDP_MAX_SEGS; lia). fold t.
  destruct (lookup_lt_is_Some_2 (xdp_segs t) (Z.to_nat (xdp_seg_count t))) as [x Hx]; [unfold t in *; lia|].
  destruct (lookup_lt_is_Some_2 (xdp_seg_lens t) (Z.to_nat (xdp_seg_count t))) as [y Hy]; [unfold t in *; lia|].
  rewrite Hx, Hy. cbn [get mbind outcome_bind]. fold t in Hs, Hl, Hn, Hlt.
  rewrite (u32_id (xdp_seg_count t + 1)) by (unfold is_u32; lia).
  split; [done|]. split.
  - split; [|split]; cbn [xdp_segs xdp_seg_lens xdp_seg_count t']; rewrite ?length_insert;
      unfold XDP_MAX_SEGS; done || lia.
  - unfold segments. cbn [xdp_segs xdp_seg_lens xdp_seg_count t'].
    rewrite <-insert_zip_with. replace (Z.to_nat (xdp_seg_count t + 1)) with (S (Z.to_nat (xdp_seg_count t))) by lia.
    rewrite (take_S_r _ _ (u64 (umem_hdrs_cursor t - um), u32 len)).
    + by rewrite take_insert_ge by lia.
    + apply list_lookup_insert_eq. rewrite length_zip_with. lia.
Qed.

Lemma push_seg_full um a len :
  xdp_seg_count (tx a) = 16 → sctp_push_to_xdp_segs um a len = Ret (u64 (-1), a).
Proof. intros H. unfold sctp_push_to_xdp_segs. by rewrite H. Qed.

(** The three headers at the start of a frame. *)
Definition frame_at (m : mem) (p : Z) (mac : mac_t) (ip : ipv4_t) (cmn : sctp_cmn_hdr_t) : Prop :=
  bytes_at m p (enc mac ++ enc ip ++ enc cmn).

Lemma length_frame (mac : mac_t) (ip : ipv4_t) (cmn : sctp_cmn_hdr_t) : length (enc mac ++ enc ip ++ enc cmn) = 46%nat.
Proof. by rewrite !length_app, (length_enc mac), (length_enc ip), (length_enc cmn). Qed.

Lemma eth_send_spec kernel m xsk a mac ip cmn (J : nat) (q : nat → list xdp_desc) :
  let t := tx a in
  frame_at m (prefilled_umem_packet t) mac ip cmn → tx_ok t → 0 < xdp_seg_count t →
  (∀ j, (j ≤ J)%nat → holds (tx_ring (kernel_run kernel 0 j xsk)) (q j)) →
  (∀ j, (j < J)%nat → 4096 < Z.of_nat (length (q j)) + xdp_seg_count t) →
  Z.of_nat (length (q J)) + xdp_seg_count t ≤ 4096 →
  let len := htons (u32 (mtu a - remain_plen t) + 32) in
  ∃ r, eth_send_sctp (S J) kernel m xsk a
    = Ret (write m (prefilled_umem_packet t + 16) (le_enc 2 len), with_tx (kernel_run kernel 0 J xsk) r)
  ∧ frame_at (write m (prefilled_umem_packet t + 16) (le_enc 2 len)) (prefilled_umem_packet t)
      mac (set_field 2 len ip) cmn
  ∧ holds r (q J ++ packet_descs (segments t)).
Proof.
  intros t Hat Hok Hpos Hq Hfull Hroom len. unfold eth_send_sctp. fold t.
  destruct (st_field m (prefilled_umem_packet t) (enc mac) ip (enc cmn) 2 2 len Hat eq_refl) as [Hst Hat'].
  rewrite length_enc in Hst, Hat'. change (Z.of_nat (size mac_t) + field_off ipv4_t 2) with 16 in *.
  replace (prefilled_umem_packet t + sz_mac + off_ip_len) with (prefilled_umem_packet t + 16)
    by (unfold sz_mac; change off_ip_len with 2; lia).
  replace (u32 (mtu a - remain_plen t) + sz_ip + sz_cmn) with (u32 (mtu a - remain_plen t) + 32)
    by (unfold sz_ip, sz_cmn; lia). fold len.
  rewrite Hst. cbn [mbind outcome_bind].
  destruct (send_retry_spec kernel J t q 0 xsk Hok Hpos Hq Hfull Hroom) as (r & -> & Hr).
  cbn [mbind outcome_bind]. eauto.
Qed.

(** ** Properties *)

(** C37: [eth_send_sctp] writes the length of the whole packet in the IP header,
    then tries until the kernel has made room for all its segments, and queues
    them exactly once. *)
Theorem eth_send_waits_for_room kernel m xsk a mac ip cmn (J : nat) (q : nat → list xdp_desc) :
  let t := tx a in
  frame_at m (prefilled_umem_packet t) mac ip cmn → tx_ok t → 0 < xdp_seg_count t →
  (∀ j, (j ≤ J)%nat → holds (tx_ring (kernel_run kernel 0 j xsk)) (q j)) →
  (∀ j, (j < J)%nat → 4096 < Z.of_nat (length (q j)) + xdp_seg_count t) →
  Z.of_nat (length (q J)) + xdp_seg_count t ≤ 4096 →
  ∃ m' r, eth_send_sctp (S J) kernel m xsk a = Ret (m', with_tx (kernel_run kernel 0 J xsk) r)
  ∧ frame_at m' (prefilled_umem_packet t) mac
      (set_field 2 (htons (u32 (mtu a - remain_plen t) + 32)) ip) cmn
  ∧ holds r (q J ++ packet_descs (segments t)).
Proof.
  intros t Hat Hok Hpos Hq Hfull Hroom.
  destruct (eth_send_spec kernel m xsk a mac ip cmn J q Hat Hok Hpos Hq Hfull Hroom) as (r & ? & ? & ?).
  eauto.
Qed.

(** Sending a packet without segments never returns, whatever the kernel
    does. *)
Lemma eth_send_empty_spins kernel fuel m xsk a m' xsk' :
  xdp_seg_count (tx a) = 0 → eth_send_sctp fuel kernel m xsk a ≠ Ret (m', xsk').
Proof.
  intros H0. unfold eth_send_sctp. destruct (st m _ 2 _); cbn [mbind outcome_bind]; try done.
  by rewrite send_retry_empty.
Qed.

(** A packet takes at most 16 segments: each push adds one at the end, and
    the 17th is refused and changes nothing. *)
Lemma push_segments umem a len :
  tx_ok (tx a) →
  if decide (xdp_seg_count (tx a) < 16)
  then ∃ t', sctp_push_to_xdp_segs umem a len = Ret (0, with_sctp_tx a t') ∧ tx_ok t'
       ∧ segments t' = segments (tx a) ++ [(u64 (umem_hdrs_cursor (tx a) - umem), u32 len)]
  else sctp_push_to_xdp_segs umem a len = Ret (0xFFFFFFFFFFFFFFFF, a).
Proof.
  intros Hok. case_decide.
  - destruct (push_seg_spec umem a len Hok) as (? & ? & ?); eauto.
  - apply push_seg_full. destruct Hok as (_ & _ & Hn). unfold XDP_MAX_SEGS in Hn. lia.
Qed.

(** [prefill_sctp_mac_ip], [r] being the number drawn for the identification. *)
Definition prefilled_hdr (u : sctp_ulp_config) (mac_gateway mac_dev r : Z) : bytes :=
  replicate 2 0 ++ enc (prefilled_mac mac_gateway mac_dev) ++ enc (prefilled_ip u r) ++ enc (prefilled_cmn u).

Lemma length_prefilled_hdr u g d r : length (prefilled_hdr u g d r) = 48%nat.
Proof. unfold prefilled_hdr. by rewrite length_app, length_frame. Qed.

Definition prefilled_tx (t : sctp_tx) : sctp_tx :=
  Tx (prefilled_umem_packet t + 2) 46 (umem_hdrs_cursor t) (remain_plen t) (xdp_segs t) (xdp_seg_lens t)
    (xdp_seg_count t).

Lemma prefill_block_spec `{!Entropy} m st a mac_gateway mac_dev r st' :
  let p := prefilled_umem_packet (tx a) in
  let m' := write m p (prefilled_hdr (ulp a) mac_gateway mac_dev r) in
  get_random_from_buffer_u32 st = Ret (r, st') → mapped m p 64 →
  prefill_sctp_mac_ip m st a mac_gateway mac_dev = Ret (m', st', with_sctp_tx a (prefilled_tx (tx a)))
  ∧ frame_at m' (p + 2) (prefilled_mac mac_gateway mac_dev) (prefilled_ip (ulp a) r) (prefilled_cmn (ulp a)).
Proof.
  intros p m' Hr Hm. unfold prefill_sctp_mac_ip. rewrite Hr, bind_ret. fold p.
  change (replicate 2 0 ++ _) with (prefilled_hdr (ulp a) mac_gateway mac_dev r).
  rewrite store_mapped by (rewrite length_prefilled_hdr; eapply mapped_sub; [exact Hm|lia|lia]).
  rewrite bind_ret, length_prefilled_hdr. split; [reflexivity|].
  pose proof (bytes_at_write m p (prefilled_hdr (ulp a) mac_gateway mac_dev r)) as Hb.
  unfold prefilled_hdr in Hb at 2. apply bytes_at_app in Hb as [_ Hb]. exact Hb.
Qed.

(** [prefill_sctp_mac_ip] stays inside a 64-byte block and leaves, two bytes
    into it, the Ethernet, IPv4 and SCTP headers of the association, 46 bytes
    in all, with both checksums and the verification tag zero. *)
Lemma prefill_headers `{!Entropy} m st a mac_gateway mac_dev :
  rng_ok st → mapped m (prefilled_umem_packet (tx a)) 64 →
  ∃ m' st' r a', prefill_sctp_mac_ip m st a mac_gateway mac_dev = Ret (m', st', a') ∧ rng_ok st'
  ∧ prefilled_umem_packet (tx a') = prefilled_umem_packet (tx a) + 2
  ∧ prefilled_umem_packet_len (tx a') = 46
  ∧ frame_at m' (prefilled_umem_packet (tx a')) (prefilled_mac mac_gateway mac_dev)
      (prefilled_ip (ulp a) r) (prefilled_cmn (ulp a))
  ∧ ∀ p, p < prefilled_umem_packet (tx a) ∨ prefilled_umem_packet (tx a) + 64 ≤ p → m' !! p = m !! p.
Proof.
  intros Hok Hm. destruct (draw_u32 st Hok) as (r & st' & Hd & _ & Hok').
  destruct (prefill_block_spec m st a mac_gateway mac_dev r st' Hd Hm) as [E Hat].
  do 4 eexists. split; [exact E|]. do 4 (split; [done|]).
  intros p Hp. by rewrite lookup_write, decide_False by (rewrite length_prefilled_hdr; lia).
Qed.

(** The chunk of [build_prefilled_mac_ip_sctp_init_hdr], for a tag and a TSN. *)
Definition init_chunk (u : sctp_ulp_config) (itag itsn : Z) : bytes :=
  enc (Fld SCTP_INIT 0 (htons 20))
  ++ enc (Init itag (htonl (ulp_src_arwnd u)) (htons (ulp_src_os u)) (htons (ulp_src_mis u)) itsn).

(** The packet of two segments that it leaves in the association. *)
Definition init_tx (umem_base : Z) (t : sctp_tx) : sctp_tx :=
  Tx (prefilled_umem_packet t) (prefilled_umem_packet_len t) (umem_hdrs_cursor t) (u32 (remain_plen t - 20))
    (<[1%nat := u64 (umem_hdrs_cursor t - umem_base)]> (xdp_segs t)) (<[1%nat := 20]> (xdp_seg_lens t)) 2.

Lemma init_packet_spec `{!Entropy} m st st1 st2 xsk a mac ip cmn q o0 itag itsn :
  let t := tx a in
  get_random_from_buffer_u32 st = Ret (itag, st1) → get_random_from_buffer_u32 st1 = Ret (itsn, st2) →
  frame_at m (prefilled_umem_packet t) mac ip cmn → tx_ok t →
  segments t = [(o0, 46)] → xdp_seg_count t = 1 → remain_plen t = mtu a → is_u32 (mtu a) → 20 ≤ mtu a →
  mapped m (umem_hdrs_cursor t) 20 →
  umem_hdrs_cursor t + 20 ≤ prefilled_umem_packet t ∨ prefilled_umem_packet t + 46 ≤ umem_hdrs_cursor t →
  holds (tx_ring xsk) q → (length q + 2 ≤ 4096)%nat →
  let t' := init_tx (umem xsk) t in
  ∃ m' r, build_prefilled_mac_ip_sctp_init_hdr 1 (λ _ x, x) m st xsk a = Ret (m', st2, with_tx xsk r, with_sctp_tx a t')
  ∧ frame_at m' (prefilled_umem_packet t) mac (set_field 2 (htons 52) ip) cmn
  ∧ bytes_at m' (umem_hdrs_cursor t) (init_chunk (ulp a) itag itsn)
  ∧ holds r (q ++ [Desc o0 46 XDP_PKT_CONTD; Desc (u64 (umem_hdrs_cursor t - umem xsk)) 20 0])
  ∧ tx_ok t' ∧ segments t' = [(o0, 46); (u64 (umem_hdrs_cursor t - umem xsk), 20)].
Proof.
  intros t Hd1 Hd2 Hat Htx Hseg Hcount Hremain Hmtu Hmtu20 Hm Hdisj Hq Hroom t'.
  unfold build_prefilled_mac_ip_sctp_init_hdr. fold t. rewrite Hd1, bind_ret, Hd2, bind_ret.
  change (sz_fld + sz_init) with 20.
  change (enc (Fld SCTP_INIT 0 (htons 20)) ++ _) with (init_chunk (ulp a) itag itsn).
  set (chunk := init_chunk (ulp a) itag itsn). assert (length chunk = 20%nat) as Hcl by reflexivity.
  rewrite store_mapped, bind_ret by (by rewrite Hcl). set (m1 := write m _ chunk). set (a1 := with_sctp_tx a _).
  destruct (push_seg_spec (umem xsk) a1 20) as (Hpush & Htx2 & Hseg2); [exact Htx | cbn; fold t; lia |].
  rewrite Hpush, bind_ret. set (t2 := Tx _ _ _ _ (<[_ := _]> _) _ _) in *.
  assert (t2 = t') as Et.
  { unfold t2, t', init_tx. cbn [a1 tx with_sctp_tx prefilled_umem_packet prefilled_umem_packet_len umem_hdrs_cursor
      remain_plen xdp_segs xdp_seg_lens xdp_seg_count]. by rewrite Hcount. }
  change (with_sctp_tx a1 t2) with (with_sctp_tx a t2). rewrite Et in *. clearbody t2. subst t2.
  change (segments (tx a1)) with (segments t) in Hseg2. rewrite Hseg in Hseg2.
  assert (frame_at m1 (prefilled_umem_packet t) mac ip cmn) as Hat1.
  { unfold frame_at. apply bytes_at_write_other; [done|]. rewrite length_frame, Hcl. lia. }
  destruct (eth_send_spec (λ _ x, x) m1 xsk (with_sctp_tx a t') mac ip cmn 0 (λ _, q)) as (r & Hsend & Hat2 & Hr);
    [done | done | done | intros [|j] Hj; [done | lia] | lia | cbn; lia |].
  rewrite Hsend, bind_ret. cbn [kernel_run].
  assert (mtu (with_sctp_tx a t') - remain_plen (tx (with_sctp_tx a t')) = 20) as Hlen.
  { cbn. fold t. rewrite Hremain, u32_id by (unfold is_u32 in *; lia). lia. }
  rewrite Hlen in *. change (u32 20 + 32) with 52 in *. change (tx (with_sctp_tx a t')) with t' in Hr.
  rewrite Hseg2 in Hr. do 2 eexists. split; [reflexivity|]. split; [exact Hat2|]. split; [|done].
  apply bytes_at_write_other; [apply bytes_at_write|]. rewrite length_le_enc, Hcl.
  change (prefilled_umem_packet (tx (with_sctp_tx a t'))) with (prefilled_umem_packet t). lia.
Qed.

(** The INIT packet of [create_client]: the headers with the total length
    filled in, then the INIT chunk at the cursor, queued as two segments in
    this order. *)
Lemma init_packet_built `{!Entropy} m st xsk a mac ip cmn q o0 :
  let t := tx a in
  rng_ok st → frame_at m (prefilled_umem_packet t) mac ip cmn → tx_ok t →
  segments t = [(o0, 46)] → xdp_seg_count t = 1 → remain_plen t = mtu a → is_u32 (mtu a) → 20 ≤ mtu a →
  mapped m (umem_hdrs_cursor t) 20 →
  umem_hdrs_cursor t + 20 ≤ prefilled_umem_packet t ∨ prefilled_umem_packet t + 46 ≤ umem_hdrs_cursor t →
  holds (tx_ring xsk) q → (length q + 2 ≤ 4096)%nat →
  let u := ulp a in
  ∃ m' st' r a' itag itsn,
    build_prefilled_mac_ip_sctp_init_hdr 1 (λ _ x, x) m st xsk a = Ret (m', st', with_tx xsk r, a')
  ∧ frame_at m' (prefilled_umem_packet t) mac (set_field 2 (htons 52) ip) cmn
  ∧ bytes_at m' (umem_hdrs_cursor t)
      (enc (Fld SCTP_INIT 0 (htons 20))
       ++ enc (Init itag (htonl (ulp_src_arwnd u)) (htons (ulp_src_os u)) (htons (ulp_src_mis u)) itsn))
  ∧ holds r (q ++ [Desc o0 46 XDP_PKT_CONTD; Desc (u64 (umem_hdrs_cursor t - umem xsk)) 20 0])
  ∧ rng_ok st'.
Proof.
  intros t Hok Hat Htx Hseg Hcount Hremain Hmtu Hmtu20 Hm Hdisj Hq Hroom u.
  destruct (draw_u32 st Hok) as (itag & st1 & Hd1 & _ & Hok1).
  destruct (draw_u32 st1 Hok1) as (itsn & st2 & Hd2 & _ & Hok2).
  destruct (init_packet_spec m st st1 st2 xsk a mac ip cmn q o0 itag itsn) as (m' & r & E & Hf & Hb & Hr & _);
    try done. by exists m', st2, r, (with_sctp_tx a (init_tx (umem xsk) t)), itag, itsn.
Qed.

(** ** Witnesses *)
Definition demo_ulp : sctp_ulp_config := Ulp 0x0201A8C0 0x0301A8C0 4321 80 65535 32 32.
Definition demo_frame_mac : mac_t := prefilled_mac 0x665544332211 0xFFEEDDCCBBAA.
Definition demo_assoc : sctp_association :=
  Assoc 1 SCTP_COOKIE_WAIT zero_peer
    (Tx 65538 46 65600 1454 (2 :: replicate 15 0) (46 :: replicate 15 0) 1)
    1454 0 0 0 NULL demo_ulp None.
Definition demo_mem : mem :=
  write (write ∅ 65536 (replicate 4096 0)) 65538
    (enc demo_frame_mac ++ enc (prefilled_ip demo_ulp 0) ++ enc (prefilled_cmn demo_ulp)).

Lemma page_mapped (base : Z) (p : Z) (k : nat) :
  base ≤ p → p + Z.of_nat k ≤ base + 4096 → mapped (write ∅ base (replicate 4096 0)) p k.
Proof.
  intros H1 H2 i Hi. rewrite lookup_write, length_replicate, decide_True by lia.
  apply lookup_lt_is_Some_2. rewrite length_replicate. lia.
Qed.

Lemma demo_frame : frame_at demo_mem 65538 demo_frame_mac (prefilled_ip demo_ulp 0) (prefilled_cmn demo_ulp).
Proof. apply bytes_at_write. Qed.

Lemma demo_tx_ok : tx_ok (tx demo_assoc).
Proof. by repeat split. Qed.

Lemma demo_holds : holds (tx_ring demo_xsk) [].
Proof. apply empty_holds. unfold is_u32. lia. Qed.

(** A kernel that is busy at first and then sends three packets at every turn. *)
Definition three_at_a_time (i : nat) (xsk : xdp_t) : xdp_t :=
  match i with
  | O => xsk
  | S _ => let r := tx_ring xsk in with_tx xsk (Ring32 (producer r) (u32 (consumer r + Z.of_nat 3)) (cells r))
  end.

(** The ring is full: the first two turns find no room, the third does. *)
Lemma eth_send_waits_for_room_witness :
  ∃ r0 m' r, holds r0 (replicate 4096 (Desc 128 60 0))
  ∧ eth_send_sctp 3 three_at_a_time demo_mem (with_tx demo_xsk r0) demo_assoc
    = Ret (m', with_tx (kernel_run three_at_a_time 0 2 (with_tx demo_xsk r0)) r)
  ∧ frame_at m' 65538 demo_frame_mac (set_field 2 (htons 32) (prefilled_ip demo_ulp 0)) (prefilled_cmn demo_ulp)
  ∧ holds r (drop 3 (replicate 4096 (Desc 128 60 0)) ++ [Desc 2 46 0]).
Proof.
  set (full := replicate 4096 (Desc 128 60 0)).
  destruct (holds_put _ [] full demo_holds) as (cs & _ & Hr); [unfold full; rewrite length_replicate; cbn [length]; lia|].
  cbn [app] in Hr. set (r0 := Ring32 _ _ _) in Hr. exists r0.
  destruct (eth_send_waits_for_room three_at_a_time demo_mem (with_tx demo_xsk r0) demo_assoc _ _ _ 2
    (λ j, match j with 2%nat => drop 3 full | _ => full end) demo_frame demo_tx_ok ltac:(cbn; lia)) as (m' & r & E & Hf & Hq).
  - intros [|[|[|j]]] Hj; [exact Hr | exact Hr | | lia]. apply (holds_drop _ _ 3 Hr).
    unfold full. rewrite length_replicate. lia.
  - intros [|[|j]] Hj; [| | lia]; unfold full; rewrite length_replicate; cbn; lia.
  - unfold full. rewrite length_drop, length_replicate. cbn. lia.
  - exists m', r. split; [exact Hr|]. split; [exact E|]. split; [exact Hf | exact Hq].
Defined.

Lemma eth_send_empty_spins_witness :
  eth_send_sctp 100 (λ _ x, x) demo_mem demo_xsk (with_sctp_tx demo_assoc zero_tx) ≠ Ret (demo_mem, demo_xsk).
Proof. apply (eth_send_empty_spins (λ _ x, x) 100). reflexivity. Defined.

Lemma push_segments_witness :
  ∃ t', sctp_push_to_xdp_segs 65536 demo_assoc 20 = Ret (0, with_sctp_tx demo_assoc t') ∧ tx_ok t'
  ∧ segments t' = [(2, 46); (64, 20)].
Proof. exact (push_segments 65536 demo_assoc 20 demo_tx_ok). Defined.

Lemma prefill_headers_witness :
  ∃ m' st' r a',
    @prefill_sctp_mac_ip once (write ∅ 65536 (replicate 4096 0)) rng_init
      (with_sctp_tx demo_assoc (Tx 65536 0 0 0 [] [] 0)) 0x665544332211 0xFFEEDDCCBBAA = Ret (m', st', a')
  ∧ rng_ok st'
  ∧ prefilled_umem_packet (tx a') = 65538 ∧ prefilled_umem_packet_len (tx a') = 46
  ∧ frame_at m' (prefilled_umem_packet (tx a')) demo_frame_mac (prefilled_ip demo_ulp r) (prefilled_cmn demo_ulp)
  ∧ ∀ p, p < 65536 ∨ 65600 ≤ p → m' !! p = write ∅ 65536 (replicate 4096 0) !! p.
Proof.
  apply (@prefill_headers once _ rng_init (with_sctp_tx demo_assoc (Tx 65536 0 0 0 [] [] 0)));
    [exact rng_init_ok | apply page_mapped; cbn; lia].
Defined.

Lemma init_packet_built_witness :
  ∃ m' st' r a' itag itsn,
    @build_prefilled_mac_ip_sctp_init_hdr once 1 (λ _ x, x) demo_mem rng_init demo_xsk demo_assoc
      = Ret (m', st', with_tx demo_xsk r, a')
  ∧ frame_at m' 65538 demo_frame_mac (set_field 2 (htons 52) (prefilled_ip demo_ulp 0)) (prefilled_cmn demo_ulp)
  ∧ bytes_at m' 65600
      (enc (Fld SCTP_INIT 0 (htons 20)) ++ enc (Init itag (htonl 65535) (htons 32) (htons 32) itsn))
  ∧ holds r [Desc 2 46 XDP_PKT_CONTD; Desc 64 20 0] ∧ rng_ok st'.
Proof.
  refine (@init_packet_built once demo_mem rng_init demo_xsk demo_assoc _ _ _ [] 2 rng_init_ok demo_frame
    demo_tx_ok eq_refl eq_refl eq_refl ltac:(cbn; unfold is_u32; lia) ltac:(cbn; lia) _ ltac:(cbn; lia)
    demo_holds ltac:(cbn; lia)).
  apply mapped_write, page_mapped; cbn; lia.
Defined.
