(* ===== verification/Client.v ===== *)
(** * The client's handshake timer (create_client.c)

    The main loop of [create_client]: it polls the clock, turns the wheel one
    step per second that has passed, and on each T1-INIT expiry doubles the
    timer, sets it again and sends the INIT packet again.  Sending is a
    parameter; Assoc.v models [eth_send_sctp]. *)
From S2P Require Import Prelude Mem RingBuf RingTimer Headers.

(** ** Code *)
Section code.
(** [send] is [eth_send_sctp] on whatever it works on. *)
Context {W : Type} (send : W → outcome W).

Record client := Client {
  c_timer : ringtimer ringbuf;
  t1_timer : Z;
  handshake_retrans : Z;
  c_world : W
}.

(** [case (SCTP_T1_INIT_EXPIRE)]; the other signals are ignored. *)
Definition handle_signal (c : client) (sig : Z) : outcome client :=
  if sig =? SCTP_T1_INIT_EXPIRE then
    let t1 := Z.min (u64 (t1_timer c * 2)) (SCTP_RTO_MAX / SCTP_TIMER_STEP) in
    '(_, timer) ← insert_ringtimer 1 SCTP_T1_INIT_EXPIRE t1 (c_timer c);
    w ← send (c_world c);
    Ret (Client timer t1 (u64 (handshake_retrans c + 1)) w)
  else Ret c.

(** [for (; timer_results.count > 0;)]: the signals, the last one first. *)
Fixpoint handle_signals (c : client) (sigs : list Z) : outcome client :=
  match sigs with
  | [] => Ret c
  | sig :: sigs => c ← handle_signal c sig; handle_signals c sigs
  end.

(** One turn of the loop over [SCTP_TIMER_STEP]. *)
Definition client_tick (fuel : nat) (c : client) : outcome client :=
  '(timer, sigs) ← tick_ringtimer fuel (c_timer c);
  handle_signals (Client timer (t1_timer c) (handshake_retrans c) (c_world c)) (reverse sigs).

(** [for (; (g_current_time - g_global_time) >= SCTP_TIMER_STEP;)]: the result
    is the client and [g_global_time]. *)
Fixpoint catch_up (fuel : nat) (now global : Z) (c : client) : outcome (Z * client) :=
  match fuel with
  | O => Timeout
  | S fuel =>
      if SCTP_TIMER_STEP <=? u64 (now - global) then
        c ← client_tick 64 c; catch_up fuel now (u64 (global + SCTP_TIMER_STEP)) c
      else Ret (global, c)
  end.

(** The outer [for (;;)]: [clock i] is the value of the [i]-th [update_time]. *)
Fixpoint client_loop (fuel i : nat) (clock : nat → Z) (global : Z) (c : client) : outcome client :=
  match fuel with
  | O => Timeout
  | S fuel =>
      if SCTP_ASSOC_MAX_RETRANS <? handshake_retrans c then Ret c
      else
        '(global, c) ← catch_up (S (Z.to_nat (u64 (clock i - global) / SCTP_TIMER_STEP))) (clock i) global c;
        client_loop fuel (S i) clock global c
  end.
End code.
Arguments Client {W}.
Arguments c_timer {W}.
Arguments t1_timer {W}.
Arguments handshake_retrans {W}.
Arguments c_world {W}.

(** [events_allocator] and [assoc->timer]: a wheel of 5 * 60 slots over 256
    blocks of 64 bytes. *)
Definition client_wheel : outcome (ringtimer ringbuf) :=
  o ← create_allocator true true (λ _, (0, 0)) 64 block_at 64 256;
  alloc ← get o;
  get (create_ringtimer true true (5 * 60) alloc
         (list_to_map (blank ∘ block_at <$> List.seq 0 256))).

(** The timer of the first INIT: [SCTP_RTO_MIN / SCTP_TIMER_STEP] steps. *)
Definition first_t1 : Z := SCTP_RTO_MIN / SCTP_TIMER_STEP.
Definition arm_t1 (ring : ringtimer ringbuf) : outcome (bool * ringtimer ringbuf) :=
  insert_ringtimer 1 SCTP_T1_INIT_EXPIRE first_t1 ring.

(** The state in which the loop is entered. *)
Definition client_start {W} (w : W) : outcome (client (W:=W)) :=
  ring ← client_wheel; '(_, ring) ← arm_t1 ring; Ret (Client ring first_t1 0 w).

(** ** Lemmas *)
Section loop.
Context {W : Type} (send : W → outcome W).

Fixpoint client_ticks (n : nat) (c : client (W:=W)) : outcome (client (W:=W)) :=
  match n with O => Ret c | S n => c ← client_tick send 64 c; client_ticks n c end.

Lemma catch_up_spec now (n : nat) : ∀ global c,
  is_u64 now → 0 ≤ global ≤ now → Z.of_nat n = (now - global) / 1000 →
  catch_up send (S n) now global c
    = c ← client_ticks n c; Ret (global + 1000 * Z.of_nat n, c).
Proof.
  unfold is_u64. induction n as [|n IH]; intros global c Hnow Hg Hn;
    cbn [catch_up client_ticks]; unfold SCTP_TIMER_STEP in *.
  - rewrite u64_id by (unfold is_u64; lia). rewrite (proj2 (Z.leb_gt _ _)).
    + cbn [mbind outcome_bind]. by rewrite Z.add_0_r.
    + revert Hn. Z.div_mod_to_equations. lia.
  - assert (1000 ≤ now - global) by (revert Hn; Z.div_mod_to_equations; lia).
    rewrite u64_id by (unfold is_u64; lia). rewrite (proj2 (Z.leb_le _ _)) by lia.
    destruct (client_tick send 64 c) as [c1| |]; cbn [mbind outcome_bind]; try done.
    rewrite (u64_id (global + 1000)) by (unfold is_u64; lia).
    change (catch_up send (S n) now (global + 1000) c1 = (c ← client_ticks n c1;
      Ret (global + 1000 * Z.of_nat (S n), c))).
    rewrite IH; [|lia..|].
    + destruct (client_ticks n c1); cbn [mbind outcome_bind]; try done. do 2 f_equal. lia.
    + revert Hn. Z.div_mod_to_equations. lia.
Qed.
End loop.

(** The ticks, counted from 1, at which [create_client] sends again. *)
Fixpoint send_ticks (n t : nat) (c : client (W:=nat)) : outcome (list nat * client (W:=nat)) :=
  match n with
  | O => Ret ([], c)
  | S n =>
      c' ← client_tick (λ w, Ret (S w)) 64 c;
      '(l, c'') ← send_ticks n (S t) c';
      Ret (replicate (c_world c' - c_world c) t ++ l, c'')
  end.

(** The clock never runs backwards, and successive readings, the first of them
    [g_global_time], are at most [step] milliseconds apart. *)
Definition polled (step : Z) (clock : nat → Z) (global : Z) : Prop :=
  (∀ i, is_u64 (clock i) ∧ clock i ≤ clock (S i) ≤ clock i + step) ∧ 0 ≤ global ≤ clock 0%nat ∧ clock 0%nat ≤ global + step.

(** ** Lemmas: progress

    The wheel of the client holds one timer; a tick brings it one step nearer to
    its expiry, or it expires, a retransmission is counted and it is set
    again, less than 600 ticks ahead. *)
Definition client_blocks : list Z := made_blocks 8.

Lemma arm_client (ring : ringtimer ringbuf) t :
  timer_rep 256 client_blocks ring (replicate (Z.to_nat (max ring)) []) → max ring = 300 → 1 ≤ t ≤ 60 →
  ∃ ring' D r, insert_ringtimer 1 SCTP_T1_INIT_EXPIRE t ring = Ret (true, ring')
  ∧ one_timer 256 client_blocks ring' SCTP_T1_INIT_EXPIRE r D ∧ r < 64 ∧ (D < 600)%nat ∧ max ring' = 300.
Proof.
  intros Hrep Hm Ht. destruct (rep_current _ _ _ _ Hrep) as [_ Hc]. rewrite Hm in Hc.
  destruct (one_timer_set 256 client_blocks ring SCTP_T1_INIT_EXPIRE t 0 Hrep) as (ring' & D & Hins & H1 & HD & Hm' & _);
    [done | done | lia | lia |].
  rewrite Hm in HD, H1. exists ring', D, ((current ring + t - 1) / 300). split; [done|]. split; [done|].
  assert ((current ring + t - 1) / 300 ≤ 1) by (Z.div_mod_to_equations; lia).
  pose proof (Z.mod_pos_bound ((current ring + t - 1) mod 300 - current ring) 300). split_and!; [lia..|congruence].
Qed.

Section progress.
Context {W : Type} (send : W → outcome W) (P : Z → W → Prop) (most : Z).
Hypothesis send_returns : ∀ n w, P n w → n < most → ∃ w', send w = Ret w' ∧ P (n + 1) w'.
Hypothesis most_u64 : most < 0x10000000000000000.
Implicit Types (c : client (W:=W)).

(** The T1 timer of [c] expires at the tick after [D] more. *)
Record waiting c (D : nat) : Prop := {
  wt_timer : ∃ r, one_timer 256 client_blocks (c_timer c) SCTP_T1_INIT_EXPIRE r D ∧ r < 64;
  wt_size : max (c_timer c) = 300;
  wt_soon : (D < 600)%nat;
  wt_t1 : 1 ≤ t1_timer c ≤ 60;
  wt_retrans : 0 ≤ handshake_retrans c;
  wt_world : P (handshake_retrans c) (c_world c)
}.

Lemma tick_waits c D :
  waiting c (S D) → ∃ c', client_tick send 64 c = Ret c' ∧ waiting c' D ∧ handshake_retrans c' = handshake_retrans c.
Proof.
  intros [(r & H1 & Hr) Hm HD Ht Hn HP].
  destruct (one_timer_waits 256 client_blocks (c_timer c) SCTP_T1_INIT_EXPIRE r D 64 ltac:(done) ltac:(lia) H1)
    as (ring & r' & E & H1' & Hr' & Hm').
  unfold client_tick. rewrite E, bind_ret. cbn [reverse rev_append handle_signals].
  eexists. split; [reflexivity|]. split; [|done]. split; cbn [c_timer t1_timer handshake_retrans c_world]; try done.
  - exists r'. split; [done|lia].
  - congruence.
  - lia.
Qed.

Lemma tick_expires c :
  waiting c 0 → handshake_retrans c < most →
  ∃ c' D, client_tick send 64 c = Ret c' ∧ waiting c' D ∧ handshake_retrans c' = handshake_retrans c + 1.
Proof.
  intros [(r & H1 & Hr) Hm HD Ht Hn HP] Hlt.
  destruct (one_timer_fires 256 client_blocks (c_timer c) SCTP_T1_INIT_EXPIRE r 64 ltac:(done) ltac:(lia) H1)
    as (ring & E & Hrep & Hm').
  set (t1 := Z.min (u64 (t1_timer c * 2)) (SCTP_RTO_MAX / SCTP_TIMER_STEP)).
  assert (1 ≤ t1 ≤ 60) as Ht1.
  { unfold t1. rewrite u64_id by (unfold is_u64; lia). change (SCTP_RTO_MAX / SCTP_TIMER_STEP) with 60. lia. }
  destruct (arm_client ring t1) as (ring' & D & r' & Ei & H1' & Hr' & HD' & Hm2); [done | congruence | done |].
  destruct (send_returns _ _ HP Hlt) as (w & Ew & HP').
  unfold client_tick. rewrite E, bind_ret. change (i32 SCTP_T1_INIT_EXPIRE) with SCTP_T1_INIT_EXPIRE.
  cbn [reverse rev_append handle_signals]. unfold handle_signal. rewrite Z.eqb_refl. cbn [c_timer t1_timer handshake_retrans c_world].
  fold t1. rewrite Ei, bind_ret, Ew, bind_ret, bind_ret.
  eexists _, D. split; [reflexivity|]. cbn [handshake_retrans]. rewrite u64_id by (unfold is_u64; lia). split; [|done].
  split; cbn [c_timer t1_timer handshake_retrans c_world]; try done; [eauto | lia].
Qed.

(** What [n] ticks add to it: one each. *)
Definition progress c (D : nat) : Z := 600 * handshake_retrans c + (599 - Z.of_nat D).

Lemma ticks_progress n : ∀ c D,
  waiting c D → handshake_retrans c + Z.of_nat n ≤ most →
  ∃ c' D', client_ticks send n c = Ret c' ∧ waiting c' D' ∧ progress c D + Z.of_nat n ≤ progress c' D'
  ∧ handshake_retrans c ≤ handshake_retrans c' ≤ handshake_retrans c + Z.of_nat n.
Proof.
  induction n as [|n IH]; intros c D Hw Hn; cbn [client_ticks].
  - exists c, D. split_and!; [done | done | lia..].
  - assert (∃ c1 D1, client_tick send 64 c = Ret c1 ∧ waiting c1 D1 ∧ progress c D + 1 ≤ progress c1 D1
      ∧ handshake_retrans c ≤ handshake_retrans c1 ≤ handshake_retrans c + 1) as (c1 & D1 & E & Hw1 & Hp & Hr).
    { unfold progress. destruct D as [|D].
      - destruct (tick_expires c Hw) as (c1 & D1 & E & Hw1 & Hr); [lia|]. pose proof (wt_soon _ _ Hw1).
        exists c1, D1. split_and!; [done | done | lia..].
      - destruct (tick_waits c D Hw) as (c1 & E & Hw1 & Hr). exists c1, D. split_and!; [done | done | lia..]. }
    rewrite E, bind_ret. destruct (IH c1 D1 Hw1) as (c2 & D2 & E2 & Hw2 & Hp2 & Hr2); [lia|].
    exists c2, D2. split_and!; [done | done | lia..].
Qed.

Lemma loop_ends step clock : (∀ i, is_u64 (clock i) ∧ clock i ≤ clock (S i) ≤ clock i + step) →
  SCTP_ASSOC_MAX_RETRANS + (999 + step) / 1000 ≤ most → ∀ k i global c D,
  waiting c D → handshake_retrans c ≤ most → 0 ≤ global ≤ clock i → clock i < global + 1000 + step →
  6600 ≤ progress c D + (clock (i + k)%nat - global) / 1000 →
  ∃ c', client_loop send (S (S k)) i clock global c = Ret c'
  ∧ SCTP_ASSOC_MAX_RETRANS < handshake_retrans c' ≤ most ∧ P (handshake_retrans c') (c_world c').
Proof.
  intros Hclock Hmost k. induction k as [|k IH]; intros i global c D Hw Hle Hg Hs Hp;
    rewrite (eq_refl : client_loop send (S _) i clock global c = if SCTP_ASSOC_MAX_RETRANS <? handshake_retrans c then Ret c else _);
    (destruct (Z.ltb_spec SCTP_ASSOC_MAX_RETRANS (handshake_retrans c)) as [Hlt|Hge]; [exists c; pose proof (wt_world _ _ Hw); auto|]);
    destruct (Hclock i) as [Hu Hmono]; unfold SCTP_ASSOC_MAX_RETRANS, SCTP_TIMER_STEP in *;
    pose proof (Z.div_pos (clock i - global) 1000 ltac:(lia) ltac:(lia)) as Hd;
    rewrite (u64_id (clock i - global)) by (unfold is_u64 in *; lia);
    set (n := Z.to_nat ((clock i - global) / 1000)) in *;
    assert (Z.of_nat n = (clock i - global) / 1000) as Hn by lia;
    assert (Z.of_nat n * 1000 ≤ clock i - global < Z.of_nat n * 1000 + 1000) as Hb by (rewrite Hn; Z.div_mod_to_equations; lia);
    assert (Z.of_nat n ≤ (999 + step) / 1000) as Hns by (rewrite Hn; apply Z.div_le_mono; lia);
    (destruct (ticks_progress n c D Hw) as (c1 & D1 & E & Hw1 & Hp1 & Hr); [lia|]);
    rewrite (catch_up_spec send (clock i) n global c Hu Hg Hn), E; cbn [mbind outcome_bind].
  - rewrite Nat.add_0_r in Hp. pose proof (wt_soon _ _ Hw1). exists c1. unfold progress in *.
    cbn [client_loop]. unfold SCTP_ASSOC_MAX_RETRANS. rewrite (proj2 (Z.ltb_lt _ _)) by lia.
    split; [done|]. split; [lia | apply (wt_world _ _ Hw1)].
  - apply (IH (S i) _ c1 D1 Hw1); [lia..|]. rewrite <-Nat.add_succ_comm in Hp.
    replace (clock (S i + k)%nat - (global + 1000 * Z.of_nat n)) with (clock (S i + k)%nat - global + (- Z.of_nat n) * 1000) by lia.
    rewrite Z.div_add by lia. lia.
Qed.

Lemma start_waits w : P 0 w → ∃ c D, client_start w = Ret c ∧ waiting c D ∧ handshake_retrans c = 0.
Proof.
  intros HP. destruct (wheel_made 300 8) as (alloc & ring & Ea & Er & Hrep & _ & Hm); [lia | unfold is_u32; lia | lia |].
  assert (client_wheel = Ret ring) as Ew.
  { unfold client_wheel. change 256 with (2 ^ Z.of_nat 8) at 1. rewrite Ea, bind_ret. cbn [get]. rewrite bind_ret.
    change (5 * 60) with 300. change 256%nat with (2 ^ 8)%nat. by rewrite Er. }
  rewrite <-Hm in Hrep. destruct (arm_client ring first_t1 Hrep Hm) as (ring' & D & r & Ei & H1 & Hr & HD & Hm'); [cbv; split; congruence|].
  unfold client_start. rewrite Ew, bind_ret. unfold arm_t1. rewrite Ei, bind_ret.
  exists (Client ring' first_t1 0 w), D. split; [reflexivity|]. split; [|reflexivity].
  split; cbn [c_timer t1_timer handshake_retrans c_world];
    [exists r; by split | exact Hm' | exact HD | cbv; split; congruence | lia | exact HP].
Qed.
End progress.

Lemma loop_from_start {W} (send : W → outcome W) (P : Z → W → Prop) (w : W) step :
  let most := SCTP_ASSOC_MAX_RETRANS + (999 + step) / 1000 in
  0 ≤ step < 0x10000000000000000 →
  (∀ n w, P n w → n < most → ∃ w', send w = Ret w' ∧ P (n + 1) w') → P 0 w →
  ∃ c, client_start w = Ret c ∧ ∀ clock global m,
    polled step clock global → global + 6600 * 1000 ≤ clock m →
    ∃ c', client_loop send (S (S m)) 0 clock global c = Ret c'
    ∧ SCTP_ASSOC_MAX_RETRANS < handshake_retrans c' ≤ most ∧ P (handshake_retrans c') (c_world c').
Proof.
  intros most Hstep Hsend Hw.
  assert (SCTP_ASSOC_MAX_RETRANS ≤ most < 0x10000000000000000) as Hmost.
  { unfold most, SCTP_ASSOC_MAX_RETRANS. split.
    - pose proof (Z.div_pos (999 + step) 1000). lia.
    - enough ((999 + step) / 1000 ≤ 0x100000000000000) by lia. apply Z.div_le_upper_bound; lia. }
  destruct (start_waits P w Hw) as (c & D & E & Hc & H0). exists c. split; [exact E|].
  intros clock global m (Hclock & Hg & Hs) Hm.
  apply (loop_ends send P most Hsend ltac:(lia) step clock Hclock ltac:(unfold most; lia) m 0 global c D Hc);
    [unfold SCTP_ASSOC_MAX_RETRANS in *; lia..|].
  pose proof (wt_soon _ _ _ Hc). unfold progress. rewrite H0. cbn [Nat.add].
  assert (6600 ≤ (clock m - global) / 1000) by (apply Z.div_le_lower_bound; lia). lia.
Qed.

(** ** Properties *)

(** C38: the main loop of the client ends.  For any clock that does not run
    backwards, is read at least every [step] milliseconds and goes on for 6600
    seconds, the loop over [SCTP_TIMER_STEP] catches up at every turn, and the
    loop around it leaves at the latest one turn after the poll [m] that finds
    the 6600 seconds passed.  It has then sent the INIT again more than
    [SCTP_ASSOC_MAX_RETRANS] times, but no more than one time beyond for each
    second that may have passed between two polls.  Of [eth_send_sctp] it needs
    that these calls return; [P] says what each of them keeps, and how many
    there have been. *)
Theorem client_loop_ends {W} (send : W → outcome W) (P : Z → W → Prop) (w : W) step :
  let most := SCTP_ASSOC_MAX_RETRANS + (999 + step) / 1000 in
  0 ≤ step < 0x10000000000000000 →
  (∀ n w, P n w → n < most → ∃ w', send w = Ret w' ∧ P (n + 1) w') → P 0 w →
  ∃ c, client_start w = Ret c ∧ ∀ clock global m,
    polled step clock global → global + 6600 * 1000 ≤ clock m →
    ∃ c', client_loop send (S (S m)) 0 clock global c = Ret c'
    ∧ SCTP_ASSOC_MAX_RETRANS < handshake_retrans c' ≤ most ∧ P (handshake_retrans c') (c_world c').
Proof. intros most Hstep Hsend Hw. by apply loop_from_start. Qed.

(** A clock that jumps by two hours at its fourth reading: at most 7210
    retransmissions. *)
Lemma client_loop_ends_witness :
  ∃ c c', client_start 0 = Ret c
  ∧ client_loop (λ w, Ret (w + 1)) 5 0 (λ i, if decide (i < 3)%nat then 500 else 7200500) 500 c = Ret c'
  ∧ SCTP_ASSOC_MAX_RETRANS < handshake_retrans c' ≤ 7210 ∧ handshake_retrans c' = c_world c'.
Proof.
  destruct (client_loop_ends (λ w, Ret (w + 1)) (λ n w, n = w) 0 7200000) as (c & E & H);
    [lia | intros n w -> _; eauto | done |].
  destruct (H (λ i, if decide (i < 3)%nat then 500 else 7200500) 500 3%nat) as (c' & E' & Hr & Hw).
  - split; [|vm_compute; split_and!; congruence]. intros i. unfold is_u64. repeat case_decide; lia.
  - vm_compute. congruence.
  - exists c, c'. split; [exact E|]. split; [exact E'|]. split; [exact Hr | exact Hw].
Defined.

(** The INIT retransmissions of a client whose peer never answers.  The
    timer doubles from 1 to 60 seconds, so they are due after 1, 3, 7, 15, 31,
    63, 123, 183, 243, 303 and 363 seconds; the first nine are on time, but the
    tenth crosses the end of the 300-slot wheel and comes 300 seconds late, and
    the association is given up after 663 seconds instead of 363. *)
Lemma t1_schedule :
  (c ← client_start 0%nat; '(ts, c) ← send_ticks 700 1 c; Ret (ts, handshake_retrans c))
  = Ret ([1; 3; 7; 15; 31; 63; 123; 183; 243; 603; 663]%nat, 11).
Proof. vm_compute. reflexivity. Qed.

(** With a clock polled every second the main loop ends after 11
    retransmissions, in the iteration after the 663rd second. *)
Lemma client_gives_up :
  (c ← client_start 0%nat;
   c ← client_loop (λ w, Ret (S w)) 664 0 (λ i, 1000 * (Z.of_nat i + 1)) 0 c;
   Ret (c_world c, handshake_retrans c)) = Ret (11%nat, 11)
  ∧ (c ← client_start 0%nat;
     client_loop (λ w, Ret (S w)) 663 0 (λ i, 1000 * (Z.of_nat i + 1)) 0 c) = Timeout.
Proof. split; vm_compute; reflexivity. Qed.

(** The retransmission limit is only looked at between two polls of the
    clock: after a pause of a thousand seconds the client sends 14 INITs in a
    row before it gives up. *)
Lemma client_overruns_limit :
  (c ← client_start 0%nat;
   c ← client_loop (λ w, Ret (S w)) 2 0 (λ _, 1000000) 0 c;
   Ret (c_world c, handshake_retrans c)) = Ret (14%nat, 14).
Proof. vm_compute. reflexivity. Qed.
