(* ===== verification/Frames.v ===== *)
(** * Building and checking frames (build_*_raw.c, build_sctp_*_hdr.c,
    prefill_mac_ip_sctp_.c, sctp_check_checksums.c)

    The raw builders grow a frame towards lower addresses: each writes its
    header just below [packet], returns the new start and adds its size to
    [plen].  [sctp_check_checksums] is the receiver's check; the main theorem
    says that it accepts what the builders produce. *)
From S2P Require Import Prelude Bytes Mem Checksum Crc32c Md5 Hmac Random Headers.

(** ** Code: the raw builders

    The result is the new start (NULL for NULL) and [*plen]. *)
Definition build_mac_raw (m : mem) (packet plen : Z) (gateway dev typelen : Z)
  : outcome (Z * Z * mem) :=
  if packet =? NULL then Ret (NULL, plen, m)
  else
    let packet := packet - 14 in
    m ← store m packet (le_enc 6 gateway);
    m ← store m (packet + 6) (le_enc 6 dev);
    m ← store m (packet + 12) (le_enc 2 (htons typelen));
    Ret (packet, u16 (plen + 14), m).

(** [~(u16) ip_checksum ((u16 * ) &hdr, sizeof (ipv4_t))] stored in a [u16]. *)
Definition ip_check_of (hdr : ipv4_t) : Z := u16 (Z.lnot (u16 (ip_checksum (enc hdr) sz_ip))).

Definition raw_ip (plen src dst prot random : Z) : ipv4_t :=
  IPv4 0x45 (u8 (htons 0x2)) (htons plen) (u16 random) 0 181 prot 0 src dst.

Definition build_ip_raw `{!Entropy} (m : mem) (st : rng) (packet plen : Z) (src dst prot : Z)
  : outcome (Z * Z * mem * rng) :=
  if packet =? NULL then Ret (NULL, plen, m, st)
  else
    let packet := packet - sz_ip in
    let '(r, st) := get_random_u32 st in
    let plen := u16 (plen + sz_ip) in
    let hdr := raw_ip plen src dst prot r in
    m ← st_struct m packet hdr;
    m ← Mem.st m (packet + off_ip_check) 2 (ip_check_of hdr);
    Ret (packet, plen, m, st).

Section code.
Context {CRC : Crc32Insn}.

Definition build_sctp_cmn_hdr_raw (m : mem) (packet plen : Z) (srcport dstport tg : Z)
  : outcome (Z * Z * mem) :=
  if packet =? NULL then Ret (NULL, plen, m)
  else
    let packet := packet - sz_cmn in
    let hdr := Cmn (htons srcport) (htons dstport) tg 0 in
    m ← st_struct m packet hdr;
    let plen := u16 (plen + sz_cmn) in
    data ← load m packet (Z.to_nat plen);
    m ← Mem.st m (packet + off_cmn_check) 4 (generate_crc32c data);
    Ret (packet, plen, m).

Definition build_sctp_fld_hdr_raw (m : mem) (packet plen : Z) (type flags len : Z)
  : outcome (Z * Z * mem) :=
  if packet =? NULL then Ret (NULL, plen, m)
  else
    let packet := packet - sz_fld in
    m ← st_struct m packet (Fld type flags (htons len));
    Ret (packet, u16 (plen + sz_fld), m).

Definition build_sctp_init_hdr_raw (m : mem) (packet plen : Z) (tg rwnd oss miss tsn : Z)
  : outcome (Z * Z * mem) :=
  if packet =? NULL then Ret (NULL, plen, m)
  else
    let packet := packet - sz_init in
    m ← st_struct m packet (Init (htonl tg) (htonl rwnd) (htons oss) (htons miss) (htonl tsn));
    Ret (packet, u16 (plen + sz_init), m).

(** It assigns the fields one by one, in this order. *)
Definition build_sctp_init_ack_hdr_raw (m : mem) (packet plen : Z) (tg rwnd oss miss tsn : Z)
  : outcome (Z * Z * mem) := build_sctp_init_hdr_raw m packet plen tg rwnd oss miss tsn.

Definition build_sctp_cookie_echo_hdr_raw (m : mem) (packet plen : Z) (cookie cookie_len : Z)
  : outcome (Z * Z * mem) :=
  if packet =? NULL then Ret (NULL, plen, m)
  else
    let packet := packet - cookie_len in
    data ← load m cookie (Z.to_nat cookie_len);
    m ← store m packet data;
    Ret (packet, u16 (plen + cookie_len), m).

(** The key of the state cookies, the same constant wherever it is used. *)
Definition cookie_key : bytes :=
  [0xC9; 0xAB; 0x02; 0x9C; 0x92; 0xBF; 0x47; 0xF3; 0xC9; 0xAB; 0x02; 0x9C; 0x92; 0xBF; 0x47; 0xF3].

Definition build_sctp_cookie_param_raw (m : mem) (packet plen : Z) (cookie : cookie_t)
  : outcome (Z * Z * mem) :=
  if packet =? NULL then Ret (NULL, plen, m)
  else
    let len := sz_param + sz_cookie + HMAC_MD5_KEY_LEN in
    let packet := packet - len in
    m ← st_struct m packet (Param (htons 7) (htons len));
    m ← st_struct m (packet + sz_param) cookie;
    digest ← hmac_md5 (enc cookie) cookie_key;
    m ← store m (packet + sz_param + sz_cookie) digest;
    Ret (packet, u16 (plen + len), m).

(** ** Code: [sctp_check_checksums]

    Both checksum fields are zeroed while they are recomputed; on a mismatch
    the field stays zero.  The length of the second sum is what the chunk
    header says. *)
Definition sctp_check_checksums (m : mem) (packet plen : Z) : outcome (Z * mem) :=
  if plen <? sz_mac + sz_ip + sz_cmn then Ret (-1, m)
  else
    let ip := packet + sz_mac in
    let sctp := packet + sz_mac + sz_ip in
    check_ip ← ld m (ip + off_ip_check) 2;
    m ← Mem.st m (ip + off_ip_check) 2 0;
    hdr ← load m ip (Z.to_nat sz_ip);
    if negb (check_ip =? u16 (Z.lnot (u16 (ip_checksum hdr sz_ip)))) then Ret (-1, m)
    else
      m ← Mem.st m (ip + off_ip_check) 2 check_ip;
      len ← ld m (ip + off_ip_len) 2;
      if ntohs len <? sz_ip + sz_cmn + sz_fld then Ret (-1, m)
      else
        flen ← ld m (sctp + sz_cmn + 2) 2;
        let n := Z.to_nat (sz_cmn + ntohs flen) in
        _ ← load m sctp n;
        check_sctp ← ld m (sctp + off_cmn_check) 4;
        m ← Mem.st m (sctp + off_cmn_check) 4 0;
        data ← load m sctp n;
        if negb (check_sctp =? u32 (Z.lnot (u32 (generate_crc32c_on_crc32c data 0xFFFFFFFF)))) then Ret (-1, m)
        else
          m ← Mem.st m (sctp + off_cmn_check) 4 check_sctp;
          Ret (0, m).
End code.

(** ** Code: whole frames *)

(** [if_ip_sctp_meta_t]; its padding and the pointer [add] are apart. *)
Record if_ip_sctp_meta_t := Meta {
  mt_ver_tag : Z; mt_init_tag : Z; mt_a_rwnd : Z; mt_os : Z; mt_mis : Z; mt_tsn : Z;
  mt_src_ip : Z; mt_dst_ip : Z; mt_src_port : Z; mt_dst_port : Z;
  mt_state : Z; mt_src_arwnd : Z; mt_src_os : Z; mt_src_mis : Z; mt_dev : Z; mt_gateway : Z
}.
#[export, refine] Instance meta_struct : Struct if_ip_sctp_meta_t := {|
  layout := [4; 4; 4; 2; 2; 4; 4; 4; 4; 4; 4; 4; 2; 2; 6; 6]%nat;
  fields x := [mt_ver_tag x; mt_init_tag x; mt_a_rwnd x; mt_os x; mt_mis x; mt_tsn x; mt_src_ip x;
               mt_dst_ip x; mt_src_port x; mt_dst_port x; mt_state x; mt_src_arwnd x; mt_src_os x;
               mt_src_mis x; mt_dev x; mt_gateway x];
  of_fields vs := match vs with
    | [a; b; c; d; e; f; g; h; i; j; k; l; m; n; o; p] => Meta a b c d e f g h i j k l m n o p
    | _ => Meta 0 0 0 0 0 0 0 0 0 0 0 0 0 0 0 0 end
|}.
Proof. all: struct_laws. Defined.

(** [(cookie_t * ) meta] *)
Definition meta_as_cookie (x : if_ip_sctp_meta_t) : cookie_t := dec (take (Z.to_nat sz_cookie) (enc x)).

(** [frame_data_t]; [fr_state] is [None] for NULL, and so is the frame itself. *)
Record frame_data := Frame { fr_packet : Z; fr_plen : Z; fr_state : option if_ip_sctp_meta_t }.

Section frames.
Context {CRC : Crc32Insn} {ENT : Entropy}.

(** The last four calls, common to the four kinds of frame. *)
Definition build_around (m : mem) (st : rng) (x : if_ip_sctp_meta_t) (packet plen type tg : Z)
  : outcome (frame_data * mem * rng) :=
  '(packet, plen, m) ← build_sctp_fld_hdr_raw m packet plen type 0 (u16 (plen + sz_fld));
  '(packet, plen, m) ← build_sctp_cmn_hdr_raw m packet plen (u16 (mt_src_port x)) (u16 (mt_dst_port x)) tg;
  '(packet, plen, m, st) ← build_ip_raw m st packet plen (mt_src_ip x) (mt_dst_ip x) PROTO_SCTP;
  '(packet, plen, m) ← build_mac_raw m packet plen (mt_gateway x) (mt_dev x) ETHERTYPE_IP;
  Ret (Frame packet plen (Some x), m, st).

Definition frame_meta (frame : option frame_data) : option (frame_data * if_ip_sctp_meta_t) :=
  f ← frame; x ← fr_state f; if fr_packet f =? NULL then None else Some (f, x).

(** The arguments are evaluated from the last to the first by gcc on x86-64:
    the initial TSN is drawn before the tag.  C leaves the order open; nothing
    proved here depends on it. *)
Definition build_sctp_init_hdr (m : mem) (st : rng) (frame : option frame_data)
  : outcome (option frame_data * mem * rng) :=
  match frame_meta frame with
  | None => Ret (None, m, st)
  | Some (f, x) =>
      let packet := fr_packet f + (sz_mac + sz_ip + sz_cmn + sz_fld + sz_init) in
      '(tsn, st) ← get_random_from_buffer_u32 st;
      '(tg, st) ← get_random_from_buffer_u32 st;
      '(packet, plen, m) ← build_sctp_init_hdr_raw m packet (fr_plen f) tg (mt_src_arwnd x)
                             (mt_src_os x) (mt_src_mis x) tsn;
      '(f, m, st) ← build_around m st x packet plen SCTP_INIT 0;
      Ret (Some f, m, st)
  end.

Definition build_sctp_init_ack_hdr (m : mem) (st : rng) (frame : option frame_data)
  : outcome (option frame_data * mem * rng) :=
  match frame_meta frame with
  | None => Ret (None, m, st)
  | Some (f, x) =>
      let '(itag, st) := get_random_u32 st in
      let '(tsn, st) := get_random_u32 st in
      let x := Meta (mt_ver_tag x) itag (mt_a_rwnd x) (mt_os x) (mt_mis x) tsn (mt_src_ip x) (mt_dst_ip x)
                 (mt_src_port x) (mt_dst_port x) (mt_state x) (mt_src_arwnd x) (mt_src_os x)
                 (mt_src_mis x) (mt_dev x) (mt_gateway x) in
      let packet := fr_packet f + (sz_mac + sz_ip + sz_cmn + sz_fld + sz_init + sz_param + sz_cookie + 16) in
      '(packet, plen, m) ← build_sctp_cookie_param_raw m packet (fr_plen f) (meta_as_cookie x);
      '(packet, plen, m) ← build_sctp_init_ack_hdr_raw m packet plen itag (mt_src_arwnd x)
                             (mt_src_os x) (mt_src_mis x) tsn;
      '(f, m, st) ← build_around m st x packet plen SCTP_INIT_ACK (mt_ver_tag x);
      Ret (Some f, m, st)
  end.

(** [add] and [add_len] are the cookie to echo. *)
Definition build_sctp_cookie_echo_hdr (m : mem) (st : rng) (frame : option frame_data) (add add_len : Z)
  : outcome (option frame_data * mem * rng) :=
  match frame_meta frame with
  | None => Ret (None, m, st)
  | Some (f, x) =>
      let packet := fr_packet f + (sz_mac + sz_ip + sz_cmn + sz_fld + sz_fld + add_len) in
      '(packet, plen, m) ← build_sctp_cookie_echo_hdr_raw m packet (fr_plen f) add add_len;
      '(f, m, st) ← build_around m st x packet plen SCTP_COOKIE_ECHO (mt_init_tag x);
      Ret (Some f, m, st)
  end.

Definition build_sctp_cookie_ack_hdr (m : mem) (st : rng) (frame : option frame_data)
  : outcome (option frame_data * mem * rng) :=
  match frame_meta frame with
  | None => Ret (None, m, st)
  | Some (f, x) =>
      let packet := fr_packet f + (sz_mac + sz_ip + sz_cmn + sz_fld) in
      '(f, m, st) ← build_around m st x packet (fr_plen f) SCTP_COOKIE_ACK (mt_ver_tag x);
      Ret (Some f, m, st)
  end.
End frames.

(** ** Lemmas *)

(** Writing what is there changes nothing; the last of two writes wins. *)
Lemma write_same m p bs : bytes_at m p bs → write m p bs = m.
Proof.
  intros H. apply map_eq; intros q. rewrite lookup_write. case_decide as Hq; [|done].
  rewrite <-H by lia. f_equal. lia.
Qed.
Lemma write_write m p bs bs' : length bs = length bs' → write (write m p bs) p bs' = write m p bs'.
Proof.
  intros Hl. apply map_eq; intros q. rewrite !lookup_write, Hl. by case_decide.
Qed.

(** A field zeroed and then put back. *)
Lemma restore_field `{!Struct T} m p pre (x : T) rest i w v :
  bytes_at m p (pre ++ enc x ++ rest) → layout T !! i = Some w → fields x !! i = Some v →
  let q := p + (Z.of_nat (length pre) + field_off T i) in
  write (write m q (le_enc w 0)) q (le_enc w v) = m.
Proof.
  intros Hat Hw Hv q. rewrite write_write by (by rewrite !length_le_enc).
  destruct (pack_split _ _ _ _ _ Hw Hv) as (a & c & Ha & Hp).
  apply write_same. unfold enc in Hat. rewrite <-(list_insert_id _ _ _ Hv), Hp in Hat.
  apply bytes_at_app in Hat as [_ Hat]. rewrite <-!app_assoc in Hat.
  apply bytes_at_app in Hat as [_ Hat]. apply bytes_at_app in Hat as [Hat _].
  unfold q, field_off. rewrite Ha in Hat. by rewrite Z.add_assoc.
Qed.

Section check.
Context {CRC : Crc32Insn}.
Implicit Types (mac : mac_t) (ip : ipv4_t) (cmn : sctp_cmn_hdr_t) (fld : sctp_fld_hdr_t).

Definition frame_bytes mac ip cmn fld (body : bytes) : bytes :=
  enc mac ++ enc ip ++ enc cmn ++ enc fld ++ body.

(** What makes a frame acceptable. *)
Definition ip_valid ip : bool := ip_check ip =? ip_check_of (set_field 7 0 ip).
Definition sctp_valid cmn fld (body : bytes) : bool :=
  cmn_check cmn =? generate_crc32c (enc (set_field 3 0 cmn) ++ enc fld ++ body).
Definition frame_valid ip cmn fld (body : bytes) : bool :=
  ip_valid ip && (sz_ip + sz_cmn + sz_fld <=? ntohs (ip_len ip)) && sctp_valid cmn fld body.

Lemma crc_on_crc (data : bytes) :
  u32 (Z.lnot (u32 (generate_crc32c_on_crc32c data 0xFFFFFFFF))) = generate_crc32c data.
Proof. done. Qed.

(** The part covered by the CRC, and its length in the receiver's terms. *)
Lemma length_sctp_part (cmn : sctp_cmn_hdr_t) (fld : sctp_fld_hdr_t) (body : bytes) :
  length (enc cmn ++ enc fld ++ body) = Z.to_nat (sz_cmn + (sz_fld + Z.of_nat (length body))).
Proof.
  rewrite !length_app, (length_enc cmn), (length_enc fld). change (size sctp_cmn_hdr_t) with 12%nat.
  change (size sctp_fld_hdr_t) with 4%nat. unfold sz_cmn, sz_fld; lia.
Qed.

(** Where the receiver finds the length of the chunk. *)
Lemma fld_len_place p (pre : bytes) (cmn : sctp_cmn_hdr_t) :
  Z.of_nat (length pre) = 34 →
  p + 14 + 20 + sz_cmn + 2 = p + (Z.of_nat (length (pre ++ enc cmn)) + field_off sctp_fld_hdr_t 2).
Proof.
  intros Epre. rewrite length_app, (length_enc cmn), Nat2Z.inj_add, Epre. change (field_off sctp_fld_hdr_t 2) with 2.
  change (Z.of_nat (size sctp_cmn_hdr_t)) with 12. unfold sz_cmn; lia.
Qed.

Lemma check_spec m p plen mac ip cmn fld body :
  bytes_at m p (frame_bytes mac ip cmn fld body) →
  wf ip → wf cmn → wf fld → bytes_ok body →
  ntohs (fld_len fld) = sz_fld + Z.of_nat (length body) →
  46 ≤ plen →
  if frame_valid ip cmn fld body then sctp_check_checksums m p plen = Ret (0, m)
  else ∃ m', sctp_check_checksums m p plen = Ret (-1, m').
Proof.
  intros Hat Hip Hcmn Hfld Hb Hlen Hp. unfold sctp_check_checksums, frame_bytes in *.
  change (sz_mac + sz_ip + sz_cmn) with 46. rewrite (proj2 (Z.ltb_ge _ _)) by done. cbv zeta.
  set (rest := enc cmn ++ enc fld ++ body) in *.
  change (p + sz_mac + sz_ip) with (p + 14 + 20). change (p + sz_mac) with (p + 14).
  assert (∀ q, p + 14 + q = p + (Z.of_nat (length (enc mac)) + q)) as Ep
    by (intros q; rewrite length_enc; change (Z.of_nat (size mac_t)) with 14; lia).
  unfold off_ip_check, off_ip_len. rewrite !(Ep (field_off ipv4_t 7)), (Ep (field_off ipv4_t 2)).
  rewrite (ld_field m p (enc mac) ip rest 7 2 (ip_check ip)) by (done || by apply (wf_field ip 7)).
  cbn [mbind outcome_bind].
  destruct (st_field m p (enc mac) ip rest 7 2 0 Hat eq_refl) as [-> Hat1]. cbn [mbind outcome_bind].
  assert (bytes_at (write m (p + (Z.of_nat (length (enc mac)) + field_off ipv4_t 7)) (le_enc 2 0)) (p + 14)
    (enc (set_field 7 0 ip))) as Hip1.
  { apply bytes_at_app in Hat1 as [_ Hat1]. rewrite length_enc in Hat1. by apply bytes_at_app in Hat1 as [? _]. }
  rewrite (load_at' _ _ _ _ Hip1) by exact (length_enc (set_field 7 0 ip)). cbn [mbind outcome_bind].
  unfold frame_valid, ip_valid, ip_check_of. destruct (_ =? _); cbn [andb negb]; [|eauto].
  destruct (st_field _ p (enc mac) _ rest 7 2 (ip_check ip) Hat1 eq_refl) as [-> _].
  cbn [mbind outcome_bind].
  rewrite (restore_field m p (enc mac) ip rest 7 2 (ip_check ip)) by done.
  rewrite (ld_field m p (enc mac) ip rest 2 2 (ip_len ip)) by (done || by apply (wf_field ip 2)).
  cbn [mbind outcome_bind]. change (sz_ip + sz_cmn + sz_fld) with 36.
  rewrite Z.leb_antisym. destruct (_ <? 36); cbn [andb negb]; [eauto|].
  set (pre := enc mac ++ enc ip).
  assert (bytes_at m p (pre ++ enc cmn ++ enc fld ++ body)) as Hat2
    by (unfold pre; by rewrite <-app_assoc).
  assert (Z.of_nat (length pre) = 34) as Epre
    by (unfold pre; by rewrite length_app, (length_enc mac), (length_enc ip)).
  rewrite (fld_len_place p pre cmn Epre).
  rewrite (ld_field m p (pre ++ enc cmn) fld body 2 2 (fld_len fld))
    by (try (by apply (wf_field fld 2)); try done; by rewrite <-app_assoc).
  cbn [mbind outcome_bind]. rewrite Hlen.
  set (data := enc cmn ++ enc fld ++ body).
  pose proof (length_sctp_part cmn fld body) as El. fold data in El.
  assert (p + 14 + 20 = p + Z.of_nat (length pre)) as Esc by lia. rewrite Esc.
  rewrite (load_at' m _ _ data) by (done || by apply bytes_at_app in Hat2 as [_ ?]).
  cbn [mbind outcome_bind]. unfold off_cmn_check. rewrite <-Z.add_assoc.
  rewrite (ld_field m p pre cmn (enc fld ++ body) 3 4 (cmn_check cmn)) by (done || by apply (wf_field cmn 3)).
  cbn [mbind outcome_bind].
  destruct (st_field m p pre cmn (enc fld ++ body) 3 4 0 Hat2 eq_refl) as [-> Hat3]. cbn [mbind outcome_bind].
  rewrite (load_at' _ _ _ (enc (set_field 3 0 cmn) ++ enc fld ++ body)).
  2:{ by apply bytes_at_app in Hat3 as [_ ?]. }
  2:{ rewrite <-El. unfold data. by rewrite !length_app, (length_enc cmn), (length_enc (set_field 3 0 cmn)). }
  cbn [mbind outcome_bind]. rewrite crc_on_crc. unfold sctp_valid. destruct (_ =? _); cbn [negb]; [|eauto].
  destruct (st_field _ p pre _ (enc fld ++ body) 3 4 (cmn_check cmn) Hat3 eq_refl) as [-> _].
  cbn [mbind outcome_bind]. by rewrite (restore_field m p pre cmn (enc fld ++ body) 3 4 (cmn_check cmn)).
Qed.
End check.

(** What a raw builder does: [hd] is now in front of [bs], which starts at
    [p], and nothing else has changed. *)
Definition prepended (m m' : mem) (p : Z) (hd bs : bytes) : Prop :=
  bytes_at m' (p - Z.of_nat (length hd)) (hd ++ bs)
  ∧ (∀ q k, mapped m q k → mapped m' q k)
  ∧ ∀ q, q < p - Z.of_nat (length hd) ∨ p ≤ q → m' !! q = m !! q.

Lemma prepended_nil m p bs : bytes_at m p bs → prepended m m p [] bs.
Proof. intros H. split; [by rewrite Z.sub_0_r|]. done. Qed.

Lemma prepended_write m p q hd bs :
  bytes_at m p bs → q = p - Z.of_nat (length hd) → prepended m (write m q hd) p hd bs.
Proof.
  intros H ->. split; [|split].
  - apply bytes_at_app. split; [apply bytes_at_write|]. apply bytes_at_write_other; [|lia].
    by replace (p - Z.of_nat (length hd) + Z.of_nat (length hd)) with p by lia.
  - intros q k. apply mapped_write.
  - intros q Hq. rewrite lookup_write, decide_False by lia. done.
Qed.

Lemma prepended_trans m m1 m2 p h h' bs :
  prepended m m1 p h bs → prepended m1 m2 (p - Z.of_nat (length h)) h' (h ++ bs) →
  prepended m m2 p (h' ++ h) bs.
Proof.
  intros (H1 & Hm1 & Ho1) (H2 & Hm2 & Ho2). split; [|split].
  - rewrite <-app_assoc, length_app, Nat2Z.inj_add. by rewrite Z.add_comm, Z.sub_add_distr.
  - auto.
  - intros q. rewrite length_app. intros Hq. rewrite Ho2, Ho1 by lia. done.
Qed.

(** A header written whole, and one of its fields once more. *)
Lemma prepended_field `{!Struct T} m p q (x : T) bs i w v :
  bytes_at m p bs → layout T !! i = Some w → q = p - Z.of_nat (size T) →
  let m1 := write m q (enc x) in
  st m1 (q + field_off T i) w v = Ret (write m1 (q + field_off T i) (le_enc w v))
  ∧ prepended m (write m1 (q + field_off T i) (le_enc w v)) p (enc (set_field i v x)) bs.
Proof.
  intros H Hw -> m1.
  assert (prepended m m1 p (enc x) bs) as (Hat & Hm & Ho) by (apply prepended_write; by rewrite ?length_enc).
  rewrite length_enc in *.
  destruct (st_field m1 (p - Z.of_nat (size T)) [] x bs i w v Hat Hw) as [E Hat'].
  cbn [length Z.of_nat Z.add] in *. split; [done|]. split; [by rewrite length_enc|]. split.
  - intros q k Hq. by apply mapped_write, Hm.
  - rewrite length_enc. intros q Hq. rewrite lookup_write, decide_False; [by apply Ho|].
    rewrite length_le_enc. unfold field_off. pose proof (sum_take_le (layout T) i w Hw).
    unfold size in *. lia.
Qed.

Section builders.
Context {CRC : Crc32Insn} {ENT : Entropy}.
Implicit Types (m : mem) (p plen : Z) (bs : bytes).

Lemma st_struct_prepended `{!Struct T} m p q (x : T) bs n :
  bytes_at m p bs → mapped m q n → n = size T → q = p - Z.of_nat (size T) →
  st_struct m q x = Ret (write m q (enc x)) ∧ prepended m (write m q (enc x)) p (enc x) bs.
Proof.
  intros H Hm -> ->. split; [by apply st_struct_mapped|]. apply prepended_write; by rewrite ?length_enc.
Qed.

Lemma fld_raw_spec m p plen bs type flags len :
  bytes_at m p bs → mapped m (p - 4) 4 → 4 < p → 0 ≤ plen ≤ 65531 →
  ∃ m', build_sctp_fld_hdr_raw m p plen type flags len = Ret (p - 4, plen + 4, m')
  ∧ prepended m m' p (enc (Fld type flags (htons len))) bs.
Proof.
  intros H Hm Hp Hl. unfold build_sctp_fld_hdr_raw, sz_fld. rewrite (proj2 (Z.eqb_neq _ _)) by (unfold NULL; lia).
  destruct (st_struct_prepended m p _ (Fld type flags (htons len)) bs _ H Hm) as [-> Hpre]; [done..|].
  cbn [mbind outcome_bind]. rewrite u16_id by (unfold is_u16; lia). eauto.
Qed.

Lemma init_raw_spec m p plen bs tg rwnd oss miss tsn :
  bytes_at m p bs → mapped m (p - 16) 16 → 16 < p → 0 ≤ plen ≤ 65519 →
  ∃ m', build_sctp_init_hdr_raw m p plen tg rwnd oss miss tsn = Ret (p - 16, plen + 16, m')
  ∧ prepended m m' p (enc (Init (htonl tg) (htonl rwnd) (htons oss) (htons miss) (htonl tsn))) bs.
Proof.
  intros H Hm Hp Hl. unfold build_sctp_init_hdr_raw, sz_init. rewrite (proj2 (Z.eqb_neq _ _)) by (unfold NULL; lia).
  set (x := Init _ _ _ _ _). destruct (st_struct_prepended m p _ x bs _ H Hm) as [-> Hpre]; [done..|].
  cbn [mbind outcome_bind]. rewrite u16_id by (unfold is_u16; lia). eauto.
Qed.

Definition raw_mac (gateway dev typelen : Z) : mac_t := Mac gateway dev (htons typelen).

Lemma mac_raw_spec m p plen bs gateway dev typelen :
  bytes_at m p bs → mapped m (p - 14) 14 → 14 < p → 0 ≤ plen ≤ 65521 →
  ∃ m', build_mac_raw m p plen gateway dev typelen = Ret (p - 14, plen + 14, m')
  ∧ prepended m m' p (enc (raw_mac gateway dev typelen)) bs.
Proof.
  intros H Hm Hp Hl. unfold build_mac_raw. rewrite (proj2 (Z.eqb_neq _ _)) by (unfold NULL; lia).
  cbv zeta. rewrite store_mapped by (rewrite length_le_enc; eapply mapped_sub; [exact Hm|lia..]).
  cbn [mbind outcome_bind].
  rewrite store_mapped by (apply mapped_write; rewrite length_le_enc; eapply mapped_sub; [exact Hm|lia..]).
  cbn [mbind outcome_bind].
  rewrite store_mapped by (do 2 apply mapped_write; rewrite length_le_enc; eapply mapped_sub; [exact Hm|lia..]).
  cbn [mbind outcome_bind]. rewrite u16_id by (unfold is_u16; lia). eexists; split; [done|].
  split; [|split].
  - change (enc (raw_mac gateway dev typelen)) with (le_enc 6 gateway ++ le_enc 6 dev ++ le_enc 2 (htons typelen) ++ []).
    rewrite app_nil_r, <-!app_assoc, !bytes_at_app, !length_app, !length_le_enc.
    replace (p - Z.of_nat (6 + (6 + 2))) with (p - 14) by lia. change (Z.of_nat 6) with 6. change (Z.of_nat 2) with 2.
    replace (p - 14 + 6 + 6) with (p - 14 + 12) by lia. replace (p - 14 + 12 + 2) with p by lia.
    split_and!; repeat first [apply bytes_at_write | apply bytes_at_write_other; [|rewrite ?length_le_enc; lia]]; done.
  - intros q k Hq. by do 3 apply mapped_write.
  - rewrite length_enc. change (Z.of_nat (size mac_t)) with 14. intros q Hq.
    rewrite !lookup_write, !length_le_enc, !decide_False by lia. done.
Qed.

Lemma ip_raw_spec m st p plen bs src dst prot :
  bytes_at m p bs → mapped m (p - 20) 20 → 20 < p → 0 ≤ plen ≤ 65515 →
  let h := raw_ip (plen + 20) src dst prot (fst (get_random_u32 st)) in
  ∃ m', build_ip_raw m st p plen src dst prot = Ret (p - 20, plen + 20, m', snd (get_random_u32 st))
  ∧ prepended m m' p (enc (set_field 7 (ip_check_of h) h)) bs.
Proof.
  intros H Hm Hp Hl h. unfold build_ip_raw, sz_ip. rewrite (proj2 (Z.eqb_neq _ _)) by (unfold NULL; lia).
  cbv zeta. destruct (get_random_u32 st) as [r st']. cbn [fst snd] in *.
  rewrite u16_id by (unfold is_u16; lia). fold h.
  rewrite st_struct_mapped by done. cbn [mbind outcome_bind]. unfold off_ip_check.
  destruct (prepended_field m p (p - 20) h bs 7 2 (ip_check_of h) H) as [-> Hpre]; [done..|].
  cbn [mbind outcome_bind]. eauto.
Qed.

Lemma cmn_raw_spec m p plen bs srcport dstport tg :
  bytes_at m p bs → bytes_ok bs → mapped m (p - 12) 12 → 12 < p →
  plen = Z.of_nat (length bs) → plen ≤ 65523 →
  let h := Cmn (htons srcport) (htons dstport) tg 0 in
  ∃ m', build_sctp_cmn_hdr_raw m p plen srcport dstport tg = Ret (p - 12, plen + 12, m')
  ∧ prepended m m' p (enc (set_field 3 (generate_crc32c (enc h ++ bs)) h)) bs.
Proof.
  intros H Hok Hm Hp Hl Hlt h. unfold build_sctp_cmn_hdr_raw, sz_cmn.
  rewrite (proj2 (Z.eqb_neq _ _)) by (unfold NULL; lia).
  cbv zeta. rewrite u16_id by (unfold is_u16; lia). fold h.
  rewrite st_struct_mapped by done. cbn [mbind outcome_bind].
  rewrite (load_at' _ _ _ (enc h ++ bs)); cbn [mbind outcome_bind].
  - unfold off_cmn_check.
    destruct (prepended_field m p (p - 12) h bs 3 4 (generate_crc32c (enc h ++ bs)) H) as [-> Hpre]; [done..|].
    cbn [mbind outcome_bind]. eauto.
  - by destruct (prepended_write m p (p - 12) (enc h) bs H) as [Hat _]; [by rewrite length_enc|].
  - rewrite length_app, length_enc. change (size sctp_cmn_hdr_t) with 12%nat. lia.
Qed.
Lemma ip_check_of_u16 h : is_u16 (ip_check_of h).
Proof. apply u16_range. Qed.
Lemma generate_crc32c_u32 data : is_u32 (generate_crc32c data).
Proof. apply u32_range. Qed.

#[local] Hint Resolve ip_check_of_u16 generate_crc32c_u32 : bytes.

(** The headers that [build_around] puts around a chunk body. *)
Definition around_fld (type : Z) (body : bytes) : sctp_fld_hdr_t := Fld type 0 (htons (Z.of_nat (length body) + 4)).

(** The four headers, put in front of each other one after the other. *)
Lemma prepended_headers m m1 m2 m3 m4 p (mac : mac_t) (ip : ipv4_t) (cmn : sctp_cmn_hdr_t) (fld : sctp_fld_hdr_t) body :
  prepended m m1 p (enc fld) body →
  prepended m1 m2 (p - 4) (enc cmn) (enc fld ++ body) →
  prepended m2 m3 (p - 4 - 12) (enc ip) (enc cmn ++ enc fld ++ body) →
  prepended m3 m4 (p - 4 - 12 - 20) (enc mac) (enc ip ++ enc cmn ++ enc fld ++ body) →
  prepended m m4 p (enc mac ++ enc ip ++ enc cmn ++ enc fld) body.
Proof.
  intros H1 H2 H3 H4.
  pose proof (prepended_trans _ _ _ _ _ _ _ H1 ltac:(rewrite (length_enc fld); exact H2)) as H12.
  pose proof (prepended_trans _ _ _ _ _ _ _ H12
    ltac:(rewrite length_app, (length_enc fld), (length_enc cmn), <-app_assoc;
          change (Z.of_nat (size sctp_cmn_hdr_t + size sctp_fld_hdr_t)) with (4 + 12);
          rewrite Z.sub_add_distr; exact H3)) as H123.
  exact (prepended_trans _ _ _ _ _ _ _ H123
    ltac:(rewrite !length_app, (length_enc fld), (length_enc cmn), (length_enc ip), <-!app_assoc;
          change (Z.of_nat (size ipv4_t + (size sctp_cmn_hdr_t + size sctp_fld_hdr_t))) with (4 + 12 + 20);
          rewrite !Z.sub_add_distr; exact H4)).
Qed.

Lemma build_around_spec m st x p plen type tg body :
  bytes_at m p body → bytes_ok body → plen = Z.of_nat (length body) → plen ≤ 65485 →
  mapped m (p - 50) 50 → 50 < p → wf x → is_u32 tg → is_u8 type →
  ∃ m' (mac : mac_t) ip cmn, build_around m st x p plen type tg
    = Ret (Frame (p - 50) (plen + 50) (Some x), m', snd (get_random_u32 st))
  ∧ prepended m m' p (enc mac ++ enc ip ++ enc cmn ++ enc (around_fld type body)) body
  ∧ wf ip ∧ wf cmn ∧ wf (around_fld type body)
  ∧ frame_valid ip cmn (around_fld type body) body = true
  ∧ tag cmn = tg ∧ src_addr ip = mt_src_ip x ∧ dest_addr ip = mt_dst_ip x.
Proof.
  intros Hat Hok Hl Hle Hm Hp Hx Htg Hty. unfold build_around.
  set (fld := around_fld type body).
  destruct (fld_raw_spec m p plen body type 0 (u16 (plen + sz_fld)) Hat) as (m1 & -> & H1);
    [eapply mapped_sub; [exact Hm|lia..] | lia | lia |].
  cbn [mbind outcome_bind].
  assert (Fld type 0 (htons (u16 (plen + sz_fld))) = fld) as Efld.
  { unfold fld, around_fld. rewrite u16_id by (unfold is_u16, sz_fld; lia). by rewrite Hl. }
  rewrite Efld in H1. pose proof H1 as (Hat1 & Hm1 & _). rewrite (length_enc fld) in Hat1.
  change (Z.of_nat (size sctp_fld_hdr_t)) with 4 in Hat1.
  destruct (cmn_raw_spec m1 (p - 4) (plen + 4) (enc fld ++ body) (u16 (mt_src_port x)) (u16 (mt_dst_port x)) tg Hat1)
    as (m2 & -> & H2); [apply bytes_ok_app; split; [apply enc_ok | done]
    | apply Hm1; eapply mapped_sub; [exact Hm|lia..] | lia
    | rewrite length_app, (length_enc fld); change (size sctp_fld_hdr_t) with 4%nat; lia | lia |].
  cbn [mbind outcome_bind]. set (cmn := set_field 3 _ _) in H2.
  pose proof H2 as (Hat2 & Hm2 & _). rewrite (length_enc cmn) in Hat2.
  change (Z.of_nat (size sctp_cmn_hdr_t)) with 12 in Hat2.
  destruct (ip_raw_spec m2 st (p - 4 - 12) (plen + 4 + 12) _ (mt_src_ip x) (mt_dst_ip x) PROTO_SCTP Hat2)
    as (m3 & -> & H3); [apply Hm2, Hm1; eapply mapped_sub; [exact Hm|lia..] | lia | lia |].
  cbn [mbind outcome_bind]. set (h := raw_ip _ _ _ _ _) in H3. set (ip := set_field 7 _ h) in H3.
  pose proof H3 as (Hat3 & Hm3 & _). rewrite (length_enc ip) in Hat3.
  change (Z.of_nat (size ipv4_t)) with 20 in Hat3.
  destruct (mac_raw_spec m3 (p - 4 - 12 - 20) (plen + 4 + 12 + 20) _ (mt_gateway x) (mt_dev x) ETHERTYPE_IP Hat3)
    as (m4 & -> & H4); [apply Hm3, Hm2, Hm1; eapply mapped_sub; [exact Hm|lia..] | lia | lia |].
  cbn [mbind outcome_bind]. set (mac := raw_mac _ _ _) in H4.
  exists m4, mac, ip, cmn. split.
  { replace (p - 4 - 12 - 20 - 14) with (p - 50) by lia.
    by replace (plen + 4 + 12 + 20 + 14) with (plen + 50) by lia. }
  split; [by apply (prepended_headers m m1 m2 m3)|].
  assert (fits 4 (mt_src_ip x) ∧ fits 4 (mt_dst_ip x)) as [Hs Hd]
    by (split; [apply (wf_field x 6) | apply (wf_field x 7)]; done).
  split_and!; [| | | |done|done|done].
  - change ip with (IPv4 0x45 0 (htons (plen + 4 + 12 + 20)) (u16 (fst (get_random_u32 st))) 0 181 132
      (ip_check_of h) (mt_src_ip x) (mt_dst_ip x)).
    apply wf_ipv4; auto with bytes. exact (ip_check_of_u16 h).
  - change cmn with (Cmn (htons (u16 (mt_src_port x))) (htons (u16 (mt_dst_port x))) tg (cmn_check cmn)).
    apply wf_cmn; auto with bytes. exact (generate_crc32c_u32 _).
  - apply wf_fld; auto with bytes.
  - unfold frame_valid. apply andb_true_iff. split; [apply andb_true_iff; split|].
    + apply Z.eqb_refl.
    + apply Z.leb_le. change (ip_len ip) with (htons (plen + 4 + 12 + 20)).
      rewrite htons_htons by (unfold is_u16; lia). unfold sz_ip, sz_cmn, sz_fld. lia.
    + apply Z.eqb_refl.
Qed.

(** The receiver's check accepts it. *)
Lemma build_around_passes m st x p plen type tg body :
  bytes_at m p body → bytes_ok body → plen = Z.of_nat (length body) → plen ≤ 65485 →
  mapped m (p - 50) 50 → 50 < p → wf x → is_u32 tg → is_u8 type →
  ∃ m', build_around m st x p plen type tg
    = Ret (Frame (p - 50) (plen + 50) (Some x), m', snd (get_random_u32 st))
  ∧ bytes_at m' (p - 4) (enc (around_fld type body) ++ body)
  ∧ (∀ q, q < p - 50 ∨ p ≤ q → m' !! q = m !! q)
  ∧ sctp_check_checksums m' (p - 50) (plen + 50) = Ret (0, m').
Proof.
  intros Hat Hok Hl Hle Hm Hp Hx Htg Hty.
  destruct (build_around_spec m st x p plen type tg body) as
    (m' & mac & ip & cmn & -> & (Hat' & _ & Ho) & Hip & Hcmn & Hfld & Hv & _); [done..|].
  assert (length (enc mac ++ enc ip ++ enc cmn ++ enc (around_fld type body)) = 50%nat) as E50
    by (by rewrite !length_app, (length_enc mac), (length_enc ip), (length_enc cmn), length_enc).
  rewrite E50 in *. change (Z.of_nat 50) with 50 in *. exists m'. split; [done|].
  assert (bytes_at m' (p - 50) (frame_bytes mac ip cmn (around_fld type body) body)) as Hf
    by (unfold frame_bytes; rewrite <-!app_assoc in Hat'; exact Hat').
  split; [|split; [done|]].
  - replace ((enc mac ++ enc ip ++ enc cmn ++ enc (around_fld type body)) ++ body)
      with ((enc mac ++ enc ip ++ enc cmn) ++ enc (around_fld type body) ++ body) in Hat'
      by (by rewrite <-!app_assoc).
    apply bytes_at_app in Hat' as [_ Hat'].
    rewrite !length_app, (length_enc mac), (length_enc ip), (length_enc cmn) in Hat'.
    change (Z.of_nat _) with 46 in Hat'. by replace (p - 50 + 46) with (p - 4) in Hat' by lia.
  - pose proof (check_spec m' (p - 50) (plen + 50) mac ip cmn (around_fld type body) body Hf) as Hc.
    rewrite Hv in Hc. apply Hc; try done; [|lia].
    change (fld_len (around_fld type body)) with (htons (Z.of_nat (length body) + 4)).
    rewrite htons_htons by (unfold is_u16; lia). unfold sz_fld. lia.
Qed.

Lemma length_cookie_key : length cookie_key = 16%nat.
Proof. done. Qed.
Lemma cookie_key_ok : bytes_ok cookie_key.
Proof. repeat constructor; unfold is_u8; lia. Qed.

(** The cookie parameter of an INIT-ACK: its header, the cookie and its HMAC. *)
Definition cookie_mac (ck : cookie_t) : bytes := hmac (enc ck) cookie_key.
Definition cookie_param (ck : cookie_t) : bytes := enc (Param (htons 7) (htons 60)) ++ enc ck ++ cookie_mac ck.

Lemma cookie_hmac (ck : cookie_t) : hmac_md5 (enc ck) cookie_key = Ret (cookie_mac ck).
Proof.
  apply hmac_md5_ret; [apply enc_ok | apply cookie_key_ok | | done].
  rewrite (length_enc ck). by vm_compute.
Qed.

#[local] Opaque hmac.
Lemma length_cookie_mac ck : length (cookie_mac ck) = 16%nat.
Proof. unfold cookie_mac. apply length_hmac. Qed.
Lemma cookie_mac_ok ck : bytes_ok (cookie_mac ck).
Proof. unfold cookie_mac. apply hmac_ok. Qed.

Lemma length_cookie_param ck : length (cookie_param ck) = 60%nat.
Proof.
  unfold cookie_param.
  by rewrite !length_app, (length_enc ck), length_cookie_mac, (length_enc (Param _ _)).
Qed.

Lemma cookie_param_ok ck : bytes_ok (cookie_param ck).
Proof. unfold cookie_param. rewrite !bytes_ok_app. split_and!; auto using enc_ok, cookie_mac_ok. Qed.

Lemma cookie_param_write m p ck bs :
  bytes_at m p bs →
  prepended m (write (write (write m (p - 60) (enc (Param (htons 7) (htons 60)))) (p - 60 + 4) (enc ck))
                (p - 60 + 4 + 40) (cookie_mac ck)) p (cookie_param ck) bs.
Proof.
  intros H. set (x := Param _ _).
  assert (length (enc ck) = 40%nat) as E1 by (by rewrite (length_enc ck)).
  assert (length (enc x) = 4%nat) as E2 by done.
  pose proof (length_cookie_mac ck) as E3.
  unfold cookie_param. fold x. generalize dependent (cookie_mac ck). intros mac E3.
  assert (length (enc x ++ enc ck ++ mac) = 60%nat) as E by (by rewrite !length_app, E1, E2, E3).
  unfold prepended. rewrite E. change (Z.of_nat 60) with 60.
  split; [|split].
  - rewrite <-!app_assoc, !bytes_at_app, E1, E2, E3. change (Z.of_nat 40) with 40.
    change (Z.of_nat 4) with 4. change (Z.of_nat 16) with 16.
    replace (p - 60 + 4 + 40 + 16) with p by lia.
    split_and!; repeat first [apply bytes_at_write | apply bytes_at_write_other; [|rewrite ?E1, ?E2, ?E3; lia]]; done.
  - intros q k Hq. by do 3 apply mapped_write.
  - intros q Hq. rewrite !lookup_write, E1, E2, E3, !decide_False by lia. done.
Qed.

Lemma cookie_param_raw_spec m p plen bs ck :
  bytes_at m p bs → mapped m (p - 60) 60 → 60 < p → 0 ≤ plen ≤ 65475 →
  ∃ m', build_sctp_cookie_param_raw m p plen ck = Ret (p - 60, plen + 60, m')
  ∧ prepended m m' p (cookie_param ck) bs.
Proof.
  intros H Hm Hp Hl. eexists; split; [|by apply cookie_param_write].
  unfold build_sctp_cookie_param_raw. rewrite cookie_hmac.
  rewrite (proj2 (Z.eqb_neq _ _)) by (unfold NULL; lia). cbv zeta.
  change (sz_param + sz_cookie + HMAC_MD5_KEY_LEN) with 60. change sz_param with 4. change sz_cookie with 40.
  rewrite st_struct_mapped by (eapply mapped_sub; [exact Hm|change (size sctp_parameter_t) with 4%nat; lia..]).
  cbn [mbind outcome_bind].
  rewrite st_struct_mapped by (apply mapped_write; eapply mapped_sub; [exact Hm|change (size cookie_t) with 40%nat; lia..]).
  cbn [mbind outcome_bind].
  rewrite store_mapped by (do 2 apply mapped_write; rewrite length_cookie_mac; eapply mapped_sub; [exact Hm|lia..]).
  cbn [mbind outcome_bind]. by rewrite u16_id by (unfold is_u16; lia).
Qed.

Lemma cookie_echo_raw_spec m p plen cookie ck n :
  bytes_at m cookie ck → n = Z.of_nat (length ck) → mapped m (p - n) (length ck) → n < p → 0 ≤ plen → plen + n ≤ 65535 →
  ∃ m', build_sctp_cookie_echo_hdr_raw m p plen cookie n = Ret (p - n, plen + n, m')
  ∧ prepended m m' p ck [].
Proof.
  intros H -> Hm Hp Hl Hn. unfold build_sctp_cookie_echo_hdr_raw.
  rewrite (proj2 (Z.eqb_neq _ _)) by (unfold NULL; lia). cbv zeta.
  rewrite Nat2Z.id, (load_at _ _ _ H). cbn [mbind outcome_bind]. rewrite store_mapped by done.
  cbn [mbind outcome_bind]. rewrite u16_id by (unfold is_u16; lia). eexists; split; [done|].
  apply prepended_write; [apply bytes_at_nil | done].
Qed.

(** The four builders of whole frames under one name. *)
Inductive frame_kind := KInit | KInitAck | KCookieEcho (add add_len : Z) | KCookieAck.

Definition build_frame (k : frame_kind) (m : mem) (st : rng) (frame : option frame_data)
  : outcome (option frame_data * mem * rng) :=
  match k with
  | KInit => build_sctp_init_hdr m st frame
  | KInitAck => build_sctp_init_ack_hdr m st frame
  | KCookieEcho add add_len => build_sctp_cookie_echo_hdr m st frame add add_len
  | KCookieAck => build_sctp_cookie_ack_hdr m st frame
  end.

Definition kind_type (k : frame_kind) : Z :=
  match k with
  | KInit => SCTP_INIT | KInitAck => SCTP_INIT_ACK
  | KCookieEcho _ _ => SCTP_COOKIE_ECHO | KCookieAck => SCTP_COOKIE_ACK
  end.

(** Bytes of the chunk after its header, and where the frame starts. *)
Definition kind_len (k : frame_kind) : nat :=
  match k with KInit => 16 | KInitAck => 76 | KCookieEcho _ n => Z.to_nat n | KCookieAck => 0 end.
Definition kind_off (k : frame_kind) : Z := match k with KCookieEcho _ _ => sz_fld | _ => 0 end.

(** The cookie to echo is in memory. *)
Definition kind_ok (m : mem) (k : frame_kind) : Prop :=
  match k with
  | KCookieEcho add n => 0 ≤ n ≤ 65485 ∧ ∃ ck, bytes_at m add ck ∧ bytes_ok ck ∧ n = Z.of_nat (length ck)
  | _ => True
  end.

(** The frame that is in memory at [p] and passes the receiver's check. *)
Definition good_frame (m : mem) (p plen type : Z) (body : bytes) : Prop :=
  plen = Z.of_nat (length body) + 50
  ∧ bytes_at m (p + 46) (enc (around_fld type body) ++ body)
  ∧ sctp_check_checksums m p plen = Ret (0, m).

Lemma build_around_good m m0 st x p q plen type tg body :
  prepended m0 m p body [] → bytes_ok body → plen = Z.of_nat (length body) → plen ≤ 65485 →
  mapped m0 q (50 + length body) → q = p - Z.of_nat (length body) - 50 → 0 < q → wf x → is_u32 tg → is_u8 type →
  ∃ m', build_around m st x (p - Z.of_nat (length body)) plen type tg
    = Ret (Frame q (plen + 50) (Some x), m', snd (get_random_u32 st))
  ∧ good_frame m' q (plen + 50) type body
  ∧ ∀ z, z < q ∨ p ≤ z → m' !! z = m0 !! z.
Proof.
  intros (Hat & Hm & Ho) Hok -> Hle Hmap -> Hp Hx Htg Hty. rewrite app_nil_r in Hat.
  destruct (build_around_passes m st x (p - Z.of_nat (length body)) (Z.of_nat (length body)) type tg body)
    as (m' & -> & Hat' & Ho' & Hc); try done; [| lia |].
  - apply Hm. eapply mapped_sub; [exact Hmap|lia..].
  - exists m'. split; [done|]. split; [split_and!; [done| |done]|].
    + by replace (p - Z.of_nat (length body) - 50 + 46) with (p - Z.of_nat (length body) - 4) by lia.
    + intros z Hz. rewrite Ho', Ho by lia. done.
Qed.

Lemma frame_meta_some f x : fr_state f = Some x → 0 < fr_packet f → frame_meta (Some f) = Some (f, x).
Proof.
  intros Hs Hp. unfold frame_meta. cbn. rewrite Hs. cbn.
  by rewrite (proj2 (Z.eqb_neq _ _)) by (unfold NULL; lia).
Qed.

Lemma build_init_good m st f x :
  fr_state f = Some x → fr_plen f = 0 → 0 < fr_packet f → wf x → rng_ok st →
  mapped m (fr_packet f) 66 →
  ∃ f' m' st' body, build_sctp_init_hdr m st (Some f) = Ret (Some f', m', st')
  ∧ good_frame m' (fr_packet f) 66 SCTP_INIT body ∧ fr_packet f' = fr_packet f ∧ fr_plen f' = 66
  ∧ length body = 16%nat
  ∧ (∀ q, q < fr_packet f ∨ fr_packet f + 66 ≤ q → m' !! q = m !! q).
Proof.
  intros Hs Hl Hp Hx Hst Hm. unfold build_sctp_init_hdr. rewrite (frame_meta_some f x) by done.
  destruct (draw_u32 st Hst) as (tsn & st1 & -> & Ht & Hst1). cbn [mbind outcome_bind].
  destruct (draw_u32 st1 Hst1) as (tg & st2 & -> & Hg & Hst2). cbn [mbind outcome_bind]. rewrite Hl.
  change (sz_mac + sz_ip + sz_cmn + sz_fld + sz_init) with 66.
  destruct (init_raw_spec m (fr_packet f + 66) 0 [] tg (mt_src_arwnd x) (mt_src_os x) (mt_src_mis x) tsn
    (bytes_at_nil _ _)) as (m1 & -> & H1); [eapply mapped_sub; [exact Hm|lia..] | lia | lia |].
  cbn [mbind outcome_bind]. set (ini := Init _ _ _ _ _) in H1.
  assert (length (enc ini) = 16%nat) as El by (by rewrite (length_enc ini)).
  destruct (build_around_good m1 m st2 x (fr_packet f + 66) (fr_packet f) 16 SCTP_INIT 0 (enc ini) H1) as (m' & E & Hg' & Ho);
    [apply enc_ok | by rewrite El | lia | by rewrite El | rewrite El; lia | done | done | unfold is_u32; lia | done |].
  rewrite El in E. change (Z.of_nat 16) with 16 in E.
  change (0 + 16) with 16. rewrite E. cbn [mbind outcome_bind]. eauto 10.
Qed.

Lemma build_init_ack_good m st f x :
  fr_state f = Some x → fr_plen f = 0 → 0 < fr_packet f → wf x →
  mapped m (fr_packet f) 126 →
  ∃ f' m' st' body, build_sctp_init_ack_hdr m st (Some f) = Ret (Some f', m', st')
  ∧ good_frame m' (fr_packet f) 126 SCTP_INIT_ACK body ∧ fr_packet f' = fr_packet f ∧ fr_plen f' = 126
  ∧ length body = 76%nat
  ∧ (∀ q, q < fr_packet f ∨ fr_packet f + 126 ≤ q → m' !! q = m !! q).
Proof.
  intros Hs Hl Hp Hx Hm. unfold build_sctp_init_ack_hdr. rewrite (frame_meta_some f x) by done.
  pose proof (get_random_int_range 4 st) as Hr1. unfold get_random_u32.
  destruct (get_random_int 4 st) as [itag st1].
  pose proof (get_random_int_range 4 st1) as Hr2.
  destruct (get_random_int 4 st1) as [tsn st2]. cbn [fst] in Hr1, Hr2.
  set (x' := Meta _ _ _ _ _ _ _ _ _ _ _ _ _ _ _ _).
  assert (wf x') as Hx'.
  { unfold wf in *. destruct x; cbn [layout fields meta_struct] in *. repeat match goal with
      | H : Forall2 _ (_ :: _) (_ :: _) |- _ => apply Forall2_cons in H as [??] end.
    repeat (apply Forall2_cons; split); try done. }
  rewrite Hl. change (sz_mac + sz_ip + sz_cmn + sz_fld + sz_init + sz_param + sz_cookie + 16) with 126.
  set (p := fr_packet f) in *.
  destruct (cookie_param_raw_spec m (p + 126) 0 [] (meta_as_cookie x') (bytes_at_nil _ _)) as (m1 & -> & H1);
    [eapply mapped_sub; [exact Hm|lia..] | lia | lia |].
  cbn [mbind outcome_bind]. set (ckp := cookie_param _) in H1.
  pose proof (length_cookie_param (meta_as_cookie x')) as Elc. fold ckp in Elc.
  assert (bytes_at m1 (p + 126 - 60) ckp) as Hat1
    by (destruct H1 as [H1 _]; by rewrite app_nil_r, Elc in H1).
  unfold build_sctp_init_ack_hdr_raw. change (0 + 60) with 60.
  destruct (init_raw_spec m1 (p + 126 - 60) 60 ckp itag (mt_src_arwnd x') (mt_src_os x') (mt_src_mis x') tsn Hat1)
    as (m2 & -> & H2); [apply H1; eapply mapped_sub; [exact Hm|lia..] | lia | lia |].
  cbn [mbind outcome_bind]. set (ini := Init _ _ _ _ _) in H2.
  assert (prepended m m2 (p + 126) (enc ini ++ ckp) []) as H12.
  { apply (prepended_trans m m1 m2 _ ckp); [done|]. by rewrite app_nil_r, Elc. }
  assert (length (enc ini ++ ckp) = 76%nat) as El by (by rewrite length_app, (length_enc ini), Elc).
  destruct (build_around_good m2 m st2 x' (p + 126) p 76 SCTP_INIT_ACK (mt_ver_tag x') (enc ini ++ ckp) H12)
    as (m' & E & Hg' & Ho);
    [apply bytes_ok_app; split; [apply enc_ok | apply cookie_param_ok] | by rewrite El | lia | by rewrite El
    | rewrite El; lia | lia | done | by apply fits4_u32, (wf_field x' 0) | done |].
  rewrite El in E. replace (p + 126 - Z.of_nat 76) with (p + 126 - 60 - 16) in E by lia.
  change (60 + 16) with 76. rewrite E. cbn [mbind outcome_bind]. eauto 10.
Qed.

Lemma build_cookie_echo_good m st f x add ck n :
  fr_state f = Some x → fr_plen f = 0 → 0 < fr_packet f → wf x →
  bytes_at m add ck → bytes_ok ck → n = Z.of_nat (length ck) → n ≤ 65485 →
  mapped m (fr_packet f) (54 + length ck) →
  ∃ f' m' st', build_sctp_cookie_echo_hdr m st (Some f) add n = Ret (Some f', m', st')
  ∧ good_frame m' (fr_packet f + 4) (n + 50) SCTP_COOKIE_ECHO ck
  ∧ fr_packet f' = fr_packet f + 4 ∧ fr_plen f' = n + 50
  ∧ (∀ q, q < fr_packet f + 4 ∨ fr_packet f + 54 + n ≤ q → m' !! q = m !! q).
Proof.
  intros Hs Hl Hp Hx Hck Hok Hn Hle Hm. unfold build_sctp_cookie_echo_hdr. rewrite (frame_meta_some f x) by done.
  rewrite Hl. change (sz_mac + sz_ip + sz_cmn + sz_fld + sz_fld) with 54. set (p := fr_packet f) in *.
  destruct (cookie_echo_raw_spec m (p + (54 + n)) 0 add ck n Hck Hn) as (m1 & -> & H1);
    [eapply mapped_sub; [exact Hm|lia..] | lia | lia | lia |].
  cbn [mbind outcome_bind].
  destruct (build_around_good m1 m st x (p + (54 + n)) (p + 4) n SCTP_COOKIE_ECHO (mt_init_tag x) ck H1)
    as (m' & E & Hg' & Ho);
    [done | done | lia | eapply mapped_sub; [exact Hm|lia..] | lia | lia | done | by apply fits4_u32, (wf_field x 1) | done |].
  rewrite <-Hn in E. change (0 + n) with n. rewrite E. cbn [mbind outcome_bind].
  do 3 eexists. split; [done|]. split_and!; [done..|]. intros q Hq. apply Ho. lia.
Qed.

Lemma build_cookie_ack_good m st f x :
  fr_state f = Some x → fr_plen f = 0 → 0 < fr_packet f → wf x →
  mapped m (fr_packet f) 50 →
  ∃ f' m' st', build_sctp_cookie_ack_hdr m st (Some f) = Ret (Some f', m', st')
  ∧ good_frame m' (fr_packet f) 50 SCTP_COOKIE_ACK []
  ∧ fr_packet f' = fr_packet f ∧ fr_plen f' = 50
  ∧ (∀ q, q < fr_packet f ∨ fr_packet f + 50 ≤ q → m' !! q = m !! q).
Proof.
  intros Hs Hl Hp Hx Hm. unfold build_sctp_cookie_ack_hdr. rewrite (frame_meta_some f x) by done.
  rewrite Hl. change (sz_mac + sz_ip + sz_cmn + sz_fld) with 50. set (p := fr_packet f) in *.
  destruct (build_around_good m m st x (p + 50) p 0 SCTP_COOKIE_ACK (mt_ver_tag x) []
    (prepended_nil _ _ _ (bytes_at_nil _ _))) as (m' & E & Hg' & Ho);
    [constructor | done | lia | eapply mapped_sub; [exact Hm|cbn;lia..] | cbn; lia | lia | done | by apply fits4_u32, (wf_field x 0) | done |].
  cbn [length Z.of_nat] in E. rewrite Z.sub_0_r in E. rewrite E. cbn [mbind outcome_bind].
  do 3 eexists. split; [done|]. split_and!; done.
Qed.
End builders.

(** ** Properties *)
Section properties.
Context {CRC : Crc32Insn} {ENT : Entropy}.

(** C11: [sctp_check_checksums] accepts a frame exactly when its IPv4 checksum is
    the one computed over the header, its IPv4 length covers the SCTP headers
    and its CRC32c is the one over the common header and the chunk; it then
    leaves the packet as it was.  It never reads outside a frame whose chunk
    length is right. *)
Theorem check_decides m p plen (mac : mac_t) ip cmn fld body :
  bytes_at m p (frame_bytes mac ip cmn fld body) →
  wf ip → wf cmn → wf fld → bytes_ok body →
  ntohs (fld_len fld) = sz_fld + Z.of_nat (length body) → 46 ≤ plen →
  if frame_valid ip cmn fld body then sctp_check_checksums m p plen = Ret (0, m)
  else ∃ m', sctp_check_checksums m p plen = Ret (-1, m').
Proof. apply check_spec. Qed.

(** C12: whatever the association's data, each of the four builders returns a
    frame that is its chunk header and body behind 46 bytes of headers, that
    passes the receiver's [sctp_check_checksums], and writes nothing outside
    the frame. *)
Theorem built_frames_pass k m st f x :
  fr_state f = Some x → fr_plen f = 0 → 0 < fr_packet f → wf x → rng_ok st → kind_ok m k →
  mapped m (fr_packet f) (54 + kind_len k) →
  let q := fr_packet f + kind_off k in
  let plen := 50 + Z.of_nat (kind_len k) in
  ∃ f' m' st' body, build_frame k m st (Some f) = Ret (Some f', m', st')
  ∧ fr_packet f' = q ∧ fr_plen f' = plen ∧ length body = kind_len k
  ∧ bytes_at m' (q + 46) (enc (Fld (kind_type k) 0 (htons (Z.of_nat (kind_len k) + 4))) ++ body)
  ∧ sctp_check_checksums m' q plen = Ret (0, m')
  ∧ ∀ z, z < q ∨ q + plen ≤ z → m' !! z = m !! z.
Proof.
  intros Hs Hl Hp Hx Hst Hk Hm. destruct k as [| |add n|]; cbn [kind_len kind_off kind_type build_frame kind_ok] in *;
    rewrite ?Z.add_0_r.
  - destruct (build_init_good m st f x) as (f' & m' & st' & body & -> & (_ & Hat & Hc) & ? & ? & Hb & Ho); try done;
      [eapply mapped_sub; [exact Hm|lia..]|].
    unfold around_fld in Hat. rewrite Hb in Hat. by exists f', m', st', body.
  - destruct (build_init_ack_good m st f x) as (f' & m' & st' & body & -> & (_ & Hat & Hc) & ? & ? & Hb & Ho); try done;
      [eapply mapped_sub; [exact Hm|lia..]|].
    unfold around_fld in Hat. rewrite Hb in Hat. by exists f', m', st', body.
  - destruct Hk as (Hn & ck & Hck & Hok & En). rewrite En, Nat2Z.id in *.
    destruct (build_cookie_echo_good m st f x add ck (Z.of_nat (length ck)))
      as (f' & m' & st' & -> & (_ & Hat & Hc) & ? & ? & Ho); try done; [lia|].
    unfold around_fld in Hat. replace (Z.of_nat (length ck) + 50) with (50 + Z.of_nat (length ck)) in * by lia.
    exists f', m', st', ck. unfold sz_fld. do 6 (split; [assumption || reflexivity|]).
    intros z Hz. apply Ho. lia.
  - destruct (build_cookie_ack_good m st f x) as (f' & m' & st' & -> & (_ & Hat & Hc) & ? & ? & Ho); try done;
      [eapply mapped_sub; [exact Hm|lia..]|].
    by exists f', m', st', [].
Qed.

(** A frame that passes the check no longer does when up to four consecutive
    bytes of its chunk body are changed, wherever they are. *)
Lemma corrupted_chunk_rejected m p plen (mac : mac_t) ip cmn fld (pre burst1 burst2 post : bytes) :
  bytes_at m p (frame_bytes mac ip cmn fld (pre ++ burst1 ++ post)) →
  wf ip → wf cmn → wf fld → bytes_ok (pre ++ burst1 ++ post) → bytes_ok burst2 →
  ntohs (fld_len fld) = sz_fld + Z.of_nat (length (pre ++ burst1 ++ post)) → 46 ≤ plen →
  length burst1 = length burst2 → (length burst1 ≤ 4)%nat → burst1 ≠ burst2 →
  sctp_check_checksums m p plen = Ret (0, m) →
  ∃ m', sctp_check_checksums (write m (p + 50 + Z.of_nat (length pre)) burst2) p plen = Ret (-1, m').
Proof.
  intros Hat Hip Hcmn Hfld Hok H2 Hlen Hp Hl H4 Hne Hc.
  pose proof (check_spec m p plen mac ip cmn fld _ Hat Hip Hcmn Hfld Hok Hlen Hp) as Hs.
  destruct (frame_valid ip cmn fld (pre ++ burst1 ++ post)) eqn:Hv;
    [|destruct Hs as [? Hs]; rewrite Hs in Hc; done].
  pose proof Hok as Hok'. rewrite !bytes_ok_app in Hok'. destruct Hok' as (Hok1 & _ & Hok3).
  assert (bytes_ok (pre ++ burst2 ++ post)) as Hok2 by (by rewrite !bytes_ok_app).
  assert (bytes_at (write m (p + 50 + Z.of_nat (length pre)) burst2) p
    (frame_bytes mac ip cmn fld (pre ++ burst2 ++ post))) as Hat2.
  { unfold frame_bytes in *.
    set (hd := enc mac ++ enc ip ++ enc cmn ++ enc fld ++ pre).
    assert (∀ b : bytes, enc mac ++ enc ip ++ enc cmn ++ enc fld ++ pre ++ b ++ post = hd ++ b ++ post) as E
      by (intros; unfold hd; by rewrite <-!app_assoc).
    rewrite E in *.
    assert (p + 50 + Z.of_nat (length pre) = p + Z.of_nat (length hd)) as ->.
    { unfold hd. rewrite !length_app, (length_enc mac), (length_enc ip), (length_enc cmn), (length_enc fld).
      change (size mac_t) with 14%nat. change (size ipv4_t) with 20%nat.
      change (size sctp_cmn_hdr_t) with 12%nat. change (size sctp_fld_hdr_t) with 4%nat. lia. }
    by apply (bytes_at_write_mid _ _ _ burst1). }
  pose proof (check_spec _ p plen mac ip cmn fld _ Hat2 Hip Hcmn Hfld Hok2) as Hs2.
  rewrite (length_app pre), (length_app burst2), <-Hl, <-length_app, <-length_app in Hs2.
  specialize (Hs2 Hlen Hp).
  destruct (frame_valid ip cmn fld (pre ++ burst2 ++ post)) eqn:Hv2; [|done].
  unfold frame_valid, sctp_valid in Hv, Hv2.
  apply andb_true_iff in Hv as [_ Hv%Z.eqb_eq]. apply andb_true_iff in Hv2 as [_ Hv2%Z.eqb_eq].
  exfalso. apply (crc_burst (enc (set_field 3 0 cmn) ++ enc fld ++ pre) burst1 burst2 post);
    rewrite <-?app_assoc; try done; [|congruence].
  rewrite !bytes_ok_app in *. destruct Hok as (? & ? & ?). split_and!; done || apply enc_ok.
Qed.

(** The chunk of an INIT-ACK built by [build_sctp_init_ack_hdr]: the cookie in it
    is the bytes of the [if_ip_sctp_meta_t], read as a [cookie_t].  The meta
    has no [dst_tsn], so its addresses and ports land one field early. *)
Lemma meta_cookie_shifted x :
  wf x →
  let c := meta_as_cookie x in
  ck_ver_tag c = mt_ver_tag x ∧ ck_tsn c = mt_tsn x
  ∧ ck_dst_tsn c = mt_src_ip x ∧ ck_src_ip c = mt_dst_ip x ∧ ck_dst_ip c = mt_src_port x
  ∧ ck_src_port c = mt_dst_port x ∧ ck_dst_port c = mt_state x.
Proof.
  intros Hx c.
  assert (c = Cookie (mt_ver_tag x) (mt_init_tag x) (mt_a_rwnd x) (mt_os x) (mt_mis x) (mt_tsn x)
    (mt_src_ip x) (mt_dst_ip x) (mt_src_port x) (mt_dst_port x) (mt_state x)) as ->; [|done].
  set (ck := Cookie _ _ _ _ _ _ _ _ _ _ _).
  assert (wf ck) as Hck.
  { apply wf_cookie; [apply (wf_field x 0)|apply (wf_field x 1)|apply (wf_field x 2)|apply (wf_field x 3)
    |apply (wf_field x 4)|apply (wf_field x 5)|apply (wf_field x 6)|apply (wf_field x 7)|apply (wf_field x 8)
    |apply (wf_field x 9)|apply (wf_field x 10)]; done. }
  unfold c, meta_as_cookie. rewrite <-(dec_enc ck Hck). f_equal.
Qed.
End properties.

(** ** Witnesses *)
Definition demo_meta : if_ip_sctp_meta_t :=
  Meta 7 9 65535 32 32 11 0x0201A8C0 0x0301A8C0 40000 80 0 65535 32 32 0x665544332211 0xFFEEDDCCBBAA.
Definition frames_mem : mem := write ∅ 1000 (replicate 300 0).

Lemma frames_mapped p n : 1000 ≤ p → p + Z.of_nat n ≤ 1300 → mapped frames_mem p n.
Proof.
  intros. eapply mapped_sub; [apply (bytes_at_mapped _ _ _ (bytes_at_write _ _ _))|done|].
  by rewrite length_replicate.
Qed.

Lemma frames_meta_wf : wf demo_meta.
Proof. unfold demo_meta. wf_fields. all: unfold fits; vm_compute; split; congruence. Qed.

(** A COOKIE-ACK frame and the checksums it needs. *)
Definition ack_ip (check : Z) : ipv4_t := IPv4 0x45 0 (htons 36) 0 0 181 132 check 0x0201A8C0 0x0301A8C0.
Definition ack_cmn (check : Z) : sctp_cmn_hdr_t := Cmn (htons 40000) (htons 80) 7 check.
Definition ack_fld : sctp_fld_hdr_t := Fld SCTP_COOKIE_ACK 0 (htons 4).
Definition ack_check : Z := Eval vm_compute in ip_check_of (ack_ip 0).
Definition ack_crc : Z := Eval vm_compute in generate_crc32c (enc (ack_cmn 0) ++ enc ack_fld).
Definition ack_mac : mac_t := Mac 1 2 8.

Lemma check_decides_witness :
  let m := write ∅ 1000 (frame_bytes ack_mac (ack_ip ack_check) (ack_cmn ack_crc) ack_fld []) in
  sctp_check_checksums m 1000 50 = Ret (0, m).
Proof.
  pose proof (check_decides (write ∅ 1000 (frame_bytes ack_mac (ack_ip ack_check) (ack_cmn ack_crc) ack_fld []))
    1000 50 ack_mac (ack_ip ack_check) (ack_cmn ack_crc) ack_fld [] (bytes_at_write _ _ _)
    ltac:(apply wf_ipv4; unfold fits; vm_compute; split; congruence)
    ltac:(apply wf_cmn; unfold fits; vm_compute; split; congruence)
    ltac:(apply wf_fld; unfold fits; vm_compute; split; congruence)
    ltac:(constructor) eq_refl ltac:(lia)) as H.
  exact H.
Defined.

Lemma built_frames_pass_witness :
  ∃ f' m' st' body, @build_frame _ once KInitAck frames_mem rng_init (Some (Frame 1000 0 (Some demo_meta)))
    = Ret (Some f', m', st')
  ∧ fr_packet f' = 1000 ∧ fr_plen f' = 126 ∧ length body = 76%nat
  ∧ bytes_at m' 1046 (enc (Fld SCTP_INIT_ACK 0 (htons 80)) ++ body)
  ∧ sctp_check_checksums m' 1000 126 = Ret (0, m')
  ∧ ∀ z, z < 1000 ∨ 1126 ≤ z → m' !! z = frames_mem !! z.
Proof.
  exact (@built_frames_pass _ once KInitAck frames_mem rng_init (Frame 1000 0 (Some demo_meta)) demo_meta
    eq_refl eq_refl ltac:(cbn; lia) frames_meta_wf rng_init_ok I (frames_mapped 1000 130 ltac:(lia) ltac:(lia))).
Defined.

Definition echo_fld : sctp_fld_hdr_t := Fld SCTP_COOKIE_ECHO 0 (htons 8).
Definition echo_crc : Z := Eval vm_compute in generate_crc32c (enc (ack_cmn 0) ++ enc echo_fld ++ [1; 2; 3; 4]).

Lemma corrupted_chunk_witness :
  let m := write ∅ 1000 (frame_bytes ack_mac (ack_ip ack_check) (ack_cmn echo_crc) echo_fld ([1] ++ [2; 3] ++ [4])) in
  ∃ m', sctp_check_checksums (write m 1051 [2; 7]) 1000 54 = Ret (-1, m').
Proof.
  cbv zeta.
  refine (corrupted_chunk_rejected (write ∅ 1000 (frame_bytes ack_mac (ack_ip ack_check) (ack_cmn echo_crc) echo_fld ([1] ++ [2; 3] ++ [4])))
    1000 54 ack_mac (ack_ip ack_check) (ack_cmn echo_crc) echo_fld [1] [2; 3] [2; 7] [4] (bytes_at_write _ _ _)
    _ _ _ _ _ eq_refl ltac:(lia) eq_refl ltac:(cbn; lia) ltac:(done) _).
  - apply wf_ipv4; unfold fits; vm_compute; split; congruence.
  - apply wf_cmn; unfold fits; vm_compute; split; congruence.
  - apply wf_fld; unfold fits; vm_compute; split; congruence.
  - repeat constructor; unfold is_u8; lia.
  - repeat constructor; unfold is_u8; lia.
  - vm_compute. reflexivity.
Defined.
