(* ===== verification/Prefilled.v ===== *)
(** * Replies built in prefilled packets (prefill_mac_ip_sctp.c,
    prefill_mac_ip_sctp_.c, build_prefilled_mac_ip_sctp_init_ack_hdr.c,
    build_prefilled_mac_ip_sctp_cookie_echo_hdr.c,
    build_prefilled_mac_ip_sctp_cookie_ack_hdr.c, build_prefilled_sctp_init_hdr.c)

    A prefilled packet is a buffer whose first 46 bytes are the Ethernet, IPv4
    and SCTP common headers, the IPv4 checksum computed for length 0.  A reply
    takes such a packet from [prefilled_ring], writes its chunk, brings the
    IPv4 length and checksum and the CRC up to date, and queues it on
    [tx_ring].  The rings are any [PacketQueue]. *)
From S2P Require Import Prelude Bytes Mem Checksum Crc32c Md5 Hmac RingBuf Random Headers Assoc Frames.

(** ** Code *)

(** [prefill_mac_ip_sctp]; [prefill] is the packet, NULL or not, and the result
    is the new [plen]. *)
Definition prefill_ip (src dst random : Z) : ipv4_t :=
  IPv4 0x45 (u8 (htons 0x2)) (htons 0) (u16 random) 0 228 PROTO_SCTP 0 src dst.

Definition prefill_mac_ip_sctp `{!Entropy} (m : mem) (st : rng) (prefill : Z) (state : option if_ip_sctp_meta_t)
  : outcome (option Z * mem * rng) :=
  match state with
  | Some meta =>
      if prefill =? NULL then Ret (None, m, st)
      else
        let packet := prefill in
        let cmn := Cmn (htons (mt_src_port meta)) (htons (mt_dst_port meta)) 0 0 in
        let '(r, st) := get_random_u32 st in
        let ip := prefill_ip (mt_src_ip meta) (mt_dst_ip meta) r in
        let ip := set_field 7 (ip_check_of ip) ip in
        m ← store m packet (le_enc 6 (mt_gateway meta));
        m ← store m (packet + 6) (le_enc 6 (mt_dev meta));
        m ← store m (packet + 12) (le_enc 2 (htons ETHERTYPE_IP));
        m ← st_struct m (packet + sz_mac) ip;
        m ← st_struct m (packet + sz_ip + sz_mac) cmn;
        Ret (Some (sz_mac + sz_ip + sz_cmn), m, st)
  | None => Ret (None, m, st)
  end.

(** [prefill_mac_ip_sctp_]: the raw builders around an empty chunk. *)
Definition prefill_mac_ip_sctp_ `{!Crc32Insn} `{!Entropy} (m : mem) (st : rng) (prefill plen : Z)
    (state : option if_ip_sctp_meta_t) : outcome (option (Z * Z) * mem * rng) :=
  match state with
  | Some meta =>
      if prefill =? NULL then Ret (None, m, st)
      else
        let packet := prefill + (sz_mac + sz_ip + sz_cmn) in
        '(packet, plen, m) ← build_sctp_cmn_hdr_raw m packet plen (u16 (mt_src_port meta)) (u16 (mt_dst_port meta)) 0;
        '(packet, plen, m, st) ← build_ip_raw m st packet plen (mt_src_ip meta) (mt_dst_ip meta) PROTO_SCTP;
        '(packet, plen, m) ← build_mac_raw m packet plen (mt_gateway meta) (mt_dev meta) ETHERTYPE_IP;
        Ret (Some (packet, plen), m, st)
  | None => Ret (None, m, st)
  end.

Section code.
Context {CRC : Crc32Insn} {ENT : Entropy} {Q : Type} {PQ : PacketQueue Q}.

(** [assoc->prefilled_ring] and [assoc->tx_ring]: [None] is NULL. *)
Record rings := Rings { prefilled_ring : option Q; assoc_tx_ring : option Q }.

(** [cell = pop_ringbuf (ring)] and the reads of [cell->packet] and
    [cell->plen], which fault when the ring was empty. *)
Definition take_cell (r : option Q) : outcome (ringbuf_cell * Q) :=
  q ← get r;
  '(i, q) ← pq_pop q;
  c ← pq_cell q i;
  Ret (c, q).

Definition push_ring (r : option Q) (packet plen : Z) : outcome (option Q) :=
  q ← get r; '(_, q) ← pq_push q packet plen; Ret (Some q).

(** [ip->len = htons (plen - sizeof (mac_t));] and the checksum, without and
    with a new destination. *)
Definition fix_ip_len (m : mem) (ip plen : Z) : outcome mem :=
  chk ← ld m (ip + off_ip_check) 2;
  let len := htons (u32 (plen - sz_mac)) in
  m ← Mem.st m (ip + off_ip_len) 2 len;
  Mem.st m (ip + off_ip_check) 2 (update_check_len chk len).

Definition fix_ip_len_dst (m : mem) (ip plen dst_ip : Z) : outcome mem :=
  m ← Mem.st m (ip + off_ip_dest) 4 dst_ip;
  chk ← ld m (ip + off_ip_check) 2;
  let len := htons (u32 (plen - sz_mac)) in
  m ← Mem.st m (ip + off_ip_len) 2 len;
  Mem.st m (ip + off_ip_check) 2 (update_check_len_dst chk len dst_ip).

(** [cmn->tag], then the CRC over the common header and [len] bytes. *)
Definition fix_cmn (m : mem) (cmn tg len : Z) : outcome mem :=
  m ← Mem.st m (cmn + off_cmn_tag) 4 tg;
  m ← Mem.st m (cmn + off_cmn_check) 4 0;
  data ← load m cmn (Z.to_nat (sz_cmn + len));
  Mem.st m (cmn + off_cmn_check) 4 (generate_crc32c data).

(** The INIT-ACK's chunk: the cookie holds what the INIT said. *)
Definition init_ack_cookie (u : sctp_ulp_config) (a : sctp_peer) (itag : Z) : cookie_t :=
  Cookie (ver_tag a) itag (a_rwnd a) (os a) (mis a) (tsn a) (dst_tsn a) (dst_ip a) (ulp_src_ip u)
    (dst_port a) (ulp_src_port u).

Definition build_prefilled_mac_ip_sctp_init_ack_hdr (m : mem) (st : rng) (r : rings)
    (u : sctp_ulp_config) (a : sctp_peer) : outcome (Z * mem * rng * rings) :=
  '(cell, pre) ← take_cell (prefilled_ring r);
  let r := Rings (Some pre) (assoc_tx_ring r) in
  if cell_packet cell =? NULL then Ret (-1, m, st, r)
  else
    let packet := cell_packet cell + sz_mac + sz_ip + sz_cmn in
    let hdr_len := sz_fld + sz_init + sz_param + sz_cookie + HMAC_MD5_KEY_LEN in
    '(tg, st) ← get_random_from_buffer_u32 st;
    '(itsn, st) ← get_random_from_buffer_u32 st;
    let '(itag, st) := get_random_u32 st in
    let ck := init_ack_cookie u a itag in
    mac ← hmac_md5 (enc ck) cookie_key;
    let hdr := enc (Fld SCTP_INIT_ACK 0 (htons hdr_len))
      ++ enc (Init tg (htonl (ulp_src_arwnd u)) (htons (ulp_src_os u)) (htons (ulp_src_mis u)) itsn)
      ++ enc (Param (htons 7) (htons (sz_param + sz_cookie + HMAC_MD5_KEY_LEN))) ++ enc ck ++ mac in
    m ← store m packet hdr;
    let plen := u32 (cell_plen cell + hdr_len) in
    let cmn := packet - sz_cmn in
    let ip := cmn - sz_ip in
    m ← fix_ip_len_dst m ip plen (dst_ip a);
    m ← Mem.st m (cmn + off_cmn_dstp) 2 (dst_port a);
    m ← fix_cmn m cmn (ver_tag a) hdr_len;
    tx ← push_ring (assoc_tx_ring r) (cell_packet cell) plen;
    pre ← push_ring (prefilled_ring r) (cell_packet cell) (cell_plen cell);
    Ret (0, m, st, Rings pre tx).

(** [cookie] and [len] are [assoc->retry_ring] and [assoc->id], which
    [sctp_process_sctp_init_ack] uses to pass the cookie. *)
Definition build_prefilled_mac_ip_sctp_cookie_echo_hdr (m : mem) (r : rings) (tg cookie len : Z)
  : outcome (Z * mem * rings) :=
  '(cell, pre) ← take_cell (prefilled_ring r);
  let r := Rings (Some pre) (assoc_tx_ring r) in
  if cell_packet cell =? NULL then Ret (-1, m, r)
  else
    let packet := cell_packet cell + sz_mac + sz_ip + sz_cmn in
    m ← st_struct m packet (Fld SCTP_COOKIE_ECHO 0 (htons (sz_fld + len)));
    data ← load m cookie (Z.to_nat len);
    m ← store m (packet + sz_fld) data;
    let plen := u32 (cell_plen cell + (sz_fld + len)) in
    let cmn := packet - sz_cmn in
    let ip := cmn - sz_ip in
    m ← fix_ip_len m ip plen;
    m ← fix_cmn m cmn tg (ntohs (htons (sz_fld + len)));
    tx ← push_ring (assoc_tx_ring r) (cell_packet cell) plen;
    pre ← push_ring (prefilled_ring r) (cell_packet cell) (cell_plen cell);
    Ret (0, m, Rings pre tx).

Definition build_prefilled_mac_ip_sctp_cookie_ack_hdr (m : mem) (r : rings) (a : sctp_peer)
  : outcome (Z * mem * rings) :=
  '(cell, pre) ← take_cell (prefilled_ring r);
  let r := Rings (Some pre) (assoc_tx_ring r) in
  if cell_packet cell =? NULL then Ret (-1, m, r)
  else
    let packet := cell_packet cell + sz_mac + sz_ip + sz_cmn in
    m ← st_struct m packet (Fld SCTP_COOKIE_ACK 0 (htons sz_fld));
    let plen := u32 (cell_plen cell + sz_fld) in
    let cmn := packet - sz_cmn in
    let ip := cmn - sz_ip in
    m ← fix_ip_len_dst m ip plen (dst_ip a);
    m ← Mem.st m (cmn + off_cmn_dstp) 2 (dst_port a);
    m ← fix_cmn m cmn (ver_tag a) sz_fld;
    tx ← push_ring (assoc_tx_ring r) (cell_packet cell) plen;
    pre ← push_ring (prefilled_ring r) (cell_packet cell) (cell_plen cell);
    Ret (0, m, Rings pre tx).

(** The order of the two draws is the compiler's (see [build_sctp_init_hdr]).
    [ip->check] is a [u16], so the test for a carry is never true. *)
Definition build_prefilled_sctp_init_hdr (m : mem) (st : rng) (frame : option frame_data)
  : outcome (option frame_data * mem * rng) :=
  match frame_meta frame with
  | None => Ret (None, m, st)
  | Some (f, x) =>
      let packet := fr_packet f in
      '(tsn, st) ← get_random_from_buffer_u32 st;
      '(tg, st) ← get_random_from_buffer_u32 st;
      '(prefill, plen, m) ← build_sctp_init_hdr_raw m
         (packet + (sz_mac + sz_ip + sz_cmn + sz_fld + sz_init)) 0 tg (mt_src_arwnd x) (mt_src_os x) (mt_src_mis x) tsn;
      '(prefill, plen, m) ← build_sctp_fld_hdr_raw m prefill plen SCTP_INIT 0 (u16 (plen + sz_fld));
      let ip := packet + sz_mac in
      let cmn := ip + sz_ip in
      let plen := u16 (plen + fr_plen f) in
      len ← ld m (ip + off_ip_len) 2;
      let len' := htons (u32 (plen - sz_mac)) in
      m ← Mem.st m (ip + off_ip_len) 2 len';
      chk ← ld m (ip + off_ip_check) 2;
      m ← Mem.st m (ip + off_ip_check) 2 (u16 (chk + (len - len')));
      m ← Mem.st m (cmn + off_cmn_check) 4 0;
      data ← load m cmn (Z.to_nat (u32 (plen - sz_mac - sz_ip)));
      m ← Mem.st m (cmn + off_cmn_check) 4 (generate_crc32c data);
      Ret (Some (Frame prefill plen (fr_state f)), m, st)
  end.
End code.
Arguments rings Q : clear implicits.

(** ** Lemmas: the IPv4 header's checksum *)

(** The sum of the 16-bit words other than the length and the checksum. *)
Definition ip_words (h : ipv4_t) : Z :=
  ihl_ver h + 0x100 * tos h + indent h + offset h + ttl h + 0x100 * proto h
  + (src_addr h mod 0x10000 + src_addr h / 0x10000) + (dest_addr h mod 0x10000 + dest_addr h / 0x10000).

Lemma words16_le2 z (rest : bytes) : fits 2 z → words16 (le_enc 2 z ++ rest) = z :: words16 rest.
Proof.
  intros Hz. cbn [le_enc app words16]. f_equal. unfold fits in Hz. change (0x100 ^ Z.of_nat 2) with 0x10000 in Hz. width_lia.
Qed.
Lemma words16_le4 z (rest : bytes) :
  fits 4 z → words16 (le_enc 4 z ++ rest) = z mod 0x10000 :: z / 0x10000 :: words16 rest.
Proof.
  intros Hz. cbn [le_enc app words16]. unfold fits in Hz. change (0x100 ^ Z.of_nat 4) with 0x100000000 in Hz.
  f_equal; [|f_equal]; width_lia.
Qed.
Lemma words16_le11 y z (rest : bytes) :
  fits 1 y → fits 1 z → words16 (le_enc 1 y ++ le_enc 1 z ++ rest) = (y + 0x100 * z) :: words16 rest.
Proof.
  intros Hy Hz. cbn [le_enc app words16]. f_equal. unfold fits in *. change (0x100 ^ Z.of_nat 1) with 0x100 in *. width_lia.
Qed.

Lemma sum_ip_words (h : ipv4_t) : wf h → sum_words (words16 (enc h)) = ip_words h + ip_len h + ip_check h.
Proof.
  intros Hh. destruct h as [a b c d e f g i j k]. unfold wf in Hh. cbn [layout fields ipv4_struct ihl_ver tos ip_len indent
    offset ttl proto ip_check src_addr dest_addr] in Hh.
  repeat match goal with H : Forall2 _ (_ :: _) (_ :: _) |- _ => apply Forall2_cons in H as [??] end.
  change (enc (IPv4 a b c d e f g i j k)) with (le_enc 1 a ++ le_enc 1 b ++ le_enc 2 c ++ le_enc 2 d ++ le_enc 2 e
    ++ le_enc 1 f ++ le_enc 1 g ++ le_enc 2 i ++ le_enc 4 j ++ le_enc 4 k ++ []).
  rewrite words16_le11, !words16_le2, words16_le11, words16_le2, !words16_le4 by done.
  unfold ip_words. cbn [sum_words words16 ihl_ver tos ip_len indent offset ttl proto ip_check src_addr dest_addr]. lia.
Qed.

Lemma ip_check_of_spec h : wf h → ip_check_of h = 65535 - ocsum (ip_words h + ip_len h + ip_check h).
Proof.
  intros Hh. unfold ip_check_of. rewrite <-sum_ip_words by done.
  change sz_ip with (Z.of_nat (size ipv4_t)). rewrite <-(length_enc h).
  rewrite ip_checksum_spec by (try apply enc_ok; by rewrite length_enc).
  assert (0 ≤ sum_words (words16 (enc h))) as H0 by (apply sum_words_nonneg, words16_ok, enc_ok).
  pose proof (ocsum_range _ H0). rewrite (u16_id (ocsum _)) by done. by apply u16_lnot.
Qed.

Lemma wf_set_field `{!Struct T} (x : T) i w v : wf x → layout T !! i = Some w → fits w v → wf (set_field i v x).
Proof.
  intros Hx Hi Hv. unfold wf, set_field. rewrite fields_of_fields by (by rewrite length_insert, length_fields).
  rewrite <-(list_insert_id (layout T) i w Hi). by apply Forall2_insert.
Qed.

(** Checking the checksum of a header. *)
Lemma ip_valid_spec h :
  wf h → ip_valid h = (ip_check h =? 65535 - ocsum (ip_words h + ip_len h)).
Proof.
  intros Hh. unfold ip_valid. rewrite ip_check_of_spec.
  - destruct h as [a b c d e f g i j k].
    change (set_field 7 0 (IPv4 a b c d e f g i j k)) with (IPv4 a b c d e f g 0 j k).
    change (ip_words (IPv4 a b c d e f g 0 j k)) with (ip_words (IPv4 a b c d e f g i j k)).
    cbn [ip_len ip_check]. by rewrite Z.add_0_r.
  - apply (wf_set_field h 7 2); done.
Qed.

(** ** Lemmas: updates inside a packet *)

(** The bytes at [p] are now [bs]; nothing around them has changed. *)
Definition updated (m m' : mem) (p : Z) (bs : bytes) : Prop :=
  bytes_at m' p bs ∧ ∀ q, q < p ∨ p + Z.of_nat (length bs) ≤ q → m' !! q = m !! q.

Lemma updated_refl m p bs : bytes_at m p bs → updated m m p bs.
Proof. by split. Qed.

Lemma updated_trans m m1 m2 p bs1 bs2 :
  updated m m1 p bs1 → updated m1 m2 p bs2 → length bs1 = length bs2 → updated m m2 p bs2.
Proof.
  intros [_ H1] [Hat H2] Hl. split; [done|]. intros q Hq. rewrite H2, H1 by lia. done.
Qed.

Lemma updated_mapped m m' p bs q n : updated m m' p bs → mapped m q n → mapped m' q n.
Proof.
  intros [Hat Ho] Hm i Hi.
  destruct (decide (p ≤ q + Z.of_nat i < p + Z.of_nat (length bs))) as [Hin|Hout].
  - replace (q + Z.of_nat i) with (p + Z.of_nat (Z.to_nat (q + Z.of_nat i - p))) by lia.
    apply (bytes_at_mapped _ _ _ Hat). lia.
  - rewrite Ho by lia. by apply Hm.
Qed.

Lemma updated_other m m' p bs q cs :
  updated m m' p bs → bytes_at m q cs → q + Z.of_nat (length cs) ≤ p ∨ p + Z.of_nat (length bs) ≤ q →
  bytes_at m' q cs.
Proof. intros [_ Ho] Hat Hd i Hi. rewrite Ho by lia. by apply Hat. Qed.

(** Writing right behind a block extends it. *)
Lemma updated_append m p bs new :
  bytes_at m p bs → updated m (write m (p + Z.of_nat (length bs)) new) p (bs ++ new).
Proof.
  intros H. split.
  - apply bytes_at_app. split; [apply bytes_at_write_other; [done|lia] | apply bytes_at_write].
  - rewrite length_app. intros q Hq. rewrite lookup_write, decide_False by lia. done.
Qed.

Lemma length_set_field `{!Struct T} i v (x : T) : length (enc (set_field i v x)) = length (enc x).
Proof. by rewrite !length_enc. Qed.

Lemma upd_field `{!Struct T} m p pre (x : T) rest i w v :
  bytes_at m p (pre ++ enc x ++ rest) → layout T !! i = Some w →
  ∃ m', Mem.st m (p + (Z.of_nat (length pre) + field_off T i)) w v = Ret m'
  ∧ updated m m' p (pre ++ enc (set_field i v x) ++ rest).
Proof.
  intros Hat Hw. destruct (st_field m p pre x rest i w v Hat Hw) as [-> Hat'].
  eexists; split; [done|]. split; [done|]. intros q. rewrite !length_app, length_enc. intros Hq.
  rewrite lookup_write, decide_False; [done|]. rewrite length_le_enc.
  unfold field_off. pose proof (sum_take_le (layout T) i w Hw). unfold size in *. lia.
Qed.

Section frames.
Context {CRC : Crc32Insn}.
Implicit Types (mac : mac_t) (ip : ipv4_t) (cmn : sctp_cmn_hdr_t) (m : mem) (body : bytes).

(** The headers of a packet and what follows them. *)
Definition packet_at m p mac ip cmn body : Prop := bytes_at m p (enc mac ++ enc ip ++ enc cmn ++ body).
Definition repacked m m' p mac ip cmn body : Prop := updated m m' p (enc mac ++ enc ip ++ enc cmn ++ body).

Lemma length_headers mac ip cmn body : length (enc mac ++ enc ip ++ enc cmn ++ body) = (46 + length body)%nat.
Proof. by rewrite !length_app, (length_enc mac), (length_enc ip), (length_enc cmn). Qed.

Lemma repacked_trans m m1 m2 p mac ip cmn body mac' ip' cmn' :
  repacked m m1 p mac ip cmn body → repacked m1 m2 p mac' ip' cmn' body → repacked m m2 p mac' ip' cmn' body.
Proof. intros H1 H2. eapply updated_trans; [exact H1 | exact H2 |]. by rewrite !length_headers. Qed.

Lemma st_ip m p mac ip cmn body i w v :
  packet_at m p mac ip cmn body → layout ipv4_t !! i = Some w →
  ∃ m', Mem.st m (p + 14 + field_off ipv4_t i) w v = Ret m' ∧ repacked m m' p mac (set_field i v ip) cmn body.
Proof.
  intros Hat Hw. destruct (upd_field m p (enc mac) ip (enc cmn ++ body) i w v Hat Hw) as (m' & E & H).
  exists m'. split; [|done]. rewrite <-E. rewrite length_enc. change (Z.of_nat (size mac_t)) with 14.
  by rewrite Z.add_assoc.
Qed.

Lemma ld_ip m p mac ip cmn body i w v :
  packet_at m p mac ip cmn body → wf ip → layout ipv4_t !! i = Some w → fields ip !! i = Some v →
  ld m (p + 14 + field_off ipv4_t i) w = Ret v.
Proof.
  intros Hat Hip Hw Hv. pose proof (ld_field m p (enc mac) ip (enc cmn ++ body) i w v Hat Hw Hv
    (wf_field ip i w v Hip Hw Hv)) as E. rewrite length_enc in E. change (Z.of_nat (size mac_t)) with 14 in E.
  by rewrite Z.add_assoc in E.
Qed.

Lemma st_cmn m p mac ip cmn body i w v :
  packet_at m p mac ip cmn body → layout sctp_cmn_hdr_t !! i = Some w →
  ∃ m', Mem.st m (p + 34 + field_off sctp_cmn_hdr_t i) w v = Ret m' ∧ repacked m m' p mac ip (set_field i v cmn) body.
Proof.
  intros Hat Hw. destruct (upd_field m p (enc mac ++ enc ip) cmn body i w v) as (m' & E & H); [|done|].
  - by rewrite <-app_assoc.
  - exists m'. rewrite <-app_assoc in H. split; [|done]. rewrite <-E.
    rewrite length_app, (length_enc mac), (length_enc ip).
    change (Z.of_nat (size mac_t + size ipv4_t)) with 34. by rewrite Z.add_assoc.
Qed.

Lemma fix_ip_len_spec m p mac ip cmn body plen :
  packet_at m p mac ip cmn body → wf ip →
  let len := htons (u32 (plen - 14)) in
  ∃ m', fix_ip_len m (p + 14) plen = Ret m'
  ∧ repacked m m' p mac (set_field 7 (update_check_len (ip_check ip) len) (set_field 2 len ip)) cmn body.
Proof.
  intros Hat Hip len. unfold fix_ip_len, off_ip_check, off_ip_len, sz_mac. fold len.
  rewrite (ld_ip m p mac ip cmn body 7 2 (ip_check ip)) by done. cbn [mbind outcome_bind].
  destruct (st_ip m p mac ip cmn body 2 2 len Hat eq_refl) as (m1 & -> & H1). cbn [mbind outcome_bind].
  destruct (st_ip m1 p mac _ cmn body 7 2 (update_check_len (ip_check ip) len) (proj1 H1) eq_refl) as (m2 & -> & H2).
  exists m2. split; [done|]. by eapply repacked_trans.
Qed.

Lemma fix_ip_len_dst_spec m p mac ip cmn body plen dst :
  packet_at m p mac ip cmn body → wf ip → fits 4 dst →
  let len := htons (u32 (plen - 14)) in
  ∃ m', fix_ip_len_dst m (p + 14) plen dst = Ret m'
  ∧ repacked m m' p mac (set_field 7 (update_check_len_dst (ip_check ip) len dst)
      (set_field 2 len (set_field 9 dst ip))) cmn body.
Proof.
  intros Hat Hip Hd len. unfold fix_ip_len_dst, off_ip_check, off_ip_len, off_ip_dest, sz_mac. fold len.
  destruct (st_ip m p mac ip cmn body 9 4 dst Hat eq_refl) as (m1 & -> & H1). cbn [mbind outcome_bind].
  rewrite (ld_ip m1 p mac (set_field 9 dst ip) cmn body 7 2 (ip_check ip)); [|apply H1|by apply (wf_set_field ip 9 4)|done|by destruct ip].
  cbn [mbind outcome_bind].
  destruct (st_ip m1 p mac _ cmn body 2 2 len (proj1 H1) eq_refl) as (m2 & -> & H2). cbn [mbind outcome_bind].
  destruct (st_ip m2 p mac _ cmn body 7 2 (update_check_len_dst (ip_check ip) len dst) (proj1 H2) eq_refl) as (m3 & -> & H3).
  exists m3. split; [done|]. by eapply repacked_trans, H3; eapply repacked_trans.
Qed.

Definition cmn_done cmn tg body : sctp_cmn_hdr_t :=
  let c := set_field 3 0 (set_field 2 tg cmn) in set_field 3 (generate_crc32c (enc c ++ body)) c.

Lemma fix_cmn_spec m p mac ip cmn body tg len :
  packet_at m p mac ip cmn body → len = Z.of_nat (length body) →
  ∃ m', fix_cmn m (p + 34) tg len = Ret m' ∧ repacked m m' p mac ip (cmn_done cmn tg body) body.
Proof.
  intros Hat ->. unfold fix_cmn, off_cmn_tag, off_cmn_check, cmn_done.
  destruct (st_cmn m p mac ip cmn body 2 4 tg Hat eq_refl) as (m1 & -> & H1). cbn [mbind outcome_bind].
  destruct (st_cmn m1 p mac ip _ body 3 4 0 (proj1 H1) eq_refl) as (m2 & -> & H2). cbn [mbind outcome_bind].
  set (c := set_field 3 0 (set_field 2 tg cmn)) in *. rewrite (load_at' _ _ _ (enc c ++ body)).
  - cbn [mbind outcome_bind].
    destruct (st_cmn m2 p mac ip c body 3 4 (generate_crc32c (enc c ++ body)) (proj1 H2) eq_refl) as (m3 & -> & H3).
    exists m3. split; [done|]. by eapply repacked_trans, H3; eapply repacked_trans.
  - destruct H2 as [H2 _]. rewrite app_assoc in H2. apply bytes_at_app in H2 as [_ H2].
    rewrite length_app, (length_enc mac), (length_enc ip) in H2. exact H2.
  - rewrite length_app, (length_enc c). change (size sctp_cmn_hdr_t) with 12%nat. unfold sz_cmn. lia.
Qed.
End frames.

(** ** Lemmas: the builders *)
Section builders.
Context {CRC : Crc32Insn} {ENT : Entropy} {Q : Type} {PQ : PacketQueue Q}.
Implicit Types (mac : mac_t) (ip : ipv4_t) (cmn : sctp_cmn_hdr_t) (m : mem) (body : bytes).

(** What the two rings hold; [cap] is the capacity of either. *)
Definition rings_hold (cap : nat) (r : rings Q) (pre txq : list item) : Prop :=
  ∃ qp qt, r = Rings (Some qp) (Some qt) ∧ pq_rep cap qp pre ∧ pq_rep cap qt txq.

Lemma take_cell_spec cap q p n l :
  pq_rep cap q ((p, n) :: l) → ∃ s q', take_cell (Some q) = Ret (Cell s n p, q') ∧ pq_rep cap q' l.
Proof.
  intros H. destruct (pq_pop_ok _ _ _ _ H) as (i & q' & E & Hq & s & Hc).
  exists s, q'. unfold take_cell. cbn [get mbind outcome_bind]. rewrite E. cbn [mbind outcome_bind].
  rewrite Hc. done.
Qed.

Lemma push_ring_spec cap q l p n :
  pq_rep cap q l → (length l < cap)%nat →
  ∃ q', push_ring (Some q) p n = Ret (Some q') ∧ pq_rep cap q' (l ++ [(p, n)]).
Proof.
  intros H Hl. destruct (pq_push_ok _ _ _ p n H Hl) as (q' & E & Hq).
  exists q'. unfold push_ring. cbn [get mbind outcome_bind]. rewrite E. done.
Qed.

Lemma push_ring_total cap q l p n :
  pq_rep cap q l → ∃ q' l', push_ring (Some q) p n = Ret (Some q') ∧ pq_rep cap q' l'.
Proof.
  intros H. destruct (decide (length l < cap)%nat) as [Hl|Hl].
  - destruct (push_ring_spec cap q l p n H Hl) as (q' & ? & ?). eauto.
  - exists q, l. unfold push_ring. cbn [get]. rewrite bind_ret, (pq_push_full _ _ _ p n H) by lia. done.
Qed.

Lemma packet_append m p mac ip cmn body new :
  packet_at m p mac ip cmn body → mapped m (p + 46 + Z.of_nat (length body)) (length new) →
  ∃ m', store m (p + 46 + Z.of_nat (length body)) new = Ret m' ∧ repacked m m' p mac ip cmn (body ++ new).
Proof.
  intros Hat Hm. rewrite store_mapped by done. eexists; split; [done|].
  pose proof (updated_append m p _ new Hat) as H. rewrite length_headers in H.
  replace (p + Z.of_nat (46 + length body)) with (p + 46 + Z.of_nat (length body)) in H by lia.
  unfold repacked. rewrite <-!app_assoc in H. exact H.
Qed.

Lemma repacked_append m m1 m2 p mac ip cmn mac' ip' cmn' body new :
  repacked m m1 p mac ip cmn body → repacked m1 m2 p mac' ip' cmn' (body ++ new) →
  repacked m m2 p mac' ip' cmn' (body ++ new).
Proof.
  intros [_ H1] [Hat H2]. split; [done|]. rewrite length_headers in *. rewrite length_app in *.
  intros q Hq. rewrite H2, H1 by lia. done.
Qed.

(** The headers of the COOKIE-ECHO and of the two replies of the server. *)
Definition echo_ip ip (len : Z) : ipv4_t :=
  set_field 7 (update_check_len (ip_check ip) (htons len)) (set_field 2 (htons len) ip).
Definition reply_ip ip (len dst : Z) : ipv4_t :=
  set_field 7 (update_check_len_dst (ip_check ip) (htons len) dst) (set_field 2 (htons len) (set_field 9 dst ip)).

Lemma cookie_echo_spec cap m r p l txq mac ip cmn tg cookie ck :
  rings_hold cap r ((p, 46) :: l) txq → (length l < cap)%nat → (length txq < cap)%nat →
  0 < p → packet_at m p mac ip cmn [] → wf ip →
  bytes_at m cookie ck → Z.of_nat (length ck) ≤ 65485 →
  cookie + Z.of_nat (length ck) ≤ p ∨ p + 50 + Z.of_nat (length ck) ≤ cookie →
  mapped m (p + 46) (4 + length ck) →
  let n := Z.of_nat (length ck) in
  let fld := Fld SCTP_COOKIE_ECHO 0 (htons (4 + n)) in
  ∃ m' r', build_prefilled_mac_ip_sctp_cookie_echo_hdr m r tg cookie n = Ret (0, m', r')
  ∧ rings_hold cap r' (l ++ [(p, 46)]) (txq ++ [(p, 50 + n)])
  ∧ repacked m m' p mac (echo_ip ip (36 + n)) (cmn_done cmn tg (enc fld ++ ck)) (enc fld ++ ck).
Proof.
  intros (qp & qt & -> & Hqp & Hqt) Hl Ht Hp Hat Hip Hck Hn Hdis Hm n fld.
  unfold build_prefilled_mac_ip_sctp_cookie_echo_hdr. cbn [prefilled_ring assoc_tx_ring].
  destruct (take_cell_spec cap qp p 46 l Hqp) as (s & qp' & -> & Hqp'). cbn [mbind outcome_bind cell_packet cell_plen].
  rewrite (proj2 (Z.eqb_neq _ _)) by (unfold NULL; lia). cbv zeta.
  replace (p + sz_mac + sz_ip + sz_cmn) with (p + 46) by (unfold sz_mac, sz_ip, sz_cmn; lia).
  change (sz_fld + n) with (4 + n). fold fld.
  assert (length (enc fld) = 4%nat) as Efl by (by rewrite (length_enc fld)).
  destruct (packet_append m p mac ip cmn [] (enc fld) Hat) as (m1 & E1 & H1);
    [rewrite Efl; eapply mapped_sub; [exact Hm|cbn;lia..]|].
  cbn [length Z.of_nat app] in E1, H1. rewrite Z.add_0_r in E1.
  unfold st_struct. rewrite E1. cbn [mbind outcome_bind].
  assert (bytes_at m1 cookie ck) as Hck1
    by (apply (updated_other _ _ _ _ _ _ H1 Hck); rewrite length_headers, Efl; lia).
  rewrite (load_at' m1 cookie _ ck) by (done || (unfold n; by rewrite Nat2Z.id)). cbn [mbind outcome_bind].
  destruct (packet_append m1 p mac ip cmn (enc fld) ck (proj1 H1)) as (m2 & E2 & H2);
    [rewrite Efl; apply (updated_mapped _ _ _ _ _ _ H1); eapply mapped_sub; [exact Hm|lia..]|].
  rewrite Efl in E2. change (p + 46 + Z.of_nat 4) with (p + 46 + sz_fld) in E2. rewrite E2. cbn [mbind outcome_bind].
  replace (p + 46 - sz_cmn) with (p + 34) by (unfold sz_cmn; lia).
  replace (p + 34 - sz_ip) with (p + 14) by (unfold sz_ip; lia).
  rewrite (u32_id (46 + _)) by (unfold is_u32; lia).
  destruct (fix_ip_len_spec m2 p mac ip cmn (enc fld ++ ck) (46 + (4 + n)) (proj1 H2) Hip) as (m3 & -> & H3).
  cbn [mbind outcome_bind]. rewrite u32_id in H3 by (unfold is_u32; lia).
  replace (46 + (4 + n) - 14) with (36 + n) in H3 by lia. fold (echo_ip ip (36 + n)) in H3.
  rewrite htons_htons by (unfold is_u16; lia).
  destruct (fix_cmn_spec m3 p mac _ cmn (enc fld ++ ck) tg (4 + n) (proj1 H3)) as (m4 & -> & H4);
    [rewrite length_app, Efl; lia|].
  cbn [mbind outcome_bind].
  destruct (push_ring_spec cap qt txq p (46 + (4 + n)) Hqt Ht) as (qt' & -> & Hqt'). cbn [mbind outcome_bind].
  destruct (push_ring_spec cap qp' l p 46 Hqp' Hl) as (qp'' & -> & Hqp''). cbn [mbind outcome_bind].
  do 2 eexists. split; [done|]. split.
  - exists qp'', qt'. split; [done|]. split; [done|]. by replace (50 + n) with (46 + (4 + n)) by lia.
  - eapply repacked_trans, H4. eapply repacked_trans, H3. eapply repacked_append; done.
Qed.

(** The last writes of the two replies. *)
Definition reply_cmn cmn (a : sctp_peer) body : sctp_cmn_hdr_t :=
  cmn_done (set_field 1 (dst_port a) cmn) (ver_tag a) body.

Lemma reply_tail m p mac ip cmn body (a : sctp_peer) len :
  packet_at m p mac ip cmn body → wf ip → fits 4 (dst_ip a) → 
  Z.of_nat (length body) = len → len ≤ 65000 →
  ∃ m1 m2 m3, fix_ip_len_dst m (p + 14) (46 + len) (dst_ip a) = Ret m1
  ∧ Mem.st m1 (p + 34 + off_cmn_dstp) 2 (dst_port a) = Ret m2
  ∧ fix_cmn m2 (p + 34) (ver_tag a) len = Ret m3
  ∧ repacked m m3 p mac (reply_ip ip (32 + len) (dst_ip a)) (reply_cmn cmn a body) body.
Proof.
  intros Hat Hip Hd <- Hl.
  destruct (fix_ip_len_dst_spec m p mac ip cmn body (46 + Z.of_nat (length body)) (dst_ip a) Hat Hip Hd)
    as (m1 & -> & H1).
  rewrite u32_id in H1 by (unfold is_u32; lia).
  replace (46 + Z.of_nat (length body) - 14) with (32 + Z.of_nat (length body)) in H1 by lia.
  fold (reply_ip ip (32 + Z.of_nat (length body)) (dst_ip a)) in H1.
  destruct (st_cmn m1 p mac _ cmn body 1 2 (dst_port a) (proj1 H1) eq_refl) as (m2 & E2 & H2).
  destruct (fix_cmn_spec m2 p mac _ _ body (ver_tag a) (Z.of_nat (length body)) (proj1 H2) eq_refl) as (m3 & E3 & H3).
  exists m1, m2, m3. split_and!; try done. eapply repacked_trans, H3. by eapply repacked_trans.
Qed.

Lemma cookie_ack_spec cap m r p l txq mac ip cmn (a : sctp_peer) :
  rings_hold cap r ((p, 46) :: l) txq → (length l < cap)%nat → (length txq < cap)%nat →
  0 < p → packet_at m p mac ip cmn [] → wf ip → fits 4 (dst_ip a) → mapped m (p + 46) 4 →
  let fld := enc (Fld SCTP_COOKIE_ACK 0 (htons 4)) in
  ∃ m' r', build_prefilled_mac_ip_sctp_cookie_ack_hdr m r a = Ret (0, m', r')
  ∧ rings_hold cap r' (l ++ [(p, 46)]) (txq ++ [(p, 50)])
  ∧ repacked m m' p mac (reply_ip ip 36 (dst_ip a)) (reply_cmn cmn a fld) fld.
Proof.
  intros (qp & qt & -> & Hqp & Hqt) Hl Ht Hp Hat Hip Hd Hm fld.
  unfold build_prefilled_mac_ip_sctp_cookie_ack_hdr. cbn [prefilled_ring assoc_tx_ring].
  destruct (take_cell_spec cap qp p 46 l Hqp) as (s & qp' & -> & Hqp'). cbn [mbind outcome_bind cell_packet cell_plen].
  rewrite (proj2 (Z.eqb_neq _ _)) by (unfold NULL; lia). cbv zeta.
  replace (p + sz_mac + sz_ip + sz_cmn) with (p + 46) by (unfold sz_mac, sz_ip, sz_cmn; lia).
  change (u32 (46 + sz_fld)) with (46 + 4). change sz_fld with 4.
  assert (length fld = 4%nat) as Efl by done.
  destruct (packet_append m p mac ip cmn [] fld Hat) as (m1 & E1 & H1);
    [rewrite Efl; eapply mapped_sub; [exact Hm|cbn;lia..]|].
  cbn [length Z.of_nat app] in E1, H1. rewrite Z.add_0_r in E1.
  unfold st_struct. fold fld. rewrite E1. cbn [mbind outcome_bind].
  replace (p + 46 - sz_cmn) with (p + 34) by (unfold sz_cmn; lia).
  replace (p + 34 - sz_ip) with (p + 14) by (unfold sz_ip; lia).
  destruct (reply_tail m1 p mac ip cmn fld a 4 (proj1 H1) Hip Hd) as (m2 & m3 & m4 & -> & E3 & E4 & H4);
    [by rewrite Efl | lia |].
  cbn [mbind outcome_bind]. rewrite E3. cbn [mbind outcome_bind]. rewrite E4. cbn [mbind outcome_bind].
  destruct (push_ring_spec cap qt txq p (46 + 4) Hqt Ht) as (qt' & -> & Hqt'). cbn [mbind outcome_bind].
  destruct (push_ring_spec cap qp' l p 46 Hqp' Hl) as (qp'' & -> & Hqp''). cbn [mbind outcome_bind].
  do 2 eexists. split; [done|]. split.
  - by exists qp'', qt'.
  - by apply (repacked_trans m m1 m4 p mac ip cmn fld mac _ _ H1).
Qed.

(** The INIT-ACK's chunk. *)
Definition init_ack_chunk (u : sctp_ulp_config) (a : sctp_peer) (tg itsn itag : Z) : bytes :=
  let ck := init_ack_cookie u a itag in
  enc (Fld SCTP_INIT_ACK 0 (htons 80))
  ++ enc (Init tg (htonl (ulp_src_arwnd u)) (htons (ulp_src_os u)) (htons (ulp_src_mis u)) itsn)
  ++ enc (Param (htons 7) (htons 60)) ++ enc ck ++ cookie_mac ck.

Lemma length_init_ack_chunk u a tg itsn itag : length (init_ack_chunk u a tg itsn itag) = 80%nat.
Proof.
  unfold init_ack_chunk. cbv zeta. set (ck := init_ack_cookie u a itag). set (x := Init _ _ _ _ _).
  by rewrite !length_app, (length_enc x), (length_enc ck), length_cookie_mac.
Qed.

Lemma init_ack_chunk_ok u a tg itsn itag : bytes_ok (init_ack_chunk u a tg itsn itag).
Proof.
  unfold init_ack_chunk. cbv zeta. rewrite !bytes_ok_app. split_and!; auto using enc_ok, cookie_mac_ok.
Qed.

Lemma init_ack_spec cap m st r p l txq mac ip cmn (u : sctp_ulp_config) (a : sctp_peer) :
  rings_hold cap r ((p, 46) :: l) txq → (length l < cap)%nat → (length txq < cap)%nat →
  0 < p → packet_at m p mac ip cmn [] → wf ip → fits 4 (dst_ip a) → mapped m (p + 46) 80 → rng_ok st →
  ∃ m' st' r' tg itsn itag, build_prefilled_mac_ip_sctp_init_ack_hdr m st r u a = Ret (0, m', st', r')
  ∧ is_u32 tg ∧ is_u32 itsn ∧ is_u32 itag ∧ rng_ok st'
  ∧ rings_hold cap r' (l ++ [(p, 46)]) (txq ++ [(p, 126)])
  ∧ let chunk := init_ack_chunk u a tg itsn itag in
    repacked m m' p mac (reply_ip ip 112 (dst_ip a)) (reply_cmn cmn a chunk) chunk.
Proof.
  intros (qp & qt & -> & Hqp & Hqt) Hl Ht Hp Hat Hip Hd Hm Hst.
  unfold build_prefilled_mac_ip_sctp_init_ack_hdr. cbn [prefilled_ring assoc_tx_ring].
  destruct (take_cell_spec cap qp p 46 l Hqp) as (s & qp' & -> & Hqp'). cbn [mbind outcome_bind cell_packet cell_plen].
  rewrite (proj2 (Z.eqb_neq _ _)) by (unfold NULL; lia). cbv zeta.
  replace (p + sz_mac + sz_ip + sz_cmn) with (p + 46) by (unfold sz_mac, sz_ip, sz_cmn; lia).
  change (sz_fld + sz_init + sz_param + sz_cookie + HMAC_MD5_KEY_LEN) with 80.
  change (sz_param + sz_cookie + HMAC_MD5_KEY_LEN) with 60.
  destruct (draw_u32 st Hst) as (tg & st1 & -> & Htg & Hst1). cbn [mbind outcome_bind].
  destruct (draw_u32 st1 Hst1) as (itsn & st2 & -> & Hitsn & Hst2). cbn [mbind outcome_bind].
  pose proof (get_random_int_range 4 st2) as Hr. pose proof (get_random_int_ok 4 st2 Hst2) as Hst3.
  unfold get_random_u32. destruct (get_random_int 4 st2) as [itag st3]. cbn [fst snd] in Hr, Hst3.
  rewrite cookie_hmac. cbn [mbind outcome_bind]. fold (init_ack_chunk u a tg itsn itag).
  pose proof (length_init_ack_chunk u a tg itsn itag) as Ech. set (chunk := init_ack_chunk u a tg itsn itag) in *.
  change (u32 (46 + 80)) with (46 + 80).
  destruct (packet_append m p mac ip cmn [] chunk Hat) as (m1 & E1 & H1);
    [rewrite Ech; eapply mapped_sub; [exact Hm|cbn;lia..]|].
  cbn [length Z.of_nat app] in E1, H1. rewrite Z.add_0_r in E1. rewrite E1. cbn [mbind outcome_bind].
  replace (p + 46 - sz_cmn) with (p + 34) by (unfold sz_cmn; lia).
  replace (p + 34 - sz_ip) with (p + 14) by (unfold sz_ip; lia).
  destruct (reply_tail m1 p mac ip cmn chunk a 80 (proj1 H1) Hip Hd) as (m2 & m3 & m4 & -> & E3 & E4 & H4);
    [by rewrite Ech | lia |].
  cbn [mbind outcome_bind]. rewrite E3. cbn [mbind outcome_bind]. rewrite E4. cbn [mbind outcome_bind].
  destruct (push_ring_spec cap qt txq p (46 + 80) Hqt Ht) as (qt' & -> & Hqt'). cbn [mbind outcome_bind].
  destruct (push_ring_spec cap qp' l p 46 Hqp' Hl) as (qp'' & -> & Hqp''). cbn [mbind outcome_bind].
  pose proof (repacked_trans _ _ _ _ _ _ _ _ _ _ _ H1 H4) as H.
  do 2 eexists. exists (Rings (Some qp'') (Some qt')), tg, itsn, itag. split; [reflexivity|].
  do 4 (split; [assumption|]). split; [by exists qp'', qt' | exact H].
Qed.
End builders.

(** ** Lemmas: when the packets pass the receiver's check *)

(** A prefilled header: its checksum is right for length 0. *)
Definition ready_ip (ip : ipv4_t) : Prop :=
  wf ip ∧ 0 < ip_words ip ∧ ip_check ip = 65535 - ocsum (ip_words ip).

(** The two 16-bit words of an address. *)
Definition addr_words (a : Z) : Z := a mod 0x10000 + a / 0x10000.

Lemma htons_len n : 0 < n < 65535 → 0 < htons n < 65535.
Proof.
  intros Hn. pose proof (htons_range n) as Hr. unfold is_u16 in Hr.
  assert (is_u16 n) as Hu by (unfold is_u16; lia). pose proof (htons_htons n Hu) as E.
  destruct (decide (htons n = 0)) as [E0|]; [rewrite E0 in E; vm_compute in E; lia|].
  destruct (decide (htons n = 65535)) as [E1|]; [rewrite E1 in E; vm_compute in E; lia|]. lia.
Qed.

Lemma ocsum_shift s x : 0 < s → 0 < x < 65535 → ocsum (s + x) ≠ ocsum s.
Proof.
  intros Hs Hx. unfold ocsum. destruct (Z.eqb_spec (s + x) 0), (Z.eqb_spec s 0); Z.div_mod_to_equations; lia.
Qed.

Lemma ocsum_period s k : 0 < s → 0 ≤ k → ocsum (s + k * 65535) = ocsum s.
Proof.
  intros Hs Hk. unfold ocsum. destruct (Z.eqb_spec (s + k * 65535) 0), (Z.eqb_spec s 0); try lia.
  replace (s + k * 65535 - 1) with (s - 1 + k * 65535) by lia. by rewrite Z_mod_plus_full.
Qed.

Lemma fits_check s : 0 ≤ s → fits 2 (65535 - ocsum s).
Proof. intros Hs. pose proof (ocsum_range s Hs) as H. unfold fits. change (0x100 ^ Z.of_nat 2) with 0x10000. unfold is_u16 in H. lia. Qed.

Lemma fits_fold v : fits 2 (fold_check v).
Proof. apply u16_range. Qed.

Lemma wf_echo_ip ip len : wf ip → wf (echo_ip ip len).
Proof.
  intros H. unfold echo_ip. apply (wf_set_field _ 7 2); [|done|apply fits_fold].
  apply (wf_set_field _ 2 2); auto with bytes.
Qed.

Lemma wf_reply_ip ip len dst : wf ip → fits 4 dst → wf (reply_ip ip len dst).
Proof.
  intros H Hd. unfold reply_ip. apply (wf_set_field _ 7 2); [|done|apply fits_fold].
  apply (wf_set_field _ 2 2); auto with bytes. by apply (wf_set_field _ 9 4).
Qed.

Lemma echo_ip_words ip len :
  ip_words (echo_ip ip len) = ip_words ip ∧ ip_len (echo_ip ip len) = htons len
  ∧ ip_check (echo_ip ip len) = update_check_len (ip_check ip) (htons len).
Proof. by destruct ip. Qed.

Lemma reply_ip_words ip len dst :
  ip_words (reply_ip ip len dst) = ip_words ip - addr_words (dest_addr ip) + addr_words dst
  ∧ ip_len (reply_ip ip len dst) = htons len
  ∧ ip_check (reply_ip ip len dst) = update_check_len_dst (ip_check ip) (htons len) dst.
Proof.
  destruct ip as [a b c d e f g h i j]. split_and!; [|done|done].
  change (ip_words (reply_ip (IPv4 a b c d e f g h i j) len dst)) with (ip_words (IPv4 a b c d e f g h i dst)).
  unfold ip_words, addr_words. cbn [ihl_ver tos indent offset ttl proto src_addr dest_addr]. lia.
Qed.

(** A fresh prefilled header with its length updated is valid; updated twice it
    is not. *)
Lemma echo_ip_valid ip len : ready_ip ip → ip_valid (echo_ip ip len) = true.
Proof.
  intros (Hip & Hw & Hc). rewrite ip_valid_spec by by apply wf_echo_ip.
  destruct (echo_ip_words ip len) as (-> & -> & ->). rewrite Hc, update_check_len_spec by auto with bytes.
  apply Z.eqb_refl.
Qed.

Lemma echo_ip_stale ip len :
  ready_ip ip → 0 < len < 65535 → ip_valid (echo_ip (echo_ip ip len) len) = false.
Proof.
  intros (Hip & Hw & Hc) Hlen. rewrite ip_valid_spec by by apply wf_echo_ip, wf_echo_ip.
  destruct (echo_ip_words (echo_ip ip len) len) as (-> & -> & ->).
  destruct (echo_ip_words ip len) as (-> & _ & ->). pose proof (htons_len len Hlen).
  rewrite Hc, !update_check_len_spec by (auto with bytes; lia).
  apply Z.eqb_neq. intros E. apply (ocsum_shift (ip_words ip + htons len) (htons len)); lia.
Qed.

(** A prefilled header whose destination is the broadcast placeholder, turned
    into a reply to [dst]: [borrow_free] is what the arithmetic needs. *)
Definition borrow_free (check len dst : Z) : bool :=
  let v := u32 (check - len - dst) in
  (len + dst <=? check) || (0x10000 <=? v mod 0x10000 + v / 0x10000).

Lemma reply_ip_valid ip len dst :
  ready_ip ip → dest_addr ip = 0xFFFFFFFF → 0x1FFFE < ip_words ip → 0 ≤ dst ≤ 0xFFFEFFFF →
  ip_valid (reply_ip ip len dst) = borrow_free (ip_check ip) (htons len) dst.
Proof.
  intros (Hip & Hw & Hc) Hd Hw2 Hdst.
  rewrite ip_valid_spec by (apply wf_reply_ip; [done|unfold fits; change (0x100 ^ Z.of_nat 4) with 0x100000000; lia]).
  destruct (reply_ip_words ip len dst) as (-> & -> & ->). rewrite Hd.
  change (addr_words 0xFFFFFFFF) with 0x1FFFE.
  set (s := ip_words ip - 0x1FFFE).
  assert (ip_check ip = 65535 - ocsum s) as Hc'.
  { rewrite Hc. replace (ip_words ip) with (s + 2 * 65535) by (unfold s; lia). by rewrite ocsum_period by (unfold s; lia). }
  pose proof (update_check_len_dst_spec s (htons len) dst ltac:(unfold s; lia) (htons_range len) Hdst) as Hiff.
  cbv zeta in Hiff. rewrite <-Hc' in Hiff.
  replace (s + addr_words dst + htons len) with (s + htons len + (dst mod 0x10000 + dst / 0x10000))
    by (unfold addr_words; lia).
  unfold borrow_free. apply eq_true_iff_eq. rewrite Z.eqb_eq, orb_true_iff, !Z.leb_le. exact Hiff.
Qed.

Section checked.
Context {CRC : Crc32Insn} {ENT : Entropy} {Q : Type} {PQ : PacketQueue Q}.
Implicit Types (mac : mac_t) (ip : ipv4_t) (cmn : sctp_cmn_hdr_t) (m : mem) (body : bytes).

Lemma wf_cmn_done cmn tg body : wf cmn → fits 4 tg → wf (cmn_done cmn tg body).
Proof.
  intros H Ht. unfold cmn_done. apply (wf_set_field _ 3 4); [|done|apply generate_crc32c_u32].
  apply (wf_set_field _ 3 4); [|done|done]. by apply (wf_set_field _ 2 4).
Qed.

Lemma cmn_done_valid cmn tg fld body : sctp_valid (cmn_done cmn tg (enc fld ++ body)) fld body = true.
Proof. unfold sctp_valid, cmn_done. destruct cmn. apply Z.eqb_refl. Qed.

(** The receiver's verdict on a built packet depends on the IPv4 checksum only. *)
Lemma built_verdict m p mac ip cmn tg (fld : sctp_fld_hdr_t) body len :
  packet_at m p mac ip (cmn_done cmn tg (enc fld ++ body)) (enc fld ++ body) →
  wf ip → wf cmn → fits 4 tg → wf fld → bytes_ok body →
  ip_len ip = htons (32 + len) → fld_len fld = htons len → len = 4 + Z.of_nat (length body) → len ≤ 65503 →
  if ip_valid ip then sctp_check_checksums m p (46 + len) = Ret (0, m)
  else ∃ m', sctp_check_checksums m p (46 + len) = Ret (-1, m').
Proof.
  intros Hat Hip Hcmn Ht Hfld Hok Hil Hfl Hlen Hle.
  pose proof (check_spec m p (46 + len) mac ip (cmn_done cmn tg (enc fld ++ body)) fld body Hat Hip
    (wf_cmn_done _ _ _ Hcmn Ht) Hfld Hok) as H.
  rewrite Hfl, htons_htons in H by (unfold is_u16; lia).
  specialize (H Hlen ltac:(lia)). unfold frame_valid in H.
  rewrite cmn_done_valid, Hil, htons_htons in H by (unfold is_u16; lia).
  rewrite (proj2 (Z.leb_le _ _)) in H by (unfold sz_ip, sz_cmn, sz_fld; lia).
  by rewrite !andb_true_r in H.
Qed.
End checked.

(** ** Lemmas: prefilling *)
Section prefill.
Context {CRC : Crc32Insn} {ENT : Entropy}.

Lemma set_check_words v (h : ipv4_t) : ip_words (set_field 7 v h) = ip_words h.
Proof. by destruct h. Qed.
Lemma set_check_check v (h : ipv4_t) : ip_check (set_field 7 v h) = v.
Proof. by destruct h. Qed.

Lemma prefill_ip_wf (meta : if_ip_sctp_meta_t) r : wf meta → wf (prefill_ip (mt_src_ip meta) (mt_dst_ip meta) r).
Proof.
  intros Hx. change (prefill_ip _ _ _) with (IPv4 0x45 0 0 (u16 r) 0 228 132 0 (mt_src_ip meta) (mt_dst_ip meta)).
  apply wf_ipv4; auto with bytes; [by apply (wf_field meta 6) | by apply (wf_field meta 7)].
Qed.

Lemma prefill_ip_words (meta : if_ip_sctp_meta_t) r (h := prefill_ip (mt_src_ip meta) (mt_dst_ip meta) r) :
  wf meta → 0 < ip_words h.
Proof.
  intros Hx. unfold ip_words. change (ihl_ver h) with 0x45. change (tos h) with 0. change (indent h) with (u16 r).
  change (offset h) with 0. change (ttl h) with 228. change (proto h) with 132.
  change (src_addr h) with (mt_src_ip meta). change (dest_addr h) with (mt_dst_ip meta).
  pose proof (u16_range r). pose proof (fits4_u32 _ (wf_field meta 6 4 _ Hx eq_refl eq_refl)) as H1.
  pose proof (fits4_u32 _ (wf_field meta 7 4 _ Hx eq_refl eq_refl)) as H2.
  unfold_widths. Z.div_mod_to_equations. lia.
Qed.

Lemma prefill_spec m st p (meta : if_ip_sctp_meta_t) :
  0 < p → mapped m p 46 → wf meta →
  ∃ m' (mac : mac_t) ip cmn, prefill_mac_ip_sctp m st p (Some meta) = Ret (Some 46, m', snd (get_random_u32 st))
  ∧ packet_at m' p mac ip cmn [] ∧ ready_ip ip ∧ wf cmn
  ∧ src_addr ip = mt_src_ip meta ∧ dest_addr ip = mt_dst_ip meta
  ∧ cmn = Cmn (htons (mt_src_port meta)) (htons (mt_dst_port meta)) 0 0
  ∧ ∀ q, q < p ∨ p + 46 ≤ q → m' !! q = m !! q.
Proof.
  intros Hp Hm Hx. unfold prefill_mac_ip_sctp. rewrite (proj2 (Z.eqb_neq _ _)) by (unfold NULL; lia).
  destruct (get_random_u32 st) as [r st']. cbv zeta.
  set (h := prefill_ip (mt_src_ip meta) (mt_dst_ip meta) r). set (ip := set_field 7 (ip_check_of h) h).
  set (cmn := Cmn _ _ 0 0). set (mac := Mac (mt_gateway meta) (mt_dev meta) (htons ETHERTYPE_IP)).
  pose proof (prefill_ip_wf meta r Hx) as Hh. fold h in Hh.
  assert (ip_check_of h = 65535 - ocsum (ip_words h)) as Eck.
  { rewrite ip_check_of_spec by done. change (ip_len h) with 0. change (ip_check h) with 0. by rewrite !Z.add_0_r. }
  pose proof (prefill_ip_words meta r Hx) as Hw. fold h in Hw.
  assert (∀ q (bs : bytes), p ≤ q → q + Z.of_nat (length bs) ≤ p + 46 → mapped m q (length bs)) as Hmap
    by (intros q bs H1 H2; eapply mapped_sub; [exact Hm|lia..]).
  rewrite store_mapped by (apply Hmap; rewrite ?length_le_enc; lia). cbn [mbind outcome_bind].
  rewrite store_mapped by (apply mapped_write, Hmap; rewrite ?length_le_enc; lia). cbn [mbind outcome_bind].
  rewrite store_mapped by (do 2 apply mapped_write; apply Hmap; rewrite ?length_le_enc; lia). cbn [mbind outcome_bind].
  unfold st_struct.
  assert (length (enc ip) = 20%nat ∧ length (enc cmn) = 12%nat) as [Ei Ec]
    by (split; [by rewrite (length_enc ip) | by rewrite (length_enc cmn)]).
  rewrite store_mapped by (do 3 apply mapped_write; apply Hmap; rewrite ?Ei; unfold sz_mac; lia). cbn [mbind outcome_bind].
  rewrite store_mapped by (do 4 apply mapped_write; apply Hmap; rewrite ?Ec; unfold sz_mac, sz_ip; lia). cbn [mbind outcome_bind].
  change (sz_mac + sz_ip + sz_cmn) with 46. eexists _, mac, ip, cmn. split; [reflexivity|].
  replace (p + sz_mac) with (p + 14) by (unfold sz_mac; lia).
  replace (p + sz_ip + sz_mac) with (p + 34) by (unfold sz_mac, sz_ip; lia).
  split; [|split; [|split; [|split; [reflexivity|split; [reflexivity|split; [reflexivity|]]]]]].
  - unfold packet_at. rewrite app_nil_r.
    change (enc mac) with (le_enc 6 (mt_gateway meta) ++ le_enc 6 (mt_dev meta) ++ le_enc 2 (htons ETHERTYPE_IP) ++ []).
    rewrite app_nil_r, <-!app_assoc, !bytes_at_app, !length_le_enc, Ei.
    revert Ei Ec. generalize (enc ip) (enc cmn). clear. intros bi bc Ei Ec.
    change (Z.of_nat 6) with 6. change (Z.of_nat 2) with 2. change (Z.of_nat 20) with 20.
    replace (p + 6 + 6) with (p + 12) by lia. replace (p + 12 + 2) with (p + 14) by lia.
    replace (p + 14 + 20) with (p + 34) by lia.
    split_and!; repeat first [apply bytes_at_write | apply bytes_at_write_other; [|rewrite ?length_le_enc, ?Ei, ?Ec; lia]].
  - unfold ready_ip, ip. rewrite set_check_words, set_check_check.
    split; [|by split]. apply (wf_set_field h 7 2); [exact Hh | reflexivity | apply ip_check_of_u16].
  - apply wf_cmn; auto with bytes.
  - revert Ei Ec. generalize (enc ip) (enc cmn). clear. intros bi bc Ei Ec q Hq.
    rewrite !lookup_write, !length_le_enc, Ei, Ec, !decide_False by lia. reflexivity.
Qed.
End prefill.

Lemma wf_chunk_fld type n : is_u8 type → wf (Fld type 0 (htons n)).
Proof. intros Ht. apply wf_fld; auto with bytes. Qed.

Section replies.
Context {CRC : Crc32Insn} {ENT : Entropy} {Q : Type} {PQ : PacketQueue Q}.
Implicit Types (mac : mac_t) (ip : ipv4_t) (cmn : sctp_cmn_hdr_t) (m : mem) (body : bytes).

(** A server's prefilled header: addressed to 255.255.255.255. *)
Definition server_ip ip : Prop := ready_ip ip ∧ dest_addr ip = 0xFFFFFFFF ∧ 0x1FFFE < ip_words ip.

(** What a reply needs of the peer's data. *)
Definition peer_ok (a : sctp_peer) : Prop :=
  0 ≤ dst_ip a ≤ 0xFFFEFFFF ∧ fits 2 (dst_port a) ∧ is_u32 (ver_tag a).

Lemma peer_dst_fits a : peer_ok a → fits 4 (dst_ip a).
Proof. intros (H & _). unfold fits. change (0x100 ^ Z.of_nat 4) with 0x100000000. lia. Qed.

Definition verdict (m : mem) (p plen : Z) (good : bool) : Prop :=
  if good then sctp_check_checksums m p plen = Ret (0, m)
  else ∃ m', sctp_check_checksums m p plen = Ret (-1, m').

Lemma reply_verdict m p mac ip cmn (a : sctp_peer) type body len :
  packet_at m p mac (reply_ip ip (32 + len) (dst_ip a)) (reply_cmn cmn a (enc (Fld type 0 (htons len)) ++ body))
    (enc (Fld type 0 (htons len)) ++ body) →
  server_ip ip → wf cmn → peer_ok a → is_u8 type → bytes_ok body →
  len = 4 + Z.of_nat (length body) → len ≤ 65000 →
  verdict m p (46 + len) (borrow_free (ip_check ip) (htons (32 + len)) (dst_ip a)).
Proof.
  intros Hat (Hr & Hd & Hw) Hcmn Ha Hty Hok Hlen Hle. pose proof (peer_dst_fits a Ha) as Hf.
  destruct Ha as (Hdst & Hport & Htg). pose proof Hr as [Hip _].
  unfold verdict. rewrite <-reply_ip_valid by done.
  apply (built_verdict m p mac _ (set_field 1 (dst_port a) cmn) (ver_tag a) (Fld type 0 (htons len)) body len Hat);
    try done.
  - by apply wf_reply_ip.
  - by apply (wf_set_field cmn 1 2).
  - by apply wf_chunk_fld.
  - lia.
Qed.

Lemma packet_body m p mac ip cmn body : packet_at m p mac ip cmn body → bytes_at m (p + 46) body.
Proof.
  intros H. unfold packet_at in H. rewrite 2!app_assoc in H. apply bytes_at_app in H as [_ H].
  rewrite <-app_assoc, !length_app, (length_enc mac), (length_enc ip), (length_enc cmn) in H. exact H.
Qed.
End replies.

(** ** Lemmas: the INIT built in a prefilled packet *)
Section init.
Context {CRC : Crc32Insn} {ENT : Entropy}.
Implicit Types (mac : mac_t) (ip : ipv4_t) (cmn : sctp_cmn_hdr_t) (m : mem) (body : bytes).

(** The header of the INIT, its length and its checksum updated. *)
Definition init_ip ip (len : Z) : ipv4_t :=
  set_field 7 (u16 (ip_check ip + (ip_len ip - htons len))) (set_field 2 (htons len) ip).

(** The new checksum, as an integer, is one that 16 bits can sum to. *)
Definition init_check_fits ip (len : Z) : bool :=
  let v := ip_check ip + (ip_len ip - htons len) in (0 <=? v) && (v <? 65535).

Lemma wf_init_ip ip len : wf ip → wf (init_ip ip len).
Proof.
  intros H. apply (wf_set_field _ 7 2); [apply (wf_set_field _ 2 2); auto with bytes | done | apply u16_range].
Qed.

Lemma init_ip_valid ip len :
  wf ip → 0 < ip_words ip → ip_valid ip = true → ip_valid (init_ip ip len) = init_check_fits ip len.
Proof.
  intros Hip Hw Hv. rewrite ip_valid_spec in Hv by done. apply Z.eqb_eq in Hv.
  rewrite ip_valid_spec by by apply wf_init_ip.
  assert (ip_words (init_ip ip len) = ip_words ip ∧ ip_len (init_ip ip len) = htons len
    ∧ ip_check (init_ip ip len) = u16 (ip_check ip + (ip_len ip - htons len))) as (-> & -> & ->) by by destruct ip.
  unfold init_check_fits. rewrite Hv. pose proof (htons_range len) as Hl.
  pose proof (wf_field ip 2 2 _ Hip eq_refl eq_refl) as HL. unfold fits in HL. change (0x100 ^ Z.of_nat 2) with 0x10000 in HL.
  generalize dependent (ip_len ip). intros L Hv HL. generalize dependent (htons len). intros n Hn.
  generalize dependent (ip_words ip). intros s Hs Hv.
  clear Hv. unfold ocsum, is_u16 in *. rewrite !(proj2 (Z.eqb_neq (_ + _) 0)) by lia.
  assert ((s + n - 1) mod 65535 = ((s + L - 1) mod 65535 + (n - L)) mod 65535) as ->
    by (rewrite Zplus_mod_idemp_l; f_equal; lia).
  pose proof (Z.mod_pos_bound (s + L - 1) 65535 ltac:(lia)) as Hr. generalize dependent ((s + L - 1) mod 65535).
  intros r Hr. apply eq_true_iff_eq. rewrite andb_true_iff, Z.eqb_eq, Z.leb_le, Z.ltb_lt.
  unfold u16, is_u16 in *. Z.div_mod_to_equations. lia.
Qed.

Lemma packet_prepended m m' p mac ip cmn body :
  packet_at m p mac ip cmn [] → prepended m m' (p + 46 + Z.of_nat (length body)) body [] → repacked m m' p mac ip cmn body.
Proof.
  intros Hat (Hb & _ & Ho). rewrite app_nil_r in Hb.
  replace (p + 46 + Z.of_nat (length body) - Z.of_nat (length body)) with (p + 46) in * by lia. split.
  - pose proof (length_headers mac ip cmn []) as E. unfold packet_at in Hat. rewrite app_nil_r in *.
    rewrite 2!app_assoc. apply bytes_at_app. rewrite <-app_assoc, E. split; [|exact Hb].
    intros i Hi. rewrite Ho by (rewrite E in Hi; cbn in Hi; lia). by apply Hat.
  - rewrite length_headers. intros q Hq. apply Ho. lia.
Qed.

(** The IPv4 length, its checksum and the CRC. *)
Lemma init_headers_spec m p mac ip cmn body :
  packet_at m p mac ip cmn body → wf ip →
  let len := 32 + Z.of_nat (length body) in
  ∃ m1 m2 m3 m4, ld m (p + 14 + off_ip_len) 2 = Ret (ip_len ip)
  ∧ Mem.st m (p + 14 + off_ip_len) 2 (htons len) = Ret m1
  ∧ ld m1 (p + 14 + off_ip_check) 2 = Ret (ip_check ip)
  ∧ Mem.st m1 (p + 14 + off_ip_check) 2 (u16 (ip_check ip + (ip_len ip - htons len))) = Ret m2
  ∧ Mem.st m2 (p + 34 + off_cmn_check) 4 0 = Ret m3
  ∧ load m3 (p + 34) (12 + length body) = Ret (enc (set_field 3 0 cmn) ++ body)
  ∧ Mem.st m3 (p + 34 + off_cmn_check) 4 (generate_crc32c (enc (set_field 3 0 cmn) ++ body)) = Ret m4
  ∧ repacked m m4 p mac (init_ip ip len) (cmn_done cmn (tag cmn) body) body.
Proof.
  intros Hat Hip len.
  destruct (st_ip m p mac ip cmn body 2 2 (htons len) Hat eq_refl) as (m1 & E1 & H1).
  assert (wf (set_field 2 (htons len) ip)) as Hip1 by (apply (wf_set_field _ 2 2); auto with bytes).
  destruct (st_ip m1 p mac _ cmn body 7 2 (u16 (ip_check ip + (ip_len ip - htons len))) (proj1 H1) eq_refl) as (m2 & E2 & H2).
  destruct (st_cmn m2 p mac _ cmn body 3 4 0 (proj1 H2) eq_refl) as (m3 & E3 & H3).
  set (c := set_field 3 0 cmn) in *.
  destruct (st_cmn m3 p mac _ c body 3 4 (generate_crc32c (enc c ++ body)) (proj1 H3) eq_refl) as (m4 & E4 & H4).
  exists m1, m2, m3, m4. split_and!; try done.
  - by apply (ld_ip m p mac ip cmn body 2 2).
  - apply (ld_ip m1 p mac (set_field 2 (htons len) ip) cmn body 7 2); [apply H1 | done | done | by destruct ip].
  - apply load_at'; [|by rewrite length_app, (length_enc c)].
    destruct H3 as [H3 _]. rewrite app_assoc in H3. apply bytes_at_app in H3 as [_ H3].
    rewrite length_app, (length_enc mac), length_set_field, length_set_field, (length_enc ip) in H3. exact H3.
  - replace (cmn_done cmn (tag cmn) body) with (set_field 3 (generate_crc32c (enc c ++ body)) c) by (by destruct cmn).
    eapply repacked_trans; [exact H1|]. eapply repacked_trans; [exact H2|]. eapply repacked_trans; [exact H3 | exact H4].
Qed.
End init.

(** ** Properties *)
Section properties.
Context {CRC : Crc32Insn} {ENT : Entropy} {Q : Type} {PQ : PacketQueue Q}.

(** C21: a packet prefilled by [prefill_mac_ip_sctp] and taken from the ring by
    [build_prefilled_mac_ip_sctp_cookie_echo_hdr] becomes a COOKIE-ECHO whose
    chunk is the cookie received; it is queued for transmission with its
    length, and it passes the receiver's check. *)
Theorem prefilled_echo_passes cap m st p (meta : if_ip_sctp_meta_t) :
  0 < p → wf meta → mapped m p 46 →
  ∃ m1 st1, prefill_mac_ip_sctp m st p (Some meta) = Ret (Some 46, m1, st1)
  ∧ (∀ q, q < p ∨ p + 46 ≤ q → m1 !! q = m !! q)
  ∧ ∀ r l txq tg cookie ck, let n := Z.of_nat (length ck) in
    rings_hold cap r ((p, 46) :: l) txq → (length l < cap)%nat → (length txq < cap)%nat →
    is_u32 tg → bytes_at m1 cookie ck → bytes_ok ck → n ≤ 65485 → cookie + n ≤ p ∨ p + 50 + n ≤ cookie →
    mapped m1 (p + 46) (4 + length ck) →
    ∃ m2 r2, build_prefilled_mac_ip_sctp_cookie_echo_hdr m1 r tg cookie n = Ret (0, m2, r2)
    ∧ rings_hold cap r2 (l ++ [(p, 46)]) (txq ++ [(p, 50 + n)])
    ∧ bytes_at m2 (p + 46) (enc (Fld SCTP_COOKIE_ECHO 0 (htons (4 + n))) ++ ck)
    ∧ sctp_check_checksums m2 p (50 + n) = Ret (0, m2).
Proof.
  intros Hp Hx Hm.
  destruct (prefill_spec m st p meta Hp Hm Hx) as (m1 & mac & ip & cmn & E & Hat & Hr & Hcmn & _ & _ & _ & Ho).
  exists m1, (snd (get_random_u32 st)). split; [exact E|]. split; [exact Ho|].
  intros r l txq tg cookie ck n Hh Hl Ht Htg Hck Hok Hn Hdis Hmap. pose proof Hr as (Hip & _).
  destruct (cookie_echo_spec cap m1 r p l txq mac ip cmn tg cookie ck Hh Hl Ht Hp Hat Hip Hck Hn Hdis Hmap)
    as (m2 & r2 & E2 & Hh2 & [Hat2 _]). fold n in E2, Hh2, Hat2. set (fld := Fld _ _ _) in *.
  exists m2, r2. split; [exact E2|]. split; [exact Hh2|]. split.
  - rewrite 2!app_assoc in Hat2. apply bytes_at_app in Hat2 as [_ Hat2]. rewrite <-app_assoc, !length_app in Hat2.
    rewrite (length_enc mac), (length_enc (echo_ip _ _)), (length_enc (cmn_done _ _ _)) in Hat2. exact Hat2.
  - pose proof (built_verdict m2 p mac (echo_ip ip (36 + n)) cmn tg fld ck (4 + n) Hat2 (wf_echo_ip _ _ Hip) Hcmn) as H.
    rewrite echo_ip_valid in H by done. replace (46 + (4 + n)) with (50 + n) in H by lia.
    apply H; try done; [by apply wf_chunk_fld | | lia].
    destruct (echo_ip_words ip (36 + n)) as (_ & -> & _). f_equal. lia.
Qed.

(** C39: a prefilled buffer cannot be used twice.  The builder returns it to
    [prefilled_ring] at once, with the updated checksum in it; the next
    COOKIE-ECHO built in it adds its length a second time, so that packet, and
    the one still queued, which is the same memory, fail the receiver's check. *)
Theorem reused_buffer_rejected cap m r p txq (mac : mac_t) ip cmn tg cookie ck :
  let n := Z.of_nat (length ck) in
  rings_hold cap r [(p, 46)] txq → (length txq + 1 < cap)%nat →
  0 < p → packet_at m p mac ip cmn [] → ready_ip ip → wf cmn → is_u32 tg → bytes_at m cookie ck → bytes_ok ck →
  n ≤ 65485 → cookie + n ≤ p ∨ p + 50 + n ≤ cookie → mapped m (p + 46) (4 + length ck) →
  ∃ m1 r1 m2 r2 m3,
  build_prefilled_mac_ip_sctp_cookie_echo_hdr m r tg cookie n = Ret (0, m1, r1)
  ∧ build_prefilled_mac_ip_sctp_cookie_echo_hdr m1 r1 tg cookie n = Ret (0, m2, r2)
  ∧ rings_hold cap r2 [(p, 46)] (txq ++ [(p, 50 + n); (p, 50 + n)])
  ∧ sctp_check_checksums m2 p (50 + n) = Ret (-1, m3).
Proof.
  intros n Hh Ht Hp Hat Hr Hcmn Htg Hck Hok Hn Hdis Hmap. pose proof Hr as (Hip & _).
  destruct (cookie_echo_spec cap m r p [] txq mac ip cmn tg cookie ck Hh ltac:(cbn; lia) ltac:(lia) Hp Hat Hip Hck Hn Hdis Hmap)
    as (m1 & r1 & E1 & Hh1 & Hrep). fold n in E1, Hh1, Hrep. pose proof Hrep as [Hat1 _].
  assert (packet_at m1 p mac (echo_ip ip (36 + n)) (cmn_done cmn tg (enc (Fld SCTP_COOKIE_ECHO 0 (htons (4 + n))) ++ ck)) []) as Hat1'.
  { unfold packet_at. rewrite app_nil_r. rewrite 2!app_assoc in Hat1. apply bytes_at_app in Hat1 as [Hat1 _].
    by rewrite <-app_assoc in Hat1. }
  assert (length (enc (Fld SCTP_COOKIE_ECHO 0 (htons (4 + n)))) = 4%nat) as Ef by done.
  assert (bytes_at m1 cookie ck) as Hck1
    by (apply (updated_other _ _ _ _ _ _ Hrep Hck); rewrite length_headers, length_app, Ef; lia).
  pose proof (updated_mapped _ _ _ _ _ _ Hrep Hmap) as Hmap1.
  destruct (cookie_echo_spec cap m1 r1 p [] _ mac _ _ tg cookie ck Hh1 ltac:(cbn; lia)
    ltac:(rewrite length_app; cbn; lia) Hp Hat1' (wf_echo_ip _ _ Hip) Hck1 Hn Hdis Hmap1)
    as (m2 & r2 & E2 & Hh2 & [Hat2 _]). fold n in E2, Hh2, Hat2. set (fld := Fld _ _ _) in *.
  pose proof (built_verdict m2 p mac _ _ tg fld ck (4 + n) Hat2 (wf_echo_ip _ _ (wf_echo_ip _ _ Hip))
    (wf_cmn_done _ _ _ Hcmn Htg) Htg) as H.
  rewrite echo_ip_stale in H by (done || lia). replace (46 + (4 + n)) with (50 + n) in H by lia.
  destruct H as [m3 H]; try done; [by apply wf_chunk_fld | | lia | ].
  { destruct (echo_ip_words (echo_ip ip (36 + n)) (36 + n)) as (_ & -> & _). f_equal. lia. }
  exists m1, r1, m2, r2, m3. split; [exact E1|]. split; [exact E2|]. split; [|exact H].
  by rewrite <-app_assoc in Hh2.
Qed.

(** C22: [build_prefilled_mac_ip_sctp_init_ack_hdr] queues the INIT-ACK for the
    peer: the chunk carries the window, the streams and the cookie, which holds
    what the INIT said under the HMAC; the packet passes the receiver's check
    exactly when the 32-bit subtraction in the checksum update does not lose a
    borrow. *)
Theorem init_ack_built cap m st r p l txq mac ip cmn (u : sctp_ulp_config) (a : sctp_peer) :
  rings_hold cap r ((p, 46) :: l) txq → (length l < cap)%nat → (length txq < cap)%nat →
  0 < p → packet_at m p mac ip cmn [] → server_ip ip → wf cmn → peer_ok a → mapped m (p + 46) 80 → rng_ok st →
  ∃ m' st' r' tg itsn itag, build_prefilled_mac_ip_sctp_init_ack_hdr m st r u a = Ret (0, m', st', r')
  ∧ rings_hold cap r' (l ++ [(p, 46)]) (txq ++ [(p, 126)])
  ∧ bytes_at m' (p + 46) (init_ack_chunk u a tg itsn itag)
  ∧ (∀ q, q < p ∨ p + 126 ≤ q → m' !! q = m !! q)
  ∧ verdict m' p 126 (borrow_free (ip_check ip) (htons 112) (dst_ip a)).
Proof.
  intros Hh Hl Ht Hp Hat Hs Hcmn Ha Hmap Hst.
  destruct (init_ack_spec cap m st r p l txq mac ip cmn u a Hh Hl Ht Hp Hat (proj1 (proj1 Hs)) (peer_dst_fits a Ha) Hmap Hst)
    as (m' & st' & r' & tg & itsn & itag & E & _ & _ & _ & _ & Hh' & [Hat' Ho]).
  exists m', st', r', tg, itsn, itag. split; [exact E|]. split; [exact Hh'|].
  split; [by eapply packet_body|]. split.
  - intros q Hq. apply Ho. rewrite length_headers, length_init_ack_chunk. lia.
  - pose proof (init_ack_chunk_ok u a tg itsn itag) as Hok. pose proof (length_init_ack_chunk u a tg itsn itag) as Hlen.
    unfold init_ack_chunk in Hat', Hok, Hlen. cbv zeta in Hat', Hok, Hlen.
    apply bytes_ok_app in Hok as [_ Hok]. rewrite length_app in Hlen.
    assert (length (enc (Fld SCTP_INIT_ACK 0 (htons 80))) = 4%nat) as E4 by done. rewrite E4 in Hlen. clear E4.
    apply (reply_verdict m' p mac ip cmn a SCTP_INIT_ACK _ 80 Hat' Hs Hcmn Ha); [done | exact Hok | lia | lia].
Qed.

(** C23: [build_prefilled_sctp_init_hdr] turns a prefilled packet into an INIT:
    20 bytes behind the headers, with a random tag and the window and streams of
    the configuration, nothing else in memory changed.  The checksum of the
    IPv4 header is updated in 16 bits without the end-around carry, so that the
    packet passes the receiver's check exactly when the old checksum plus the
    old length less the new one lies in 0..65534. *)
Theorem prefilled_init_verdict m st f x p (mac : mac_t) ip cmn :
  fr_state f = Some x → fr_packet f = p → fr_plen f = 46 → 0 < p → rng_ok st →
  packet_at m p mac ip cmn [] → wf ip → 0 < ip_words ip → ip_valid ip = true → wf cmn → mapped m (p + 46) 20 →
  ∃ m' st' tg tsn, build_prefilled_sctp_init_hdr m st (Some f) = Ret (Some (Frame (p + 46) 66 (fr_state f)), m', st')
  ∧ bytes_at m' (p + 46) (enc (Fld SCTP_INIT 0 (htons 20))
      ++ enc (Init (htonl tg) (htonl (mt_src_arwnd x)) (htons (mt_src_os x)) (htons (mt_src_mis x)) (htonl tsn)))
  ∧ (∀ q, q < p ∨ p + 66 ≤ q → m' !! q = m !! q)
  ∧ verdict m' p 66 (init_check_fits ip 52).
Proof.
  intros Hs Hfp Hfl Hp Hst Hat Hip Hw Hv Hcmn Hm. unfold build_prefilled_sctp_init_hdr.
  rewrite (frame_meta_some f x) by (congruence || lia). rewrite Hfp, Hfl.
  destruct (draw_u32 st Hst) as (tsn & st1 & -> & Ht & Hst1). rewrite bind_ret.
  destruct (draw_u32 st1 Hst1) as (tg & st2 & -> & Hg & Hst2). rewrite bind_ret.
  change (sz_mac + sz_ip + sz_cmn + sz_fld + sz_init) with 66.
  destruct (init_raw_spec m (p + 66) 0 [] tg (mt_src_arwnd x) (mt_src_os x) (mt_src_mis x) tsn (bytes_at_nil _ _))
    as (m1 & -> & H1); [eapply mapped_sub; [exact Hm|lia..] | lia | lia |].
  rewrite bind_ret. cbv beta iota. set (ini := Init _ _ _ _ _) in *. change (u16 (0 + 16 + sz_fld)) with 20. change (0 + 16) with 16.
  assert (length (enc ini) = 16%nat) as El by (by rewrite (length_enc ini)).
  pose proof H1 as (Hat1 & Hmap1 & _). rewrite El, app_nil_r in Hat1.
  destruct (fld_raw_spec m1 (p + 66 - 16) 16 (enc ini) SCTP_INIT 0 20 Hat1) as (m2 & -> & H2);
    [apply Hmap1; eapply mapped_sub; [exact Hm|lia..] | lia | lia |].
  rewrite bind_ret. cbv beta iota zeta. set (fld := Fld _ _ _) in *.
  assert (length (enc fld) = 4%nat) as Ef by (by rewrite (length_enc fld)).
  assert (length (enc fld ++ enc ini) = 20%nat) as Eb by (by rewrite length_app, Ef, El).
  assert (repacked m m2 p mac ip cmn (enc fld ++ enc ini)) as Hrep.
  { apply packet_prepended; [exact Hat|]. rewrite Eb. change (Z.of_nat 20) with 20. replace (p + 46 + 20) with (p + 66) by lia.
    eapply prepended_trans; [exact H1|]. rewrite El, app_nil_r. exact H2. }
  destruct (init_headers_spec m2 p mac ip cmn _ (proj1 Hrep) Hip) as (m3 & m4 & m5 & m6 & E1 & E2 & E3 & E4 & E5 & E6 & E7 & Hrep').
  rewrite Eb in *. change (32 + Z.of_nat 20) with 52 in *.
  change (u16 (16 + 4 + 46)) with 66. change (u32 (66 - sz_mac)) with 52.
  change (Z.to_nat (u32 (66 - sz_mac - sz_ip))) with (12 + 20)%nat.
  replace (p + sz_mac) with (p + 14) by done. replace (p + 14 + sz_ip) with (p + 34) by (unfold sz_ip; lia).
  rewrite E1, bind_ret, E2, bind_ret, E3, bind_ret, E4, bind_ret, E5, bind_ret, E6, bind_ret, E7, bind_ret.
  exists m6, st2, tg, tsn. split; [by replace (p + 66 - 16 - 4) with (p + 46) by lia|].
  split; [eapply packet_body, Hrep'|]. destruct Hrep as [_ Ho], Hrep' as [Hat' Ho']. rewrite length_headers, Eb in *. split.
  - intros q Hq. rewrite Ho', Ho by lia. done.
  - unfold verdict. rewrite <-init_ip_valid by done.
    apply (built_verdict m6 p mac _ cmn (tag cmn) fld (enc ini) 20 Hat'); try done.
    + by apply wf_init_ip.
    + by apply (wf_field cmn 2).
    + by apply wf_chunk_fld.
    + apply enc_ok.
Qed.

(** The three builders dereference the NULL that [pop_ringbuf] gives for an
    empty ring: the test is on [cell->packet]. *)
Lemma empty_prefilled_ring_faults cap m st r txq u a tg cookie len :
  rings_hold cap r [] txq →
  build_prefilled_mac_ip_sctp_init_ack_hdr m st r u a = Fault
  ∧ build_prefilled_mac_ip_sctp_cookie_echo_hdr m r tg cookie len = Fault
  ∧ build_prefilled_mac_ip_sctp_cookie_ack_hdr m r a = Fault.
Proof.
  intros (qp & qt & -> & Hqp & _).
  assert (take_cell (Some qp) = Fault) as E.
  { unfold take_cell. cbn [get mbind outcome_bind]. rewrite (pq_pop_empty cap qp Hqp). cbn [mbind outcome_bind].
    by rewrite pq_cell_null. }
  unfold build_prefilled_mac_ip_sctp_init_ack_hdr, build_prefilled_mac_ip_sctp_cookie_echo_hdr,
    build_prefilled_mac_ip_sctp_cookie_ack_hdr. cbn [prefilled_ring]. by rewrite E.
Qed.
End properties.

(** ** Witnesses *)
Lemma ring_holding (q : list item) : (length q ≤ 4)%nat → ∃ rb : ringbuf, pq_rep 4 rb q.
Proof.
  induction q as [|[p n] q IH] using rev_ind; intros Hl.
  - destruct (create_inv (λ _, 0) 2 ltac:(lia)) as (rb & _ & H). exists rb. by exists 2, 0.
  - rewrite length_app in Hl. cbn in Hl. destruct IH as [rb H]; [lia|].
    destruct (pq_push_ok 4 rb q p n H ltac:(lia)) as (rb' & _ & H'). by exists rb'.
Qed.

Lemma rings_holding (q1 q2 : list item) :
  (length q1 ≤ 4)%nat → (length q2 ≤ 4)%nat → ∃ r : rings ringbuf, rings_hold 4 r q1 q2.
Proof.
  intros H1 H2. destruct (ring_holding q1 H1) as [r1 ?], (ring_holding q2 H2) as [r2 ?].
  exists (Rings (Some r1) (Some r2)). by exists r1, r2.
Qed.

Lemma prefilled_echo_passes_witness :
  ∃ m1 st1 (r : rings ringbuf) m2 r2,
  @prefill_mac_ip_sctp once frames_mem rng_init 1000 (Some demo_meta) = Ret (Some 46, m1, st1)
  ∧ build_prefilled_mac_ip_sctp_cookie_echo_hdr m1 r 7 1200 3 = Ret (0, m2, r2)
  ∧ sctp_check_checksums m2 1000 53 = Ret (0, m2).
Proof.
  destruct (@prefilled_echo_passes _ once ringbuf _ 4 frames_mem rng_init 1000 demo_meta ltac:(lia)
    frames_meta_wf (frames_mapped 1000 46 ltac:(lia) ltac:(lia))) as (m1 & st1 & E & Ho & H).
  destruct (rings_holding [(1000, 46)] []) as [r Hr]; [cbn; lia|cbn; lia|].
  assert (∀ q n, 1046 ≤ q → q + Z.of_nat n ≤ 1300 → bytes_at m1 q (replicate n 0)) as Hz.
  { intros q n H1 H2 i. rewrite length_replicate. intros Hi. rewrite Ho by lia. unfold frames_mem.
    rewrite lookup_write, length_replicate, decide_True by lia.
    by rewrite !lookup_replicate_2 by lia. }
  destruct (H r [] [] 7 1200 (replicate 3 0) Hr) as (m2 & r2 & E3 & _ & _ & E4);
    [cbn; lia | cbn; lia | unfold is_u32; lia | apply Hz; lia | apply bytes_ok_zeros | cbn; lia | right; cbn; lia | |].
  - apply (bytes_at_mapped _ _ (replicate 7 0)), Hz; lia.
  - exists m1, st1, r, m2, r2. split; [exact E|]. split; [exact E3|exact E4].
Defined.

(** The header of a COOKIE-ECHO sender, and of a server. *)
Definition demo_ip (dst : Z) : ipv4_t :=
  let h := prefill_ip 0x0301A8C0 dst 0 in set_field 7 (ip_check_of h) h.
Definition demo_cmn : sctp_cmn_hdr_t := Cmn (htons 40000) (htons 80) 0 0.
Definition demo_packet (dst : Z) (ck : bytes) : mem :=
  write (write (write ∅ 1000 (replicate 300 0)) 1000 (enc ack_mac ++ enc (demo_ip dst) ++ enc demo_cmn ++ [])) 1200 ck.

Lemma demo_packet_at dst ck : packet_at (demo_packet dst ck) 1000 ack_mac (demo_ip dst) demo_cmn [].
Proof.
  apply bytes_at_write_other; [apply bytes_at_write|]. left.
  rewrite length_headers. cbn; lia.
Qed.
Lemma demo_packet_mapped dst ck p n : 1000 ≤ p → p + Z.of_nat n ≤ 1300 → mapped (demo_packet dst ck) p n.
Proof. intros. by do 2 apply mapped_write; apply frames_mapped. Qed.

Lemma demo_ip_ready : ready_ip (demo_ip 0x0201A8C0).
Proof.
  split; [|split; [vm_compute; reflexivity | vm_compute; reflexivity]].
  apply wf_ipv4; unfold fits; vm_compute; split; congruence.
Qed.
Lemma demo_server_ip : server_ip (demo_ip 0xFFFFFFFF).
Proof.
  split; [|split; [vm_compute; reflexivity | vm_compute; reflexivity]].
  split; [|split; [vm_compute; reflexivity | vm_compute; reflexivity]].
  apply wf_ipv4; unfold fits; vm_compute; split; congruence.
Qed.
Lemma demo_cmn_wf : wf demo_cmn.
Proof. apply wf_cmn; unfold fits; vm_compute; split; congruence. Qed.

(** An identification for which the update borrows: the INIT is dropped. *)
Definition demo_ip_id (id : Z) : ipv4_t :=
  let h := prefill_ip 0x0301A8C0 0x0201A8C0 id in set_field 7 (ip_check_of h) h.

Definition demo_init_mem : mem := write frames_mem 1000 (enc ack_mac ++ enc (demo_ip_id 9000) ++ enc demo_cmn ++ []).

Lemma prefilled_init_verdict_witness :
  ∃ f' m' st' m'',
  @build_prefilled_sctp_init_hdr _ once demo_init_mem rng_init (Some (Frame 1000 46 (Some demo_meta)))
    = Ret (Some f', m', st')
  ∧ fr_plen f' = 66 ∧ sctp_check_checksums m' 1000 66 = Ret (-1, m'').
Proof.
  destruct (@prefilled_init_verdict _ once demo_init_mem rng_init (Frame 1000 46 (Some demo_meta)) demo_meta 1000
    ack_mac (demo_ip_id 9000) demo_cmn eq_refl eq_refl eq_refl ltac:(lia) rng_init_ok (bytes_at_write _ _ _))
    as (m' & st' & tg & tsn & E & _ & _ & H).
  - apply wf_ipv4; unfold fits; vm_compute; split; congruence.
  - vm_compute. reflexivity.
  - vm_compute. reflexivity.
  - exact demo_cmn_wf.
  - apply mapped_write, (frames_mapped 1046 20); lia.
  - assert (init_check_fits (demo_ip_id 9000) 52 = false) as Hb by (vm_compute; reflexivity).
    rewrite Hb in H. destruct H as [m'' H]. eexists _, m', st', m''. split; [exact E|]. split; [reflexivity | exact H].
Defined.

Lemma reused_buffer_rejected_witness :
  ∃ (r : rings ringbuf) m1 r1 m2 r2 m3,
  build_prefilled_mac_ip_sctp_cookie_echo_hdr (demo_packet 0x0201A8C0 [1; 2; 3]) r 7 1200 3 = Ret (0, m1, r1)
  ∧ build_prefilled_mac_ip_sctp_cookie_echo_hdr m1 r1 7 1200 3 = Ret (0, m2, r2)
  ∧ sctp_check_checksums m2 1000 53 = Ret (-1, m3).
Proof.
  destruct (rings_holding [(1000, 46)] []) as [r Hr]; [cbn; lia|cbn; lia|].
  destruct (@reused_buffer_rejected _ ringbuf _ 4 (demo_packet 0x0201A8C0 [1; 2; 3]) r 1000 [] ack_mac (demo_ip 0x0201A8C0)
    demo_cmn 7 1200 [1; 2; 3] Hr ltac:(cbn; lia) ltac:(lia) (demo_packet_at _ _) demo_ip_ready demo_cmn_wf
    ltac:(unfold is_u32; lia) (bytes_at_write _ _ _) ltac:(repeat constructor; unfold is_u8; lia) ltac:(cbn; lia)
    ltac:(cbn; lia) (demo_packet_mapped _ _ 1046 7 ltac:(lia) ltac:(lia))) as (m1 & r1 & m2 & r2 & m3 & E1 & E2 & _ & E3).
  exists r, m1, r1, m2, r2, m3. split; [exact E1|]. split; [exact E2|exact E3].
Defined.

(** A peer whose INIT-ACK is built right, and one (10.0.0.200) whose INIT-ACK
    the receiver drops. *)
Definition demo_peer (ip : Z) : sctp_peer := Peer 7 0 65535 (htons 32) (htons 32) 11 11 ip (htons 40000).

Lemma init_ack_built_witness :
  ∃ (r : rings ringbuf) m' st' r' m'',
  @build_prefilled_mac_ip_sctp_init_ack_hdr _ once _ _ (demo_packet 0xFFFFFFFF []) rng_init r demo_ulp (demo_peer 0xC800000A)
    = Ret (0, m', st', r')
  ∧ sctp_check_checksums m' 1000 126 = Ret (-1, m'').
Proof.
  destruct (rings_holding [(1000, 46)] []) as [r Hr]; [cbn; lia|cbn; lia|].
  destruct (@init_ack_built _ once ringbuf _ 4 (demo_packet 0xFFFFFFFF []) rng_init r 1000 [] [] ack_mac (demo_ip 0xFFFFFFFF)
    demo_cmn demo_ulp (demo_peer 0xC800000A) Hr ltac:(cbn; lia) ltac:(cbn; lia) ltac:(lia) (demo_packet_at _ _) demo_server_ip
    demo_cmn_wf ltac:(split; [cbn; lia|split; vm_compute; split; congruence])
    (demo_packet_mapped _ _ 1046 80 ltac:(lia) ltac:(lia)) rng_init_ok)
    as (m' & st' & r' & tg & itsn & itag & E & _ & _ & _ & H).
  assert (borrow_free (ip_check (demo_ip 0xFFFFFFFF)) (htons 112) (dst_ip (demo_peer 0xC800000A)) = false) as Hb
    by (vm_compute; reflexivity).
  rewrite Hb in H. destruct H as [m'' H]. exists r, m', st', r', m''. split; [exact E | exact H].
Defined.
