(* ===== verification/Tcp.v ===== *)
(** * TCP segments and the checksum fix-ups (tcp.h, build_tcp_raw.c,
    tcp_fill_opt_mss.c, fix_check*.c, if_ip_tcp.c)

    The frame here grows towards higher addresses: [packet] is the cursor and
    [plen] the room left, so that the headers built so far take
    [frm_max_len - plen] bytes below the cursor.  [build_tcp_raw] adds a
    header, [fix_check_ip_tcp] and [fix_check_ip_sctp] fill in the two
    checksums, [if_ip_tcp] is the receiver.

    The main theorem says that the receiver accepts what the builder and the
    fix-up make, and what it learns from it; two more say that [fix_check_ip]
    and [fix_check] do not do their work. *)
From S2P Require Import Prelude Bytes Mem Checksum Crc32c Headers Frames Prefilled.

(** ** Code: the structs *)
Record tcp_t := Tcp {
  tcp_srcp : Z; tcp_dstp : Z; tcp_seq : Z; tcp_ack : Z; tcp_flags : Z; tcp_win : Z;
  tcp_check : Z; tcp_urgent : Z
}.
#[export, refine] Instance tcp_struct : Struct tcp_t := {|
  layout := [2; 2; 4; 4; 2; 2; 2; 2]%nat;
  fields h := [tcp_srcp h; tcp_dstp h; tcp_seq h; tcp_ack h; tcp_flags h; tcp_win h; tcp_check h;
               tcp_urgent h];
  of_fields vs := match vs with
    | [a; b; c; d; e; f; g; h] => Tcp a b c d e f g h
    | _ => Tcp 0 0 0 0 0 0 0 0 end
|}.
Proof. all: struct_laws. Defined.

Record pseudo_t := Pseudo {
  source_address : Z; dest_address : Z; placeholder : Z; protocol : Z; tcp_length : Z
}.
#[export, refine] Instance pseudo_struct : Struct pseudo_t := {|
  layout := [4; 4; 1; 1; 2]%nat;
  fields h := [source_address h; dest_address h; placeholder h; protocol h; tcp_length h];
  of_fields vs := match vs with [a; b; c; d; e] => Pseudo a b c d e | _ => Pseudo 0 0 0 0 0 end
|}.
Proof. all: struct_laws. Defined.

(** [tcp_opt_mss_t], its [opt] flattened. *)
Record tcp_opt_mss_t := OptMss { opt_type : Z; opt_len : Z; opt_mss : Z }.
#[export, refine] Instance opt_mss_struct : Struct tcp_opt_mss_t := {|
  layout := [1; 1; 2]%nat;
  fields h := [opt_type h; opt_len h; opt_mss h];
  of_fields vs := match vs with [a; b; c] => OptMss a b c | _ => OptMss 0 0 0 end
|}.
Proof. all: struct_laws. Defined.

Inductive PROTO_STACK_TYPE :=
| PROTO_STACK_MAC80211_IP_TCP | PROTO_STACK_MAC80211_IP_SCTP
| PROTO_STACK_MAC8023_IP_TCP | PROTO_STACK_MAC8023_IP_SCTP
| PROTO_STACK_IP_TCP | PROTO_STACK_IP_SCTP | PROTO_STACK_IP_UDP
| PROTO_STACK_TCP_RAW | PROTO_STACK_TCP | PROTO_STACK_IP_RAW | PROTO_STACK_IP | PROTO_STACK_ARP.
#[export] Instance proto_stack_eq_dec : EqDecision PROTO_STACK_TYPE.
Proof. solve_decision. Defined.

(** The fields of [frame_data_t] that this code uses. *)
Record tcp_frame := TFrame {
  tf_packet : Z; tf_plen : Z; tf_proto : PROTO_STACK_TYPE; tf_sync : Z
}.

Definition sz_tcp : Z := 20.
Definition IPPROTO_TCP : Z := 6.
Definition MAX_PACKET_LEN : Z := 1516.

(** ** Code: building a segment *)

(** The eight fields are assigned one by one; together they are the header. *)
Definition build_tcp_raw (m : mem) (frame : tcp_frame) (srcp dstp seq ack flags win urgent : Z)
  : outcome (tcp_frame * mem) :=
  if (tf_plen frame <? sz_tcp) || (tf_packet frame =? NULL)
  then Ret (TFrame (tf_packet frame) 0 (tf_proto frame) (tf_sync frame), m)
  else
    m ← st_struct m (tf_packet frame)
          (Tcp srcp dstp (htonl seq) ack (htons (u16 (Z.lor (Z.shiftl 5 12) flags))) (htons win) 0
             (htons urgent));
    Ret (TFrame (tf_packet frame + sz_tcp) (u16 (tf_plen frame - sz_tcp)) (tf_proto frame)
           (tf_sync frame), m).

(** It is a stub. *)
Definition build_tcp_opt_mss (frame : tcp_frame) : tcp_frame := frame.

(** [malloc] gives the address or NULL, which is not tested. *)
Definition tcp_fill_opt_mss (m : mem) (malloc : Z) (mss : Z) : outcome (Z * mem) :=
  m ← st_struct m malloc (OptMss 2 4 (htons mss));
  Ret (malloc, m).

(** ** Code: checksums *)
Definition off_ip_src : Z := field_off ipv4_t 8.
Definition off_tcp_flags : Z := field_off tcp_t 4.
Definition off_tcp_check : Z := field_off tcp_t 6.

Definition pseudo_of (src dst : Z) : pseudo_t := Pseudo src dst 0 IPPROTO_TCP (htons sz_tcp).

(** [(ntohs (tcp->flags) >> 12 & 0XF) * 4] *)
Definition tcp_offset (flags : Z) : Z := u8 (Z.land (Z.shiftr (ntohs flags) 12) 0xF * 4).

(** The pseudo header and the header with its options, copied into a buffer
    from [malloc] (not tested for NULL), and its checksum. *)
Definition tcp_segment_checksum (malloc : bool) (m : mem) (ip tcp : Z) : outcome Z :=
  src ← ld m (ip + off_ip_src) 4;
  dst ← ld m (ip + off_ip_dest) 4;
  flags ← ld m (tcp + off_tcp_flags) 2;
  if malloc then
    segment ← load m tcp (Z.to_nat (tcp_offset flags));
    tcp_checksum (enc (pseudo_of src dst) ++ segment)
  else Fault.

Definition fix_check_ip_tcp (malloc : bool) (m : mem) (frame : tcp_frame) (frm_max_len : Z)
  : outcome mem :=
  if tf_packet frame =? NULL then Ret m
  else
    let packet := tf_packet frame - (frm_max_len - tf_plen frame) + sz_mac in
    let tcp := packet + sz_ip in
    let ip := packet in
    m ← (if negb (tf_sync frame =? NULL) then
           part ← ld m (tf_sync frame) 4;
           len ← ld m (ip + off_ip_len) 2;
           let chk := u32 (part + len) in
           let chk := if 0xFFFF <? chk then u32 (Z.land chk 0xFFFF + Z.shiftr chk 16) else chk in
           st m (ip + off_ip_check) 2 (u16 (Z.lnot (u16 chk)))
         else
           m ← st m (ip + off_ip_check) 2 0;
           hdr ← load m ip (Z.to_nat sz_ip);
           st m (ip + off_ip_check) 2 (u16 (Z.lnot (u16 (ip_checksum hdr sz_ip)))));
    check ← tcp_segment_checksum malloc m ip tcp;
    st m (tcp + off_tcp_check) 2 check.

Definition fix_check (malloc : bool) (m : mem) (frame : tcp_frame) : outcome mem :=
  if decide (PROTO_STACK_IP_TCP = tf_proto frame) then fix_check_ip_tcp malloc m frame 0 else Ret m.

Definition fix_check_ip (m : mem) (frame : tcp_frame) (opt_len : Z) : outcome mem :=
  if tf_packet frame =? NULL then Ret m
  else
    let ip := tf_packet frame in
    m ← st m (ip + off_ip_check) 2 0;
    let n := u16 (sz_ip + opt_len) in
    hdr ← load m ip (Z.to_nat n);
    st m (ip + off_ip_check) 2 (u16 (ip_checksum hdr n)).

Definition fix_check_ip_sctp `{!Crc32Insn} (m : mem) (frame : tcp_frame) (frm_max_len : Z)
  : outcome mem :=
  if tf_packet frame =? NULL then Ret m
  else
    let packet := tf_packet frame - (frm_max_len - tf_plen frame) + sz_mac in
    let sctp := packet + sz_ip in
    let ip := packet in
    m ← st m (ip + off_ip_len) 2 (htons (u16 (MAX_PACKET_LEN - tf_plen frame - sz_mac)));
    m ← st m (ip + off_ip_check) 2 0;
    hdr ← load m ip (Z.to_nat sz_ip);
    m ← st m (ip + off_ip_check) 2 (u16 (Z.lnot (u16 (ip_checksum hdr sz_ip))));
    len ← ld m (sctp + sz_cmn + off_fld_len) 2;
    data ← load m sctp (Z.to_nat (sz_cmn + ntohs len));
    st m (sctp + off_cmn_check) 4 (generate_crc32c data).

(** ** Code: the receiver *)
Record if_ip_tcp_meta := TMeta {
  tm_state : Z; tm_src_ip : Z; tm_dst_ip : Z; tm_src_port : Z; tm_dst_port : Z;
  tm_dst_seq : Z; tm_src_seq : Z
}.

Definition tcp_syn_received (src srcp seq : Z) (x : if_ip_tcp_meta) : if_ip_tcp_meta :=
  TMeta (tm_state x) (tm_src_ip x) src (tm_src_port x) srcp seq (tm_src_seq x).
Definition tcp_syn_ack_received (seq : Z) (x : if_ip_tcp_meta) : if_ip_tcp_meta :=
  TMeta (tm_state x) (tm_src_ip x) (tm_dst_ip x) (tm_src_port x) (tm_dst_port x) seq (tm_src_seq x).

(** The result [None] is NULL; the IPv4 checksum stays zero, and the TCP
    checksum is the recomputed one. *)
Definition if_ip_tcp (malloc : bool) (m : mem) (packet size : Z) (meta : option if_ip_tcp_meta)
  : outcome (option if_ip_tcp_meta * mem) :=
  match meta with
  | None => Ret (None, m)
  | Some x =>
      if packet =? NULL then Ret (None, m)
      else if size <=? sz_mac + sz_ip + sz_cmn + sz_fld then Ret (None, m)
      else
        let ip := packet + sz_mac in
        let tcp := packet + sz_mac + sz_ip in
        dst ← ld m (ip + off_ip_dest) 4;
        if negb (tm_src_ip x =? dst) then Ret (None, m)
        else
          check_ip ← ld m (ip + off_ip_check) 2;
          m ← st m (ip + off_ip_check) 2 0;
          hdr ← load m ip (Z.to_nat sz_ip);
          if negb (check_ip =? u16 (Z.lnot (u16 (ip_checksum hdr sz_ip)))) then Ret (None, m)
          else
            check_tmp ← ld m (tcp + off_tcp_check) 2;
            m ← st m (tcp + off_tcp_check) 2 0;
            check ← tcp_segment_checksum malloc m ip tcp;
            m ← st m (tcp + off_tcp_check) 2 check;
            if negb (check_tmp =? check) then Ret (None, m)
            else
              flags ← ld m (tcp + off_tcp_flags) 2;
              if Z.land (ntohs flags) 0x1FF =? 0x2 then
                src ← ld m (ip + off_ip_src) 4;
                srcp ← ld m tcp 2;
                seq ← ld m (tcp + field_off tcp_t 2) 4;
                Ret (Some (tcp_syn_received src srcp seq x), m)
              else if Z.land (ntohs flags) 0x1FF =? 0x12 then
                seq ← ld m (tcp + field_off tcp_t 2) 4;
                Ret (Some (tcp_syn_ack_received seq x), m)
              else Ret (Some x, m)
  end.

(** ** Lemmas *)
Lemma tcp_checksum_ret (data : bytes) :
  bytes_ok data → Z.of_nat (length data) ≤ 100000 →
  tcp_checksum data = Ret (65535 - ocsum (sum_words (padded_words data))).
Proof.
  intros Hok Hl. pose proof (padded_words_ok data Hok) as Hp.
  pose proof (sum_words_nonneg _ Hp). pose proof (sum_words_bound _ Hp).
  pose proof (length_padded_words data).
  unfold tcp_checksum. rewrite (tcp_checksum_sum_spec data 0) by (done || lia). rewrite Z.add_0_l.
  rewrite tcp_checksum_fold_spec by lia. cbn [mbind outcome_bind]. f_equal.
  apply u16_lnot, ocsum_range. done.
Qed.

Lemma wf_tcp a b c d e f g h :
  fits 2 a → fits 2 b → fits 4 c → fits 4 d → fits 2 e → fits 2 f → fits 2 g → fits 2 h →
  wf (Tcp a b c d e f g h).
Proof. wf_fields. Qed.

Section segment.
Implicit Types (m : mem) (p : Z) (mac : mac_t) (ip : ipv4_t) (tcp : tcp_t).

Definition segment_at m p mac ip tcp : Prop := bytes_at m p (enc mac ++ enc ip ++ enc tcp).

Lemma length_segment mac ip tcp : length (enc mac ++ enc ip ++ enc tcp) = 54%nat.
Proof. by rewrite !length_app, (length_enc mac), (length_enc ip), (length_enc tcp). Qed.

(** Reading and writing the fields of the two headers in place. *)
Lemma seg_ld_ip m p mac ip tcp i w v :
  segment_at m p mac ip tcp → wf ip → layout ipv4_t !! i = Some w → fields ip !! i = Some v →
  ld m (p + 14 + field_off ipv4_t i) w = Ret v.
Proof.
  intros Hat Hip Hw Hv. pose proof (ld_field m p (enc mac) ip (enc tcp) i w v Hat Hw Hv
    (wf_field ip i w v Hip Hw Hv)) as E. rewrite length_enc in E.
  change (Z.of_nat (size mac_t)) with 14 in E. by rewrite Z.add_assoc in E.
Qed.

Lemma seg_st_ip m p mac ip tcp i w v :
  segment_at m p mac ip tcp → layout ipv4_t !! i = Some w →
  ∃ m', st m (p + 14 + field_off ipv4_t i) w v = Ret m' ∧ segment_at m' p mac (set_field i v ip) tcp.
Proof.
  intros Hat Hw. destruct (upd_field m p (enc mac) ip (enc tcp) i w v Hat Hw) as (m' & E & H & _).
  exists m'. split; [|done]. rewrite <-E, length_enc. change (Z.of_nat (size mac_t)) with 14.
  by rewrite Z.add_assoc.
Qed.

Lemma seg_load_ip m p mac ip tcp : segment_at m p mac ip tcp → load m (p + 14) 20 = Ret (enc ip).
Proof.
  intros [_ H]%bytes_at_app. rewrite length_enc in H. apply bytes_at_app in H as [H _].
  apply (load_at' _ _ _ _ H). by rewrite (length_enc ip).
Qed.

Lemma seg_tcp_at m p mac ip tcp : segment_at m p mac ip tcp → bytes_at m (p + 34) (enc tcp).
Proof.
  intros [_ H]%bytes_at_app. rewrite length_enc in H. apply bytes_at_app in H as [_ H].
  rewrite (length_enc ip), <-Z.add_assoc in H. exact H.
Qed.

Lemma seg_ld_tcp m p mac ip tcp i w v :
  segment_at m p mac ip tcp → wf tcp → layout tcp_t !! i = Some w → fields tcp !! i = Some v →
  ld m (p + 34 + field_off tcp_t i) w = Ret v.
Proof.
  intros Hat Htcp Hw Hv. eapply (ld_field_at m (p + 34) tcp []); eauto.
  rewrite app_nil_r. by eapply seg_tcp_at.
Qed.

Lemma seg_st_tcp m p mac ip tcp i w v :
  segment_at m p mac ip tcp → layout tcp_t !! i = Some w →
  ∃ m', st m (p + 34 + field_off tcp_t i) w v = Ret m' ∧ segment_at m' p mac ip (set_field i v tcp).
Proof.
  intros Hat Hw. destruct (upd_field m p (enc mac ++ enc ip) tcp [] i w v) as (m' & E & H & _); [|done|].
  - by rewrite app_nil_r, <-app_assoc.
  - exists m'. rewrite app_nil_r, <-app_assoc in H. split; [|done].
    rewrite <-E, length_app, (length_enc mac), (length_enc ip).
    change (Z.of_nat (size mac_t + size ipv4_t)) with 34. by rewrite Z.add_assoc.
Qed.

(** The checksum of a segment without options. *)
Definition segment_check ip tcp : Z :=
  65535 - ocsum (sum_words (padded_words (enc (pseudo_of (src_addr ip) (dest_addr ip)) ++ enc tcp))).

Lemma segment_check_fits ip tcp : fits 2 (segment_check ip tcp).
Proof.
  apply fits_check. apply sum_words_nonneg, padded_words_ok, bytes_ok_app. split; apply enc_ok.
Qed.

Definition no_options tcp : Prop := tcp_offset (tcp_flags tcp) = 20.

Lemma segment_checksum_ret m p mac ip tcp :
  segment_at m p mac ip tcp → wf ip → wf tcp → no_options tcp →
  tcp_segment_checksum true m (p + 14) (p + 34) = Ret (segment_check ip tcp).
Proof.
  intros Hat Hip Htcp Ho. unfold tcp_segment_checksum, off_ip_src, off_ip_dest, off_tcp_flags.
  rewrite (seg_ld_ip m p mac ip tcp 8 4 (src_addr ip)) by done. cbn [mbind outcome_bind].
  rewrite (seg_ld_ip m p mac ip tcp 9 4 (dest_addr ip)) by done. cbn [mbind outcome_bind].
  rewrite (seg_ld_tcp m p mac ip tcp 4 2 (tcp_flags tcp)) by done. cbn [mbind outcome_bind].
  rewrite Ho. change (Z.to_nat 20) with (size tcp_t). rewrite <-(length_enc tcp).
  rewrite (load_at _ _ _ (seg_tcp_at _ _ _ _ _ Hat)). cbn [mbind outcome_bind].
  rewrite tcp_checksum_ret; [done| |].
  - apply bytes_ok_app. split; apply enc_ok.
  - rewrite length_app, (length_enc (pseudo_of _ _)), (length_enc tcp). by vm_compute.
Qed.

(** *** The fix-up *)

(** [sync] is NULL, or holds the folded sum of the header's other words. *)
Definition sync_holds m (sync : Z) ip : Prop :=
  sync ≠ NULL → ld m sync 4 = Ret (ocsum (ip_words ip)).

Definition fixed_ip ip : ipv4_t := set_field 7 (65535 - ocsum (ip_words ip + ip_len ip)) ip.

Lemma ip_words_nonneg ip : wf ip → 0 ≤ ip_words ip ∧ 0 ≤ ip_len ip ≤ 65535.
Proof.
  intros H. destruct ip as [a b c d e f g h i j].
  unfold wf in H. cbn [layout fields ipv4_struct ihl_ver tos ip_len indent offset ttl proto ip_check
    src_addr dest_addr] in H.
  repeat match goal with H : Forall2 _ (_ :: _) (_ :: _) |- _ => apply Forall2_cons in H as [??] end.
  unfold ip_words. cbn [ihl_ver tos ip_len indent offset ttl proto ip_check src_addr dest_addr].
  unfold fits in *. change (0x100 ^ Z.of_nat 2) with 65536 in *. Z.div_mod_to_equations; lia.
Qed.

Lemma fixed_ip_wf ip : wf ip → wf (fixed_ip ip).
Proof.
  intros Hip. apply (wf_set_field ip 7 2); [done..|]. apply fits_check.
  pose proof (ip_words_nonneg ip Hip). lia.
Qed.

Lemma set_check_len v (h : ipv4_t) : ip_len (set_field 7 v h) = ip_len h.
Proof. by destruct h. Qed.
Lemma set_check_twice v w (h : ipv4_t) : set_field 7 v (set_field 7 w h) = set_field 7 v h.
Proof. by destruct h. Qed.

Lemma ip_check_folded ip : u16 (Z.lnot (u16 (ip_checksum (enc ip) sz_ip))) = ip_check_of ip.
Proof. unfold ip_check_of. reflexivity. Qed.

Lemma ip_check_cleared ip :
  wf ip → ip_check_of (set_field 7 0 ip) = 65535 - ocsum (ip_words ip + ip_len ip).
Proof.
  intros Hip. rewrite ip_check_of_spec by (by apply (wf_set_field ip 7 2)).
  destruct ip. unfold set_field. cbn. by rewrite Z.add_0_r.
Qed.

(** The incremental checksum: one folding is enough. *)
Lemma sync_check s len :
  0 ≤ s → is_u16 len →
  u16 (Z.lnot (u16 (if 0xFFFF <? u32 (ocsum s + len)
                    then u32 (Z.land (u32 (ocsum s + len)) 0xFFFF + Z.shiftr (u32 (ocsum s + len)) 16)
                    else u32 (ocsum s + len)))) = 65535 - ocsum (s + len).
Proof.
  intros Hs Hl. pose proof (ocsum_range s Hs) as Ho. rewrite <-(ocsum_add s len) by (unfold is_u16 in *; lia).
  generalize dependent (ocsum s). intros k Hk. rewrite (u32_id (k + len)) by (unfold_widths; lia).
  rewrite land_ffff, shiftr16.
  assert (0 ≤ k + len ≤ 0x1FFFE) as Hr by (unfold_widths; lia). generalize dependent (k + len).
  intros v Hv. destruct (Z.ltb_spec 0xFFFF v).
  - rewrite <-(ocsum_fold v) by lia.
    assert (v mod 0x10000 + v / 0x10000 ≤ 65535 ∧ 0 ≤ v mod 0x10000 + v / 0x10000) as [] by
      (Z.div_mod_to_equations; lia).
    rewrite u32_id, ocsum_small by (unfold_widths; lia).
    generalize dependent (v mod 0x10000 + v / 0x10000). intros c Hc1 Hc2.
    rewrite (u16_id c) by (unfold_widths; lia). apply u16_lnot. unfold_widths; lia.
  - rewrite ocsum_small, (u16_id v) by (unfold_widths; lia). apply u16_lnot. unfold_widths; lia.
Qed.

Lemma fix_check_ip_tcp_spec m f n p mac ip tcp :
  segment_at m p mac ip tcp → wf ip → wf tcp → no_options tcp →
  tf_packet f = p + 54 → n - tf_plen f = 54 → p + 54 ≠ NULL → sync_holds m (tf_sync f) ip →
  ∃ m', fix_check_ip_tcp true m f n = Ret m'
  ∧ segment_at m' p mac (fixed_ip ip) (set_field 6 (segment_check ip tcp) tcp).
Proof.
  intros Hat Hip Htcp Ho Hp Hn Hnn Hsync. destruct (ip_words_nonneg ip Hip) as [Hw Hl].
  unfold fix_check_ip_tcp. rewrite Hp, Hn, (proj2 (Z.eqb_neq _ _)) by done.
  replace (p + 54 - 54 + sz_mac) with (p + 14) by (unfold sz_mac; lia).
  replace (p + 14 + sz_ip) with (p + 34) by (unfold sz_ip; lia). cbv zeta.
  set (fix_ip := if negb (tf_sync f =? NULL) then _ else _).
  assert (∃ m1, fix_ip = Ret m1 ∧ segment_at m1 p mac (fixed_ip ip) tcp) as (m1 & -> & Hat1).
  { unfold fix_ip, off_ip_check, off_ip_len. destruct (Z.eqb_spec (tf_sync f) NULL) as [|Hs]; cbn [negb].
    - destruct (seg_st_ip m p mac ip tcp 7 2 0 Hat eq_refl) as (m1 & -> & H1). cbn [mbind outcome_bind].
      change (Z.to_nat sz_ip) with 20%nat. rewrite (seg_load_ip _ _ _ _ _ H1). cbn [mbind outcome_bind].
      rewrite ip_check_folded.
      rewrite (ip_check_cleared ip Hip).
      destruct (seg_st_ip m1 p mac _ tcp 7 2 (65535 - ocsum (ip_words ip + ip_len ip)) H1 eq_refl) as (m2 & -> & H2).
      exists m2. split; [done|]. destruct ip; exact H2.
    - rewrite (Hsync Hs). cbn [mbind outcome_bind].
      rewrite (seg_ld_ip m p mac ip tcp 2 2 (ip_len ip)) by done. cbn [mbind outcome_bind].
      rewrite (sync_check (ip_words ip) (ip_len ip)) by (unfold is_u16; lia).
      apply (seg_st_ip m p mac ip tcp 7 2); done. }
  cbn [mbind outcome_bind].
  rewrite (segment_checksum_ret m1 p mac (fixed_ip ip) tcp) by (done || by apply fixed_ip_wf).
  cbn [mbind outcome_bind].
  replace (segment_check (fixed_ip ip) tcp) with (segment_check ip tcp) by (by destruct ip).
  by apply (seg_st_tcp m1 p mac (fixed_ip ip) tcp 6 2).
Qed.

(** *** The receiver *)
Definition tcp_valid ip tcp : bool := tcp_check tcp =? segment_check ip (set_field 6 0 tcp).

(** What the receiver learns from a segment. *)
Definition tcp_learn ip tcp (x : if_ip_tcp_meta) : if_ip_tcp_meta :=
  if Z.land (ntohs (tcp_flags tcp)) 0x1FF =? 0x2
  then tcp_syn_received (src_addr ip) (tcp_srcp tcp) (tcp_seq tcp) x
  else if Z.land (ntohs (tcp_flags tcp)) 0x1FF =? 0x12 then tcp_syn_ack_received (tcp_seq tcp) x
  else x.

Lemma if_ip_tcp_spec m p mac ip tcp size (x : if_ip_tcp_meta) :
  segment_at m p mac ip tcp → wf ip → wf tcp → no_options tcp → p ≠ NULL → 50 < size →
  ∃ m', if_ip_tcp true m p size (Some x)
  = Ret (if (tm_src_ip x =? dest_addr ip) && ip_valid ip && tcp_valid ip tcp
         then Some (tcp_learn ip tcp x) else None, m').
Proof.
  intros Hat Hip Htcp Ho Hp Hs. unfold if_ip_tcp. rewrite (proj2 (Z.eqb_neq _ _)) by done.
  change (sz_mac + sz_ip + sz_cmn + sz_fld) with 50. rewrite (proj2 (Z.leb_gt _ _)) by done. cbv zeta.
  replace (p + sz_mac + sz_ip) with (p + 34) by (unfold sz_mac, sz_ip; lia).
  change (p + sz_mac) with (p + 14). unfold off_ip_dest, off_ip_check, off_tcp_check, off_tcp_flags, off_ip_src.
  rewrite (seg_ld_ip m p mac ip tcp 9 4 (dest_addr ip)) by done. cbn [mbind outcome_bind].
  destruct (tm_src_ip x =? dest_addr ip); cbn [negb andb]; [|eauto].
  rewrite (seg_ld_ip m p mac ip tcp 7 2 (ip_check ip)) by done. cbn [mbind outcome_bind].
  destruct (seg_st_ip m p mac ip tcp 7 2 0 Hat eq_refl) as (m1 & -> & H1). cbn [mbind outcome_bind].
  change (Z.to_nat sz_ip) with 20%nat. rewrite (seg_load_ip _ _ _ _ _ H1). cbn [mbind outcome_bind].
  rewrite ip_check_folded.
  unfold ip_valid. destruct (ip_check ip =? _); cbn [negb andb]; [|eauto].
  assert (wf (set_field 7 0 ip)) as Hip1 by (by apply (wf_set_field ip 7 2)).
  rewrite (seg_ld_tcp m1 p mac _ tcp 6 2 (tcp_check tcp)) by done. cbn [mbind outcome_bind].
  destruct (seg_st_tcp m1 p mac _ tcp 6 2 0 H1 eq_refl) as (m2 & -> & H2). cbn [mbind outcome_bind].
  assert (wf (set_field 6 0 tcp)) as Htcp2 by (by apply (wf_set_field tcp 6 2)).
  rewrite (segment_checksum_ret m2 p mac _ _ H2) by (done || by destruct tcp). cbn [mbind outcome_bind].
  replace (segment_check (set_field 7 0 ip) (set_field 6 0 tcp)) with (segment_check ip (set_field 6 0 tcp))
    by (by destruct ip).
  set (c := segment_check ip (set_field 6 0 tcp)).
  destruct (seg_st_tcp m2 p mac _ _ 6 2 c H2 eq_refl) as (m3 & -> & H3). cbn [mbind outcome_bind].
  unfold tcp_valid. fold c. destruct (tcp_check tcp =? c); cbn [negb]; [|eauto].
  assert (wf (set_field 6 c (set_field 6 0 tcp))) as Htcp3
    by (apply (wf_set_field _ 6 2); [done..|]; apply segment_check_fits).
  rewrite (seg_ld_tcp m3 p mac _ _ 4 2 (tcp_flags tcp) H3 Htcp3) by (done || by destruct tcp).
  cbn [mbind outcome_bind]. exists m3. unfold tcp_learn.
  pose proof (seg_ld_tcp m3 p mac _ _ 2 4 (tcp_seq tcp) H3 Htcp3 eq_refl ltac:(by destruct tcp)) as Eseq.
  pose proof (seg_ld_tcp m3 p mac _ _ 0 2 (tcp_srcp tcp) H3 Htcp3 eq_refl ltac:(by destruct tcp)) as Esrc.
  change (p + 34 + field_off tcp_t 0) with (p + 34 + 0) in Esrc. rewrite Z.add_0_r in Esrc.
  destruct (_ =? 0x2).
  - rewrite (seg_ld_ip m3 p mac _ _ 8 4 (src_addr ip) H3 Hip1) by (done || by destruct ip). cbn [mbind outcome_bind].
    rewrite Esrc, bind_ret, Eseq. done.
  - destruct (_ =? 0x12); [|done]. by rewrite Eseq.
Qed.
End segment.

(** *** The flags word *)
Lemma built_flags flags :
  0 ≤ flags < 0x1000 → htons (htons (u16 (Z.lor (Z.shiftl 5 12) flags))) = 0x5000 + flags.
Proof.
  intros Hf. rewrite lor_shiftl_add by lia. change (5 * 2 ^ 12) with 0x5000.
  rewrite u16_id, htons_htons by (unfold_widths; lia). done.
Qed.

Lemma built_offset flags :
  0 ≤ flags < 0x1000 → tcp_offset (htons (u16 (Z.lor (Z.shiftl 5 12) flags))) = 20.
Proof.
  intros Hf. unfold tcp_offset. rewrite built_flags by done.
  rewrite Z.shiftr_div_pow2 by lia. change (2 ^ 12) with 0x1000.
  replace ((0x5000 + flags) / 0x1000) with 5 by (Z.div_mod_to_equations; lia). done.
Qed.

Lemma land_1ff x : Z.land x 0x1FF = x mod 512.
Proof. exact (Z.land_ones x 9 ltac:(lia)). Qed.

Lemma built_control flags :
  0 ≤ flags < 0x1000 →
  Z.land (htons (htons (u16 (Z.lor (Z.shiftl 5 12) flags)))) 0x1FF = Z.land flags 0x1FF.
Proof. intros Hf. rewrite built_flags by done. rewrite !land_1ff. Z.div_mod_to_equations; lia. Qed.

(** *** Stores leave the rest of the memory alone *)
Lemma st_other m p n v m' q :
  st m p n v = Ret m' → q < p ∨ p + Z.of_nat n ≤ q → m' !! q = m !! q.
Proof.
  unfold st, store. destruct (read m p _); [|done]. intros [= <-] Hq.
  rewrite lookup_write, length_le_enc, decide_False by lia. done.
Qed.

(** ** Properties *)

(** What [build_tcp_raw] puts in memory. *)
Definition built_tcp (srcp dstp seq ack flags win urgent : Z) : tcp_t :=
  Tcp srcp dstp (htonl seq) ack (htons (u16 (Z.lor (Z.shiftl 5 12) flags))) (htons win) 0 (htons urgent).

(** What a receiver learns from it. *)
Definition learnt (flags src srcp seq : Z) (x : if_ip_tcp_meta) : if_ip_tcp_meta :=
  if Z.land flags 0x1FF =? 0x2 then tcp_syn_received src srcp (htonl seq) x
  else if Z.land flags 0x1FF =? 0x12 then tcp_syn_ack_received (htonl seq) x else x.

(** What [build_tcp_raw] leaves at the end of an IPv4 header. *)
Lemma build_tcp_raw_spec m (f : tcp_frame) p (mac : mac_t) (ip : ipv4_t) srcp dstp seq ack flags win urgent :
  bytes_at m p (enc mac ++ enc ip) → mapped m (p + 34) 20 → 0 < p → tf_packet f = p + 34 → 20 ≤ tf_plen f ≤ 65501 →
  (tf_sync f ≠ NULL → ld m (tf_sync f) 4 = Ret (ocsum (ip_words ip)) ∧ (tf_sync f + 4 ≤ p ∨ p + 54 ≤ tf_sync f)) →
  ∃ f1 m1, build_tcp_raw m f srcp dstp seq ack flags win urgent = Ret (f1, m1)
  ∧ segment_at m1 p mac ip (built_tcp srcp dstp seq ack flags win urgent) ∧ sync_holds m1 (tf_sync f1) ip
  ∧ tf_packet f1 = p + 54 ∧ tf_plen f1 = tf_plen f - 20.
Proof.
  intros Hat Hroom Hp Hpacket Hplen Hsync. set (tcp := built_tcp srcp dstp seq ack flags win urgent).
  unfold build_tcp_raw. rewrite Hpacket, (proj2 (Z.ltb_ge _ _)), (proj2 (Z.eqb_neq _ _))
    by (unfold sz_tcp, NULL; lia).
  cbn [orb]. fold tcp. rewrite st_struct_mapped, bind_ret by done.
  rewrite u16_id by (unfold is_u16, sz_tcp; lia).
  eexists _, _. split; [reflexivity|]. cbn [tf_sync tf_packet tf_plen]. split; [|split; [|unfold sz_tcp; lia]].
  - unfold segment_at. rewrite app_assoc.
    replace (p + 34) with (p + Z.of_nat (length (enc mac ++ enc ip)))
      by (by rewrite length_app, (length_enc mac), (length_enc ip)).
    by apply updated_append.
  - intros Hn. destruct (Hsync Hn) as [Hld Hd]. rewrite <-Hld.
    unfold ld, load. f_equal. f_equal. apply read_write_other. rewrite (length_enc tcp).
    change (Z.of_nat (size tcp_t)) with 20. lia.
Qed.

Lemma fixed_ip_valid ip : wf ip → ip_valid (fixed_ip ip) = true.
Proof. intros Hip. rewrite ip_valid_spec by (by apply fixed_ip_wf). destruct ip. apply Z.eqb_refl. Qed.

(** C24: a segment that [build_tcp_raw] makes behind an IPv4 header and that
    [fix_check_ip_tcp] completes, with the IPv4 checksum computed from the
    header or from the partial sum in [sync], is accepted by [if_ip_tcp] on
    the host it is addressed to: a SYN tells it the peer's address, port and
    sequence number, a SYN-ACK the sequence number, other segments nothing. *)
Theorem tcp_segment_accepted m (f : tcp_frame) p (mac : mac_t) (ip : ipv4_t)
    (srcp dstp seq ack flags win urgent len : Z) (x : if_ip_tcp_meta)
    (Hat : bytes_at m p (enc mac ++ enc ip)) (Hroom : mapped m (p + 34) 20) (Hip : wf ip) (Hp : 0 < p)
    (Hpacket : tf_packet f = p + 34) (Hplen : 20 ≤ tf_plen f ≤ 65501)
    (Hsync : tf_sync f ≠ NULL → ld m (tf_sync f) 4 = Ret (ocsum (ip_words ip))
                               ∧ (tf_sync f + 4 ≤ p ∨ p + 54 ≤ tf_sync f))
    (Hsrcp : is_u16 srcp) (Hdstp : is_u16 dstp) (Hack : is_u32 ack) (Hflags : 0 ≤ flags < 0x1000)
    (Hlen : 50 < len) (Hdst : tm_src_ip x = dest_addr ip) :
  ∃ f1 m1 m2 m3, build_tcp_raw m f srcp dstp seq ack flags win urgent = Ret (f1, m1)
  ∧ fix_check_ip_tcp true m1 f1 (34 + tf_plen f) = Ret m2
  ∧ if_ip_tcp true m2 p len (Some x) = Ret (Some (learnt flags (src_addr ip) srcp seq x), m3).
Proof.
  set (tcp := built_tcp srcp dstp seq ack flags win urgent).
  assert (wf tcp) as Htcp by (apply wf_tcp; auto with bytes).
  destruct (build_tcp_raw_spec m f p mac ip srcp dstp seq ack flags win urgent Hat Hroom Hp Hpacket Hplen Hsync)
    as (f1 & m1 & E1 & Hat1 & Hsync1 & Hp1 & Hl1). fold tcp in Hat1.
  assert (no_options tcp) as Ho by exact (built_offset flags Hflags).
  assert (34 + tf_plen f - tf_plen f1 = 54) as Hn1 by lia.
  assert (p + 54 ≠ NULL) as Hnn by (unfold NULL; lia).
  destruct (fix_check_ip_tcp_spec m1 f1 (34 + tf_plen f) p mac ip tcp Hat1 Hip Htcp Ho Hp1 Hn1 Hnn Hsync1)
    as (m2 & E2 & Hat2).
  set (tcp2 := set_field 6 _ tcp) in Hat2.
  assert (wf tcp2) as Htcp2 by (apply (wf_set_field tcp 6 2); [done..|apply segment_check_fits]).
  assert (no_options tcp2) as Ho2 by exact (built_offset flags Hflags).
  assert (p ≠ NULL) as Hnn2 by (unfold NULL; lia).
  destruct (if_ip_tcp_spec m2 p mac (fixed_ip ip) tcp2 len x Hat2 (fixed_ip_wf ip Hip) Htcp2 Ho2 Hnn2 Hlen)
    as (m3 & E3).
  exists f1, m1, m2, m3. split; [done|]. split; [done|]. rewrite E3. f_equal. f_equal.
  rewrite fixed_ip_valid by done.
  assert (tcp_valid (fixed_ip ip) tcp2 = true) as ->.
  { unfold tcp_valid. destruct ip. apply Z.eqb_refl. }
  replace (dest_addr (fixed_ip ip)) with (dest_addr ip) by (by destruct ip).
  rewrite Hdst, Z.eqb_refl. cbn [andb]. f_equal. unfold tcp_learn, learnt.
  change (tcp_flags tcp2) with (htons (u16 (Z.lor (Z.shiftl 5 12) flags))). rewrite built_control by done.
  replace (src_addr (fixed_ip ip)) with (src_addr ip) by (by destruct ip). done.
Qed.

(** [fix_check_ip] stores the sum itself and not its complement: the
    header it leaves is never valid. *)
Lemma fix_check_ip_never_valid m (f : tcp_frame) p (ip : ipv4_t)
    (Hat : bytes_at m p (enc ip)) (Hip : wf ip) (Hp : tf_packet f = p) (Hn : p ≠ NULL) :
  ∃ m' ip', fix_check_ip m f 0 = Ret m' ∧ bytes_at m' p (enc ip') ∧ ip_valid ip' = false.
Proof.
  unfold fix_check_ip. rewrite Hp, (proj2 (Z.eqb_neq _ _)) by done. unfold off_ip_check.
  destruct (upd_field m p [] ip [] 7 2 0) as (m1 & E1 & H1 & _); [by rewrite app_nil_r|done|].
  rewrite app_nil_r in H1. change (st m (p + field_off ipv4_t 7) 2 0 = Ret m1) in E1. rewrite E1, bind_ret.
  change ([] ++ enc (set_field 7 0 ip)) with (enc (set_field 7 0 ip)) in H1.
  change (u16 (sz_ip + 0)) with sz_ip. change (Z.to_nat sz_ip) with (size ipv4_t).
  rewrite (load_at' m1 p _ (enc (set_field 7 0 ip))) by (done || apply length_enc). rewrite bind_ret.
  set (c := u16 (ip_checksum _ _)).
  destruct (upd_field m1 p [] (set_field 7 0 ip) [] 7 2 c) as (m2 & E2 & H2 & _); [by rewrite app_nil_r|done|].
  rewrite app_nil_r in H2. change (st m1 (p + field_off ipv4_t 7) 2 c = Ret m2) in E2. rewrite E2.
  exists m2, (set_field 7 c (set_field 7 0 ip)). split; [done|]. split; [done|].
  assert (ip_check_of (set_field 7 0 ip) = 65535 - c) as Hc by (apply u16_lnot, u16_range).
  rewrite ip_check_cleared in Hc by done.
  rewrite ip_valid_spec by (apply (wf_set_field _ 7 2); [by apply (wf_set_field _ 7 2)|done|apply fits_u16]).
  replace (set_field 7 c (set_field 7 0 ip)) with (set_field 7 c ip) by (by destruct ip).
  rewrite set_check_words, set_check_check. replace (ip_len (set_field 7 c ip)) with (ip_len ip) by (by destruct ip).
  rewrite Hc. apply Z.eqb_neq. lia.
Qed.

(** [fix_check] passes 0 for [frm_max_len]: the checksums are written behind
    the frame, and nothing below [packet + plen + 14] changes. *)
Lemma fix_check_misses malloc m (f : tcp_frame) m' q :
  fix_check malloc m f = Ret m' → q < tf_packet f + tf_plen f + 14 → m' !! q = m !! q.
Proof.
  unfold fix_check. case_decide; [|by intros [= ->]]. unfold fix_check_ip_tcp.
  destruct (tf_packet f =? NULL); [by intros [= ->]|]. cbv zeta.
  replace (tf_packet f - (0 - tf_plen f) + sz_mac) with (tf_packet f + tf_plen f + 14) by (unfold sz_mac; lia).
  set (p := tf_packet f + tf_plen f + 14). set (fix_ip := if negb (tf_sync f =? NULL) then _ else _).
  intros (m1 & E1 & (c & _ & E2)%bind_ret_inv)%bind_ret_inv Hq.
  rewrite (st_other _ _ _ _ _ q E2) by (unfold sz_ip, off_tcp_check, field_off; cbn; lia).
  unfold fix_ip in E1. destruct (negb _).
  - apply bind_ret_inv in E1 as (part & _ & E1). apply bind_ret_inv in E1 as (len & _ & E1).
    apply (st_other _ _ _ _ _ q E1). unfold off_ip_check, field_off. cbn. lia.
  - apply bind_ret_inv in E1 as (m0 & E0 & E1). apply bind_ret_inv in E1 as (hdr & _ & E1).
    rewrite (st_other _ _ _ _ _ q E1), (st_other _ _ _ _ _ q E0)
      by (unfold off_ip_check, field_off; cbn; lia). done.
Qed.

(** The SCTP fix-up, on a frame whose SCTP checksum is still zero: the length
    is what the frame's room says, both checksums become right, and the
    receiver's check accepts the frame. *)
(** A frame with the length, the header checksum and the CRC that
    [fix_check_ip_sctp] stores. *)
Lemma refixed_valid {CRC : Crc32Insn} (ip1 : ipv4_t) (cmn : sctp_cmn_hdr_t) (fld : sctp_fld_hdr_t) (body : bytes) n
    (c := ip_check_of (set_field 7 0 ip1)) (crc := generate_crc32c (enc cmn ++ enc fld ++ body)) :
  wf ip1 → ip_len ip1 = htons (u16 (MAX_PACKET_LEN - n - sz_mac)) → 0 ≤ n ≤ 1466 → cmn_check cmn = 0 →
  frame_valid (set_field 7 c ip1) (set_field 3 crc cmn) fld body = true.
Proof.
  intros Hip1 HL Hn Hc0. unfold frame_valid. apply andb_true_iff; split; [apply andb_true_iff; split|].
  - rewrite ip_valid_spec by (apply (wf_set_field ip1 7 2); [done..|apply ip_check_of_u16]).
    rewrite set_check_words, set_check_check, set_check_len.
    unfold c. rewrite ip_check_cleared by done. apply Z.eqb_refl.
  - rewrite set_check_len, HL.
    rewrite htons_htons by apply u16_range. rewrite u16_id by (unfold is_u16, MAX_PACKET_LEN, sz_mac; lia).
    apply Z.leb_le. unfold sz_ip, sz_cmn, sz_fld, MAX_PACKET_LEN, sz_mac. lia.
  - unfold sctp_valid. replace (set_field 3 0 (set_field 3 crc cmn)) with cmn; [destruct cmn; apply Z.eqb_refl|].
    destruct cmn. cbn in Hc0. by subst.
Qed.

Lemma fixed_sctp_frame_passes {CRC : Crc32Insn} m (f : tcp_frame) n p
    (mac : mac_t) (ip : ipv4_t) (cmn : sctp_cmn_hdr_t) (fld : sctp_fld_hdr_t) (body : bytes) :
  bytes_at m p (frame_bytes mac ip cmn fld body) → wf ip → wf cmn → wf fld → bytes_ok body →
  cmn_check cmn = 0 → ntohs (fld_len fld) = sz_fld + Z.of_nat (length body) →
  tf_packet f - (n - tf_plen f) = p → tf_packet f ≠ NULL → 0 ≤ tf_plen f ≤ 1466 →
  ∃ m', fix_check_ip_sctp m f n = Ret m'
  ∧ ∀ plen, 46 ≤ plen → sctp_check_checksums m' p plen = Ret (0, m').
Proof.
  intros Hat Hip Hcmn Hfld Hb Hc0 Hlen Hp Hn Hplen. unfold fix_check_ip_sctp.
  rewrite (proj2 (Z.eqb_neq _ _)) by done. rewrite Hp. cbv zeta.
  set (L := htons (u16 (MAX_PACKET_LEN - tf_plen f - sz_mac))).
  change (packet_at m p mac ip cmn (enc fld ++ body)) in Hat.
  replace (p + sz_mac + sz_ip) with (p + 34) by (unfold sz_mac, sz_ip; lia).
  change (p + sz_mac) with (p + 14). unfold off_ip_len, off_ip_check, off_cmn_check.
  destruct (st_ip m p mac ip cmn _ 2 2 L Hat eq_refl) as (m1 & -> & [H1 _]). rewrite bind_ret.
  set (ip1 := set_field 2 L ip) in *. assert (wf ip1) as Hip1 by (apply (wf_set_field ip 2 2); [done|done|apply fits_htons]).
  destruct (st_ip m1 p mac ip1 cmn _ 7 2 0 H1 eq_refl) as (m2 & -> & [H2 _]). rewrite bind_ret.
  assert (load m2 (p + 14) (Z.to_nat sz_ip) = Ret (enc (set_field 7 0 ip1))) as ->.
  { apply load_at'; [|by rewrite (length_enc (set_field 7 0 ip1))].
    apply bytes_at_app in H2 as [_ H2]. rewrite (length_enc mac) in H2. by apply bytes_at_app in H2 as [H2 _]. }
  rewrite bind_ret, ip_check_folded.
  set (c := ip_check_of (set_field 7 0 ip1)).
  destruct (st_ip m2 p mac (set_field 7 0 ip1) cmn _ 7 2 c H2 eq_refl) as (m3 & -> & [H3 _]). rewrite bind_ret.
  rewrite set_check_twice in H3.
  set (ip3 := set_field 7 c ip1) in *.
  assert (bytes_at m3 (p + 34) (enc cmn ++ enc fld ++ body)) as Hs.
  { unfold packet_at in H3. rewrite app_assoc in H3. apply bytes_at_app in H3 as [_ H3].
    by rewrite length_app, (length_enc mac), (length_enc ip3) in H3. }
  assert (ld m3 (p + 34 + sz_cmn + off_fld_len) 2 = Ret (fld_len fld)) as ->.
  { pose proof (ld_field m3 (p + 34) (enc cmn) fld body 2 2 (fld_len fld) Hs eq_refl eq_refl
      (wf_field fld 2 2 _ Hfld eq_refl eq_refl)) as E.
    rewrite (length_enc cmn), Z.add_assoc in E. exact E. }
  rewrite bind_ret, Hlen.
  rewrite (load_at' m3 (p + 34) _ (enc cmn ++ enc fld ++ body)), bind_ret by
    (done || rewrite !length_app, (length_enc cmn), (length_enc fld);
     change (size sctp_cmn_hdr_t) with 12%nat; change (size sctp_fld_hdr_t) with 4%nat;
     unfold sz_cmn, sz_fld; lia).
  set (crc := generate_crc32c _).
  destruct (st_cmn m3 p mac ip3 cmn _ 3 4 crc H3 eq_refl) as (m4 & -> & [H4 _]).
  exists m4. split; [done|]. intros plen Hpl.
  pose proof (check_spec m4 p plen mac ip3 (set_field 3 crc cmn) fld body H4) as Hck.
  pose proof (refixed_valid ip1 cmn fld body (tf_plen f) Hip1 eq_refl Hplen Hc0) as E. fold c crc ip3 in E.
  rewrite E in Hck. apply Hck; try done.
  - apply (wf_set_field ip1 7 2); [done..|apply ip_check_of_u16].
  - apply (wf_set_field cmn 3 4); [done..|apply generate_crc32c_u32].
Qed.

(** ** Witnesses *)
Definition demo_tcp_ip : ipv4_t := IPv4 0x45 0 0x2800 7 0 64 6 0 0x0201A8C0 0x0301A8C0.
Definition demo_tcp_mem : mem := write ∅ 1000 (enc (Mac 1 2 8) ++ enc demo_tcp_ip ++ replicate 20 0).
Definition demo_tcp_frame : tcp_frame := TFrame 1034 1482 PROTO_STACK_IP_TCP NULL.

Lemma demo_tcp_at :
  bytes_at demo_tcp_mem 1000 (enc (Mac 1 2 8) ++ enc demo_tcp_ip) ∧ mapped demo_tcp_mem 1034 20.
Proof.
  pose proof (bytes_at_write ∅ 1000 (enc (Mac 1 2 8) ++ enc demo_tcp_ip ++ replicate 20 0)) as H.
  split.
  - rewrite app_assoc in H. by apply bytes_at_app in H as [H _].
  - apply bytes_at_mapped in H. apply (mapped_sub _ _ _ 1034 20 H); [lia|].
    rewrite !length_app, (length_enc (Mac _ _ _)), (length_enc demo_tcp_ip), length_replicate. by vm_compute.
Qed.

Lemma tcp_segment_accepted_witness :
  ∃ f1 m1 m2 m3, build_tcp_raw demo_tcp_mem demo_tcp_frame 80 8080 1 0 0x2 64240 0 = Ret (f1, m1)
  ∧ fix_check_ip_tcp true m1 f1 1516 = Ret m2
  ∧ if_ip_tcp true m2 1000 60 (Some (TMeta 0 0x0301A8C0 0 0 0 0 0))
    = Ret (Some (TMeta 0 0x0301A8C0 0x0201A8C0 0 80 (htonl 1) 0), m3).
Proof.
  apply (tcp_segment_accepted demo_tcp_mem demo_tcp_frame 1000 (Mac 1 2 8) demo_tcp_ip 80 8080 1 0 0x2 64240 0 60
           (TMeta 0 0x0301A8C0 0 0 0 0 0)); try done; try lia; try apply demo_tcp_at;
    apply wf_ipv4; auto with bytes.
Defined.

Lemma fix_check_ip_never_valid_witness :
  ∃ m' ip', fix_check_ip (write ∅ 1014 (enc demo_tcp_ip)) (TFrame 1014 1482 PROTO_STACK_IP NULL) 0 = Ret m'
  ∧ bytes_at m' 1014 (enc ip') ∧ ip_valid ip' = false.
Proof.
  apply (fix_check_ip_never_valid _ (TFrame 1014 1482 PROTO_STACK_IP NULL) 1014 demo_tcp_ip);
    [apply bytes_at_write | apply wf_ipv4; auto with bytes | done | done].
Defined.
