(* ===== verification/Data.v ===== *)
(** * DATA chunks (sctp_build_data_hdr.c,
    build_prefilled_mac_ip_sctp_data_hdr.c)

    Two builders cut the message of a stream ([sctp_thread_t]: a buffer and
    three positions in it) into DATA chunks.  [sctp_build_data_hdr] fills the
    packet at the association's cursor and flushes it to the transmit ring
    when it is full; [build_prefilled_mac_ip_sctp_data_hdr] puts one chunk in
    a packet of its own, or behind the chunk of a packet waiting in the
    bundling ring.

    The theorems say exactly what a call leaves in memory and in the
    association, and with it where the two builders fall short: the TSN loses
    its carry, the chunk length and the cursor leave out the chunk header, an
    empty message drains the buffers, and a DATA packet has no IPv4 length. *)
From S2P Require Import Prelude Bytes Mem Checksum Crc32c RingBuf Headers Assoc Frames Prefilled Tcp.

(** ** Code: the state *)

(** A slot of the retransmission buffer; [sl_buffer] is a pointer. *)
Record sctp_chunk_slot := Slot {
  in_use : Z; acked : Z; sl_tsn : Z; sl_stream_id : Z; retry_count : Z; sent_at : Z;
  sl_buffer : Z; sl_len : Z
}.

Definition RTX_BUFFER_SIZE : Z := 1024.
Definition RTX_MASK : Z := RTX_BUFFER_SIZE - 1.
Definition SCTP_UNFRAGMENTED : Z := Z.lor SCTP_BBIT SCTP_EBIT.
Definition sz_data : Z := 12.

(** [sizeof (hdr)] of the two functions. *)
Definition sz_data_hdr : Z := sz_fld + sz_data.

(** [assoc->tsn += htonl (1)], the TSN being in network order. *)
Definition next_tsn (tsn : Z) : Z := u32 (tsn + htonl 1).

(** The flags of the chunk [body] bytes long at [pos_current]. *)
Definition chunk_flags (t : sctp_thread) (room body : Z) : Z :=
  let flags := u8 (th_flags t) in
  if u32 (pos_high t - pos_low t) <=? room then Z.lor flags SCTP_UNFRAGMENTED
  else if pos_low t =? pos_current t then Z.lor flags SCTP_BBIT
  else if u32 (pos_current t + body) =? pos_high t then Z.lor flags SCTP_EBIT
  else flags.

Definition with_pos (t : sctp_thread) (p : Z) : sctp_thread :=
  Thread (th_id t) (th_buffer t) (pos_low t) p (pos_high t) (misses t) (num_misses t) (ssn t) (sin t)
    (th_proto t) (th_flags t) (buffer_remain t) (active t).

Section code.
Context {CRC : Crc32Insn} {Q : Type} {PQ : PacketQueue Q}.

(** What the two functions use of the association: [os_threads] (a pointer per
    stream, NULL or a thread), the rings (NULL or a ring), the packet being
    filled and the retransmission buffer. *)
Record data_assoc := DA {
  os_threads : list (option sctp_thread);
  da_tsn : Z; da_ver_tag : Z; da_mtu : Z;
  bundling : option Q; da_prefilled : option Q; da_tx : option Q;
  current_packet : Z; cursor : Z; da_remain : Z;
  rtx : list sctp_chunk_slot
}.

Definition with_rings (a : data_assoc) (b p t : option Q) : data_assoc :=
  DA (os_threads a) (da_tsn a) (da_ver_tag a) (da_mtu a) b p t (current_packet a) (cursor a)
     (da_remain a) (rtx a).
Definition with_packet (a : data_assoc) (packet cur remain : Z) : data_assoc :=
  DA (os_threads a) (da_tsn a) (da_ver_tag a) (da_mtu a) (bundling a) (da_prefilled a) (da_tx a)
     packet cur remain (rtx a).
Definition with_tsn (a : data_assoc) (t : Z) : data_assoc :=
  DA (os_threads a) t (da_ver_tag a) (da_mtu a) (bundling a) (da_prefilled a) (da_tx a)
     (current_packet a) (cursor a) (da_remain a) (rtx a).
Definition with_thread (a : data_assoc) (i : nat) (t : sctp_thread) : data_assoc :=
  DA (<[i := Some t]> (os_threads a)) (da_tsn a) (da_ver_tag a) (da_mtu a) (bundling a)
     (da_prefilled a) (da_tx a) (current_packet a) (cursor a) (da_remain a) (rtx a).
Definition with_rtx (a : data_assoc) (r : list sctp_chunk_slot) : data_assoc :=
  DA (os_threads a) (da_tsn a) (da_ver_tag a) (da_mtu a) (bundling a) (da_prefilled a) (da_tx a)
     (current_packet a) (cursor a) (da_remain a) r.

(** ** Code: [sctp_build_data_hdr] *)

(** [flush:] the packet goes to the transmit ring and a fresh one is taken;
    an empty [prefilled_ring] is a NULL dereference. *)
Definition flush (a : data_assoc) : outcome data_assoc :=
  tx ← push_ring (da_tx a) (current_packet a)
         (u64 (u32 (da_mtu a - da_remain a) + (sz_mac + sz_ip + sz_cmn)));
  let a := with_packet (with_rings a (bundling a) (da_prefilled a) tx) (current_packet a) (cursor a) (da_mtu a) in
  '(cell, pre) ← take_cell (da_prefilled a);
  Ret (with_packet (with_rings a (bundling a) (Some pre) (da_tx a)) (cell_packet cell)
         (cell_packet cell + sz_mac + sz_ip + sz_cmn) (da_remain a)).

(** The thread and [pplen], flushing again while [pplen] is 0. *)
Fixpoint data_room (fuel : nat) (a : data_assoc) (stream : nat)
  : outcome (sctp_thread * Z * data_assoc) :=
  match fuel with
  | O => Timeout
  | S fuel =>
      p ← get (os_threads a !! stream);
      t ← get p;
      let pplen := u32 (Z.min (u64 (da_remain a - sz_data_hdr)) (u32 (pos_high t - pos_current t))) in
      if pplen =? 0 then a ← flush a; data_room fuel a stream else Ret (t, pplen, a)
  end.

(** [(x + 3) & ~3] and [x &= ~3]. *)
Definition align4 (x : Z) : Z := Z.land (u32 (x + 3)) (u32 (Z.lnot 3)).
Definition trunc4 (x : Z) : Z := Z.land x (u32 (Z.lnot 3)).

Definition fit_chunk (remain pplen : Z) : Z * Z :=
  if u64 (remain - sz_data_hdr) <? align4 pplen then (trunc4 pplen, trunc4 pplen)
  else (pplen, align4 pplen).

Definition data_header (t : sctp_thread) (tsn : Z) (stream : nat) (flags len : Z) : bytes :=
  enc (Fld SCTP_DATA flags (htons (u16 len)))
  ++ enc (Data tsn (htons (u16 (Z.of_nat stream))) (ssn t) (th_proto t)).

Definition sctp_build_data_hdr (fuel : nat) (m : mem) (a : data_assoc) (stream : nat)
  : outcome (Z * mem * data_assoc) :=
  if current_packet a =? NULL then Ret (0, m, a)
  else
    a ← (if da_remain a <? sz_data_hdr + 4 then flush a else Ret a);
    '(t, pplen, a) ← data_room fuel a stream;
    let cmn := current_packet a + sz_mac + sz_ip in
    let '(pplen, alligned_plen) := fit_chunk (da_remain a) pplen in
    let packet := cursor a in
    let hdr := data_header t (da_tsn a) stream (chunk_flags t pplen pplen) pplen in
    let a := with_tsn a (next_tsn (da_tsn a)) in
    m ← store m packet hdr;
    data ← load m (th_buffer t + pos_current t) (Z.to_nat pplen);
    m ← store m (packet + sz_data_hdr) data;
    m ← store m (packet + sz_data_hdr + pplen) (replicate (Z.to_nat (alligned_plen - pplen)) 0);
    let a := with_packet a (current_packet a) (cursor a + alligned_plen) (u32 (da_remain a - alligned_plen)) in
    let i := Z.to_nat (Z.land (ntohl (da_tsn a)) RTX_MASK) in
    slot ← get (rtx a !! i);
    let slot := Slot 1 0 (ntohl (da_tsn a)) (Z.of_nat stream) 0 (sent_at slot)
                  (th_buffer t + pos_current t) pplen in
    let a := with_rtx (with_thread a stream (with_pos t (u32 (pos_current t + (pplen - sz_data_hdr)))))
               (<[i := slot]> (rtx a)) in
    m ← st m (cmn + off_cmn_tag) 4 (da_ver_tag a);
    Ret (0, m, a).

(** ** Code: [build_prefilled_mac_ip_sctp_data_hdr] *)

(** The cell: from the bundling ring if it has one. *)
Definition data_cell (a : data_assoc) : outcome (bool * ringbuf_cell * data_assoc) :=
  b ← get (bundling a);
  '(i, b) ← pq_pop b;
  match i with
  | Some _ => c ← pq_cell b i; Ret (true, c, with_rings a (Some b) (da_prefilled a) (da_tx a))
  | None =>
      '(c, p) ← take_cell (da_prefilled a);
      Ret (false, c, with_rings a (Some b) (Some p) (da_tx a))
  end.

(** [pplen], the payload a packet has room for. *)
Definition data_room_prefilled : Z :=
  MAX_PACKET_LEN - (sz_mac + sz_ip + sz_cmn + sz_data_hdr + 16).

(** The stores: the padding of a packet of its own, the header and the payload
    behind what the packet holds ([off] bytes), the two checksums. *)
Definition data_write (m : mem) (packet off : Z) (bundled small : bool) (t : sctp_thread)
    (hdr : bytes) (body pad vtag : Z) : outcome mem :=
  let packet := packet + sz_mac + sz_ip + sz_cmn in
  m ← (if small && negb bundled
       then store m (packet + sz_data_hdr + body) (replicate (Z.to_nat pad) 0) else Ret m);
  m ← store m (packet + off) hdr;
  data ← load m (th_buffer t + pos_current t) (Z.to_nat body);
  m ← store m (packet + sz_data_hdr + off) data;
  let cmn := packet - sz_cmn in
  let ip := cmn - sz_ip in
  m ← st m (ip + off_ip_check) 2 0;
  hd ← load m ip (Z.to_nat sz_ip);
  c ← tcp_checksum hd;
  m ← st m (ip + off_ip_check) 2 c;
  m ← st m (cmn + off_cmn_tag) 4 vtag;
  m ← st m (cmn + off_cmn_check) 4 0;
  data ← load m cmn (Z.to_nat (u32 (sz_cmn + u16 (sz_data_hdr + body) + pad + off)));
  st m (cmn + off_cmn_check) 4 (u32 (Z.lnot (u32 (generate_crc32c_on_crc32c data 0xFFFFFFFF)))).

(** The packet waits for a second chunk or is sent; either way its buffer goes
    back to [prefilled_ring]. *)
Definition data_push (a : data_assoc) (bundled : bool) (cell : ringbuf_cell) (plen : Z) : outcome data_assoc :=
  a ← (if (plen <? 1500) && negb bundled
       then b ← push_ring (bundling a) (cell_packet cell) plen;
            Ret (with_rings a b (da_prefilled a) (da_tx a))
       else t ← push_ring (da_tx a) (cell_packet cell) plen;
            Ret (with_rings a (bundling a) (da_prefilled a) t));
  p ← push_ring (da_prefilled a) (cell_packet cell) (cell_plen cell);
  Ret (with_rings a (bundling a) p (da_tx a)).

Definition build_prefilled_mac_ip_sctp_data_hdr (m : mem) (a : data_assoc) (stream : nat)
  : outcome (Z * mem * data_assoc) :=
  p ← get (os_threads a !! stream);
  match p with
  | None => Ret (-1, m, a)
  | Some t =>
      let tsn := da_tsn a in
      let a := with_tsn a (next_tsn tsn) in
      '(bundled, cell, a) ← data_cell a;
      let plen := u32 (cell_plen cell) in
      let body := Z.min data_room_prefilled (u32 (pos_high t - pos_current t)) in
      off ← (if bundled : bool then
               flen ← ld m (cell_packet cell + sz_mac + sz_ip + sz_cmn + off_fld_len) 2;
               Ret (ntohs flen + Z.land (u32 (- ntohs flen)) 3)
             else Ret 0);
      let hdr := data_header t tsn stream (chunk_flags t data_room_prefilled body) (sz_data_hdr + body) in
      let small := plen <? 1500 in
      let pad := if small then Z.land (u64 (- (sz_data_hdr + body))) 3 else 0 in
      m ← data_write m (cell_packet cell) off bundled small t hdr body pad (da_ver_tag a);
      let plen := u32 (u32 (plen + pad) + (sz_data_hdr + body)) in
      a ← data_push (with_thread a stream (with_pos t (u32 (pos_current t + body)))) bundled cell plen;
      Ret (0, m, a)
  end.
End code.
Arguments data_assoc Q : clear implicits.

(** ** Lemmas: the TSN *)
Lemma htonl_bytes x :
  htonl x = u8 (x / 0x100 / 0x100 / 0x100) + 0x100 * (u8 (x / 0x100 / 0x100)
            + 0x100 * (u8 (x / 0x100) + 0x100 * u8 x)).
Proof. unfold htonl. cbn [le_enc reverse rev_append le_dec]. unfold reverse. cbn [rev_append le_dec]. lia. Qed.

Lemma htonl_split n :
  is_u32 n → htonl n = htonl (n - n mod 0x100) + 0x1000000 * (n mod 0x100).
Proof.
  intros Hn. rewrite !htonl_bytes.
  assert ((n - n mod 0x100) / 0x100 = n / 0x100) as -> by (Z.div_mod_to_equations; lia).
  assert (u8 (n - n mod 0x100) = 0) as -> by (unfold u8; Z.div_mod_to_equations; lia).
  unfold u8 at 4. lia.
Qed.

Lemma htonl_head n : is_u32 n → 0 ≤ htonl (n - n mod 0x100) < 0x1000000.
Proof.
  intros Hn. rewrite htonl_bytes.
  assert (u8 (n - n mod 0x100) = 0) as -> by (unfold u8; Z.div_mod_to_equations; lia).
  pose proof (u8_range ((n - n mod 0x100) / 0x100 / 0x100 / 0x100)).
  pose proof (u8_range ((n - n mod 0x100) / 0x100 / 0x100)).
  pose proof (u8_range ((n - n mod 0x100) / 0x100)).
  unfold is_u8 in *. lia.
Qed.

Lemma htonl_1 : htonl 1 = 0x1000000.
Proof. reflexivity. Qed.

Lemma next_tsn_iter k t :
  is_u32 t → Nat.iter k next_tsn t = u32 (t + 0x1000000 * Z.of_nat k).
Proof.
  intros Ht. induction k as [|k IH]; [by rewrite Z.add_0_r, u32_id|].
  change (Nat.iter (S k) next_tsn t) with (next_tsn (Nat.iter k next_tsn t)).
  rewrite IH. unfold next_tsn. rewrite htonl_1. unfold u32. rewrite Zplus_mod_idemp_l. f_equal. lia.
Qed.

(** ** Properties: the TSN *)

(** The TSN is incremented in network order without a carry between its
    bytes: the next TSN is the next number unless the last byte is 255, and
    after 256 chunks the numbers repeat. *)
Lemma tsn_carry_lost (n : Z) (Hn : is_u32 n) :
  (next_tsn (htonl n) = htonl (u32 (n + 1)) ↔ n mod 0x100 ≠ 0xFF)
  ∧ Nat.iter 256 next_tsn (htonl n) = htonl n.
Proof.
  pose proof (htonl_head n Hn) as Hh. split.
  - unfold next_tsn. rewrite htonl_1. destruct (decide (n mod 0x100 = 0xFF)) as [E|E].
    + rewrite (htonl_split n Hn), E.
      replace (u32 (htonl (n - 0xFF) + 0x1000000 * 0xFF + 0x1000000)) with (htonl (n - 0xFF))
        by (rewrite E in Hh; unfold u32; Z.div_mod_to_equations; lia).
      split; [|done]. intros Heq. exfalso.
      assert (n - 0xFF = u32 (n + 1)) as Hx.
      { rewrite <-(htonl_htonl (n - 0xFF)), Heq, htonl_htonl; [done|apply u32_range|].
        unfold_widths. Z.div_mod_to_equations; lia. }
      revert Hx. unfold_widths. Z.div_mod_to_equations; lia.
    + split; [done|]. intros _.
      assert (n + 1 < 0x100000000) as Hlt by (unfold is_u32 in Hn; Z.div_mod_to_equations; lia).
      assert (is_u32 (n + 1)) as Hn1 by (unfold is_u32 in *; lia).
      rewrite (u32_id (n + 1)), (htonl_split n Hn), (htonl_split (n + 1) Hn1) by done.
      assert ((n + 1) mod 0x100 = n mod 0x100 + 1) as -> by (Z.div_mod_to_equations; lia).
      replace (n + 1 - (n mod 0x100 + 1)) with (n - n mod 0x100) by lia.
      pose proof (Z.mod_pos_bound n 0x100). rewrite u32_id; unfold is_u32; lia.
  - rewrite next_tsn_iter by apply htonl_range. pose proof (htonl_range n) as Hr.
    unfold_widths. change (0x1000000 * Z.of_nat 256) with (1 * 0x100000000).
    rewrite Z_mod_plus_full. by apply Z.mod_small.
Qed.

Lemma tsn_carry_lost_witness :
  (next_tsn (htonl 0x1FF) = htonl (u32 (0x1FF + 1)) ↔ 0x1FF mod 0x100 ≠ 0xFF)
  ∧ Nat.iter 256 next_tsn (htonl 0x1FF) = htonl 0x1FF.
Proof. apply (tsn_carry_lost 0x1FF). unfold is_u32. lia. Defined.

(** ** Lemmas: the chunk that fits *)

(** The payload bytes of the next chunk, [left] of the message being left, and
    the room it takes with its padding. *)
Definition round4 (x : Z) : Z := x + - x mod 4.
Definition chunk_len (remain left : Z) : Z :=
  let n := Z.min (remain - 16) left in
  if remain - 16 <? round4 n then n - n mod 4 else n.

Lemma align4_spec x : 0 ≤ x < 0xFFFFFFF0 → align4 x = round4 x.
Proof.
  intros Hx. unfold align4, round4. rewrite u32_id by (unfold is_u32; lia).
  change (u32 (Z.lnot 3)) with (Z.ldiff (Z.ones 32) (Z.ones 2)).
  assert (Z.land (x + 3) (Z.ldiff (Z.ones 32) (Z.ones 2)) = Z.ldiff (x + 3) (Z.ones 2)) as ->.
  { rewrite Z.ldiff_land, Z.land_assoc, Z.land_ones, Z.mod_small by lia. by rewrite Z.ldiff_land. }
  rewrite Z.ldiff_ones_r, Z.shiftl_mul_pow2, Z.shiftr_div_pow2 by lia. change (2 ^ 2) with 4.
  Z.div_mod_to_equations; lia.
Qed.

Lemma trunc4_spec x : is_u32 x → trunc4 x = x - x mod 4.
Proof.
  intros Hx. unfold trunc4. change (u32 (Z.lnot 3)) with (Z.ldiff (Z.ones 32) (Z.ones 2)).
  assert (Z.land x (Z.ldiff (Z.ones 32) (Z.ones 2)) = Z.ldiff x (Z.ones 2)) as ->.
  { rewrite Z.ldiff_land, Z.land_assoc, Z.land_ones, Z.mod_small by (unfold is_u32 in *; lia).
    by rewrite Z.ldiff_land. }
  rewrite Z.ldiff_ones_r, Z.shiftl_mul_pow2, Z.shiftr_div_pow2 by lia. change (2 ^ 2) with 4.
  Z.div_mod_to_equations; lia.
Qed.

Lemma round4_bounds x : x ≤ round4 x ≤ x + 3.
Proof. unfold round4. Z.div_mod_to_equations; lia. Qed.

Lemma chunk_len_bounds remain left :
  20 ≤ remain → 0 < left →
  0 < chunk_len remain left ≤ left ∧ round4 (chunk_len remain left) ≤ remain - 16.
Proof.
  intros Hr Hl. unfold chunk_len, round4.
  destruct (Z.ltb_spec (remain - 16) (Z.min (remain - 16) left + - Z.min (remain - 16) left mod 4));
    Z.div_mod_to_equations; lia.
Qed.

Lemma fit_chunk_spec remain left :
  20 ≤ remain < 0xFFFFFFF0 → 0 < left →
  fit_chunk remain (Z.min (remain - 16) left) = (chunk_len remain left, round4 (chunk_len remain left)).
Proof.
  intros Hr Hl. unfold fit_chunk, chunk_len. change sz_data_hdr with 16.
  rewrite u64_id by (unfold is_u64; lia). rewrite align4_spec by lia.
  destruct (_ <? _); [|done]. rewrite trunc4_spec by (unfold is_u32; lia).
  f_equal. unfold round4. Z.div_mod_to_equations; lia.
Qed.

(** ** Properties: [sctp_build_data_hdr] *)
Section written.
Context {Q : Type} {PQ : PacketQueue Q}.

Lemma data_room_ret fuel (a : data_assoc Q) i t :
  os_threads a !! i = Some (Some t) → 20 ≤ da_remain a < 0x100000000 →
  0 ≤ pos_current t < pos_high t → pos_high t < 0x100000000 →
  data_room (S fuel) a i
  = Ret (t, Z.min (da_remain a - 16) (pos_high t - pos_current t), a).
Proof.
  intros Ht Hr Hp Hh. cbn [data_room]. rewrite Ht. cbn [get]. rewrite bind_ret. cbn [get]. rewrite bind_ret.
  change sz_data_hdr with 16. rewrite u64_id by (unfold is_u64; lia).
  rewrite (u32_id (pos_high t - _)) by (unfold is_u32; lia).
  rewrite u32_id by (unfold is_u32; lia). rewrite (proj2 (Z.eqb_neq _ _)) by lia. done.
Qed.

(** The association after a chunk of [n] bytes of the stream [i]. *)
Definition after_chunk (a : data_assoc Q) (i : nat) (t : sctp_thread) (n : Z) (slot : sctp_chunk_slot)
  : data_assoc Q :=
  let tsn := next_tsn (da_tsn a) in
  DA (<[i := Some (with_pos t (u32 (pos_current t + (n - 16))))]> (os_threads a))
    tsn (da_ver_tag a) (da_mtu a) (bundling a) (da_prefilled a) (da_tx a)
    (current_packet a) (cursor a + round4 n) (da_remain a - round4 n)
    (<[Z.to_nat (htonl tsn mod 1024) :=
        Slot 1 0 (htonl tsn) (Z.of_nat i) 0 (sent_at slot) (th_buffer t + pos_current t) n]> (rtx a)).

(** Three pieces stored one after the other. *)
Lemma write_three m p (a b c : bytes) n k :
  n = Z.of_nat (length a) → k = Z.of_nat (length b) →
  bytes_at (write (write (write m p a) (p + n) b) (p + n + k) c) p (a ++ b ++ c).
Proof.
  intros -> ->. apply bytes_at_app; split; [|apply bytes_at_app; split].
  - do 2 (apply bytes_at_write_other; [|lia]). apply bytes_at_write.
  - apply bytes_at_write_other; [apply bytes_at_write | lia].
  - apply bytes_at_write.
Qed.

(** C25: what a call puts in the packet, with room for it: at the cursor a DATA
    header, the next bytes of the message (as many as fit) and zeros up to a
    multiple of four, and the verification tag in the common header; nothing
    else in memory changes.  The association moves on as [after_chunk] says:
    the length in the header, the cursor, the room and the position in the
    message all leave out the 16 bytes of the header, so that the next chunk
    starts inside this one and repeats 16 bytes of the message; and the
    retransmission slot is the one of the next TSN. *)
Theorem data_chunk_written fuel m (a : data_assoc Q) i (t : sctp_thread) (payload : bytes)
    (slot : sctp_chunk_slot)
    (Hcur : current_packet a ≠ NULL) (Hremain : 20 ≤ da_remain a < 0xFFFFFFF0)
    (Ht : os_threads a !! i = Some (Some t))
    (Hpos : 0 ≤ pos_current t < pos_high t) (Hhigh : pos_high t < 0x100000000)
    (Hslot : rtx a !! Z.to_nat (htonl (next_tsn (da_tsn a)) mod 1024) = Some slot)
    (Hlen : Z.of_nat (length payload) = chunk_len (da_remain a) (pos_high t - pos_current t))
    (Hat : bytes_at m (th_buffer t + pos_current t) payload)
    (Hroom : mapped m (cursor a) (Z.to_nat (16 + round4 (Z.of_nat (length payload)))))
    (Htag : mapped m (current_packet a + 38) 4) (Hcursor : current_packet a + 46 ≤ cursor a)
    (Hdis : th_buffer t + pos_current t + Z.of_nat (length payload) ≤ cursor a
            ∨ cursor a + 16 ≤ th_buffer t + pos_current t) :
  let n := Z.of_nat (length payload) in
  ∃ m', sctp_build_data_hdr (S fuel) m a i = Ret (0, m', after_chunk a i t n slot)
  ∧ bytes_at m' (cursor a) (data_header t (da_tsn a) i (chunk_flags t n n) n ++ payload
                            ++ replicate (Z.to_nat (round4 n - n)) 0)
  ∧ bytes_at m' (current_packet a + 38) (le_enc 4 (da_ver_tag a))
  ∧ ∀ q, ¬ (cursor a ≤ q < cursor a + 16 + round4 n) → ¬ (current_packet a + 38 ≤ q < current_packet a + 42) →
      m' !! q = m !! q.
Proof.
  intros n. fold n in Hlen, Hroom, Hdis. set (left := pos_high t - pos_current t) in *.
  destruct (chunk_len_bounds (da_remain a) left) as [Hn Hspan]; [lia..|]. rewrite <-Hlen in Hn, Hspan.
  pose proof (round4_bounds n) as Hrd.
  unfold sctp_build_data_hdr. rewrite (proj2 (Z.eqb_neq _ _)) by done.
  change (sz_data_hdr + 4) with 20. rewrite (proj2 (Z.ltb_ge _ _)) by lia. rewrite bind_ret.
  rewrite (data_room_ret fuel a i t) by (done || lia). fold left. rewrite bind_ret.
  rewrite fit_chunk_spec by lia. rewrite <-Hlen. cbv zeta.
  set (hdr := data_header t (da_tsn a) i (chunk_flags t n n) n).
  assert (length hdr = 16%nat) as Eh by reflexivity.
  set (pad := replicate (Z.to_nat (round4 n - n)) 0).
  assert (length pad = Z.to_nat (round4 n - n)) as Ep by apply length_replicate.
  unfold with_tsn at 1. cbn [cursor].
  rewrite store_mapped, bind_ret by (rewrite Eh; eapply mapped_sub; [exact Hroom|lia..]).
  set (m1 := write m (cursor a) hdr).
  assert (bytes_at m1 (th_buffer t + pos_current t) payload) as Hat1
    by (apply bytes_at_write_other; [done|rewrite Eh; fold n; lia]).
  rewrite (load_at' _ _ _ _ Hat1), bind_ret by (unfold n; lia). change sz_data_hdr with 16.
  rewrite store_mapped, bind_ret by (apply mapped_write; eapply mapped_sub; [exact Hroom|fold n; lia..]).
  set (m2 := write m1 (cursor a + 16) payload).
  rewrite store_mapped, bind_ret by
    (do 2 apply mapped_write; fold pad; rewrite Ep; eapply mapped_sub; [exact Hroom|fold n; lia..]).
  set (m3 := write m2 (cursor a + 16 + n) pad).
  unfold with_packet at 1. cbn [da_tsn with_packet with_tsn rtx].
  assert (Z.land (htonl (next_tsn (da_tsn a))) RTX_MASK = htonl (next_tsn (da_tsn a)) mod 1024) as ->
    by (apply (Z.land_ones _ 10); lia).
  rewrite Hslot. cbn [get]. rewrite bind_ret.
  replace (current_packet a + sz_mac + sz_ip + off_cmn_tag) with (current_packet a + 38)
    by (unfold sz_mac, sz_ip; change off_cmn_tag with 4; lia).
  cbn [da_ver_tag with_rtx with_thread with_packet with_tsn].
  rewrite st_mapped, bind_ret by (do 3 apply mapped_write; exact Htag).
  eexists; split; [|split; [|split]].
  - unfold after_chunk, with_rtx, with_thread, with_packet, with_tsn.
    cbn [os_threads da_tsn da_ver_tag da_mtu bundling da_prefilled da_tx current_packet cursor da_remain rtx].
    by rewrite (u32_id (da_remain a - round4 n)) by (unfold is_u32; lia).
  - apply bytes_at_write_other; [|rewrite length_le_enc; lia].
    by apply write_three.
  - apply bytes_at_write.
  - intros q Hq1 Hq2. unfold m3, m2, m1. rewrite !lookup_write, Ep, Eh, length_le_enc.
    rewrite !decide_False by (fold n; lia). done.
Qed.
End written.

(** *** An empty message *)
Section drain.
Context {Q : Type} {PQ : PacketQueue Q}.

(** The two rings of the association. *)
Definition holds_rings (cap : nat) (a : data_assoc Q) (pre txq : list item) : Prop :=
  ∃ qp qt, da_prefilled a = Some qp ∧ da_tx a = Some qt ∧ pq_rep cap qp pre ∧ pq_rep cap qt txq.

Lemma flush_empty cap (a : data_assoc Q) txq : holds_rings cap a [] txq → flush a = Fault.
Proof.
  intros (qp & qt & E1 & E2 & Hp & Hq). unfold flush. rewrite E2.
  destruct (push_ring_total cap qt txq (current_packet a)
    (u64 (u32 (da_mtu a - da_remain a) + (sz_mac + sz_ip + sz_cmn))) Hq) as (qt' & l' & -> & _).
  rewrite bind_ret. cbn [da_prefilled with_packet with_rings]. rewrite E1. unfold take_cell. cbn [get].
  rewrite bind_ret, (pq_pop_empty _ _ Hp), bind_ret, pq_cell_null. done.
Qed.

Lemma flush_next cap (a : data_assoc Q) p n pre txq :
  holds_rings cap a ((p, n) :: pre) txq →
  ∃ a' txq', flush a = Ret a' ∧ holds_rings cap a' pre txq' ∧ os_threads a' = os_threads a.
Proof.
  intros (qp & qt & E1 & E2 & Hp & Hq). unfold flush. rewrite E2.
  destruct (push_ring_total cap qt txq (current_packet a)
    (u64 (u32 (da_mtu a - da_remain a) + (sz_mac + sz_ip + sz_cmn))) Hq) as (qt' & l' & -> & Hq').
  rewrite bind_ret. cbn [da_prefilled with_packet with_rings]. rewrite E1.
  destruct (take_cell_spec _ _ _ _ _ Hp) as (s & qp' & -> & Hp'). rewrite bind_ret.
  eexists _, l'. split; [done|]. split; [|done]. by exists qp', qt'.
Qed.

Lemma data_room_drains cap fuel (a : data_assoc Q) i t pre txq :
  holds_rings cap a pre txq → os_threads a !! i = Some (Some t) → pos_current t = pos_high t →
  (length pre < fuel)%nat → data_room fuel a i = Fault.
Proof.
  revert fuel a txq. induction pre as [|[p n] pre IH]; intros fuel a txq Hr Ht Hpos Hf;
    (destruct fuel as [|fuel]; [cbn in Hf; lia|]); cbn [data_room]; rewrite Ht; cbn [get];
    rewrite bind_ret; cbn [get]; rewrite bind_ret, Hpos, Z.sub_diag; change (u32 0) with 0;
    rewrite Z.min_r by (pose proof (u64_range (da_remain a - sz_data_hdr)); unfold is_u64 in *; lia);
    change (u32 0 =? 0) with true; cbn match.
  - by rewrite (flush_empty cap a txq).
  - destruct (flush_next cap a p n pre txq Hr) as (a' & txq' & -> & Hr' & E). rewrite bind_ret.
    apply (IH fuel a' txq'); [done|by rewrite E|done|cbn in Hf; lia].
Qed.

(** A call for a stream whose message is sent ([pos_current] has reached
    [pos_high], as it has in a thread just prepared) does not return: it
    flushes again and again, takes every buffer of [prefilled_ring], and
    dereferences NULL when there is none left. *)
Lemma empty_message_drains cap fuel m (a : data_assoc Q) i t pre txq
    (Hcur : current_packet a ≠ NULL) (Hr : holds_rings cap a pre txq)
    (Ht : os_threads a !! i = Some (Some t)) (Hpos : pos_current t = pos_high t)
    (Hfuel : (length pre < fuel)%nat) :
  sctp_build_data_hdr fuel m a i = Fault.
Proof.
  unfold sctp_build_data_hdr. rewrite (proj2 (Z.eqb_neq _ _)) by done.
  destruct (_ <? _).
  - destruct pre as [|[p n] pre]; [by rewrite (flush_empty cap a txq)|].
    destruct (flush_next cap a p n pre txq Hr) as (a' & txq' & -> & Hr' & E). rewrite bind_ret.
    by rewrite (data_room_drains cap fuel a' i t pre txq') by (rewrite ?E; done || cbn in Hfuel; lia).
  - rewrite bind_ret. by rewrite (data_room_drains cap fuel a i t pre txq).
Qed.
End drain.

(** ** Properties: [build_prefilled_mac_ip_sctp_data_hdr] *)
Section rejected.
Context {CRC : Crc32Insn} {Q : Type} {PQ : PacketQueue Q}.

Lemma st_ip_alone m p (ip : ipv4_t) i w v :
  bytes_at m p (enc ip) → layout ipv4_t !! i = Some w →
  ∃ m', st m (p + field_off ipv4_t i) w v = Ret m' ∧ bytes_at m' p (enc (set_field i v ip))
  ∧ ∀ q k, mapped m q k → mapped m' q k.
Proof.
  intros Hat Hw. destruct (st_field m p [] ip [] i w v) as [E H]; [by rewrite app_nil_r|done|].
  rewrite app_nil_r in H. cbn [length Z.of_nat] in E, H. rewrite Z.add_0_l in E, H.
  eexists; split; [exact E|]. split; [exact H|]. intros q k. apply mapped_write.
Qed.

Lemma ld_ip_alone m p (ip : ipv4_t) i w v :
  bytes_at m p (enc ip) → wf ip → layout ipv4_t !! i = Some w → fields ip !! i = Some v →
  ld m (p + field_off ipv4_t i) w = Ret v.
Proof. intros Hat Hip. apply (ld_field_at m p ip []); [by rewrite app_nil_r|done]. Qed.

(** The receiver drops a packet whose IPv4 length is too short, whatever its
    checksums. *)
Lemma short_length_rejected m p plen (ip : ipv4_t) :
  bytes_at m (p + 14) (enc ip) → wf ip → ntohs (ip_len ip) < 36 →
  ∃ m', sctp_check_checksums m p plen = Ret (-1, m').
Proof.
  intros Hat Hip Hlen. unfold sctp_check_checksums. destruct (_ <? _); [eauto|]. cbv zeta.
  change (p + sz_mac) with (p + 14). unfold off_ip_check, off_ip_len.
  rewrite (ld_ip_alone m _ ip 7 2 (ip_check ip)), bind_ret by done.
  destruct (st_ip_alone m (p + 14) ip 7 2 0 Hat eq_refl) as (m1 & -> & H1 & _). rewrite bind_ret.
  rewrite (load_at' m1 _ _ _ H1), bind_ret by (by rewrite (length_enc (set_field 7 0 ip))).
  destruct (negb _); [eauto|].
  destruct (st_ip_alone m1 (p + 14) _ 7 2 (ip_check ip) H1 eq_refl) as (m2 & -> & H2 & _). rewrite bind_ret.
  rewrite set_check_twice in H2.
  assert (wf (set_field 7 (ip_check ip) ip)) as Hip2
    by (apply (wf_set_field ip 7 2); [done..|by apply (wf_field ip 7)]).
  rewrite (ld_ip_alone m2 _ _ 2 2 (ip_len ip) H2 Hip2), bind_ret by (done || by destruct ip).
  change (sz_ip + sz_cmn + sz_fld) with 36. rewrite (proj2 (Z.ltb_lt _ _)) by done. eauto.
Qed.

(** The memory after a chunk in a packet of its own. *)
(** Writes behind the IPv4 header. *)
Lemma write_tail m p o (ip : ipv4_t) bs :
  bytes_at m (p + 14) (enc ip) → 34 ≤ o → bytes_at (write m (p + o) bs) (p + 14) (enc ip).
Proof.
  intros Hat Ho. apply bytes_at_write_other; [done|]. rewrite (length_enc ip).
  change (Z.of_nat (size ipv4_t)) with 20. lia.
Qed.

(** The two fields of the common header, and the CRC of what follows. *)
Lemma crc_stored m p body pad vtag (ip : ipv4_t) :
  0 ≤ body ≤ 1438 → 0 ≤ pad ≤ 3 → bytes_at m (p + 14) (enc ip) → mapped m (p + 34) (Z.to_nat (31 + body)) →
  ∃ m', (m ← st m (p + 34 + off_cmn_tag) 4 vtag; m ← st m (p + 34 + off_cmn_check) 4 0;
         data ← load m (p + 34) (Z.to_nat (u32 (sz_cmn + u16 (16 + body) + pad)));
         st m (p + 34 + off_cmn_check) 4 (u32 (Z.lnot (u32 (generate_crc32c_on_crc32c data 0xFFFFFFFF))))) = Ret m'
  ∧ bytes_at m' (p + 14) (enc ip).
Proof.
  intros Hb Hpad Hat Hm. change off_cmn_tag with 4. change off_cmn_check with 8. rewrite <-!(Z.add_assoc p).
  rewrite st_mapped, bind_ret by (eapply mapped_sub; [exact Hm|lia..]).
  rewrite st_mapped, bind_ret by (apply mapped_write; eapply mapped_sub; [exact Hm|lia..]).
  destruct (mapped_read (write (write m (p + (34 + 4)) (le_enc 4 vtag)) (p + (34 + 8)) (le_enc 4 0)) (p + 34)
    (Z.to_nat (u32 (sz_cmn + u16 (16 + body) + pad)))) as [data Hd].
  { do 2 apply mapped_write. eapply mapped_sub; [exact Hm|lia|]. unfold sz_cmn.
    rewrite (u16_id (16 + body)), u32_id by (unfold_widths; lia). lia. }
  apply read_Some in Hd as [Hdl Hd]. rewrite (load_at' _ _ _ _ Hd Hdl), bind_ret.
  rewrite st_mapped by (do 2 apply mapped_write; eapply mapped_sub; [exact Hm|lia..]).
  eexists. split; [done|]. do 3 (apply write_tail; [|lia]). exact Hat.
Qed.

Lemma data_write_spec m p small t (hdr : bytes) body pad vtag (ip : ipv4_t) :
  length hdr = 16%nat → 0 ≤ body ≤ 1438 → 0 ≤ pad ≤ 3 →
  bytes_at m (p + 14) (enc ip) → wf ip →
  mapped m p (Z.to_nat (65 + body)) → mapped m (th_buffer t + pos_current t) (Z.to_nat body) →
  ∃ m' c, data_write m p 0 false small t hdr body pad vtag = Ret m'
  ∧ bytes_at m' (p + 14) (enc (set_field 7 c ip)) ∧ fits 2 c.
Proof.
  intros Eh Hb Hpad Hat Hip Hm Hmsg. unfold data_write. cbn [negb]. rewrite andb_true_r. cbv zeta.
  replace (p + sz_mac + sz_ip + sz_cmn) with (p + 46) by (unfold sz_mac, sz_ip, sz_cmn; lia).
  replace (p + 46 - sz_cmn) with (p + 34) by (unfold sz_cmn; lia).
  replace (p + 34 - sz_ip) with (p + 14) by (unfold sz_ip; lia).
  change sz_data_hdr with 16. rewrite !Z.add_0_r. pose proof (length_enc ip) as Eip. change (size ipv4_t) with 20%nat in Eip.
  set (m0 := if small then write m (p + 46 + 16 + body) (replicate (Z.to_nat pad) 0) else m).
  assert ((if small then store m (p + 46 + 16 + body) (replicate (Z.to_nat pad) 0) else Ret m) = Ret m0) as ->.
  { unfold m0. destruct small; [|done]. rewrite store_mapped; [done|]. rewrite length_replicate.
    eapply mapped_sub; [exact Hm|lia..]. }
  assert (bytes_at m0 (p + 14) (enc ip) ∧ ∀ q k, mapped m q k → mapped m0 q k) as [Hat0 Hm0].
  { unfold m0. destruct small; [|done]. split; [|intros; by apply mapped_write].
    apply bytes_at_write_other; [done|lia]. }
  rewrite bind_ret, store_mapped, bind_ret by (rewrite Eh; apply Hm0; eapply mapped_sub; [exact Hm|lia..]).
  set (m1 := write m0 (p + 46) hdr).
  destruct (mapped_read m1 _ _ (mapped_write m0 (p + 46) hdr _ _ (Hm0 _ _ Hmsg))) as [data Hread].
  apply read_Some in Hread as [Hdl Hdat]. rewrite (load_at' m1 _ _ _ Hdat Hdl), bind_ret.
  rewrite store_mapped, bind_ret by
    (apply mapped_write, Hm0; rewrite Hdl; eapply mapped_sub; [exact Hm|lia..]).
  set (m2 := write m1 (p + 46 + 16) data).
  assert (bytes_at m2 (p + 14) (enc ip)) as Hat2.
  { apply bytes_at_write_other; [|lia]. apply bytes_at_write_other; [done|lia]. }
  assert (∀ q k, mapped m q k → mapped m2 q k) as Hm2 by (intros; by do 2 apply mapped_write; apply Hm0).
  clearbody m2. unfold off_ip_check.
  destruct (st_ip_alone m2 (p + 14) ip 7 2 0 Hat2 eq_refl) as (m3 & -> & H3 & Hm3). rewrite bind_ret.
  rewrite (load_at' m3 _ _ _ H3), bind_ret by (by rewrite (length_enc (set_field 7 0 ip))).
  rewrite tcp_checksum_ret, bind_ret by (apply enc_ok || rewrite (length_enc (set_field 7 0 ip)); by vm_compute).
  set (c := 65535 - _).
  assert (fits 2 c) as Hc by (apply fits_check, sum_words_nonneg, padded_words_ok, enc_ok).
  destruct (st_ip_alone m3 (p + 14) _ 7 2 c H3 eq_refl) as (m4 & -> & H4 & Hm4). rewrite bind_ret.
  rewrite set_check_twice in H4.
  assert (∀ q k, mapped m q k → mapped m4 q k) as Hm4' by (intros; by apply Hm4, Hm3, Hm2).
  assert (mapped m4 (p + 34) (Z.to_nat (31 + body))) as Hcmn
    by (apply Hm4'; eapply mapped_sub; [exact Hm|lia..]).
  destruct (crc_stored m4 p body pad vtag (set_field 7 c ip) Hb Hpad H4 Hcmn) as (m5 & E5 & H5).
  exists m5, c. split; [exact E5 | by split].
Qed.

(** The rings take the packet whether they are full or not. *)
Lemma data_push_total cap (a : data_assoc Q) qb lb pre txq bundled cell plen :
  bundling a = Some qb → pq_rep cap qb lb → holds_rings cap a pre txq →
  ∃ a', data_push a bundled cell plen = Ret a'.
Proof.
  intros Eb Hb (qp & qt & E1 & E2 & Hp & Hq). unfold data_push.
  destruct (push_ring_total cap qp pre (cell_packet cell) (cell_plen cell) Hp) as (qp' & lp & Ep & _).
  destruct (_ && _).
  - rewrite Eb. destruct (push_ring_total cap qb lb (cell_packet cell) plen Hb) as (qb' & ? & -> & _).
    rewrite !bind_ret. cbn [da_prefilled with_rings]. rewrite E1, Ep, bind_ret. eauto.
  - rewrite E2. destruct (push_ring_total cap qt txq (cell_packet cell) plen Hq) as (qt' & ? & -> & _).
    rewrite !bind_ret. cbn [da_prefilled with_rings]. rewrite E1, Ep, bind_ret. eauto.
Qed.

(** A DATA chunk alone in a prefilled packet: the packet is built and put
    in a ring, but nothing writes its IPv4 length, which in a prefilled packet
    is too short for any chunk: the receiver drops it. *)
Lemma data_packet_rejected cap m (a : data_assoc Q) i (t : sctp_thread) qb p n l txq (ip : ipv4_t)
    (Ht : os_threads a !! i = Some (Some t))
    (Hb : bundling a = Some qb) (Hqb : pq_rep cap qb [])
    (Hr : holds_rings cap a ((p, n) :: l) txq)
    (Hat : bytes_at m (p + 14) (enc ip)) (Hip : wf ip) (Hlen : ntohs (ip_len ip) < 36)
    (Hroom : mapped m p (Z.to_nat (65 + Z.min data_room_prefilled (u32 (pos_high t - pos_current t)))))
    (Hmsg : mapped m (th_buffer t + pos_current t)
              (Z.to_nat (Z.min data_room_prefilled (u32 (pos_high t - pos_current t))))) :
  ∃ m' a', build_prefilled_mac_ip_sctp_data_hdr m a i = Ret (0, m', a')
  ∧ ∀ plen, ∃ m'', sctp_check_checksums m' p plen = Ret (-1, m'').
Proof.
  destruct Hr as (qp & qt & E1 & E2 & Hp & Hq).
  set (body := Z.min data_room_prefilled (u32 (pos_high t - pos_current t))) in *.
  assert (0 ≤ body ≤ 1438) as Hbody.
  { unfold body. change data_room_prefilled with 1438. pose proof (u32_range (pos_high t - pos_current t)).
    unfold is_u32 in *. lia. }
  unfold build_prefilled_mac_ip_sctp_data_hdr, data_cell. rewrite Ht. cbn [get]. rewrite bind_ret.
  cbn [bundling da_prefilled with_tsn]. rewrite Hb. cbn [get]. rewrite bind_ret, (pq_pop_empty _ _ Hqb), bind_ret.
  rewrite E1. destruct (take_cell_spec _ _ _ _ _ Hp) as (s & qp' & -> & Hp'). rewrite !bind_ret.
  cbn [cell_packet cell_plen]. fold body. set (small := u32 n <? 1500). set (pad := if small then _ else 0).
  assert (0 ≤ pad ≤ 3) as Hpad.
  { unfold pad. destruct small; [|lia]. change 3 with (Z.ones 2). rewrite Z.land_ones by lia.
    change (2 ^ 2) with 4. change (Z.ones 2) with 3. Z.div_mod_to_equations; lia. }
  set (hdr := data_header t _ i _ _).
  destruct (data_write_spec m p small t hdr body pad (da_ver_tag (with_rings (with_tsn a (next_tsn (da_tsn a)))
    (Some qb) (Some qp') (da_tx (with_tsn a (next_tsn (da_tsn a)))))) ip) as (m' & c & E & Hat' & Hc); [done..|].
  rewrite E, bind_ret.
  set (a1 := with_thread _ _ _). set (plen := u32 (_ + _)).
  destruct (data_push_total cap a1 qb [] l txq false (Cell s n p) plen) as (a' & ->); [done|done| |].
  { by exists qp', qt. }
  rewrite bind_ret. exists m', a'. split; [done|]. intros plen'.
  apply (short_length_rejected m' p plen' (set_field 7 c ip)); [done|by apply (wf_set_field ip 7 2)|].
  by rewrite set_check_len.
Qed.
End rejected.

(** ** Witnesses *)
Definition demo_message : bytes := [72; 101; 108; 108; 111].
Definition demo_data_mem : mem := write (write ∅ 1000 (replicate 200 0)) 5000 demo_message.
Definition demo_stream (current : Z) : sctp_thread := Thread 0 5000 0 current 5 0 0 3 0 0 0 0 false.
Definition demo_slot : sctp_chunk_slot := Slot 0 0 0 0 0 0 0 0.
Definition demo_data_assoc (bun pre txr : option ringbuf) (current : Z) : data_assoc ringbuf :=
  DA [Some (demo_stream current)] (htonl 7) 9 1400 bun pre txr 1000 1046 1400 (replicate 1024 demo_slot).

Lemma demo_data_mapped p n : 1000 ≤ p → p + Z.of_nat n ≤ 1200 → mapped demo_data_mem p n.
Proof.
  intros Hp Hn. unfold demo_data_mem. apply mapped_write.
  pose proof (bytes_at_mapped _ _ _ (bytes_at_write ∅ 1000 (replicate 200 0))) as H.
  rewrite length_replicate in H. eapply mapped_sub; [exact H|lia..].
Qed.

Lemma data_chunk_written_witness :
  ∃ m', sctp_build_data_hdr 1 demo_data_mem (demo_data_assoc None None None 0) 0
        = Ret (0, m', after_chunk (demo_data_assoc None None None 0) 0 (demo_stream 0) 5 demo_slot)
  ∧ bytes_at m' 1046 (enc (Fld 0 3 (htons 5)) ++ enc (Data (htonl 7) 0 3 0) ++ demo_message ++ [0; 0; 0]).
Proof.
  destruct (data_chunk_written 0 demo_data_mem (demo_data_assoc None None None 0) 0 (demo_stream 0) demo_message demo_slot)
    as (m' & E & Hat & _);
    [done|by vm_compute|reflexivity|cbn; lia|cbn; lia|by vm_compute|by vm_compute
    |apply bytes_at_write
    |apply demo_data_mapped; [cbn; lia|by vm_compute]
    |apply demo_data_mapped; [cbn; lia|by vm_compute]|cbn; lia|right; cbn; lia|].
  exists m'. split; [exact E|exact Hat].
Defined.

Lemma empty_message_drains_witness :
  ∃ pre txr, sctp_build_data_hdr 4 demo_data_mem (demo_data_assoc None (Some pre) (Some txr) 5) 0 = Fault.
Proof.
  destruct (ring_holding [(2000, 2048); (4000, 2048)]) as [pre Hp]; [cbn; lia|].
  destruct (ring_holding []) as [txr Ht]; [cbn; lia|]. exists pre, txr.
  apply (empty_message_drains 4 4 demo_data_mem _ 0 (demo_stream 5) [(2000, 2048); (4000, 2048)] []);
    [done|by exists pre, txr|reflexivity|reflexivity|cbn; lia].
Defined.

Definition demo_fresh_ip : ipv4_t := IPv4 0x45 0 0 7 0 228 132 0 0x0201A8C0 0x0301A8C0.

Lemma data_packet_rejected_witness :
  ∃ bun pre txr m' a',
    build_prefilled_mac_ip_sctp_data_hdr (write demo_data_mem 1014 (enc demo_fresh_ip))
      (demo_data_assoc (Some bun) (Some pre) (Some txr) 0) 0 = Ret (0, m', a')
  ∧ ∀ plen, ∃ m'', sctp_check_checksums m' 1000 plen = Ret (-1, m'').
Proof.
  destruct (ring_holding []) as [bun Hb]; [cbn; lia|].
  destruct (ring_holding [(1000, 46)]) as [pre Hp]; [cbn; lia|].
  exists bun, pre, bun.
  apply (data_packet_rejected 4 _ (demo_data_assoc (Some bun) (Some pre) (Some bun) 0) 0 (demo_stream 0) bun 1000 46 [] []
           demo_fresh_ip); [reflexivity|reflexivity|done|by exists pre, bun| | |by vm_compute| |].
  - apply bytes_at_write.
  - apply wf_ipv4; auto with bytes.
  - apply mapped_write, demo_data_mapped; [lia|by vm_compute].
  - apply mapped_write. unfold demo_data_mem. apply (bytes_at_mapped _ _ demo_message). apply bytes_at_write.
Defined.
