(* ===== verification/Sctp.v ===== *)
(** * The SCTP handshake (if_ip_sctp.c, sctp_process_sctp_init.c,
    sctp_process_sctp_init_ack.c, sctp_process_sctp_cookie_echo.c,
    sctp_process_sctp_cookie_ack.c, prepare_sctp_threads.c, sctp_init.c)

    A received frame is dispatched on its chunk type and on the status of the
    association.  The server keeps no state between INIT and COOKIE-ECHO: what
    it must remember travels in the cookie, under an HMAC. *)
From S2P Require Import Prelude Bytes Mem Crc32c Hmac RingBuf Random Headers Assoc Frames Prefilled.

(** ** Code *)

(** [memset (threads[i], 0, sizeof (sctp_thread_t))] *)
Definition zero_thread : sctp_thread := Thread 0 0 0 0 0 0 0 0 0 0 0 0 false.
Definition memset_thread (t : sctp_thread) : sctp_thread := zero_thread.

Definition set_thread_id (t : sctp_thread) (id : Z) : sctp_thread :=
  Thread (u16 id) (th_buffer t) (pos_low t) (pos_current t) (pos_high t) (misses t) (num_misses t) (ssn t) (sin t)
    (th_proto t) (th_flags t) (buffer_remain t) (active t).

(** [alloc i] is what the [i]-th [aligned_alloc] of a thread returns: memory
    with anything in it, or NULL.  When one fails the earlier ones are freed.
    [os] is compared in network byte order, as in the code. *)
Fixpoint alloc_threads (alloc : nat → option sctp_thread) (os : Z) (i n : nat) : option (list sctp_thread) :=
  match n with
  | O => Some []
  | S n =>
      t ← alloc i;
      let id := if Z.of_nat i <=? os then Z.of_nat i else Z.of_nat i - os in
      let t := memset_thread (set_thread_id t id) in
      ts ← alloc_threads alloc os (S i) n;
      Some (t :: ts)
  end.

Definition with_threads (a : sctp_association) (t : option (list sctp_thread * nat)) : sctp_association :=
  Assoc (assoc_id a) (status a) (peer a) (tx a) (mtu a) (srtt a) (rttvar a) (rto a) (retry_ring a) (ulp a) t.

Definition prepare_sctp_threads (alloc_array : bool) (alloc : nat → option sctp_thread) (a : sctp_association)
  : Z * sctp_association :=
  let n := Z.to_nat (ntohs (mis (peer a)) + ntohs (os (peer a))) in
  if alloc_array then
    match alloc_threads alloc (os (peer a)) 0 n with
    | None => (-1, a)
    | Some ts => (0, with_threads a (Some (ts, Z.to_nat (ntohs (mis (peer a))))))
    end
  else (-1, a).

Section code.
Context {CRC : Crc32Insn} {ENT : Entropy} {Q : Type} {PQ : PacketQueue Q}.

(** What a handler can change. *)
Definition handler_result : Type := Z * mem * rng * rings Q * sctp_association.

(** [packet] is the IPv4 header.  The association passed on is a local one, of
    which only the peer is set. *)
Definition sctp_process_sctp_init (m : mem) (st : rng) (r : rings Q) (a : sctp_association) (packet plen : Z)
  : outcome handler_result :=
  ip ← ld_struct ipv4_t m packet;
  cmn ← ld_struct sctp_cmn_hdr_t m (packet + sz_ip);
  init ← ld_struct sctp_init_hdr_t m (packet + sz_ip + sz_cmn + sz_fld);
  let ass := Peer (hdr_init_tag init) 0 (hdr_a_rwnd init) (hdr_os init) (hdr_mis init) (init_tsn init)
               (init_tsn init) (src_addr ip) (srcp cmn) in
  '(_, m, st, r) ← build_prefilled_mac_ip_sctp_init_ack_hdr m st r (ulp a) ass;
  Ret (0, m, st, r, a).

(** [packet] is what follows the chunk header, [plen] its length field. *)
Definition sctp_process_sctp_init_ack (m : mem) (st : rng) (r : rings Q) (a : sctp_association) (packet plen : Z)
  : outcome handler_result :=
  if ntohs plen <=? sz_fld + sz_init + sz_param then Ret (-1, m, st, r, a)
  else
    let plen := ntohs plen - (sz_fld + sz_init + sz_param) in
    h ← ld_struct sctp_init_hdr_t m packet;
    let p := peer a in
    let p := Peer (hdr_init_tag h) (init_tag p) (hdr_a_rwnd h) (hdr_os h) (hdr_mis h) (init_tsn h)
               (dst_tsn p) (dst_ip p) (dst_port p) in
    let a := Assoc (u16 plen) SCTP_INIT_ACK_RECEIVED p (tx a) (mtu a) (srtt a) (rttvar a) (rto a)
               (packet + sz_init + sz_param) (ulp a) (threads a) in
    '(_, m, r) ← build_prefilled_mac_ip_sctp_cookie_echo_hdr m r (ver_tag p) (retry_ring a) (assoc_id a);
    Ret (0, m, st, r, a).

(** [res |= digest[i] ^ byte] *)
Definition digest_differs (digest received : bytes) : bool :=
  negb (foldl Z.lor 0 (zip_with Z.lxor digest received) =? 0).

Definition peer_of_cookie (c : cookie_t) : sctp_peer :=
  Peer (ck_ver_tag c) (ck_init_tag c) (ck_a_rwnd c) (ck_os c) (ck_mis c) (ck_tsn c) (ck_dst_tsn c)
    (ck_src_ip c) (ck_src_port c).

(** [packet] is the chunk. *)
Definition sctp_process_sctp_cookie_echo (alloc_array : bool) (alloc : nat → option sctp_thread) (m : mem) (st : rng) (r : rings Q)
    (a : sctp_association) (packet plen : Z) : outcome handler_result :=
  if ntohs plen <? sz_cookie + sz_param + HMAC_MD5_KEY_LEN then Ret (-1, m, st, r, a)
  else
    text ← load m (packet + sz_fld) (Z.to_nat sz_cookie);
    digest ← hmac_md5 text cookie_key;
    received ← load m (packet + sz_fld + sz_cookie) (Z.to_nat HMAC_MD5_KEY_LEN);
    if digest_differs digest received then Ret (-1, m, st, r, a)
    else
      cookie ← ld_struct cookie_t m (packet + sz_fld);
      let a := Assoc (assoc_id a) (status a) (peer_of_cookie cookie) (tx a) (mtu a) 0 0 SCTP_RTO_MIN
                 (retry_ring a) (ulp a) (threads a) in
      '(_, m, r) ← build_prefilled_mac_ip_sctp_cookie_ack_hdr m r (peer a);
      Ret (0, m, st, r, snd (prepare_sctp_threads alloc_array alloc a)).

Definition sctp_process_sctp_cookie_ack (alloc_array : bool) (alloc : nat → option sctp_thread) (m : mem) (st : rng) (r : rings Q)
    (a : sctp_association) (packet plen : Z) : outcome handler_result :=
  if ntohs plen <? sz_fld then Ret (-1, m, st, r, a)
  else Ret (0, m, st, r, snd (prepare_sctp_threads alloc_array alloc (with_status a SCTP_ESTABLISHED))).

(** [assoc] is NULL or not, [base] whether [assoc->base] and its [state] are
    there.  The result is whether it is non-NULL ([assoc]). *)
Definition if_ip_sctp (alloc_array : bool) (alloc : nat → option sctp_thread) (base : bool) (m : mem) (st : rng) (r : rings Q)
    (packet : Z) (assoc : option sctp_association)
  : outcome (bool * mem * rng * rings Q * option sctp_association) :=
  match assoc with
  | None => Ret (false, m, st, r, None)
  | Some a =>
      if (packet =? NULL) || negb base then Ret (false, m, st, r, Some a)
      else
        let ip := packet + sz_mac in
        let sctp := packet + sz_mac + sz_ip in
        let fld := sctp + sz_cmn in
        dest ← ld m (ip + off_ip_dest) 4;
        if negb (dest =? ulp_src_ip (ulp a)) then Ret (false, m, st, r, Some a)
        else
          dst ← ld m (sctp + off_cmn_dstp) 2;
          if negb (ulp_src_port (ulp a) =? ntohs dst) then Ret (false, m, st, r, Some a)
          else
            type ← ld m fld 1;
            let handled (o : outcome handler_result) :=
              '(ret, m, st, r, a) ← o; Ret (negb (ret <? 0), m, st, r, Some a) in
            let ignored := Ret (false, m, st, r, Some a) in
            if type =? SCTP_INIT then
              if decide (status a = SCTP_LISTEN)
              then iplen ← ld m (ip + off_ip_len) 2; handled (sctp_process_sctp_init m st r a ip iplen) else ignored
            else if type =? SCTP_INIT_ACK then
              if decide (status a = SCTP_INIT_SENT)
              then len ← ld m (fld + off_fld_len) 2; handled (sctp_process_sctp_init_ack m st r a (fld + sz_fld) len) else ignored
            else if type =? SCTP_COOKIE_ECHO then
              if decide (status a = SCTP_LISTEN)
              then len ← ld m (fld + off_fld_len) 2; handled (sctp_process_sctp_cookie_echo alloc_array alloc m st r a fld len) else ignored
            else if type =? SCTP_COOKIE_ACK then
              if decide (status a = SCTP_INIT_ACK_RECEIVED)
              then len ← ld m (fld + off_fld_len) 2; handled (sctp_process_sctp_cookie_ack alloc_array alloc m st r a fld len) else ignored
            else ignored
  end.
End code.

(** [sctp_init]: the table of handlers, every entry NULL. *)
Definition sctp_init (sctp_methods : list Z) : outcome (list Z) :=
  let clear := foldl (λ ms i, <[i := NULL]> ms) in
  if decide (length sctp_methods = 16%nat)
  then Ret (clear (clear sctp_methods (seq 0 16)) [0; 3; 4; 5; 6; 7; 8; 9]%nat)
  else Fault.

(** ** Lemmas *)
Lemma lor_fold_zero (l : list Z) (z : Z) : foldl Z.lor z l = 0 ↔ z = 0 ∧ Forall (λ x, x = 0) l.
Proof.
  revert z; induction l as [|x l IH]; intros z; cbn; [split; [auto | tauto]|].
  rewrite IH, Z.lor_eq_0_iff, Forall_cons. tauto.
Qed.

Lemma digest_differs_spec (d r : bytes) :
  length d = length r → digest_differs d r = negb (bool_decide (d = r)).
Proof.
  intros Hl. unfold digest_differs. f_equal. apply eq_true_iff_eq.
  rewrite Z.eqb_eq, lor_fold_zero, bool_decide_eq_true.
  revert r Hl. induction d as [|x d IH]; intros [|y r] Hl; cbn [zip_with]; try discriminate Hl.
  { split; [done|]. split; [done|constructor]. }
  injection Hl as Hl. rewrite Forall_cons, Z.lxor_eq_0_iff. specialize (IH r Hl).
  split; [intros (_ & -> & H); f_equal; apply IH; auto | intros [= -> ->]; split; [done|]; split; [done|]; by apply IH].
Qed.

Section lemmas.
Context {CRC : Crc32Insn} {ENT : Entropy} {Q : Type} {PQ : PacketQueue Q}.
Implicit Types (mac : mac_t) (ip : ipv4_t) (cmn : sctp_cmn_hdr_t) (m : mem) (a : sctp_association).
Context (alloc_array : bool) (alloc : nat → option sctp_thread).

(** Only the threads change. *)
Lemma prepare_threads_spec a :
  ∃ t, snd (prepare_sctp_threads alloc_array alloc a) = with_threads a t
  ∧ (t = threads a ∨ ∃ ts n, t = Some (ts, n) ∧ Forall (λ t, t = zero_thread) ts).
Proof.
  assert (∀ n i o ts, alloc_threads alloc o i n = Some ts → Forall (λ t, t = zero_thread) ts) as Hz.
  { induction n as [|n IH]; intros i o ts; cbn; [by intros [= <-]|].
    destruct (alloc i); [|done]. cbn.
    destruct (alloc_threads alloc o (S i) n) as [ts'|] eqn:E; [|done]. cbn. intros [= <-].
    constructor; [done | by eapply IH]. }
  assert (a = with_threads a (threads a)) as Ea by (by destruct a).
  unfold prepare_sctp_threads. destruct alloc_array; [|exists (threads a); by split; [|left]].
  destruct (alloc_threads _ _ _ _) as [ts|] eqn:E.
  - eexists; split; [done|]. right. do 2 eexists. split; [done|]. by eapply Hz.
  - exists (threads a). by split; [|left].
Qed.

Lemma headers_split m p mac ip cmn body :
  packet_at m p mac ip cmn body →
  bytes_at m (p + 14) (enc ip ++ enc cmn ++ body) ∧ bytes_at m (p + 34) (enc cmn ++ body) ∧ bytes_at m (p + 46) body.
Proof.
  intros H. split; [|split; [|by eapply packet_body]].
  - apply bytes_at_app in H as [_ H]. by rewrite length_enc in H.
  - unfold packet_at in H. rewrite app_assoc in H. apply bytes_at_app in H as [_ H].
    by rewrite length_app, (length_enc mac), (length_enc ip) in H.
Qed.

(** The dispatch of a frame addressed to the association. *)
Definition dispatch m st (r : rings Q) a pkt (ip : ipv4_t) (fld : sctp_fld_hdr_t)
  : outcome (bool * mem * rng * rings Q * option sctp_association) :=
  let handled (o : outcome handler_result) := '(ret, m, st, r, a) ← o; Ret (negb (ret <? 0), m, st, r, Some a) in
  let ignored := Ret (false, m, st, r, Some a) in
  if fld_type fld =? SCTP_INIT then
    if decide (status a = SCTP_LISTEN)
    then handled (sctp_process_sctp_init m st r a (pkt + 14) (ip_len ip)) else ignored
  else if fld_type fld =? SCTP_INIT_ACK then
    if decide (status a = SCTP_INIT_SENT)
    then handled (sctp_process_sctp_init_ack m st r a (pkt + 50) (fld_len fld)) else ignored
  else if fld_type fld =? SCTP_COOKIE_ECHO then
    if decide (status a = SCTP_LISTEN)
    then handled (sctp_process_sctp_cookie_echo alloc_array alloc m st r a (pkt + 46) (fld_len fld)) else ignored
  else if fld_type fld =? SCTP_COOKIE_ACK then
    if decide (status a = SCTP_INIT_ACK_RECEIVED)
    then handled (sctp_process_sctp_cookie_ack alloc_array alloc m st r a (pkt + 46) (fld_len fld)) else ignored
  else ignored.

Definition addressed_to a ip cmn : Prop :=
  dest_addr ip = ulp_src_ip (ulp a) ∧ ntohs (dstp cmn) = ulp_src_port (ulp a).

Lemma if_ip_sctp_dispatch m st (r : rings Q) a pkt mac ip cmn (fld : sctp_fld_hdr_t) rest :
  packet_at m pkt mac ip cmn (enc fld ++ rest) → wf ip → wf cmn → wf fld → 0 < pkt → addressed_to a ip cmn →
  if_ip_sctp alloc_array alloc true m st r pkt (Some a) = dispatch m st r a pkt ip fld.
Proof.
  intros Hat Hip Hcmn Hfld Hp [Hd Hport]. unfold if_ip_sctp.
  rewrite (proj2 (Z.eqb_neq pkt NULL)) by (unfold NULL; lia). cbn [orb negb].
  change (pkt + sz_mac) with (pkt + 14).
  replace (pkt + 14 + sz_ip) with (pkt + 34) by (unfold sz_ip; lia).
  replace (pkt + 34 + sz_cmn) with (pkt + 46) by (unfold sz_cmn; lia). cbv zeta.
  unfold off_ip_dest, off_cmn_dstp, off_ip_len.
  rewrite (ld_ip m pkt mac ip cmn _ 9 4 (dest_addr ip)) by done. cbn [mbind outcome_bind].
  rewrite Hd, Z.eqb_refl. cbn [negb].
  destruct (headers_split _ _ _ _ _ _ Hat) as (_ & H34 & H46).
  rewrite (ld_field_at m (pkt + 34) cmn _ 1 2 (dstp cmn) H34) by done. cbn [mbind outcome_bind].
  rewrite Hport, Z.eqb_refl. cbn [negb].
  assert (ld m (pkt + 46) 1 = Ret (fld_type fld)) as E3
    by (rewrite <-(Z.add_0_r (pkt + 46)); by apply (ld_field_at m (pkt + 46) fld rest 0 1)).
  rewrite E3. cbn [mbind outcome_bind].
  rewrite (ld_ip m pkt mac ip cmn _ 2 2 (ip_len ip)) by done. cbn [mbind outcome_bind].
  unfold off_fld_len. rewrite (ld_field_at m (pkt + 46) fld rest 2 2 (fld_len fld) H46) by done. cbn [mbind outcome_bind].
  replace (pkt + 46 + sz_fld) with (pkt + 50) by (unfold sz_fld; lia). reflexivity.
Qed.

(** What the INIT in a frame says of its sender. *)
Definition init_peer ip cmn (ini : sctp_init_hdr_t) : sctp_peer :=
  Peer (hdr_init_tag ini) 0 (hdr_a_rwnd ini) (hdr_os ini) (hdr_mis ini) (init_tsn ini) (init_tsn ini)
    (src_addr ip) (srcp cmn).

Lemma process_init_spec cap m st (r : rings Q) a pkt mac ip cmn (fld : sctp_fld_hdr_t) (ini : sctp_init_hdr_t) rest
    p l txq (mac' : mac_t) (ip' : ipv4_t) (cmn' : sctp_cmn_hdr_t) plen :
  packet_at m pkt mac ip cmn (enc fld ++ enc ini ++ rest) → wf ip → wf cmn → wf ini →
  rings_hold cap r ((p, 46) :: l) txq → (length l < cap)%nat → (length txq < cap)%nat →
  0 < p → packet_at m p mac' ip' cmn' [] → wf ip' → mapped m (p + 46) 80 → rng_ok st →
  ∃ m' st' r' tg itsn itag, sctp_process_sctp_init m st r a (pkt + 14) plen = Ret (0, m', st', r', a)
  ∧ is_u32 tg ∧ is_u32 itsn ∧ is_u32 itag ∧ rng_ok st'
  ∧ rings_hold cap r' (l ++ [(p, 46)]) (txq ++ [(p, 126)])
  ∧ let chunk := init_ack_chunk (ulp a) (init_peer ip cmn ini) tg itsn itag in
    repacked m m' p mac' (reply_ip ip' 112 (src_addr ip)) (reply_cmn cmn' (init_peer ip cmn ini) chunk) chunk.
Proof.
  intros Hat Hip Hcmn Hini Hh Hl Ht Hp Hat' Hip' Hmap Hst. unfold sctp_process_sctp_init.
  destruct (headers_split _ _ _ _ _ _ Hat) as (H14 & H34 & H46).
  apply bytes_at_app in H46 as [_ H50]. rewrite (length_enc fld) in H50.
  rewrite (ld_struct_at m (pkt + 14) ip _ H14 Hip). cbn [mbind outcome_bind].
  replace (pkt + 14 + sz_ip) with (pkt + 34) by (unfold sz_ip; lia).
  rewrite (ld_struct_at m (pkt + 34) cmn _ H34 Hcmn). cbn [mbind outcome_bind].
  replace (pkt + 34 + sz_cmn + sz_fld) with (pkt + 46 + Z.of_nat (size sctp_fld_hdr_t))
    by (unfold sz_cmn, sz_fld; change (Z.of_nat (size sctp_fld_hdr_t)) with 4; lia).
  rewrite (ld_struct_at m _ ini _ H50 Hini). cbn [mbind outcome_bind]. cbv zeta.
  change (Peer _ _ _ _ _ _ _ _ _) with (init_peer ip cmn ini).
  destruct (init_ack_spec cap m st r p l txq mac' ip' cmn' (ulp a) (init_peer ip cmn ini) Hh Hl Ht Hp Hat' Hip'
    (wf_field ip 8 4 (src_addr ip) Hip eq_refl eq_refl) Hmap Hst) as (m' & st' & r' & tg & itsn & itag & E & H).
  rewrite E. cbn [mbind outcome_bind]. exists m', st', r', tg, itsn, itag. split; [reflexivity | exact H].
Qed.

(** The association of a client that has processed an INIT-ACK whose body is at
    [q]. *)
Definition after_init_ack a (h : sctp_init_hdr_t) (q len : Z) : sctp_association :=
  Assoc len SCTP_INIT_ACK_RECEIVED
    (Peer (hdr_init_tag h) (init_tag (peer a)) (hdr_a_rwnd h) (hdr_os h) (hdr_mis h) (init_tsn h)
       (dst_tsn (peer a)) (dst_ip (peer a)) (dst_port (peer a)))
    (tx a) (mtu a) (srtt a) (rttvar a) (rto a) (q + 20) (ulp a) (threads a).

Lemma process_init_ack_spec cap m st (r : rings Q) a q (h : sctp_init_hdr_t) (prm : sctp_parameter_t) ck
    p l txq mac ip cmn :
  bytes_at m q (enc h ++ enc prm ++ ck) → wf h → (0 < length ck)%nat → Z.of_nat (length ck) ≤ 65485 →
  rings_hold cap r ((p, 46) :: l) txq → (length l < cap)%nat → (length txq < cap)%nat →
  0 < p → packet_at m p mac ip cmn [] → wf ip →
  q + 20 + Z.of_nat (length ck) ≤ p ∨ p + 50 + Z.of_nat (length ck) ≤ q + 20 →
  mapped m (p + 46) (4 + length ck) →
  let n := Z.of_nat (length ck) in
  let fld := Fld SCTP_COOKIE_ECHO 0 (htons (4 + n)) in
  ∃ m' r', sctp_process_sctp_init_ack m st r a q (htons (24 + n)) = Ret (0, m', st, r', after_init_ack a h q n)
  ∧ rings_hold cap r' (l ++ [(p, 46)]) (txq ++ [(p, 50 + n)])
  ∧ repacked m m' p mac (echo_ip ip (36 + n)) (cmn_done cmn (hdr_init_tag h) (enc fld ++ ck)) (enc fld ++ ck).
Proof.
  intros Hat Hh Hck Hn Hr Hl Ht Hp Hpk Hip Hdis Hmap n fld. unfold sctp_process_sctp_init_ack.
  change (sz_fld + sz_init + sz_param) with 24.
  rewrite htons_htons by (unfold is_u16; lia). rewrite (proj2 (Z.leb_gt _ _)) by lia. cbv zeta.
  rewrite (ld_struct_at m q h _ Hat Hh). cbn [mbind outcome_bind].
  cbn [ver_tag retry_ring assoc_id].
  replace (24 + n - 24) with n by lia. rewrite u16_id by (unfold is_u16; lia).
  replace (q + sz_init + sz_param) with (q + 20) by (unfold sz_init, sz_param; lia).
  assert (bytes_at m (q + 20) ck) as Hc.
  { rewrite app_assoc in Hat. apply bytes_at_app in Hat as [_ Hat].
    by rewrite length_app, (length_enc h), (length_enc prm) in Hat. }
  destruct (cookie_echo_spec cap m r p l txq mac ip cmn (hdr_init_tag h) (q + 20) ck Hr Hl Ht Hp Hpk Hip Hc Hn Hdis Hmap)
    as (m' & r' & E & H).
  fold n in E. rewrite E. cbn [mbind outcome_bind]. exists m', r'. split; [reflexivity | exact H].
Qed.

(** The association of a server that has accepted the cookie [c]. *)
Definition after_cookie a (c : cookie_t) (t : option (list sctp_thread * nat)) : sctp_association :=
  Assoc (assoc_id a) (status a) (peer_of_cookie c) (tx a) (mtu a) 0 0 SCTP_RTO_MIN (retry_ring a) (ulp a) t.

Definition cookie_ack_fld : bytes := enc (Fld SCTP_COOKIE_ACK 0 (htons 4)).

Lemma process_cookie_echo_reject m st (r : rings Q) a q (fld : sctp_fld_hdr_t) text code rest n :
  bytes_at m q (enc fld ++ text ++ code ++ rest) → length text = 40%nat → length code = 16%nat →
  bytes_ok text → 60 ≤ n < 65536 → code ≠ hmac text cookie_key →
  sctp_process_sctp_cookie_echo alloc_array alloc m st r a q (htons n) = Ret (-1, m, st, r, a).
Proof.
  intros Hat Ht Hc Hok Hn Hne. unfold sctp_process_sctp_cookie_echo.
  rewrite htons_htons by (unfold is_u16; lia).
  change (sz_cookie + sz_param + HMAC_MD5_KEY_LEN) with 60. rewrite (proj2 (Z.ltb_ge _ _)) by lia.
  apply bytes_at_app in Hat as [_ Hat]. rewrite (length_enc fld) in Hat.
  change (q + Z.of_nat (size sctp_fld_hdr_t)) with (q + sz_fld) in Hat.
  apply bytes_at_app in Hat as [Ha Hb]. rewrite Ht in Hb. change (Z.of_nat 40) with sz_cookie in Hb.
  apply bytes_at_app in Hb as [Hb _].
  rewrite (load_at' _ _ _ _ Ha) by exact Ht. cbn [mbind outcome_bind].
  rewrite hmac_md5_ret; [|done|apply cookie_key_ok|rewrite Ht; lia|cbn; lia]. cbn [mbind outcome_bind].
  rewrite (load_at' _ _ _ _ Hb) by exact Hc. cbn [mbind outcome_bind].
  rewrite digest_differs_spec by (by rewrite length_hmac, Hc).
  rewrite bool_decide_false by congruence. reflexivity.
Qed.

Lemma process_cookie_echo_accept cap m st (r : rings Q) a q (fld : sctp_fld_hdr_t) (c : cookie_t) rest n
    p l txq mac ip cmn :
  bytes_at m q (enc fld ++ enc c ++ cookie_mac c ++ rest) → wf c → 60 ≤ n < 65536 →
  rings_hold cap r ((p, 46) :: l) txq → (length l < cap)%nat → (length txq < cap)%nat →
  0 < p → packet_at m p mac ip cmn [] → wf ip → mapped m (p + 46) 4 →
  ∃ m' r' t, sctp_process_sctp_cookie_echo alloc_array alloc m st r a q (htons n) = Ret (0, m', st, r', after_cookie a c t)
  ∧ rings_hold cap r' (l ++ [(p, 46)]) (txq ++ [(p, 50)])
  ∧ repacked m m' p mac (reply_ip ip 36 (ck_src_ip c)) (reply_cmn cmn (peer_of_cookie c) cookie_ack_fld) cookie_ack_fld.
Proof.
  intros Hat Hwf Hn Hr Hl Ht Hp Hpk Hip Hmap. unfold sctp_process_sctp_cookie_echo.
  rewrite htons_htons by (unfold is_u16; lia).
  change (sz_cookie + sz_param + HMAC_MD5_KEY_LEN) with 60. rewrite (proj2 (Z.ltb_ge _ _)) by lia.
  apply bytes_at_app in Hat as [_ Hat]. rewrite (length_enc fld) in Hat.
  change (q + Z.of_nat (size sctp_fld_hdr_t)) with (q + sz_fld) in Hat.
  pose proof Hat as Hat0. apply bytes_at_app in Hat as [Ha Hb].
  rewrite (length_enc c) in Hb. change (Z.of_nat (size cookie_t)) with sz_cookie in Hb.
  apply bytes_at_app in Hb as [Hb _].
  rewrite (load_at' _ _ _ _ Ha) by exact (length_enc c). rewrite bind_ret.
  rewrite cookie_hmac, bind_ret.
  rewrite (load_at' _ _ _ _ Hb) by exact (length_cookie_mac c). rewrite bind_ret.
  rewrite digest_differs_spec, bool_decide_true by done. cbn [negb].
  rewrite (ld_struct_at m (q + sz_fld) c _ Hat0 Hwf). cbn [mbind outcome_bind]. cbv zeta. cbn [peer].
  destruct (cookie_ack_spec cap m r p l txq mac ip cmn (peer_of_cookie c) Hr Hl Ht Hp Hpk Hip
    (wf_field c 7 4 (ck_src_ip c) Hwf eq_refl eq_refl) Hmap) as (m' & r' & E & H).
  rewrite E. cbn [mbind outcome_bind].
  destruct (prepare_threads_spec (after_cookie a c (threads a))) as (t & Et & _).
  exists m', r', t. split; [|exact H]. unfold after_cookie in Et at 1. rewrite Et. reflexivity.
Qed.
End lemmas.

(** ** The association as a state machine *)
Section machine.
Context {CRC : Crc32Insn} {ENT : Entropy} {Q : Type} {PQ : PacketQueue Q}.

(** One received frame: any memory, rings and allocator. *)
Inductive sctp_step : sctp_association → sctp_association → Prop :=
| sctp_recv alloc_array alloc base m st (r : rings Q) packet ok m' st' r' a a' :
    if_ip_sctp alloc_array alloc base m st r packet (Some a) = Ret (ok, m', st', r', Some a') →
    sctp_step a a'.

(** The chunk at [p] carries a cookie under the HMAC of the secret key. *)
Definition authentic_cookie (m : mem) (p : Z) (c : cookie_t) : Prop :=
  ∃ text code, load m (p + sz_fld) 40 = Ret text ∧ load m (p + sz_fld + sz_cookie) 16 = Ret code
  ∧ c = dec text ∧ ∃ digest, hmac_md5 text cookie_key = Ret digest ∧ digest_differs digest code = false.

Ltac inv_step H :=
  repeat (let x := fresh "x" in let E := fresh "E" in apply bind_ret_inv in H as (x & E & H); cbv beta in H).

Lemma init_keeps m st (r : rings Q) a p plen ret m' st' r' a' :
  sctp_process_sctp_init m st r a p plen = Ret (ret, m', st', r', a') → a' = a.
Proof.
  unfold sctp_process_sctp_init. intros H. inv_step H. destruct x2 as [[[? ?] ?] ?]. by simplify_eq.
Qed.

Lemma init_ack_moves m st (r : rings Q) a p plen ret m' st' r' a' :
  sctp_process_sctp_init_ack m st r a p plen = Ret (ret, m', st', r', a') →
  a' = a ∨ ulp a' = ulp a ∧ status a' = SCTP_INIT_ACK_RECEIVED.
Proof.
  unfold sctp_process_sctp_init_ack. case_match; [by intros; simplify_eq; left|].
  intros H'. inv_step H'. destruct x0 as [[? ?] ?]. simplify_eq. by right.
Qed.

Lemma prepare_threads_keeps aa alloc a :
  let a' := snd (prepare_sctp_threads aa alloc a) in
  peer a' = peer a ∧ status a' = status a ∧ ulp a' = ulp a.
Proof. destruct (prepare_threads_spec aa alloc a) as (t & -> & _). done. Qed.

Lemma cookie_echo_moves aa alloc m st (r : rings Q) a p plen ret m' st' r' a' :
  sctp_process_sctp_cookie_echo aa alloc m st r a p plen = Ret (ret, m', st', r', a') →
  a' = a ∨ status a' = status a ∧ ulp a' = ulp a ∧ ∃ c, authentic_cookie m p c ∧ peer a' = peer_of_cookie c.
Proof.
  unfold sctp_process_sctp_cookie_echo. case_match; [by intros; simplify_eq; left|].
  intros H'. apply bind_ret_inv in H' as (text & Et & H'). apply bind_ret_inv in H' as (digest & Ed & H').
  apply bind_ret_inv in H' as (code & Ec & H').
  destruct (digest_differs digest code) eqn:Hd; [by simplify_eq; left|].
  apply bind_ret_inv in H' as (c & Eck & H'). apply bind_ret_inv in H' as ([[? ?] ?] & _ & H').
  injection H' as <- <- <- <- <-. right.
  set (a1 := Assoc _ _ _ _ _ _ _ _ _ _ _).
  destruct (prepare_threads_keeps aa alloc a1) as (-> & -> & ->). split; [done|]. split; [done|].
  exists c. split; [|done]. exists text, code. split; [done|]. split; [done|]. split; [|eauto].
  unfold ld_struct in Eck. change (size cookie_t) with (Z.to_nat sz_cookie) in Eck. rewrite Et in Eck.
  rewrite bind_ret in Eck. by injection Eck as <-.
Qed.

Lemma cookie_ack_moves aa alloc m st (r : rings Q) a p plen ret m' st' r' a' :
  sctp_process_sctp_cookie_ack aa alloc m st r a p plen = Ret (ret, m', st', r', a') →
  a' = a ∨ status a' = SCTP_ESTABLISHED ∧ peer a' = peer a ∧ ulp a' = ulp a.
Proof.
  unfold sctp_process_sctp_cookie_ack. case_match; intros H'; [by simplify_eq; left|].
  injection H' as <- <- <- <- <-. right.
  by destruct (prepare_threads_keeps aa alloc (with_status a SCTP_ESTABLISHED)) as (-> & -> & ->).
Qed.

(** What one frame can do. *)
Definition transition (m : mem) (packet : Z) (a a' : sctp_association) : Prop :=
  a' = a
  ∨ (status a = SCTP_INIT_SENT ∧ status a' = SCTP_INIT_ACK_RECEIVED ∧ ulp a' = ulp a)
  ∨ (status a = SCTP_INIT_ACK_RECEIVED ∧ status a' = SCTP_ESTABLISHED ∧ peer a' = peer a ∧ ulp a' = ulp a)
  ∨ (status a = SCTP_LISTEN ∧ status a' = SCTP_LISTEN ∧ ulp a' = ulp a
     ∧ ∃ c, authentic_cookie m (packet + 46) c ∧ peer a' = peer_of_cookie c).

Lemma transitions aa alloc base m st (r : rings Q) packet a ok m' st' r' a' :
  if_ip_sctp aa alloc base m st r packet (Some a) = Ret (ok, m', st', r', Some a') →
  transition m packet a a'.
Proof.
  unfold if_ip_sctp. destruct ((packet =? NULL) || negb base); [by intros; simplify_eq; left|]. cbv zeta.
  intros H'. apply bind_ret_inv in H' as (dest & _ & H').
  destruct (negb (dest =? ulp_src_ip (ulp a))); [by simplify_eq; left|].
  apply bind_ret_inv in H' as (dst & _ & H').
  destruct (negb (ulp_src_port (ulp a) =? ntohs dst)); [by simplify_eq; left|].
  apply bind_ret_inv in H' as (type & _ & H').
  replace (packet + sz_mac + sz_ip + sz_cmn) with (packet + 46) in H' by (unfold sz_mac, sz_ip, sz_cmn; lia).
  destruct (type =? SCTP_INIT); [|destruct (type =? SCTP_INIT_ACK); [|destruct (type =? SCTP_COOKIE_ECHO);
    [|destruct (type =? SCTP_COOKIE_ACK); [|by simplify_eq; left]]]];
  (case_decide as Hs; [|by simplify_eq; left]);
  apply bind_ret_inv in H' as (len & _ & H'); apply bind_ret_inv in H' as ([[[[ret m1] st1] r1] a1] & E & H');
  injection H' as <- <- <- <- <-.
  - apply init_keeps in E as ->. by left.
  - apply init_ack_moves in E as [->|[? ?]]; [by left | right; left; auto].
  - apply cookie_echo_moves in E as [->|(E1 & E2 & c & Hc & Hp)]; [by left | right; right; right].
    rewrite Hs in E1. eauto 10.
  - apply cookie_ack_moves in E as [->|(? & ? & ?)]; [by left | right; right; left; auto].
Qed.

Lemma step_transition a a' : sctp_step a a' → ∃ m p, transition m p a a'.
Proof. intros [? ? ? ? ? ? ? ? ? ? ? ? ? E]. do 2 eexists. by eapply transitions. Qed.
(** Where an association can get to. *)
Lemma reachable_from a a' :
  rtc sctp_step a a' →
  a' = a
  ∨ (status a = SCTP_LISTEN ∧ status a' = SCTP_LISTEN ∧ ulp a' = ulp a)
  ∨ ((status a = SCTP_INIT_SENT ∧ (status a' = SCTP_INIT_ACK_RECEIVED ∨ status a' = SCTP_ESTABLISHED)
      ∨ status a = SCTP_INIT_ACK_RECEIVED ∧ status a' = SCTP_ESTABLISHED) ∧ ulp a' = ulp a).
Proof.
  intros Hr. induction Hr as [a|a a1 a' Hs Hr IH]; [by left|].
  apply step_transition in Hs as (m & p & Ht).
  destruct Ht as [->|[(E1 & E2 & E3)|[(E1 & E2 & E3 & E4)|(E1 & E2 & E3 & E4)]]]; [done|..];
    right; rewrite E1; destruct IH as [->|[(F1 & F2 & F3)|([[F1 F2]|[F1 F2]] & F3)]];
    rewrite ?E2 in *; try discriminate; rewrite ?F3; naive_solver.
Qed.
End machine.

(** ** Lemmas: the four messages *)
Section messages.
Context {CRC : Crc32Insn} {ENT : Entropy} {Q : Type} {PQ : PacketQueue Q}.
Context (alloc_array : bool) (alloc : nat → option sctp_thread).

(** The network copies the [n] bytes at [p] to [q] of another memory. *)
Definition delivered (m : mem) (p : Z) (m' : mem) (q : Z) (n : nat) : Prop :=
  ∀ i : nat, (i < n)%nat → m' !! (q + Z.of_nat i) = m !! (p + Z.of_nat i).

Lemma delivered_at m p m' q n bs : bytes_at m p bs → length bs = n → delivered m p m' q n → bytes_at m' q bs.
Proof. intros H <- Hd i Hi. rewrite Hd by done. by apply H. Qed.

Lemma packet_delivered m p m' q mac ip cmn body n :
  packet_at m p mac ip cmn body → n = (46 + length body)%nat → delivered m p m' q n → packet_at m' q mac ip cmn body.
Proof. intros H -> Hd. by apply (delivered_at m p m' q (46 + length body) _ H); [apply length_headers |]. Qed.

Lemma reply_addressed ip cmn pr body len a :
  dst_ip pr = ulp_src_ip (ulp a) → ntohs (dst_port pr) = ulp_src_port (ulp a) →
  addressed_to a (reply_ip ip len (dst_ip pr)) (reply_cmn cmn pr body).
Proof. intros Hi Hp. destruct ip, cmn. by split. Qed.

Lemma wf_reply_cmn cmn pr body : wf cmn → fits 2 (dst_port pr) → fits 4 (ver_tag pr) → wf (reply_cmn cmn pr body).
Proof. intros H Hp Ht. apply wf_cmn_done; [by apply (wf_set_field cmn 1 2) | done]. Qed.

(** The peer as the cookie gives it back: its own tag is the cookie's. *)
Definition restored (pr : sctp_peer) (itag : Z) : sctp_peer :=
  Peer (ver_tag pr) itag (a_rwnd pr) (os pr) (mis pr) (tsn pr) (dst_tsn pr) (dst_ip pr) (dst_port pr).

Lemma restored_cookie u pr itag : peer_of_cookie (init_ack_cookie u pr itag) = restored pr itag.
Proof. reflexivity. Qed.

(** The server's side of INIT. *)
Lemma server_init cap m st (r : rings Q) a pkt mac ip cmn (fld : sctp_fld_hdr_t) (ini : sctp_init_hdr_t) rest
    p l txq (mac' : mac_t) (ip' : ipv4_t) (cmn' : sctp_cmn_hdr_t) :
  status a = SCTP_LISTEN → packet_at m pkt mac ip cmn (enc fld ++ enc ini ++ rest) → 0 < pkt →
  wf ip → wf cmn → wf fld → wf ini → fld_type fld = SCTP_INIT → addressed_to a ip cmn →
  rings_hold cap r ((p, 46) :: l) txq → (length l < cap)%nat → (length txq < cap)%nat →
  0 < p → packet_at m p mac' ip' cmn' [] → wf ip' → mapped m (p + 46) 80 → rng_ok st →
  ∃ m' st' r' tg itsn itag,
  if_ip_sctp alloc_array alloc true m st r pkt (Some a) = Ret (true, m', st', r', Some a)
  ∧ is_u32 tg ∧ is_u32 itsn ∧ is_u32 itag ∧ rng_ok st'
  ∧ rings_hold cap r' (l ++ [(p, 46)]) (txq ++ [(p, 126)])
  ∧ let chunk := init_ack_chunk (ulp a) (init_peer ip cmn ini) tg itsn itag in
    repacked m m' p mac' (reply_ip ip' 112 (src_addr ip)) (reply_cmn cmn' (init_peer ip cmn ini) chunk) chunk.
Proof.
  intros Hs Hat Hk Hip Hcmn Hfld Hini Hty Hto Hr Hl Ht Hp Hpk Hip' Hmap Hst.
  rewrite (if_ip_sctp_dispatch alloc_array alloc m st r a pkt mac ip cmn fld _ Hat) by done.
  unfold dispatch. rewrite Hty, Z.eqb_refl, decide_True by done.
  destruct (process_init_spec cap m st r a pkt mac ip cmn fld ini rest p l txq mac' ip' cmn' (ip_len ip)
    Hat Hip Hcmn Hini Hr Hl Ht Hp Hpk Hip' Hmap Hst) as (m' & st' & r' & tg & itsn & itag & E & H).
  rewrite E, bind_ret. cbv beta iota. exists m', st', r', tg, itsn, itag. split; [reflexivity | exact H].
Qed.

(** The client's side of INIT-ACK. *)
Lemma client_init_ack cap m st (r : rings Q) a pkt mac ip cmn u pr tg itsn itag
    p l txq (mac' : mac_t) (ip' : ipv4_t) (cmn' : sctp_cmn_hdr_t) :
  let chunk := init_ack_chunk u pr tg itsn itag in
  let ck := init_ack_cookie u pr itag in
  status a = SCTP_INIT_SENT → packet_at m pkt mac ip cmn chunk → 0 < pkt →
  wf ip → wf cmn → is_u32 tg → is_u32 itsn → addressed_to a ip cmn →
  rings_hold cap r ((p, 46) :: l) txq → (length l < cap)%nat → (length txq < cap)%nat →
  0 < p → packet_at m p mac' ip' cmn' [] → wf ip' → mapped m (p + 46) 60 → pkt + 126 ≤ p ∨ p + 106 ≤ pkt →
  let body := enc (Fld SCTP_COOKIE_ECHO 0 (htons 60)) ++ enc ck ++ cookie_mac ck in
  ∃ m' r' a', if_ip_sctp alloc_array alloc true m st r pkt (Some a) = Ret (true, m', st, r', Some a')
  ∧ status a' = SCTP_INIT_ACK_RECEIVED ∧ ulp a' = ulp a ∧ ver_tag (peer a') = tg
  ∧ rings_hold cap r' (l ++ [(p, 46)]) (txq ++ [(p, 106)])
  ∧ repacked m m' p mac' (echo_ip ip' 92) (cmn_done cmn' tg body) body.
Proof.
  intros chunk ck Hs Hat Hk Hip Hcmn Htg Hitsn Hto Hr Hl Ht Hp Hpk Hip' Hmap Hdis body.
  set (fld := Fld SCTP_INIT_ACK 0 (htons 80)).
  set (h := Init tg (htonl (ulp_src_arwnd u)) (htons (ulp_src_os u)) (htons (ulp_src_mis u)) itsn).
  set (rest := enc (Param (htons 7) (htons 60)) ++ enc ck ++ cookie_mac ck).
  assert (chunk = enc fld ++ enc h ++ rest) as Ech by reflexivity.
  rewrite Ech in Hat. clearbody chunk.
  rewrite (if_ip_sctp_dispatch alloc_array alloc m st r a pkt mac ip cmn fld _ Hat);
    [|done|done|by apply wf_chunk_fld|done|done].
  unfold dispatch. change (fld_type fld) with SCTP_INIT_ACK. change (SCTP_INIT_ACK =? SCTP_INIT) with false.
  rewrite Z.eqb_refl, decide_True by done. cbn iota.
  destruct (headers_split _ _ _ _ _ _ Hat) as (_ & _ & H46).
  apply bytes_at_app in H46 as [_ H50]. rewrite (length_enc fld) in H50.
  replace (pkt + 46 + Z.of_nat (size sctp_fld_hdr_t)) with (pkt + 50) in H50
    by (change (Z.of_nat (size sctp_fld_hdr_t)) with 4; lia).
  assert (length (enc ck ++ cookie_mac ck) = 56%nat) as Elen by (by rewrite length_app, (length_enc ck), length_cookie_mac).
  destruct (process_init_ack_spec cap m st r a (pkt + 50) h (Param (htons 7) (htons 60)) (enc ck ++ cookie_mac ck)
    p l txq mac' ip' cmn' H50) as (m' & r' & E & Hr' & Hrep); rewrite ?Elen; try done; try lia.
  { apply wf_init; auto with bytes. }
  rewrite Elen in *. change (fld_len fld) with (htons (24 + Z.of_nat 56)).
  rewrite E, bind_ret. cbv beta iota. exists m', r', (after_init_ack a h (pkt + 50) (Z.of_nat 56)).
  do 4 (split; [reflexivity|]). split; [exact Hr' | exact Hrep].
Qed.

(** The server's side of COOKIE-ECHO. *)
Lemma server_cookie_echo cap m st (r : rings Q) a pkt mac ip cmn (c : cookie_t)
    p l txq (mac' : mac_t) (ip' : ipv4_t) (cmn' : sctp_cmn_hdr_t) :
  status a = SCTP_LISTEN →
  packet_at m pkt mac ip cmn (enc (Fld SCTP_COOKIE_ECHO 0 (htons 60)) ++ enc c ++ cookie_mac c) → 0 < pkt →
  wf ip → wf cmn → wf c → addressed_to a ip cmn →
  rings_hold cap r ((p, 46) :: l) txq → (length l < cap)%nat → (length txq < cap)%nat →
  0 < p → packet_at m p mac' ip' cmn' [] → wf ip' → mapped m (p + 46) 4 →
  ∃ m' r' t, if_ip_sctp alloc_array alloc true m st r pkt (Some a) = Ret (true, m', st, r', Some (after_cookie a c t))
  ∧ rings_hold cap r' (l ++ [(p, 46)]) (txq ++ [(p, 50)])
  ∧ repacked m m' p mac' (reply_ip ip' 36 (ck_src_ip c)) (reply_cmn cmn' (peer_of_cookie c) cookie_ack_fld) cookie_ack_fld.
Proof.
  intros Hs Hat Hk Hip Hcmn Hc Hto Hr Hl Ht Hp Hpk Hip' Hmap.
  set (fld := Fld SCTP_COOKIE_ECHO 0 (htons 60)) in *.
  rewrite (if_ip_sctp_dispatch alloc_array alloc m st r a pkt mac ip cmn fld _ Hat);
    [|done|done|by apply wf_chunk_fld|done|done].
  unfold dispatch. change (fld_type fld) with SCTP_COOKIE_ECHO.
  change (SCTP_COOKIE_ECHO =? SCTP_INIT) with false. change (SCTP_COOKIE_ECHO =? SCTP_INIT_ACK) with false.
  rewrite Z.eqb_refl, decide_True by done. cbn iota.
  destruct (headers_split _ _ _ _ _ _ Hat) as (_ & _ & H46). rewrite <-(app_nil_r (cookie_mac c)) in H46.
  destruct (process_cookie_echo_accept alloc_array alloc cap m st r a (pkt + 46) fld c [] 60 p l txq mac' ip' cmn' H46 Hc)
    as (m' & r' & t & E & H); try done.
  change (fld_len fld) with (htons 60). rewrite E, bind_ret. cbv beta iota.
  exists m', r', t. split; [reflexivity | exact H].
Qed.

(** The client's side of COOKIE-ACK. *)
Lemma client_cookie_ack m st (r : rings Q) a pkt mac ip cmn :
  status a = SCTP_INIT_ACK_RECEIVED → packet_at m pkt mac ip cmn cookie_ack_fld → 0 < pkt →
  wf ip → wf cmn → addressed_to a ip cmn →
  ∃ a', if_ip_sctp alloc_array alloc true m st r pkt (Some a) = Ret (true, m, st, r, Some a')
  ∧ status a' = SCTP_ESTABLISHED ∧ peer a' = peer a.
Proof.
  intros Hs Hat Hk Hip Hcmn Hto. set (fld := Fld SCTP_COOKIE_ACK 0 (htons 4)).
  unfold cookie_ack_fld in Hat. rewrite <-(app_nil_r (enc _)) in Hat.
  rewrite (if_ip_sctp_dispatch alloc_array alloc m st r a pkt mac ip cmn fld _ Hat);
    [|done|done|by apply wf_chunk_fld|done|done].
  unfold dispatch. change (fld_type fld) with SCTP_COOKIE_ACK.
  change (SCTP_COOKIE_ACK =? SCTP_INIT) with false. change (SCTP_COOKIE_ACK =? SCTP_INIT_ACK) with false.
  change (SCTP_COOKIE_ACK =? SCTP_COOKIE_ECHO) with false. rewrite Z.eqb_refl, decide_True by done. cbn iota.
  unfold sctp_process_sctp_cookie_ack. change (ntohs (fld_len fld) <? sz_fld) with false. cbn iota.
  rewrite bind_ret. cbv beta iota.
  destruct (prepare_threads_keeps alloc_array alloc (with_status a SCTP_ESTABLISHED)) as (Ep & Es & _).
  eexists. split; [reflexivity|]. by rewrite Ep, Es.
Qed.
End messages.

(** ** Properties *)
Section properties.
Context {CRC : Crc32Insn} {ENT : Entropy} {Q : Type} {PQ : PacketQueue Q}.

(** C10: whatever frame arrives, in whatever memory, an association only makes
    these moves: none; from INIT-SENT to INIT-ACK-RECEIVED; from there to
    ESTABLISHED, with the peer's data unchanged; or, while listening, it takes
    the peer's data from a cookie that carries the HMAC of the secret key. *)
Theorem handshake_moves aa alloc base m st (r : rings Q) packet a ok m' st' r' a' :
  if_ip_sctp aa alloc base m st r packet (Some a) = Ret (ok, m', st', r', Some a') →
  transition m packet a a'.
Proof. apply transitions. Qed.

(** C9: over any number of frames, an association that starts in INIT-SENT is in
    INIT-SENT, INIT-ACK-RECEIVED or ESTABLISHED; one that listens, as the
    server's, listens for ever; one that starts in COOKIE-WAIT, as
    [create_client] creates it, is never changed: no INIT-ACK is accepted. *)
Theorem reachable_states (a a' : sctp_association) :
  rtc (sctp_step (Q:=Q)) a a' →
  ulp a' = ulp a
  ∧ (status a = SCTP_INIT_SENT →
     status a' = SCTP_INIT_SENT ∨ status a' = SCTP_INIT_ACK_RECEIVED ∨ status a' = SCTP_ESTABLISHED)
  ∧ (status a = SCTP_LISTEN → status a' = SCTP_LISTEN)
  ∧ (status a = SCTP_COOKIE_WAIT ∨ status a = SCTP_ESTABLISHED → a' = a).
Proof.
  intros Hr. apply reachable_from in Hr; split_and!; intros;
    repeat (first [progress destruct_and? | progress destruct_or?]); subst; first [congruence | auto].
Qed.

(** C13: a COOKIE-ECHO whose code is not the HMAC of its first forty bytes under
    the secret key is refused, and nothing has changed: not the association,
    not the memory, not the rings. *)
Theorem forged_cookie_refused aa alloc m st (r : rings Q) a q (fld : sctp_fld_hdr_t) text code rest n :
  bytes_at m q (enc fld ++ text ++ code ++ rest) → length text = 40%nat → length code = 16%nat →
  bytes_ok text → 60 ≤ n < 65536 → code ≠ hmac text cookie_key →
  sctp_process_sctp_cookie_echo aa alloc m st r a q (htons n) = Ret (-1, m, st, r, a).
Proof. apply process_cookie_echo_reject. Qed.

(** The cookie made from what an INIT says is well formed. *)
Lemma init_cookie_wf (u : sctp_ulp_config) (ip : ipv4_t) (cmn : sctp_cmn_hdr_t) (ini : sctp_init_hdr_t) itag :
  wf ip → wf cmn → wf ini → is_u32 (ulp_src_ip u) → is_u32 (ulp_src_port u) → is_u32 itag →
  wf (init_ack_cookie u (init_peer ip cmn ini) itag).
Proof.
  intros Hip Hcmn Hini Hui Hup Hitag. pose proof (wf_field cmn 0 2 (srcp cmn) Hcmn eq_refl eq_refl) as [? H2].
  apply wf_cookie; try done; [by apply (wf_field ini 0) | by apply (wf_field ini 1) | by apply (wf_field ini 2)
    | by apply (wf_field ini 3) | by apply (wf_field ini 4) | by apply (wf_field ini 4) | by apply (wf_field ip 8) |].
  unfold fits. cbn [dst_port init_peer]. split; [done|]. etransitivity; [exact H2|]. vm_compute. reflexivity.
Qed.

Lemma length_echo_body (ck : cookie_t) :
  length (enc (Fld SCTP_COOKIE_ECHO 0 (htons 60)) ++ enc ck ++ cookie_mac ck) = 60%nat.
Proof. rewrite !length_app, (length_enc ck), length_cookie_mac. done. Qed.

(** C1: the four-way handshake.  A listening server that receives a client's INIT
    queues an INIT-ACK; the client that receives these bytes queues a
    COOKIE-ECHO and takes the server's tag; the server that receives those,
    having kept nothing in between, restores from the cookie what the INIT said
    and queues a COOKIE-ACK; the client that receives it is ESTABLISHED.  The
    server's association is still LISTEN. *)
Theorem handshake_completes aa alloc cap (sa ca : sctp_association)
    ms st (rs : rings Q) k1 mac ip cmn (fld : sctp_fld_hdr_t) (ini : sctp_init_hdr_t) rest
    p1 p2 mac1 ip1 cmn1 mac2 ip2 cmn2 :
  (2 ≤ cap)%nat → status sa = SCTP_LISTEN → status ca = SCTP_INIT_SENT →
  is_u32 (ulp_src_ip (ulp sa)) → is_u32 (ulp_src_port (ulp sa)) →
  packet_at ms k1 mac ip cmn (enc fld ++ enc ini ++ rest) → 0 < k1 →
  wf ip → wf cmn → wf fld → wf ini → fld_type fld = SCTP_INIT → addressed_to sa ip cmn →
  src_addr ip = ulp_src_ip (ulp ca) → ntohs (srcp cmn) = ulp_src_port (ulp ca) →
  rings_hold cap rs [(p1, 46); (p2, 46)] [] → 0 < p1 → 0 < p2 → rng_ok st →
  packet_at ms p1 mac1 ip1 cmn1 [] → wf ip1 → wf cmn1 → mapped ms (p1 + 46) 80 → wf ip2 → wf cmn2 →
  ∃ ms1 st1 rs1 tg itag,
  if_ip_sctp aa alloc true ms st rs k1 (Some sa) = Ret (true, ms1, st1, rs1, Some sa)
  ∧ rings_hold cap rs1 [(p2, 46); (p1, 46)] [(p1, 126)]
  ∧ ∀ mc stc (rc : rings Q) k2 pc macc ipc cmnc,
    delivered ms1 p1 mc k2 126 → 0 < k2 → rings_hold cap rc [(pc, 46)] [] → 0 < pc →
    packet_at mc pc macc ipc cmnc [] → wf ipc → wf cmnc → addressed_to sa ipc cmnc →
    mapped mc (pc + 46) 60 → k2 + 126 ≤ pc ∨ pc + 106 ≤ k2 →
    ∃ mc1 rc1 ca1, if_ip_sctp aa alloc true mc stc rc k2 (Some ca) = Ret (true, mc1, stc, rc1, Some ca1)
    ∧ status ca1 = SCTP_INIT_ACK_RECEIVED ∧ ver_tag (peer ca1) = tg
    ∧ rings_hold cap rc1 [(pc, 46)] [(pc, 106)]
    ∧ ∀ ms2 k3, delivered mc1 pc ms2 k3 106 → 0 < k3 →
      packet_at ms2 p2 mac2 ip2 cmn2 [] → mapped ms2 (p2 + 46) 4 →
      ∃ ms3 rs3 sa3, if_ip_sctp aa alloc true ms2 st1 rs1 k3 (Some sa) = Ret (true, ms3, st1, rs3, Some sa3)
      ∧ peer sa3 = restored (init_peer ip cmn ini) itag ∧ status sa3 = SCTP_LISTEN
      ∧ rings_hold cap rs3 [(p1, 46); (p2, 46)] [(p1, 126); (p2, 50)]
      ∧ ∀ mc2 k4, delivered ms3 p2 mc2 k4 50 → 0 < k4 →
        ∃ ca3, if_ip_sctp aa alloc true mc2 stc rc1 k4 (Some ca1) = Ret (true, mc2, stc, rc1, Some ca3)
        ∧ status ca3 = SCTP_ESTABLISHED ∧ peer ca3 = peer ca1.
Proof.
  intros Hcap Hsa Hca Hui Hup Hat Hk1 Hip Hcmn Hfld Hini Hty Hto Hsrc Hport Hrs Hp1 Hp2 Hst
    Hpk1 Hip1 Hcmn1 Hm1 Hip2 Hcmn2.
  set (pr := init_peer ip cmn ini).
  destruct (server_init aa alloc cap ms st rs sa k1 mac ip cmn fld ini rest p1 [(p2, 46)] [] mac1 ip1 cmn1)
    as (ms1 & st1 & rs1 & tg & itsn & itag & E1 & Htg & Hitsn & Hitag & Hst1 & Hrs1 & [Hpk _]); try done; try (cbn; lia).
  cbv zeta in Hpk. fold pr in Hpk. set (chunk := init_ack_chunk (ulp sa) pr tg itsn itag) in Hpk.
  assert (fits 4 (src_addr ip) ∧ fits 2 (srcp cmn) ∧ fits 4 (hdr_init_tag ini)) as (Hf1 & Hf2 & Hf3)
    by (split_and!; [by apply (wf_field ip 8) | by apply (wf_field cmn 0) | by apply (wf_field ini 0)]).
  set (ck := init_ack_cookie (ulp sa) pr itag).
  assert (wf ck) as Hck by (by apply init_cookie_wf).
  assert (length chunk = 80%nat) as Elch by exact (length_init_ack_chunk (ulp sa) pr tg itsn itag).
  exists ms1, st1, rs1, tg, itag. split; [exact E1|]. split; [exact Hrs1|].
  intros mc stc rc k2 pc macc ipc cmnc Hd1 Hk2 Hrc Hpc Hpkc Hipc Hcmnc Htoc Hmc Hdis.
  assert (packet_at mc k2 mac1 (reply_ip ip1 112 (dst_ip pr)) (reply_cmn cmn1 pr chunk) chunk) as Hat2
    by (apply (packet_delivered ms1 p1 mc k2 _ _ _ _ 126 Hpk); [by rewrite Elch | exact Hd1]).
  destruct (client_init_ack aa alloc cap mc stc rc ca k2 mac1 (reply_ip ip1 112 (dst_ip pr)) (reply_cmn cmn1 pr chunk)
    (ulp sa) pr tg itsn itag pc [] [] macc ipc cmnc) as (mc1 & rc1 & ca1 & E2 & Hs1 & Hu1 & Ht1 & Hrc1 & [Hpk2 _]);
    try done; try (cbn; lia).
  { by apply wf_reply_ip. } { by apply wf_reply_cmn. }
  exists mc1, rc1, ca1. split; [exact E2|]. do 2 (split; [assumption|]). split; [exact Hrc1|].
  intros ms2 k3 Hd2 Hk3 Hpkp2 Hmp2. fold ck in Hpk2.
  set (body := enc (Fld SCTP_COOKIE_ECHO 0 (htons 60)) ++ enc ck ++ cookie_mac ck) in Hpk2.
  assert (length body = 60%nat) as Elen by exact (length_echo_body ck).
  destruct (server_cookie_echo aa alloc cap ms2 st1 rs1 sa k3 macc (echo_ip ipc 92) (cmn_done cmnc tg body) ck
    p2 [(p1, 46)] [(p1, 126)] mac2 ip2 cmn2) as (ms3 & rs3 & t & E3 & Hrs3 & [Hpk3 _]); try done; try (cbn; lia).
  { apply (packet_delivered mc1 pc ms2 k3 _ _ _ _ 106 Hpk2); [by rewrite Elen | exact Hd2]. }
  { by apply wf_echo_ip. } { by apply wf_cmn_done. }
  exists ms3, rs3, (after_cookie sa ck t). split; [exact E3|]. split; [apply restored_cookie|].
  split; [exact Hsa|]. split; [exact Hrs3|].
  intros mc2 k4 Hd3 Hk4.
  apply (client_cookie_ack aa alloc mc2 stc rc1 ca1 k4 mac2 (reply_ip ip2 36 (dst_ip pr))
    (reply_cmn cmn2 (restored pr itag) cookie_ack_fld) Hs1); try done.
  - apply (packet_delivered ms3 p2 mc2 k4 _ _ _ _ 50 Hpk3); [reflexivity | exact Hd3].
  - by apply wf_reply_ip.
  - by apply wf_reply_cmn.
  - apply (reply_addressed ip2 cmn2 (restored pr itag) cookie_ack_fld 36 ca1); by rewrite Hu1.
Qed.
End properties.

(** ** Witnesses *)
#[local] Existing Instance once.
Definition demo_client (s : SCTP_STATUS) : sctp_association :=
  Assoc 0 s (Peer 0 0 0 (htons 1) (htons 1) 0 0 0 0) zero_tx 1454 0 0 0 NULL
    (Ulp 0x0201A8C0 0x0301A8C0 40000 80 65535 32 32) None.
Definition demo_server : sctp_association :=
  Assoc 0 SCTP_LISTEN (Peer 0 0 0 (htons 1) (htons 1) 0 0 0 0) zero_tx 1454 0 0 0 NULL
    (Ulp 0x0301A8C0 0xFFFFFFFF 80 65535 65535 32 32) None.

(** From the server to the client, and back. *)
Definition to_client_ip : ipv4_t := IPv4 0x45 0 (htons 36) 0 0 228 132 0 0x0301A8C0 0x0201A8C0.
Definition to_client_cmn : sctp_cmn_hdr_t := Cmn (htons 80) (htons 40000) 7 0.
Definition to_server_ip : ipv4_t := IPv4 0x45 0 (htons 52) 0 0 228 132 0 0x0201A8C0 0x0301A8C0.
Definition to_server_cmn : sctp_cmn_hdr_t := Cmn (htons 40000) (htons 80) 0 0.
Definition frame_mem (p : Z) (ip : ipv4_t) (cmn : sctp_cmn_hdr_t) (chunk : bytes) : mem :=
  write ∅ p (enc ack_mac ++ enc ip ++ enc cmn ++ chunk).

Definition no_rings : rings ringbuf := Rings None None.
Definition zero_threads (n : nat) : option (list sctp_thread * nat) := Some (replicate n zero_thread, 1%nat).

Lemma demo_step :
  if_ip_sctp true (λ _, Some zero_thread) true (frame_mem 1000 to_client_ip to_client_cmn cookie_ack_fld) rng_init no_rings 1000
    (Some (demo_client SCTP_INIT_ACK_RECEIVED))
  = Ret (true, frame_mem 1000 to_client_ip to_client_cmn cookie_ack_fld, rng_init, no_rings,
      Some (with_threads (with_status (demo_client SCTP_INIT_ACK_RECEIVED) SCTP_ESTABLISHED) (zero_threads 2))).
Proof. vm_compute. reflexivity. Qed.

Lemma handshake_moves_witness :
  transition (frame_mem 1000 to_client_ip to_client_cmn cookie_ack_fld) 1000 (demo_client SCTP_INIT_ACK_RECEIVED)
    (with_threads (with_status (demo_client SCTP_INIT_ACK_RECEIVED) SCTP_ESTABLISHED) (zero_threads 2)).
Proof. exact (@handshake_moves _ once _ _ _ _ _ _ _ _ _ _ _ _ _ _ _ demo_step). Defined.

Lemma reachable_states_witness :
  let a' := with_threads (with_status (demo_client SCTP_INIT_ACK_RECEIVED) SCTP_ESTABLISHED) (zero_threads 2) in
  rtc (@sctp_step _ once ringbuf _) (demo_client SCTP_INIT_ACK_RECEIVED) a'
  ∧ ulp a' = ulp (demo_client SCTP_INIT_ACK_RECEIVED).
Proof.
  intros a'. assert (rtc (@sctp_step _ once ringbuf _) (demo_client SCTP_INIT_ACK_RECEIVED) a') as H.
  { apply rtc_once. exact (@sctp_recv _ once _ _ _ _ _ _ _ _ _ _ _ _ _ _ _ demo_step). }
  split; [exact H|]. exact (proj1 (@reachable_states _ once ringbuf _ _ _ H)).
Defined.

Lemma forged_cookie_refused_witness :
  let m := write ∅ 1046 (enc (Fld SCTP_COOKIE_ECHO 0 (htons 60)) ++ replicate 40 0 ++ replicate 16 0 ++ []) in
  sctp_process_sctp_cookie_echo true (λ _, Some zero_thread) m rng_init no_rings demo_server 1046 (htons 60)
  = Ret (-1, m, rng_init, no_rings, demo_server).
Proof.
  intros m. apply (forged_cookie_refused _ _ m rng_init no_rings demo_server 1046 (Fld SCTP_COOKIE_ECHO 0 (htons 60))
    (replicate 40 0) (replicate 16 0) [] 60).
  - apply bytes_at_write.
  - reflexivity.
  - reflexivity.
  - apply bytes_ok_zeros.
  - lia.
  - intros E. vm_compute in E. discriminate E.
Defined.

(** The server's memory: the client's INIT and a prefilled packet. *)
Definition handshake_mem : mem :=
  write (write (write ∅ 2000 (replicate 200 0)) 2000 (enc ack_mac ++ enc (demo_ip 0xFFFFFFFF) ++ enc demo_cmn ++ []))
    1000 (enc ack_mac ++ enc to_server_ip ++ enc to_server_cmn
            ++ enc (Fld SCTP_INIT 0 (htons 20)) ++ enc (Init 9 (htonl 65535) (htons 32) (htons 32) 11) ++ []).

Lemma handshake_completes_witness :
  ∃ (rs : rings ringbuf) ms1 st1 rs1,
  @if_ip_sctp _ once _ _ true (λ _, Some zero_thread) true handshake_mem rng_init rs 1000 (Some demo_server)
    = Ret (true, ms1, st1, rs1, Some demo_server)
  ∧ rings_hold 4 rs1 [(3000, 46); (2000, 46)] [(2000, 126)].
Proof.
  destruct (rings_holding [(2000, 46); (3000, 46)] []) as [rs Hr]; [cbn; lia|cbn; lia|].
  destruct (@handshake_completes _ once ringbuf _ true (λ _, Some zero_thread) 4 demo_server (demo_client SCTP_INIT_SENT)
    handshake_mem rng_init rs 1000 ack_mac to_server_ip to_server_cmn (Fld SCTP_INIT 0 (htons 20))
    (Init 9 (htonl 65535) (htons 32) (htons 32) 11) [] 2000 3000 ack_mac (demo_ip 0xFFFFFFFF) demo_cmn ack_mac
    (demo_ip 0xFFFFFFFF) demo_cmn) as (ms1 & st1 & rs1 & tg & itag & E & Hr1 & _).
  - lia.
  - reflexivity.
  - reflexivity.
  - split; vm_compute; congruence.
  - split; vm_compute; congruence.
  - apply bytes_at_write.
  - lia.
  - apply wf_ipv4; unfold fits; vm_compute; split; congruence.
  - apply wf_cmn; unfold fits; vm_compute; split; congruence.
  - apply wf_fld; unfold fits; vm_compute; split; congruence.
  - apply wf_init; unfold fits; vm_compute; split; congruence.
  - reflexivity.
  - split; reflexivity.
  - reflexivity.
  - reflexivity.
  - exact Hr.
  - lia.
  - lia.
  - exact rng_init_ok.
  - unfold packet_at, handshake_mem. apply bytes_at_write_other; [apply bytes_at_write|].
    right. rewrite length_headers. cbn. lia.
  - exact (proj1 (proj1 demo_server_ip)).
  - exact demo_cmn_wf.
  - do 2 apply mapped_write. eapply mapped_sub; [apply (bytes_at_mapped _ _ _ (bytes_at_write _ _ _))|lia|].
    rewrite length_replicate. lia.
  - exact (proj1 (proj1 demo_server_ip)).
  - exact demo_cmn_wf.
  - exists rs, ms1, st1, rs1. split; [exact E | exact Hr1].
Defined.
