(* ===== verification/AssocConc.v ===== *)
(** * The association under concurrency (if_ip_sctp.c, sctp_process_sctp_*.c,
    prepare_sctp_threads.c)

    [Sctp] runs one handler at a time.  Here any number of threads handle frames
    on one association, in atomic steps: each read and each store of a shared
    field is a step, and so are the two calls on [assoc->lock].  A thread's
    program is the list of steps that the source makes for its frame.  The
    memory is sequentially consistent. *)
From S2P Require Import Prelude Bytes Mem Crc32c RingBuf Random Headers Assoc Frames Prefilled Sctp.

(** ** Code: the steps *)

(** The fields that the handlers load or store. *)
Inductive field :=
| F_ver_tag | F_init_tag | F_a_rwnd | F_os | F_mis | F_tsn | F_dst_tsn | F_dst_ip | F_dst_port
| F_rto | F_srtt | F_rttvar | F_id | F_retry_ring.

Definition get_field (a : sctp_association) (f : field) : Z :=
  let p := peer a in
  match f with
  | F_ver_tag => ver_tag p | F_init_tag => init_tag p | F_a_rwnd => a_rwnd p | F_os => os p | F_mis => mis p
  | F_tsn => tsn p | F_dst_tsn => dst_tsn p | F_dst_ip => dst_ip p | F_dst_port => dst_port p
  | F_rto => rto a | F_srtt => srtt a | F_rttvar => rttvar a | F_id => assoc_id a | F_retry_ring => retry_ring a
  end.

Definition store_field (a : sctp_association) (f : field) (v : Z) : sctp_association :=
  let '(Assoc id s p t mtu srtt rttvar rto retry u th) := a in
  let '(Peer vt it w o mi ts dt di dp) := p in
  let with_p p := Assoc id s p t mtu srtt rttvar rto retry u th in
  match f with
  | F_ver_tag => with_p (Peer v it w o mi ts dt di dp)
  | F_init_tag => with_p (Peer vt v w o mi ts dt di dp)
  | F_a_rwnd => with_p (Peer vt it v o mi ts dt di dp)
  | F_os => with_p (Peer vt it w v mi ts dt di dp)
  | F_mis => with_p (Peer vt it w o v ts dt di dp)
  | F_tsn => with_p (Peer vt it w o mi v dt di dp)
  | F_dst_tsn => with_p (Peer vt it w o mi ts v di dp)
  | F_dst_ip => with_p (Peer vt it w o mi ts dt v dp)
  | F_dst_port => with_p (Peer vt it w o mi ts dt di v)
  | F_rto => Assoc id s p t mtu srtt rttvar v retry u th
  | F_srtt => Assoc id s p t mtu v rttvar rto retry u th
  | F_rttvar => Assoc id s p t mtu srtt v rto retry u th
  | F_id => Assoc v s p t mtu srtt rttvar rto retry u th
  | F_retry_ring => Assoc id s p t mtu srtt rttvar rto v u th
  end.

(** [Guard s]: [if (assoc->status == s)], the frame is ignored otherwise.
    [Fetch]: the value goes to the thread's locals.  [Send]: a packet of this
    type is built from the locals (the prefilled ring has a packet for it).
    [AllocThreads]: [prepare_sctp_threads] up to its lock; [StoreThreads]: its
    two stores under it. *)
Inductive instr :=
| Guard (s : SCTP_STATUS)
| Lock | Unlock
| Store (f : field) (v : Z)
| StoreStatus (s : SCTP_STATUS)
| Fetch (f : field)
| Send (type : Z)
| AllocThreads | StoreThreads.

(** A received frame, once what does not depend on the association has been
    checked (addresses, lengths and the HMAC of a cookie).  [retry] and [len]:
    where the cookie of an INIT-ACK is, and how long. *)
Inductive frame_msg :=
| InInit
| InInitAck (h : sctp_init_hdr_t) (retry len : Z)
| InCookieEcho (c : cookie_t)
| InCookieAck.

(** [prepare_sctp_threads]; its reads of [mis] and [os] are one step. *)
Definition prepare_code : list instr := [AllocThreads; Lock; StoreThreads; Unlock].

(** The reads of [build_prefilled_mac_ip_sctp_cookie_echo_hdr]: [id] for the two
    moves of [packet], for the chunk's length, for the bytes to copy and for the
    frame's length. *)
Definition cookie_echo_sent : list instr :=
  [Fetch F_id; Fetch F_id; Fetch F_id; Fetch F_retry_ring; Fetch F_id; Fetch F_id; Fetch F_ver_tag;
   Send SCTP_COOKIE_ECHO].

Definition init_ack_code (h : sctp_init_hdr_t) (retry len : Z) : list instr :=
  [Lock; Store F_ver_tag (hdr_init_tag h); Store F_os (hdr_os h); Store F_mis (hdr_mis h);
   Store F_a_rwnd (hdr_a_rwnd h); Store F_ver_tag (hdr_init_tag h); Store F_tsn (init_tsn h);
   StoreStatus SCTP_INIT_ACK_RECEIVED; Unlock;
   Store F_id (u16 len); Store F_retry_ring retry] ++ cookie_echo_sent.

Definition cookie_echo_code (c : cookie_t) : list instr :=
  [Lock; Store F_ver_tag (ck_ver_tag c); Store F_init_tag (ck_init_tag c); Store F_a_rwnd (ck_a_rwnd c);
   Store F_os (ck_os c); Store F_mis (ck_mis c); Store F_tsn (ck_tsn c); Store F_dst_tsn (ck_dst_tsn c);
   Store F_dst_ip (ck_src_ip c); Store F_dst_port (ck_src_port c);
   Store F_rto SCTP_RTO_MIN; Store F_srtt 0; Store F_rttvar 0; Unlock;
   Fetch F_dst_ip; Fetch F_dst_port; Fetch F_ver_tag; Send SCTP_COOKIE_ACK] ++ prepare_code.

Definition cookie_ack_code : list instr := [Lock; StoreStatus SCTP_ESTABLISHED; Unlock] ++ prepare_code.

(** The [switch] of [if_ip_sctp]: the status is read before the lock is taken. *)
Definition code_of (x : frame_msg) : list instr :=
  match x with
  | InInit => [Guard SCTP_LISTEN; Send SCTP_INIT_ACK]
  | InInitAck h retry len => Guard SCTP_INIT_SENT :: init_ack_code h retry len
  | InCookieEcho c => Guard SCTP_LISTEN :: cookie_echo_code c
  | InCookieAck => Guard SCTP_INIT_ACK_RECEIVED :: cookie_ack_code
  end.

(** ** Code: threads *)
Record worker := Worker {
  w_code : list instr;                  (* what is left of the frame in hand *)
  w_locals : list Z;                    (* the values loaded *)
  w_threads : list sctp_thread;         (* the streams allocated *)
  w_frames : list frame_msg              (* the frames still to come *)
}.

(** The association, its lock, the packets sent, and the critical sections in the
    order in which they were entered (a history that no step reads). *)
Record shared := Shared {
  sh_assoc : sctp_association; sh_lock : bool;
  sh_sent : list (Z * list Z);
  sh_log : list (list sctp_thread * list instr)
}.

(** A store of a critical section. *)
Definition exec_store (ts : list sctp_thread) (i : instr) (a : sctp_association) : sctp_association :=
  match i with
  | Store f v => store_field a f v
  | StoreStatus s => with_status a s
  | StoreThreads => with_threads a (Some (ts, Z.to_nat (ntohs (mis (peer a)))))
  | _ => a
  end.

(** What is stored before the lock is released. *)
Fixpoint section_of (code : list instr) : list instr :=
  match code with
  | [] | Unlock :: _ => []
  | i :: code => i :: section_of code
  end.

Section code.
(** The results of [aligned_alloc], as in [Sctp]. *)
Context (alloc_array : bool) (alloc : nat → option sctp_thread).

(** The threads that [prepare_sctp_threads] allocates. *)
Definition alloc_streams (a : sctp_association) : option (list sctp_thread) :=
  if alloc_array
  then alloc_threads alloc (os (peer a)) 0 (Z.to_nat (ntohs (mis (peer a)) + ntohs (os (peer a))))
  else None.

(** One step; [None]: the lock is taken, or the thread has nothing left to do. *)
Definition worker_step (s : shared) (w : worker) : option (shared * worker) :=
  let '(Shared a lock sent log) := s in
  let '(Worker code locals ts frames) := w in
  match code with
  | [] => match frames with [] => None | x :: frames => Some (s, Worker (code_of x) [] [] frames) end
  | i :: code =>
      let next := Worker code locals ts frames in
      match i with
      | Guard st => Some (s, if decide (status a = st) then next else Worker [] [] [] frames)
      | Lock => if lock then None else Some (Shared a true sent (log ++ [(ts, section_of code)]), next)
      | Unlock => Some (Shared a false sent log, next)
      | Store _ _ | StoreStatus _ | StoreThreads => Some (Shared (exec_store ts i a) lock sent log, next)
      | Fetch f => Some (s, Worker code (locals ++ [get_field a f]) ts frames)
      | Send type => Some (Shared a lock (sent ++ [(type, locals)]) log, Worker code [] ts frames)
      | AllocThreads =>
          match alloc_streams a with
          | None => Some (s, Worker [] [] [] frames)
          | Some ts => Some (s, Worker code locals ts frames)
          end
      end
  end.

Record team := Team { t_shared : shared; t_workers : list worker }.

Definition team_step (i : nat) (t : team) : option team :=
  w ← t_workers t !! i;
  '(s, w) ← worker_step (t_shared t) w;
  Some (Team s (<[i := w]> (t_workers t))).

Fixpoint run_team (sched : list nat) (t : team) : option team :=
  match sched with
  | [] => Some t
  | i :: sched => t ← team_step i t; run_team sched t
  end.

(** Threads that wait for their frames, on an association that no one holds. *)
Definition assemble (a : sctp_association) (frames : list (list frame_msg)) : team :=
  Team (Shared a false [] []) (Worker [] [] [] <$> frames).
End code.

(** ** The invariant *)

(** What the lock protects: all but [id] and [retry_ring]. *)
Definition locked_part (a : sctp_association) :=
  (peer a, status a, (rto a, srtt a, rttvar a), threads a).

Definition run_section (ts : list sctp_thread) (sec : list instr) (a : sctp_association) : sctp_association :=
  foldl (λ a i, exec_store ts i a) a sec.

(** The critical sections one after the other. *)
Definition replay (log : list (list sctp_thread * list instr)) (a : sctp_association) : sctp_association :=
  foldl (λ a s, run_section s.1 s.2 a) a log.

(** A thread that holds the lock has its release before any other lock. *)
Fixpoint holding (code : list instr) : bool :=
  match code with
  | [] | Lock :: _ => false
  | Unlock :: _ => true
  | _ :: code => holding code
  end.

Definition protected (f : field) : bool := match f with F_id | F_retry_ring => false | _ => true end.

(** The discipline of the handlers: under the lock only stores of protected
    fields, without it none of them. *)
Fixpoint disciplined (inside : bool) (code : list instr) : bool :=
  match code with
  | [] => negb inside
  | i :: code =>
      match i with
      | Lock => negb inside && disciplined true code
      | Unlock => inside && disciplined false code
      | Store f _ => eqb (protected f) inside && disciplined inside code
      | StoreStatus _ | StoreThreads => inside && disciplined inside code
      | Guard _ | Fetch _ | Send _ | AllocThreads => negb inside && disciplined inside code
      end
  end.

Fixpoint sections (code : list instr) : list (list instr) :=
  match code with
  | [] => []
  | Lock :: code => section_of code :: sections code
  | _ :: code => sections code
  end.

Definition store_ok (i : instr) : Prop :=
  match i with Store f _ => protected f = true | StoreStatus _ | StoreThreads => True | _ => False end.

Lemma code_disciplined x : disciplined false (code_of x) = true.
Proof. by destruct x. Qed.

Lemma disciplined_holding b code : disciplined b code = true → holding code = b.
Proof.
  revert b; induction code as [|[] code IH]; intros [] H; cbn in H |- *; try done;
    try (apply andb_true_iff in H as [_ H]; by apply IH); by apply IH.
Qed.

Lemma section_ok b code : disciplined b code = true → b = true → Forall store_ok (section_of code).
Proof.
  revert b; induction code as [|[] code IH]; intros [] H Hb; try done; cbn in H |- *;
    try apply andb_true_iff in H as [Hp H]; try done.
  - constructor; [by apply eqb_prop in Hp | by apply (IH true)].
  - constructor; [done | by apply (IH true)].
  - constructor; [done | by apply (IH true)].
Qed.

Lemma exec_store_locked ts i a b :
  store_ok i → locked_part a = locked_part b → locked_part (exec_store ts i a) = locked_part (exec_store ts i b).
Proof.
  destruct a as [? ? [] ? ? ? ? ? ? ? ?], b as [? ? [] ? ? ? ? ? ? ? ?]. unfold locked_part. cbn.
  destruct i as [| | |[]| | | | |]; cbn; intros Hok H; try done; injection H; intros; subst; reflexivity.
Qed.

Lemma run_section_locked ts sec a b :
  Forall store_ok sec → locked_part a = locked_part b → locked_part (run_section ts sec a) = locked_part (run_section ts sec b).
Proof.
  intros Hok. revert a b. induction Hok as [|i sec Hi _ IH]; intros a b H; [done|]. cbn. by apply IH, exec_store_locked.
Qed.

Lemma store_unprotected ts f v a :
  protected f = false → locked_part (exec_store ts (Store f v) a) = locked_part a.
Proof. destruct a as [? ? [] ? ? ? ? ? ? ? ?]. by destruct f. Qed.

Lemma replay_snoc log ts sec a : replay (log ++ [(ts, sec)]) a = run_section ts sec (replay log a).
Proof. unfold replay. by rewrite foldl_app. Qed.

(** The four kinds of step, as the lock sees them. *)
Inductive step_kind (s : shared) (w : worker) (s' : shared) (w' : worker) : Prop :=
| step_quiet :
    holding (w_code w) = false → holding (w_code w') = false → sh_lock s' = sh_lock s → sh_log s' = sh_log s →
    locked_part (sh_assoc s') = locked_part (sh_assoc s) → step_kind s w s' w'
| step_acquire :
    holding (w_code w) = false → holding (w_code w') = true → sh_lock s = false → sh_lock s' = true →
    sh_log s' = sh_log s ++ [(w_threads w', section_of (w_code w'))] →
    section_of (w_code w') ∈ sections (w_code w) →
    sh_assoc s' = sh_assoc s → step_kind s w s' w'
| step_store :
    holding (w_code w) = true → holding (w_code w') = true → sh_lock s' = sh_lock s → sh_log s' = sh_log s →
    run_section (w_threads w') (section_of (w_code w')) (sh_assoc s')
    = run_section (w_threads w) (section_of (w_code w)) (sh_assoc s) → step_kind s w s' w'
| step_release :
    holding (w_code w) = true → holding (w_code w') = false → sh_lock s' = false → sh_log s' = sh_log s →
    sh_assoc s' = sh_assoc s → section_of (w_code w) = [] → step_kind s w s' w'.

(** What is known of a thread that works on some of the frames [xs]. *)
Definition from_frames (xs : list frame_msg) (sec : list instr) : Prop := ∃ x, x ∈ xs ∧ sec ∈ sections (code_of x).

Record worker_ok (xs : list frame_msg) (w : worker) : Prop := {
  wo_disciplined : disciplined (holding (w_code w)) (w_code w) = true;
  wo_sections sec : sec ∈ sections (w_code w) → from_frames xs sec;
  wo_frames x : x ∈ w_frames w → x ∈ xs
}.

Lemma worker_section_ok xs w : worker_ok xs w → holding (w_code w) = true → Forall store_ok (section_of (w_code w)).
Proof. intros [Hd _ _] Hh. rewrite Hh in Hd. by apply (section_ok true). Qed.

Section invariant.
Context (alloc_array : bool) (alloc : nat → option sctp_thread).

Lemma worker_ok_idle xs w : worker_ok xs w → worker_ok xs (Worker [] [] [] (w_frames w)).
Proof. intros [_ _ Hf]. split; [done | by intros ? ?%elem_of_nil | done]. Qed.

(** The frame's next step keeps the discipline. *)
Lemma worker_ok_next xs i code locals ts frames locals' ts' :
  worker_ok xs (Worker (i :: code) locals ts frames) → worker_ok xs (Worker code locals' ts' frames).
Proof.
  intros [Hd Hs Hf]. cbn [w_code w_frames] in *. split; cbn [w_code w_frames]; [|intros sec Hin; apply Hs; destruct i; cbn; try (by right); done | done].
  assert (∃ b, disciplined b code = true) as [b Hb].
  { destruct i; cbn in Hd; try apply andb_true_iff in Hd as [_ Hd]; eauto; try (apply andb_true_iff in Hd as [_ Hd]; eauto). }
  by rewrite (disciplined_holding b code Hb).
Qed.

Lemma worker_step_kind xs s w s' w' :
  worker_ok xs w → worker_step alloc_array alloc s w = Some (s', w') → step_kind s w s' w' ∧ worker_ok xs w'.
Proof.
  intros Hok H. destruct s as [a lock sent log], w as [code locals ts frames].
  destruct code as [|i code]; cbn in H.
  - destruct frames as [|x frames]; [done|]. injection H as <- <-. destruct Hok as [_ _ Hf]. split.
    + apply step_quiet; try done. cbn. by rewrite (disciplined_holding false _ (code_disciplined x)).
    + split; cbn.
      * rewrite (disciplined_holding false _ (code_disciplined x)). apply code_disciplined.
      * intros sec Hs. exists x. split; [apply Hf; left | done].
      * intros y Hy. apply Hf. by right.
  - pose proof (wo_disciplined _ _ Hok) as Hd. cbn [w_code] in Hd.
    pose proof (λ l ts', worker_ok_next xs i code locals ts frames l ts' Hok) as Hnext.
    pose proof (worker_ok_idle _ _ Hok) as Hidle. cbn [w_frames] in Hidle.
    destruct i as [st| | |f v|st|f|ty| |]; cbn in Hd, H; try (apply andb_true_iff in Hd as [Hp Hd]);
      try (apply negb_true_iff in Hp); try (apply eqb_prop in Hp).
    + case_decide; injection H as <- <-; (split; [by apply step_quiet | auto]).
    + destruct lock; [done|]. injection H as <- <-. split; [|auto].
      apply step_acquire; try done; cbn; [by apply disciplined_holding | left].
    + injection H as <- <-. split; [|auto]. apply step_release; try done. by apply disciplined_holding.
    + injection H as <- <-. split; [|auto]. destruct (holding code) eqn:Eh; [by apply step_store|].
      apply step_quiet; try done. by apply (store_unprotected ts).
    + injection H as <- <-. split; [by apply step_store | auto].
    + injection H as <- <-. split; [by apply step_quiet | auto].
    + injection H as <- <-. split; [by apply step_quiet | auto].
    + destruct (alloc_streams alloc_array alloc a); injection H as <- <-; (split; [by apply step_quiet | auto]).
    + injection H as <- <-. split; [by apply step_store | auto].
Qed.

(** The lock is free and the sections of the history are complete, or one thread
    holds it and has the rest of the last section before it. *)
Definition lock_inv (a0 : sctp_association) (s : shared) (ws : list worker) : Prop :=
  let past := locked_part (replay (sh_log s) a0) in
  if sh_lock s then
    ∃ i w, ws !! i = Some w ∧ holding (w_code w) = true
    ∧ (∀ j v, ws !! j = Some v → holding (w_code v) = true → j = i)
    ∧ locked_part (run_section (w_threads w) (section_of (w_code w)) (sh_assoc s)) = past
  else (∀ j v, ws !! j = Some v → holding (w_code v) = false) ∧ locked_part (sh_assoc s) = past.

Record team_inv (a0 : sctp_association) (xs : list frame_msg) (t : team) : Prop := {
  ti_workers w : w ∈ t_workers t → worker_ok xs w;
  ti_log s : s ∈ sh_log (t_shared t) → from_frames xs s.2;
  ti_lock : lock_inv a0 (t_shared t) (t_workers t)
}.

Lemma team_inv_start a frames : team_inv a (concat frames) (assemble a frames).
Proof.
  split; cbn.
  - intros w (fs & -> & Hin)%list_elem_of_fmap. split; cbn; [done | by intros ? ?%elem_of_nil |].
    intros x Hx. apply list_elem_of_In, in_concat. exists fs. by rewrite <-!list_elem_of_In.
  - by intros s ?%elem_of_nil.
  - split; [|done]. intros j v (fs & -> & _)%list_lookup_fmap_Some. done.
Qed.

Lemma lock_inv_step a0 xs s s' ws i w w' :
  (∀ v, v ∈ ws → worker_ok xs v) → worker_ok xs w' → ws !! i = Some w → step_kind s w s' w' → lock_inv a0 s ws → lock_inv a0 s' (<[i := w']> ws).
Proof.
  intros Hws Hok' Hi Hkind Hinv. unfold lock_inv in *.
  assert (∀ j v, <[i := w']> ws !! j = Some v → j = i ∧ v = w' ∨ j ≠ i ∧ ws !! j = Some v) as Hins.
  { intros j v [(<- & <- & _)|[? ?]]%list_lookup_insert_Some; [by left | right; split; congruence]. }
  destruct Hkind as [Hh Hh' Hl Hg Ha|Hh Hh' Hf Ht Hg _ Ha|Hh Hh' Hl Hg Ha|Hh Hh' Hf Hg Ha He].
  - rewrite Hl, Hg. destruct (sh_lock s).
    + destruct Hinv as (k & u & Hk & Hu & Hone & Hpart). assert (k ≠ i) by congruence. exists k, u.
      rewrite list_lookup_insert_ne by done. split; [done|]. split; [done|]. split.
      * intros j v [[-> ->]|[_ Hj]]%Hins Hv; [congruence | by eapply Hone].
      * rewrite <-Hpart. apply run_section_locked; [|done]. eapply worker_section_ok; [|done]. apply Hws. by eapply list_elem_of_lookup_2.
    + destruct Hinv as [Hnone Hpart]. split; [|by rewrite Ha]. intros j v [[-> ->]|[_ Hj]]%Hins; eauto.
  - rewrite Hf in Hinv. destruct Hinv as [Hnone Hpart]. rewrite Ht, Hg. exists i, w'.
    rewrite list_lookup_insert_eq by (by eapply lookup_lt_Some). split; [done|]. split; [done|]. split.
    + intros j v [[-> ->]|[_ Hj]]%Hins Hv; [done|]. by rewrite (Hnone j v Hj) in Hv.
    + rewrite replay_snoc, Ha. apply run_section_locked; [|done]. by eapply worker_section_ok.
  - rewrite Hl, Hg. destruct (sh_lock s).
    + destruct Hinv as (k & u & Hk & Hu & Hone & Hpart). assert (k = i) as -> by (symmetry; by eapply Hone).
      assert (u = w) as -> by congruence. exists i, w'.
      rewrite list_lookup_insert_eq by (by eapply lookup_lt_Some). split; [done|]. split; [done|]. split.
      * intros j v [[-> ->]|[_ Hj]]%Hins Hv; [done | by eapply Hone].
      * by rewrite Ha.
    + destruct Hinv as [Hnone _]. by rewrite (Hnone i w Hi) in Hh.
  - rewrite Hf, Hg, Ha. destruct (sh_lock s).
    + destruct Hinv as (k & u & Hk & Hu & Hone & Hpart). assert (k = i) as -> by (symmetry; by eapply Hone).
      assert (u = w) as -> by congruence. split; [|by rewrite He in Hpart].
      intros j v [[-> ->]|[Hji Hj]]%Hins; [done|]. destruct (holding (w_code v)) eqn:Ev; [|done].
      by rewrite (Hone j v Hj Ev) in Hji.
    + destruct Hinv as [Hnone _]. by rewrite (Hnone i w Hi) in Hh.
Qed.

Lemma team_inv_step a0 xs t i t' : team_inv a0 xs t → team_step alloc_array alloc i t = Some t' → team_inv a0 xs t'.
Proof.
  intros [Hw Hlog Hlock] H. unfold team_step in H. destruct (t_workers t !! i) as [w|] eqn:Ei; [|done]. cbn in H.
  destruct (worker_step _ _ _ w) as [[s' w']|] eqn:Es; [|done]. injection H as <-.
  assert (worker_ok xs w) as Hok by (apply Hw; by eapply list_elem_of_lookup_2).
  destruct (worker_step_kind xs _ _ _ _ Hok Es) as [Hkind Hok'].
  assert (∀ v, v ∈ <[i:=w']> (t_workers t) → worker_ok xs v) as Hw'.
  { intros v (j & [(_ & <- & _)|[_ Hj]]%list_lookup_insert_Some)%list_elem_of_lookup; [done|].
    apply Hw. by eapply list_elem_of_lookup_2. }
  split; cbn [t_shared t_workers]; [exact Hw' | |].
  - intros s Hs. destruct Hkind as [? ? ? Hl|? ? ? ? Hl Hsec|? ? ? Hl|? ? ? Hl]; rewrite Hl in Hs; auto.
    apply elem_of_app in Hs as [Hs | ->%list_elem_of_singleton]; [auto | by apply (wo_sections _ _ Hok)].
  - by apply (lock_inv_step a0 xs (t_shared t) s' (t_workers t) i w w').
Qed.
End invariant.

(** ** One thread alone *)
Section alone.
Context (alloc_array : bool) (alloc : nat → option sctp_thread).

Fixpoint alone (fuel : nat) (s : shared) (w : worker) : shared * worker :=
  match fuel with
  | O => (s, w)
  | S fuel => match worker_step alloc_array alloc s w with Some (s, w) => alone fuel s w | None => (s, w) end
  end.

(** The longest program has 23 steps. *)
Definition handled_alone (a : sctp_association) (x : frame_msg) : shared * worker :=
  alone 30 (Shared a false [] []) (Worker (code_of x) [] [] []).

(** The frame that the bytes at [pkt] hold, when its handler accepts it. *)
Definition read_frame (m : mem) (pkt : Z) : outcome (option frame_msg) :=
  let fld := pkt + sz_mac + sz_ip + sz_cmn in
  type ← ld m fld 1;
  if type =? SCTP_INIT then Ret (Some InInit)
  else if type =? SCTP_INIT_ACK then
    h ← ld_struct sctp_init_hdr_t m (fld + sz_fld);
    len ← ld m (fld + off_fld_len) 2;
    Ret (Some (InInitAck h (fld + sz_fld + sz_init + sz_param) (ntohs len - (sz_fld + sz_init + sz_param))))
  else if type =? SCTP_COOKIE_ECHO then
    c ← ld_struct cookie_t m (fld + sz_fld); Ret (Some (InCookieEcho c))
  else if type =? SCTP_COOKIE_ACK then Ret (Some InCookieAck)
  else Ret None.

Lemma alone_add n k s w : alone (n + k) s w = alone k (alone n s w).1 (alone n s w).2.
Proof.
  revert s w; induction n as [|n IH]; intros s w; [done|]. cbn [Nat.add alone].
  destruct (worker_step alloc_array alloc s w) as [[s' w']|] eqn:E; [apply IH|]. cbn [fst snd].
  destruct k; [done|]. cbn [alone]. by rewrite E.
Qed.

(** The end of two of the programs. *)
Lemma alone_prepare k a sent log locals ts :
  sh_assoc (alone (4 + k) (Shared a false sent log) (Worker prepare_code locals ts [])).1
  = match alloc_streams alloc_array alloc a with
    | None => a
    | Some ts => with_threads a (Some (ts, Z.to_nat (ntohs (mis (peer a)))))
    end.
Proof.
  cbn [Nat.add alone prepare_code]. cbn [worker_step].
  destruct (alloc_streams alloc_array alloc a) as [ts'|]; destruct k; reflexivity.
Qed.

Lemma prepare_streams a :
  snd (prepare_sctp_threads alloc_array alloc a)
  = match alloc_streams alloc_array alloc a with
    | None => a
    | Some ts => with_threads a (Some (ts, Z.to_nat (ntohs (mis (peer a)))))
    end.
Proof. unfold prepare_sctp_threads, alloc_streams. destruct alloc_array; [|done]. by destruct (alloc_threads _ _ _ _). Qed.

Lemma alone_init a : status a = SCTP_LISTEN → sh_assoc (handled_alone a InInit).1 = a.
Proof. destruct a as [? s [] ? ? ? ? ? ? ? ?]. cbn. by intros ->. Qed.

Lemma alone_init_ack a h retry len :
  status a = SCTP_INIT_SENT →
  sh_assoc (handled_alone a (InInitAck h retry len)).1
  = Assoc (u16 len) SCTP_INIT_ACK_RECEIVED
      (Peer (hdr_init_tag h) (init_tag (peer a)) (hdr_a_rwnd h) (hdr_os h) (hdr_mis h) (init_tsn h)
         (dst_tsn (peer a)) (dst_ip (peer a)) (dst_port (peer a)))
      (tx a) (mtu a) (srtt a) (rttvar a) (rto a) retry (ulp a) (threads a).
Proof. destruct a as [? s [] ? ? ? ? ? ? ? ?]. cbn. by intros ->. Qed.

Lemma alone_cookie_echo a c :
  status a = SCTP_LISTEN →
  sh_assoc (handled_alone a (InCookieEcho c)).1
  = snd (prepare_sctp_threads alloc_array alloc
      (Assoc (assoc_id a) (status a) (peer_of_cookie c) (tx a) (mtu a) 0 0 SCTP_RTO_MIN (retry_ring a) (ulp a) (threads a))).
Proof.
  destruct a as [? s [] ? ? ? ? ? ? ? ?]. cbn [status]. intros ->. rewrite prepare_streams.
  unfold handled_alone. rewrite (alone_add 19 11). set (r := alone 19 _ _).
  lazy in r. subst r. cbn [fst snd]. rewrite (alone_prepare 7). reflexivity.
Qed.

Lemma alone_cookie_ack a :
  status a = SCTP_INIT_ACK_RECEIVED →
  sh_assoc (handled_alone a InCookieAck).1 = snd (prepare_sctp_threads alloc_array alloc (with_status a SCTP_ESTABLISHED)).
Proof.
  destruct a as [? s [] ? ? ? ? ? ? ? ?]. cbn [status]. intros ->. rewrite prepare_streams.
  unfold handled_alone. rewrite (alone_add 4 26). set (r := alone 4 _ _).
  lazy in r. subst r. cbn [fst snd]. rewrite (alone_prepare 22). reflexivity.
Qed.
End alone.

(** ** Lemmas: the handlers of [Sctp] are these programs *)
Section handlers.
Context {CRC : Crc32Insn} {ENT : Entropy} {Q : Type} {PQ : PacketQueue Q}.
Context (alloc_array : bool) (alloc : nat → option sctp_thread).

Definition taken m pkt (a : sctp_association) (ok : bool) (a' : sctp_association) : Prop :=
  ok = false ∧ a' = a
  ∨ ok = true ∧ ∃ x, read_frame m pkt = Ret (Some x) ∧ a' = sh_assoc (handled_alone alloc_array alloc a x).1.

Lemma init_taken m st (r : rings Q) a packet len ret m' st' r' a' :
  sctp_process_sctp_init m st r a packet len = Ret (ret, m', st', r', a') → ret = 0 ∧ a' = a.
Proof.
  unfold sctp_process_sctp_init. intros H. apply bind_ret_inv in H as (ip & _ & H). apply bind_ret_inv in H as (cmn & _ & H).
  apply bind_ret_inv in H as (init & _ & H). apply bind_ret_inv in H as ([[[x m1] st1] r1] & _ & H). by injection H.
Qed.

Lemma cookie_ack_taken m st (r : rings Q) a packet len ret m' st' r' a' :
  sctp_process_sctp_cookie_ack alloc_array alloc m st r a packet len = Ret (ret, m', st', r', a') →
  ret = -1 ∧ a' = a ∨ ret = 0 ∧ a' = snd (prepare_sctp_threads alloc_array alloc (with_status a SCTP_ESTABLISHED)).
Proof. unfold sctp_process_sctp_cookie_ack. destruct (_ <? _); intros [= <- <- <- <- <-]; [by left | by right]. Qed.

Lemma init_ack_taken m st (r : rings Q) a packet len ret m' st' r' a' :
  sctp_process_sctp_init_ack m st r a packet len = Ret (ret, m', st', r', a') →
  ret = -1 ∧ a' = a ∨ ret = 0 ∧ ∃ h, ld_struct sctp_init_hdr_t m packet = Ret h
    ∧ a' = Assoc (u16 (ntohs len - (sz_fld + sz_init + sz_param))) SCTP_INIT_ACK_RECEIVED
      (Peer (hdr_init_tag h) (init_tag (peer a)) (hdr_a_rwnd h) (hdr_os h) (hdr_mis h) (init_tsn h)
         (dst_tsn (peer a)) (dst_ip (peer a)) (dst_port (peer a)))
      (tx a) (mtu a) (srtt a) (rttvar a) (rto a) (packet + sz_init + sz_param) (ulp a) (threads a).
Proof.
  unfold sctp_process_sctp_init_ack. destruct (_ <=? _); [by intros [= <- <- <- <- <-]; left|]. intros H.
  apply bind_ret_inv in H as (h & Eh & H). apply bind_ret_inv in H as ([[x m1] r1] & _ & H).
  injection H as <- <- <- <- <-. right. eauto.
Qed.

Lemma cookie_echo_taken m st (r : rings Q) a packet len ret m' st' r' a' :
  sctp_process_sctp_cookie_echo alloc_array alloc m st r a packet len = Ret (ret, m', st', r', a') →
  ret = -1 ∧ a' = a ∨ ret = 0 ∧ ∃ c, ld_struct cookie_t m (packet + sz_fld) = Ret c
    ∧ a' = snd (prepare_sctp_threads alloc_array alloc
      (Assoc (assoc_id a) (status a) (peer_of_cookie c) (tx a) (mtu a) 0 0 SCTP_RTO_MIN (retry_ring a) (ulp a) (threads a))).
Proof.
  unfold sctp_process_sctp_cookie_echo. destruct (_ <? _); [by intros [= <- <- <- <- <-]; left|]. intros H.
  apply bind_ret_inv in H as (text & _ & H). apply bind_ret_inv in H as (digest & _ & H).
  apply bind_ret_inv in H as (received & _ & H). destruct (digest_differs _ _); [by injection H as <- <- <- <- <-; left|].
  apply bind_ret_inv in H as (c & Ec & H). apply bind_ret_inv in H as ([[x m1] r1] & _ & H).
  injection H as <- <- <- <- <-. right. eauto.
Qed.
End handlers.

(** ** Lemmas: no deadlock *)
Lemma worker_moves alloc_array alloc s w :
  w_code w ≠ [] ∨ w_frames w ≠ [] → sh_lock s = false ∨ holding (w_code w) = true →
  is_Some (worker_step alloc_array alloc s w).
Proof.
  destruct s as [a lock sent log], w as [code locals ts frames]. cbn. intros Hw Hl.
  destruct code as [|i code]; [destruct frames; [by destruct Hw|]; cbn; eauto|].
  destruct i; cbn; eauto; [destruct Hl as [-> | H]; [eauto | done]|].
  destruct (alloc_streams alloc_array alloc a); eauto.
Qed.

Lemma team_moves alloc_array alloc a0 xs t :
  team_inv a0 xs t → (∃ w, w ∈ t_workers t ∧ (w_code w ≠ [] ∨ w_frames w ≠ [])) →
  ∃ i, is_Some (team_step alloc_array alloc i t).
Proof.
  intros [_ _ Hinv] (w & (j & Hj)%list_elem_of_lookup & Hw). unfold lock_inv in Hinv. unfold team_step.
  destruct (sh_lock (t_shared t)) eqn:El.
  - destruct Hinv as (i & u & Hi & Hu & _). exists i. rewrite Hi. cbn.
    destruct (worker_moves alloc_array alloc (t_shared t) u) as [[s' u'] ->]; [left; by destruct (w_code u) | by right | by eexists].
  - exists j. rewrite Hj. cbn.
    destruct (worker_moves alloc_array alloc (t_shared t) w Hw) as [[s' w'] ->]; [by left | by eexists].
Qed.

Lemma team_inv_run alloc_array alloc a0 xs sched : ∀ t t',
  team_inv a0 xs t → run_team alloc_array alloc sched t = Some t' → team_inv a0 xs t'.
Proof.
  induction sched as [|i sched IH]; intros t t' Hinv H; cbn in H; [by injection H as <-|].
  destruct (team_step alloc_array alloc i t) as [t1|] eqn:E; [|done]. eapply IH; [|exact H]. by eapply team_inv_step.
Qed.

(** ** Properties *)

(** C6: in every interleaving of the handlers of any frames by any number of
    threads, at most one thread is between its lock and its unlock, and the lock
    is taken exactly when one is.  Whenever the lock is free, peer, status,
    timing and streams of the association are those that the critical sections
    entered so far leave when they run one after the other; each of them is a
    whole section of the handler of one of the frames.  As long as a thread has
    work left, some thread can step: the lock does not deadlock. *)
Theorem sections_serialise alloc_array alloc a frames sched t :
  run_team alloc_array alloc sched (assemble a frames) = Some t →
  (∀ i j v w, t_workers t !! i = Some v → t_workers t !! j = Some w →
     holding (w_code v) = true → holding (w_code w) = true → i = j)
  ∧ (sh_lock (t_shared t) = true ↔ ∃ w, w ∈ t_workers t ∧ holding (w_code w) = true)
  ∧ (sh_lock (t_shared t) = false →
     locked_part (sh_assoc (t_shared t)) = locked_part (replay (sh_log (t_shared t)) a))
  ∧ (∀ s, s ∈ sh_log (t_shared t) → from_frames (concat frames) s.2)
  ∧ ((∃ w, w ∈ t_workers t ∧ (w_code w ≠ [] ∨ w_frames w ≠ [])) → ∃ i, is_Some (team_step alloc_array alloc i t)).
Proof.
  intros Hrun. pose proof (team_inv_run _ _ _ _ _ _ _ (team_inv_start a frames) Hrun) as Hinv.
  pose proof (team_moves alloc_array alloc _ _ _ Hinv) as Hmove. destruct Hinv as [_ Hlog Hlock]. unfold lock_inv in Hlock.
  destruct (sh_lock (t_shared t)).
  - destruct Hlock as (k & u & Hk & Hu & Hone & _). split; [|split; [|split; [done|by split]]].
    + intros i j v w Hi Hj Hv Hw. by rewrite (Hone i v Hi Hv), (Hone j w Hj Hw).
    + split; [|done]. intros _. exists u. split; [by eapply list_elem_of_lookup_2 | done].
  - destruct Hlock as [Hnone Hpart]. split; [|split; [|split; [done|by split]]].
    + intros i j v w Hi _ Hv. by rewrite (Hnone i v Hi) in Hv.
    + split; [done|]. intros (w & (j & Hj)%list_elem_of_lookup & Hw). by rewrite (Hnone j w Hj) in Hw.
Qed.

(** C7: the programs are the handlers: a call of [if_ip_sctp] that takes a frame
    leaves the association as the program of the frame does when its thread
    runs alone, and a call that refuses it leaves it as it was. *)
Theorem frame_runs_alone {CRC : Crc32Insn} {ENT : Entropy} {Q : Type} {PQ : PacketQueue Q} alloc_array alloc base m st
    (r : rings Q) pkt a ok m' st' r' a' :
  if_ip_sctp alloc_array alloc base m st r pkt (Some a) = Ret (ok, m', st', r', Some a') →
  taken alloc_array alloc m pkt a ok a'.
Proof.
  unfold if_ip_sctp, taken, read_frame. destruct ((pkt =? NULL) || negb base); [by intros; simplify_eq; left|]. cbv zeta. intros H.
  apply bind_ret_inv in H as (dest & _ & H). destruct (negb (dest =? _)); [by simplify_eq; left|].
  apply bind_ret_inv in H as (dst & _ & H). destruct (negb (_ =? ntohs dst)); [by simplify_eq; left|].
  apply bind_ret_inv in H as (type & -> & H). rewrite bind_ret.
  destruct (type =? SCTP_INIT); [|destruct (type =? SCTP_INIT_ACK); [|destruct (type =? SCTP_COOKIE_ECHO);
    [|destruct (type =? SCTP_COOKIE_ACK); [|by simplify_eq; left]]]];
  (case_decide as Hs; [|by simplify_eq; left]);
  apply bind_ret_inv in H as (len & Elen & H); apply bind_ret_inv in H as ([[[[ret m1] st1] r1] a1] & E & H);
  injection H as <- <- <- <- <-.
  - apply init_taken in E as [-> ->]. right. split; [done|]. exists InInit. split; [done|]. by rewrite alone_init.
  - apply init_ack_taken in E as [[-> ->]|(-> & h & Eh & ->)]; [by left|]. right. split; [done|].
    eexists. rewrite Eh, bind_ret, Elen, bind_ret. split; [reflexivity|]. by rewrite alone_init_ack.
  - apply cookie_echo_taken in E as [[-> ->]|(-> & c & Ec & ->)]; [by left|]. right. split; [done|].
    eexists. rewrite Ec, bind_ret. split; [reflexivity|]. by rewrite alone_cookie_echo.
  - apply cookie_ack_taken in E as [[-> ->]|(-> & ->)]; [by left|]. right. split; [done|].
    exists InCookieAck. split; [done|]. by rewrite alone_cookie_ack.
Qed.

(** Thread [i] takes its next [n] steps. *)
Definition steps (i n : nat) : list nat := replicate n i.

(** C8: the status is tested before the lock is taken, and [id] and
    [retry_ring] are stored and read without it, so that two INIT-ACKs in two
    threads can both pass the test.  Then the second of them can take an
    association that the COOKIE-ACK has established back to INIT_ACK_RECEIVED,
    under another peer's tag; and the COOKIE-ECHO can leave with the length
    field of one cookie and the bytes of the other. *)
Theorem status_read_before_lock alloc_array alloc a h1 p1 l1 h2 p2 l2 :
  status a = SCTP_INIT_SENT →
  (∃ s1 s2 t1 t2,
     run_team alloc_array alloc s1 (assemble a [[InInitAck h1 p1 l1; InCookieAck]; [InInitAck h2 p2 l2]]) = Some t1
     ∧ status (sh_assoc (t_shared t1)) = SCTP_ESTABLISHED
     ∧ run_team alloc_array alloc s2 t1 = Some t2
     ∧ status (sh_assoc (t_shared t2)) = SCTP_INIT_ACK_RECEIVED
     ∧ ver_tag (peer (sh_assoc (t_shared t2))) = hdr_init_tag h2)
  ∧ (∃ s t, run_team alloc_array alloc s (assemble a [[InInitAck h1 p1 l1]; [InInitAck h2 p2 l2]]) = Some t
     ∧ sh_sent (t_shared t)
       = [(SCTP_COOKIE_ECHO, [u16 l1; u16 l1; u16 l1; p2; u16 l2; u16 l2; hdr_init_tag h2])]).
Proof.
  destruct a as [? s [] ? ? ? ? ? ? ? ?]. cbn [status]. intros ->. split.
  - exists (steps 1 2 ++ steps 0 26), (steps 1 9). do 2 eexists. split; [lazy -[u16]; reflexivity|].
    split; [reflexivity|]. split; [lazy -[u16]; reflexivity|]. split; reflexivity.
  - exists (steps 1 2 ++ steps 0 16 ++ steps 1 11 ++ steps 0 5). eexists. split; [lazy -[u16]; reflexivity|]. reflexivity.
Qed.

(** ** Witnesses *)

(** Two INIT-ACKs and a COOKIE-ACK, and the thread of the second INIT-ACK holds the
    lock. *)
Definition demo_tag (n : Z) : sctp_init_hdr_t := Init n 1500 (htons 1) (htons 1) (n + 100).
Definition demo_frames : list (list frame_msg) := [[InInitAck (demo_tag 7) 5000 40; InCookieAck]; [InInitAck (demo_tag 9) 6000 40]].

Lemma sections_serialise_witness :
  let t := run_team true (λ _, Some zero_thread) (steps 1 2 ++ steps 0 26 ++ steps 1 5) (assemble (demo_client SCTP_INIT_SENT) demo_frames) in
  (length ∘ sh_log ∘ t_shared <$> t) = Some 3%nat
  ∧ match t with Some t => sh_lock (t_shared t) = true ∧ ∃ i, is_Some (team_step true (λ _, Some zero_thread) i t) | None => False end.
Proof.
  intros t. split; [vm_compute; reflexivity|].
  assert (∃ t', t = Some t' ∧ sh_lock (t_shared t') = true ∧ ∃ w, w ∈ t_workers t' ∧ w_code w ≠ []) as (t' & E & Hl & w & Hw & Hc).
  { eexists. split; [vm_compute; reflexivity|]. split; [reflexivity|]. eexists. split; [left|]. discriminate. }
  rewrite E. split; [exact Hl|]. apply (sections_serialise _ _ _ _ _ _ E). exists w. split; [exact Hw | by left].
Defined.

Lemma frame_runs_alone_witness :
  taken true (λ _, Some zero_thread) (frame_mem 1000 to_client_ip to_client_cmn cookie_ack_fld) 1000
    (demo_client SCTP_INIT_ACK_RECEIVED) true
    (with_threads (with_status (demo_client SCTP_INIT_ACK_RECEIVED) SCTP_ESTABLISHED) (zero_threads 2)).
Proof. exact (@frame_runs_alone _ once ringbuf _ _ _ _ _ _ _ _ _ _ _ _ _ _ demo_step). Defined.

Lemma status_read_before_lock_witness :
  ∃ s t, run_team true (λ _, Some zero_thread) s
    (assemble (demo_client SCTP_INIT_SENT) [[InInitAck (demo_tag 7) 5000 40]; [InInitAck (demo_tag 9) 6000 60]]) = Some t
  ∧ sh_sent (t_shared t) = [(SCTP_COOKIE_ECHO, [40; 40; 40; 6000; 60; 60; 9])].
Proof.
  exact (proj2 (status_read_before_lock true (λ _, Some zero_thread) (demo_client SCTP_INIT_SENT)
    (demo_tag 7) 5000 40 (demo_tag 9) 6000 60 eq_refl)).
Defined.
