(* ===== verification/Segments.v ===== *)
(** * Blocks written piece by piece

    A function that fills a zeroed block field by field is followed on the list
    of the block's segments: each is a struct, a string or what is still zero.
    [st_fld_step], [ld_fld_step] and [store_seg_step] run one store or read, and
    [returns] says that what remains returns.  Used by [Netlink]. *)
From S2P Require Import Prelude Bytes Mem Headers.

(** ** Definitions *)

(** [p->field = v] and [p->field], the field given by its index. *)
Definition st_fld (T : Type) `{!Struct T} (i : nat) (m : mem) (p v : Z) : outcome mem :=
  w ← get (layout T !! i); Mem.st m (p + field_off T i) w v.
Definition ld_fld (T : Type) `{!Struct T} (i : nat) (m : mem) (p : Z) : outcome Z :=
  w ← get (layout T !! i); ld m (p + field_off T i) w.

Definition NL_BUFFER : nat := 4096.

(** [calloc (1, 4096)], [p] being the block it returns, and [free]. *)
Definition calloc (m : mem) (p : Z) : mem := if p =? NULL then m else write m p (replicate NL_BUFFER 0).
Definition free_block (m : mem) (p : Z) : mem :=
  if p =? NULL then m else foldr (λ i, delete (p + Z.of_nat i)) m (seq 0 NL_BUFFER).

(** ** Lemmas: a block of memory as a list of segments *)

(** [m] holds the segments at [p], and is [m0] elsewhere. *)
Definition buffer (m0 : mem) (p : Z) (segs : list bytes) (m : mem) : Prop :=
  bytes_at m p (concat segs) ∧ ∀ q, q < p ∨ p + Z.of_nat (length (concat segs)) ≤ q → m !! q = m0 !! q.

(** The offset of the [k]-th segment. *)
Definition seg_off (segs : list bytes) (k : nat) : Z := Z.of_nat (length (concat (take k segs))).

Definition returns {B} (o : outcome B) (P : B → Prop) : Prop := ∃ b, o = Ret b ∧ P b.

Lemma concat_middle (segs : list bytes) k old :
  segs !! k = Some old → concat segs = concat (take k segs) ++ old ++ concat (drop (S k) segs).
Proof. intros H. rewrite <-(take_drop_middle segs k old H) at 1. by rewrite concat_app. Qed.

Lemma concat_seg_insert (segs : list bytes) k old new :
  segs !! k = Some old → concat (<[k:=new]> segs) = concat (take k segs) ++ new ++ concat (drop (S k) segs).
Proof.
  intros H. rewrite insert_take_drop by (by eapply lookup_lt_Some). by rewrite concat_app.
Qed.

Lemma buffer_write m0 p segs m k old new q :
  buffer m0 p segs m → segs !! k = Some old → length new = length old → q = p + seg_off segs k →
  mapped m q (length new) ∧ buffer m0 p (<[k:=new]> segs) (write m q new).
Proof.
  intros [Hat Hout] Hk Hl ->. unfold seg_off. pose proof (concat_middle _ _ _ Hk) as Ec.
  pose proof (concat_seg_insert _ _ _ new Hk) as Ei. rewrite Ec in Hat. split.
  - apply bytes_at_app in Hat as [_ Hat]. apply bytes_at_app in Hat as [Hat _].
    rewrite Hl. by apply bytes_at_mapped.
  - split.
    + rewrite Ei. by apply (bytes_at_write_mid _ _ _ old).
    + intros q Hq. rewrite Ei, !length_app in Hq. rewrite lookup_write, decide_False by lia.
      apply Hout. rewrite Ec, !length_app. lia.
Qed.

Lemma store_seg_step {B} m0 p segs m k old new q (f : mem → outcome B) P :
  buffer m0 p segs m → segs !! k = Some old → length new = length old → q = p + seg_off segs k →
  (∀ m', buffer m0 p (<[k:=new]> segs) m' → returns (f m') P) → returns (m' ← store m q new; f m') P.
Proof.
  intros Hb Hk Hl Hq H. destruct (buffer_write _ _ _ _ _ _ new _ Hb Hk Hl Hq) as [Hm Hb'].
  rewrite store_mapped, bind_ret by done. by apply H.
Qed.

Lemma sum_list_take_lookup (ws : list nat) i w : ws !! i = Some w → (sum_list (take i ws) + w ≤ sum_list ws)%nat.
Proof.
  revert i; induction ws as [|v ws IH]; intros [|i] H; try discriminate H; cbn in *; [injection H as ->; lia|].
  specialize (IH i H). lia.
Qed.

Section fields.
Context `{!Struct T}.

Lemma st_fld_step {B} m0 p segs m k (x : T) i w v q (f : mem → outcome B) P :
  buffer m0 p segs m → segs !! k = Some (enc x) → layout T !! i = Some w → q = p + seg_off segs k →
  (∀ m', buffer m0 p (<[k := enc (set_field i v x)]> segs) m' → returns (f m') P) →
  returns (m' ← st_fld T i m q v; f m') P.
Proof.
  intros [Hat Hout] Hk Hw -> H. unfold st_fld. rewrite Hw. cbn [get]. rewrite bind_ret.
  pose proof (concat_middle _ _ _ Hk) as Ec. rewrite Ec in Hat.
  destruct (st_field m p _ x _ i w v Hat Hw) as [Hst Hat']. unfold seg_off. rewrite <-Z.add_assoc, Hst, bind_ret.
  apply H. pose proof (concat_seg_insert _ _ _ (enc (set_field i v x)) Hk) as Ei. split; [by rewrite Ei|].
  intros q Hq. rewrite Ei, !length_app, !length_enc in Hq.
  apply lookup_lt_Some in Hw as Hi. assert (field_off T i + Z.of_nat w ≤ Z.of_nat (size T)) as Hb.
  { pose proof (sum_list_take_lookup _ _ _ Hw). unfold field_off, size. lia. }
  rewrite lookup_write, decide_False.
  - apply Hout. rewrite Ec, !length_app, length_enc. lia.
  - rewrite length_le_enc. unfold field_off in *. lia.
Qed.

Lemma ld_fld_step {B} m0 p segs m k (x : T) i w v q (f : Z → outcome B) P :
  buffer m0 p segs m → segs !! k = Some (enc x) → layout T !! i = Some w → fields x !! i = Some v →
  q = p + seg_off segs k → fits w v → returns (f v) P → returns (v ← ld_fld T i m q; f v) P.
Proof.
  intros [Hat _] Hk Hw Hv -> Hf H. unfold ld_fld. rewrite Hw. cbn [get]. rewrite bind_ret.
  rewrite (concat_middle _ _ _ Hk) in Hat. unfold seg_off.
  by rewrite <-Z.add_assoc, (ld_field m p _ x _ i w v Hat Hw Hv Hf), bind_ret.
Qed.
End fields.

Lemma returns_bind {A B} (o : outcome A) (f : A → outcome B) P Q :
  returns o P → (∀ a, P a → returns (f a) Q) → returns (a ← o; f a) Q.
Proof. intros (a & -> & Ha) H. rewrite bind_ret. by apply H. Qed.

Lemma returns_ret {B} (b : B) (P : B → Prop) : P b → returns (Ret b) P.
Proof. intros H. by exists b. Qed.

Lemma bind_assoc {A B C} (o : outcome A) (f : A → outcome B) (g : B → outcome C) :
  (b ← (a ← o; f a); g b) = (a ← o; b ← f a; g b).
Proof. by destruct o. Qed.

Lemma bind_id {A} (o : outcome A) : (a ← o; Ret a) = o.
Proof. by destruct o. Qed.

Lemma buffer_size : Z.of_nat NL_BUFFER = 4096. Proof. reflexivity. Qed.

Lemma calloc_buffer m p segs :
  p ≠ NULL → concat segs = replicate NL_BUFFER 0 → buffer m p segs (calloc m p).
Proof.
  intros Hp Hs. unfold calloc. rewrite (proj2 (Z.eqb_neq p NULL)) by done. unfold buffer. rewrite Hs.
  split; [apply bytes_at_write|]. intros q Hq. rewrite lookup_write, decide_False; [done|]. lia.
Qed.

Lemma lookup_free_block m p q :
  p ≠ NULL → free_block m p !! q = if decide (p ≤ q < p + 4096) then None else m !! q.
Proof.
  intros Hp. unfold free_block. rewrite (proj2 (Z.eqb_neq p NULL)) by done.
  assert (∀ n i, foldr (λ i, delete (p + Z.of_nat i)) m (seq i n) !! q
    = if decide (p + Z.of_nat i ≤ q < p + Z.of_nat (i + n)) then None else m !! q) as H.
  { induction n as [|n IH]; intros i; cbn [seq foldr].
    - rewrite decide_False by lia. done.
    - destruct (decide (p + Z.of_nat i = q)) as [<-|Hne].
      + rewrite lookup_delete_eq, decide_True by lia. done.
      + rewrite lookup_delete_ne by done. rewrite IH.
        destruct (decide (p + Z.of_nat (S i) ≤ q < p + Z.of_nat (S i + n))).
        * rewrite decide_True by lia. done.
        * rewrite decide_False by lia. done. }
  by rewrite H, Z.add_0_r, Nat.add_0_l, buffer_size.
Qed.

(** A block that was not allocated before is gone after [free]. *)
Definition unallocated (m : mem) (p : Z) : Prop := ∀ q, p ≤ q < p + 4096 → m !! q = None.

Lemma free_buffer m0 p segs m :
  p ≠ NULL → unallocated m0 p → length (concat segs) = NL_BUFFER → buffer m0 p segs m → free_block m p = m0.
Proof.
  intros Hp Hu Hl [_ Hout]. apply map_eq; intros q. rewrite lookup_free_block by done. case_decide as H.
  - symmetry. by apply Hu.
  - apply Hout. rewrite Hl, buffer_size. lia.
Qed.

Lemma zero_segments (segs : list bytes) n :
  Forall (λ s, s = replicate (length s) 0) segs → length (concat segs) = n → concat segs = replicate n 0.
Proof.
  intros H <-. induction H as [|s segs Hs _ IH]; [done|]. cbn [concat]. rewrite length_app, replicate_add.
  by rewrite <-IH, <-Hs.
Qed.

(** Two blocks allocated by the same function. *)
Record two_blocks (m : mem) (req resp : Z) : Prop := {
  tb_req : req ≠ NULL; tb_resp : resp ≠ NULL;
  tb_apart : req + 4096 ≤ resp ∨ resp + 4096 ≤ req;
  tb_req_new : unallocated m req; tb_resp_new : unallocated m resp
}.

(** [m'] is [m] but for what the two blocks hold. *)
Definition scratch (m : mem) (req resp : Z) (m' : mem) : Prop :=
  ∀ q, ¬ (req ≤ q < req + 4096) → ¬ (resp ≤ q < resp + 4096) → m' !! q = m !! q.

Lemma free_scratch m req resp m' :
  two_blocks m req resp → scratch m req resp m' → free_block (free_block m' req) resp = m.
Proof.
  intros [H1 H2 _ Hu1 Hu2] Hs. apply map_eq; intros q. rewrite !lookup_free_block by done.
  case_decide as Hr; [symmetry; by apply Hu2|]. case_decide as Hq; [symmetry; by apply Hu1|]. by apply Hs.
Qed.

Lemma lookup_calloc m p q : p ≠ NULL →
  calloc m p !! q = if decide (p ≤ q < p + 4096) then Some 0 else m !! q.
Proof.
  intros Hp. unfold calloc. rewrite (proj2 (Z.eqb_neq p NULL)) by done.
  rewrite lookup_write, length_replicate, buffer_size. case_decide; [|done].
  apply lookup_replicate_2. apply Nat2Z.inj_lt. rewrite buffer_size. lia.
Qed.

Lemma calloc_comm m req resp :
  two_blocks m req resp → calloc (calloc m req) resp = calloc (calloc m resp) req.
Proof.
  intros [H1 H2 _ _ _]. apply map_eq; intros q. rewrite !lookup_calloc by done. by do 2 case_decide.
Qed.

Lemma scratch_same m req resp m' q : two_blocks m req resp → scratch m req resp m' → is_Some (m !! q) → m' !! q = m !! q.
Proof.
  intros [_ _ _ Hu1 Hu2] Hs [v Hv]. unfold unallocated in *.
  apply Hs; intros Hq; [rewrite Hu1 in Hv | rewrite Hu2 in Hv]; (discriminate Hv || lia).
Qed.

Lemma scratch_mapped m req resp m' p n : two_blocks m req resp → scratch m req resp m' → mapped m p n → mapped m' p n.
Proof. intros Hb Hs Hm i Hi. specialize (Hm i Hi). by rewrite (scratch_same m req resp). Qed.

(** What the function writes to memory of its caller outlives the two blocks. *)
Lemma free_scratch_write m req resp m' p bs :
  two_blocks m req resp → scratch m req resp m' → mapped m p (length bs) →
  free_block (free_block (write m' p bs) req) resp = write m p bs.
Proof.
  intros Hb Hs Hm. assert (∀ q, p ≤ q < p + Z.of_nat (length bs) → is_Some (m !! q)) as Hp.
  { intros q Hq. replace q with (p + Z.of_nat (Z.to_nat (q - p))) by lia. apply Hm. lia. }
  apply free_scratch.
  - destruct Hb as [H1 H2 Hd Hu1 Hu2]. split; try done; intros q Hq; rewrite lookup_write, decide_False; try auto.
    + intros H. destruct (Hp q H) as [v Hv]. by rewrite (Hu1 q Hq) in Hv.
    + intros H. destruct (Hp q H) as [v Hv]. by rewrite (Hu2 q Hq) in Hv.
  - intros q Hq1 Hq2. rewrite !lookup_write. case_decide; [done | by apply Hs].
Qed.

Lemma read_block_write m r m' p bs q n :
  unallocated m r → mapped m p (length bs) → r ≤ q → q + Z.of_nat n ≤ r + 4096 →
  read (write m' p bs) q n = read m' q n.
Proof.
  intros Hu Hm H1 H2. apply read_ext. intros x Hx. rewrite lookup_write. case_decide as Hp; [|done].
  exfalso. destruct (Hm (Z.to_nat (x - p)) ltac:(lia)) as [v Hv].
  replace (p + Z.of_nat (Z.to_nat (x - p))) with x in Hv by lia.
  rewrite Hu in Hv by lia. discriminate Hv.
Qed.

Lemma block_bytes m lo (bs : bytes) q n :
  bytes_at m lo bs → lo ≤ q → q + Z.of_nat n ≤ lo + Z.of_nat (length bs) →
  ∃ l, bytes_at m q l ∧ length l = n ∧ l = take n (drop (Z.to_nat (q - lo)) bs).
Proof.
  intros Hat H1 H2. set (k := Z.to_nat (q - lo)). exists (take n (drop k bs)). split; [|split; [|done]].
  - rewrite <-(take_drop k bs) in Hat. apply bytes_at_app in Hat as [_ Hat].
    rewrite length_take, Nat.min_l in Hat by lia. replace (lo + Z.of_nat k) with q in Hat by lia.
    rewrite <-(take_drop n (drop k bs)) in Hat. by apply bytes_at_app in Hat as [Hat _].
  - rewrite length_take, length_drop. lia.
Qed.

(** An integer read inside a block of bytes. *)
Lemma ld_in m lo (bs : bytes) q n :
  bytes_at m lo bs → bytes_ok bs → lo ≤ q → q + Z.of_nat n ≤ lo + Z.of_nat (length bs) →
  ∃ v, ld m q n = Ret v ∧ fits n v.
Proof.
  intros Hat Hok H1 H2. destruct (block_bytes m lo bs q n Hat H1 H2) as (l & Hq & Hl & El).
  unfold ld. rewrite (load_at' _ _ _ _ Hq Hl), bind_ret. eexists. split; [reflexivity|].
  pose proof (le_dec_range l) as Hv. rewrite Hl in Hv. apply Hv. rewrite El. by apply bytes_ok_take, bytes_ok_drop.
Qed.

