(* ===== verification/Netlink.v ===== *)
(** * Interface set-up through netlink (create_veth_pair.c, get_iftype.c, get_ifid.c,
    get_ifmac.c, up_if.c, bind_if.c, delete_if.c)

    A request is written field by field into a zeroed block of 4096 bytes and
    sent; the answer of [get_iftype] and [get_ifid] is read from another.  The
    structs have the layouts of netlink(7) and rtnetlink(7); the macros and
    constants of the kernel headers are the class [NetlinkHeaders], with the
    meaning documented there as laws. *)
From S2P Require Import Prelude Bytes Mem Headers Segments.

(** ** The kernel's structs *)
Record nlmsghdr := Nlmsghdr { nlmsg_len : Z; nlmsg_type : Z; nlmsg_flags : Z; nlmsg_seq : Z; nlmsg_pid : Z }.
#[export, refine] Instance nlmsghdr_struct : Struct nlmsghdr := {|
  layout := [4; 2; 2; 4; 4]%nat;
  fields h := [nlmsg_len h; nlmsg_type h; nlmsg_flags h; nlmsg_seq h; nlmsg_pid h];
  of_fields vs := match vs with [a; b; c; d; e] => Nlmsghdr a b c d e | _ => Nlmsghdr 0 0 0 0 0 end
|}.
Proof. all: struct_laws. Defined.

Record ifinfomsg := Ifinfomsg {
  ifi_family : Z; ifi_pad : Z; ifi_type : Z; ifi_index : Z; ifi_flags : Z; ifi_change : Z
}.
#[export, refine] Instance ifinfomsg_struct : Struct ifinfomsg := {|
  layout := [1; 1; 2; 4; 4; 4]%nat;
  fields h := [ifi_family h; ifi_pad h; ifi_type h; ifi_index h; ifi_flags h; ifi_change h];
  of_fields vs := match vs with [a; b; c; d; e; f] => Ifinfomsg a b c d e f | _ => Ifinfomsg 0 0 0 0 0 0 end
|}.
Proof. all: struct_laws. Defined.

Record ifaddrmsg := Ifaddrmsg { ifa_family : Z; ifa_prefixlen : Z; ifa_flags : Z; ifa_scope : Z; ifa_index : Z }.
#[export, refine] Instance ifaddrmsg_struct : Struct ifaddrmsg := {|
  layout := [1; 1; 1; 1; 4]%nat;
  fields h := [ifa_family h; ifa_prefixlen h; ifa_flags h; ifa_scope h; ifa_index h];
  of_fields vs := match vs with [a; b; c; d; e] => Ifaddrmsg a b c d e | _ => Ifaddrmsg 0 0 0 0 0 end
|}.
Proof. all: struct_laws. Defined.

Record rtattr := Rtattr { rta_len : Z; rta_type : Z }.
#[export, refine] Instance rtattr_struct : Struct rtattr := {|
  layout := [2; 2]%nat;
  fields h := [rta_len h; rta_type h];
  of_fields vs := match vs with [a; b] => Rtattr a b | _ => Rtattr 0 0 end
|}.
Proof. all: struct_laws. Defined.

Definition sz_nlmsghdr : Z := 16.
Definition sz_ifinfomsg : Z := 16.
Definition sz_ifaddrmsg : Z := 8.
Definition sz_rtattr : Z := 4.

(** ** The kernel's headers *)
Definition nl_align (n : Z) : Z := (n + 3) / 4 * 4.

(** The macros that read an attribute through its pointer take the memory. *)
Class NetlinkHeaders := {
  NLMSG_ALIGN : Z → Z; NLMSG_LENGTH : Z → Z; NLMSG_DATA : Z → Z;
  RTA_ALIGN : Z → Z; RTA_LENGTH : Z → Z; RTA_DATA : Z → Z;
  IFLA_RTA : Z → Z; IFLA_PAYLOAD : Z → Z; IFA_RTA : Z → Z;
  RTA_OK : mem → Z → Z → outcome bool;
  RTA_NEXT : mem → Z → Z → outcome (Z * Z);
  RTM_NEWLINK : Z; RTM_DELLINK : Z; RTM_GETLINK : Z; RTM_NEWADDR : Z;
  NLM_F_REQUEST : Z; NLM_F_ACK : Z; NLM_F_EXCL : Z; NLM_F_CREATE : Z;
  IFLA_ADDRESS : Z; IFLA_IFNAME : Z; IFLA_LINKINFO : Z; IFLA_INFO_KIND : Z; IFLA_INFO_DATA : Z;
  IFA_ADDRESS : Z; IFA_LOCAL : Z; RT_SCOPE_UNIVERSE : Z;
  AF_UNSPEC : Z; AF_INET : Z; IFF_UP : Z;
  nlmsg_align_law n : 0 ≤ n < 0x80000000 → NLMSG_ALIGN n = nl_align n;
  nlmsg_length_law n : 0 ≤ n < 0x80000000 → NLMSG_LENGTH n = sz_nlmsghdr + n;
  nlmsg_data_law p : NLMSG_DATA p = p + sz_nlmsghdr;
  rta_align_law n : 0 ≤ n < 0x80000000 → RTA_ALIGN n = nl_align n;
  rta_length_law n : 0 ≤ n < 0x80000000 → RTA_LENGTH n = sz_rtattr + n;
  rta_data_law p : RTA_DATA p = p + sz_rtattr;
  ifla_rta_law p : IFLA_RTA p = p + sz_ifinfomsg;
  ifla_payload_law n : IFLA_PAYLOAD n = u32 (n - (sz_nlmsghdr + sz_ifinfomsg));
  ifa_rta_law p : IFA_RTA p = p + sz_ifaddrmsg;
  rta_ok_law m p len : RTA_OK m p len =
    if len <? sz_rtattr then Ret false
    else l ← ld m p 2; Ret ((sz_rtattr <=? l) && (l <=? len));
  rta_next_law m p len : RTA_NEXT m p len =
    l ← ld m p 2; Ret (p + RTA_ALIGN l, i32 (len - RTA_ALIGN l))
}.

(** ** Code *)

Abbreviation set_nlmsg_len := (st_fld nlmsghdr 0).
Abbreviation get_nlmsg_len := (ld_fld nlmsghdr 0).
Abbreviation set_nlmsg_type := (st_fld nlmsghdr 1).
Abbreviation set_nlmsg_flags := (st_fld nlmsghdr 2).
Abbreviation set_nlmsg_seq := (st_fld nlmsghdr 3).
Abbreviation set_nlmsg_pid := (st_fld nlmsghdr 4).
Abbreviation set_ifi_family := (st_fld ifinfomsg 0).
Abbreviation set_ifi_type := (st_fld ifinfomsg 2).
Abbreviation set_ifi_index := (st_fld ifinfomsg 3).
Abbreviation get_ifi_index := (ld_fld ifinfomsg 3).
Abbreviation set_ifi_flags := (st_fld ifinfomsg 4).
Abbreviation get_ifi_flags := (ld_fld ifinfomsg 4).
Abbreviation set_ifi_change := (st_fld ifinfomsg 5).
Abbreviation set_ifa_family := (st_fld ifaddrmsg 0).
Abbreviation set_ifa_prefixlen := (st_fld ifaddrmsg 1).
Abbreviation set_ifa_flags := (st_fld ifaddrmsg 2).
Abbreviation set_ifa_scope := (st_fld ifaddrmsg 3).
Abbreviation set_ifa_index := (st_fld ifaddrmsg 4).
Abbreviation set_rta_len := (st_fld rtattr 0).
Abbreviation get_rta_len := (ld_fld rtattr 0).
Abbreviation set_rta_type := (st_fld rtattr 1).
Abbreviation get_rta_type := (ld_fld rtattr 1).

(** What has been sent: each message with its descriptor. *)
Definition sent : Type := list (Z * bytes).

(** [send (fd, req, nlmsg->nlmsg_len, 0)] *)
Definition send (m : mem) (out : sent) (fd req : Z) : outcome sent :=
  len ← get_nlmsg_len m req; msg ← load m req (Z.to_nat len); Ret (out ++ [(fd, msg)]).

(** A C string is its bytes; [strlen (s) + 1] of them are copied. *)
Definition strlen (s : bytes) : Z := Z.of_nat (length s).

Section code.
Context {NL : NetlinkHeaders}.

(** [nlmsg->nlmsg_len += n] *)
Definition add_nlmsg_len (m : mem) (nlmsg n : Z) : outcome mem :=
  len ← get_nlmsg_len m nlmsg; set_nlmsg_len m nlmsg (u32 (len + n)).
Definition add_rta_len (m : mem) (rta n : Z) : outcome mem :=
  len ← get_rta_len m rta; set_rta_len m rta (u16 (len + n)).

(** The request of [get_iftype], and of [get_ifid]. *)
Definition getlink_request (m : mem) (req pid : Z) (name : bytes) : outcome mem :=
  let nlmsg := req in
  m ← set_nlmsg_type m nlmsg RTM_GETLINK;
  m ← set_nlmsg_flags m nlmsg (Z.lor NLM_F_REQUEST NLM_F_ACK);
  m ← set_nlmsg_seq m nlmsg 1;
  m ← set_nlmsg_pid m nlmsg pid;
  m ← set_nlmsg_len m nlmsg (NLMSG_LENGTH sz_ifinfomsg);
  let ifinfo := NLMSG_DATA nlmsg in
  m ← set_ifi_family m ifinfo AF_UNSPEC;
  m ← set_ifi_index m ifinfo 0;
  m ← set_ifi_change m ifinfo 0;
  m ← set_ifi_flags m ifinfo 0;
  m ← set_ifi_type m ifinfo 1;
  let rta := IFLA_RTA ifinfo in
  m ← set_rta_len m rta (u16 (RTA_LENGTH (strlen name + 1)));
  m ← set_rta_type m rta IFLA_IFNAME;
  len ← get_rta_len m rta;
  m ← add_nlmsg_len m nlmsg len;
  store m (RTA_DATA rta) (name ++ [0]).

(** [for (; RTA_OK (rta, rlen); rta = RTA_NEXT (rta, rlen))]: the attribute found. *)
Fixpoint find_attr (fuel : nat) (m : mem) (rta rlen type : Z) : outcome (option Z) :=
  match fuel with
  | O => Timeout
  | S fuel =>
      ok ← RTA_OK m rta rlen;
      if ok : bool then
        t ← get_rta_type m rta;
        if t =? type then Ret (Some rta)
        else '(rta, rlen) ← RTA_NEXT m rta rlen; find_attr fuel m rta rlen type
      else Ret None
  end.

(** [reply]: what [recv] stores, nothing when it fails.  The result of
    [recv] is not looked at. *)
Definition get_iftype (fuel : nat) (m : mem) (out : sent) (req resp fd pid : Z) (reply : bytes)
    (name : bytes) (type buf buflen : Z) : outcome (Z * mem * sent) :=
  let m := calloc (calloc m req) resp in
  m ← getlink_request m req pid name;
  out ← send m out fd req;
  m ← store m resp reply;
  let nlmsg := resp in
  let rta := IFLA_RTA (NLMSG_DATA nlmsg) in
  len ← get_nlmsg_len m nlmsg;
  found ← find_attr fuel m rta (i32 (IFLA_PAYLOAD len)) type;
  match found with
  | Some rta =>
      alen ← get_rta_len m rta;
      let n := u64 (alen - RTA_LENGTH 0) in
      if buflen <? n then Ret (-1, free_block (free_block m req) resp, out)
      else
        data ← load m (RTA_DATA rta) (Z.to_nat n);
        m ← store m buf data;
        alen ← get_rta_len m rta;
        Ret (i32 (alen - RTA_LENGTH 0), free_block (free_block m req) resp, out)
  | None => Ret (1, free_block (free_block m req) resp, out)
  end.

(** The result of [get_ifmac] is that of the comparison. *)
Definition get_ifmac (fuel : nat) (m : mem) (out : sent) (req resp fd pid : Z) (reply name : bytes) (mac : Z)
  : outcome (bool * mem * sent) :=
  '(n, m, out) ← get_iftype fuel m out req resp fd pid reply name IFLA_ADDRESS mac 6;
  Ret (n <? 6, m, out).

Definition get_ifid (m : mem) (out : sent) (req resp fd pid : Z) (reply name : bytes) : outcome (Z * mem * sent) :=
  let m := calloc (calloc m req) resp in
  m ← getlink_request m req pid name;
  out ← send m out fd req;
  m ← store m resp reply;
  let ifinfo := NLMSG_DATA resp in
  index ← get_ifi_index m ifinfo;
  Ret (i32 index, free_block (free_block m req) resp, out).

(** [up_if] and [delete_if] differ in the type of the message and in two fields. *)
Definition up_if (m : mem) (out : sent) (req fd pid intf_index : Z) : outcome (mem * sent) :=
  let m := calloc m req in
  let nlmsg := req in
  m ← set_nlmsg_type m nlmsg RTM_NEWLINK;
  m ← set_nlmsg_flags m nlmsg (Z.lor NLM_F_REQUEST NLM_F_ACK);
  m ← set_nlmsg_seq m nlmsg 1;
  m ← set_nlmsg_pid m nlmsg pid;
  let ifinfo := NLMSG_DATA nlmsg in
  m ← set_ifi_family m ifinfo AF_UNSPEC;
  m ← set_ifi_index m ifinfo intf_index;
  m ← set_ifi_change m ifinfo IFF_UP;
  m ← set_ifi_flags m ifinfo IFF_UP;
  m ← set_ifi_type m ifinfo 1;
  m ← set_nlmsg_len m nlmsg (NLMSG_ALIGN (sz_nlmsghdr + sz_ifinfomsg));
  out ← send m out fd req;
  Ret (free_block m req, out).

Definition delete_if (m : mem) (out : sent) (req fd pid intf_index : Z) : outcome (mem * sent) :=
  let m := calloc m req in
  let nlmsg := req in
  m ← set_nlmsg_type m nlmsg RTM_DELLINK;
  m ← set_nlmsg_flags m nlmsg (Z.lor NLM_F_REQUEST NLM_F_ACK);
  m ← set_nlmsg_seq m nlmsg 1;
  m ← set_nlmsg_pid m nlmsg pid;
  let ifinfo := NLMSG_DATA nlmsg in
  m ← set_ifi_family m ifinfo AF_UNSPEC;
  m ← set_ifi_index m ifinfo intf_index;
  m ← set_ifi_change m ifinfo 0xFFFFFFFF;
  flags ← get_ifi_flags m ifinfo;
  m ← set_ifi_flags m ifinfo (Z.lor flags IFF_UP);
  m ← set_ifi_type m ifinfo 1;
  m ← set_nlmsg_len m nlmsg (NLMSG_ALIGN (sz_nlmsghdr + sz_ifinfomsg));
  out ← send m out fd req;
  Ret (free_block m req, out).

Definition bind_if (m : mem) (out : sent) (req fd pid intf_index ip : Z) : outcome (mem * sent) :=
  let m := calloc m req in
  let nlmsg := req in
  m ← set_nlmsg_type m nlmsg RTM_NEWADDR;
  m ← set_nlmsg_flags m nlmsg (Z.lor (Z.lor NLM_F_REQUEST NLM_F_CREATE) NLM_F_ACK);
  m ← set_nlmsg_seq m nlmsg 1;
  m ← set_nlmsg_pid m nlmsg pid;
  m ← set_nlmsg_len m nlmsg (NLMSG_LENGTH sz_ifaddrmsg);
  let ifa := NLMSG_DATA nlmsg in
  m ← set_ifa_family m ifa AF_INET;
  m ← set_ifa_prefixlen m ifa 24;
  m ← set_ifa_flags m ifa 0;
  m ← set_ifa_scope m ifa RT_SCOPE_UNIVERSE;
  m ← set_ifa_index m ifa intf_index;
  let rta := IFA_RTA ifa in
  m ← set_rta_type m rta IFA_LOCAL;
  m ← set_rta_len m rta (u16 (RTA_LENGTH 4));
  m ← store m (RTA_DATA rta) (le_enc 4 ip);
  alen ← get_rta_len m rta;
  m ← add_nlmsg_len m nlmsg (RTA_ALIGN alen);
  len ← get_nlmsg_len m nlmsg;
  let rta := nlmsg + NLMSG_ALIGN len in
  m ← set_rta_type m rta IFA_ADDRESS;
  m ← set_rta_len m rta (u16 (RTA_LENGTH 4));
  m ← store m (RTA_DATA rta) (le_enc 4 ip);
  alen ← get_rta_len m rta;
  m ← add_nlmsg_len m nlmsg (RTA_ALIGN alen);
  out ← send m out fd req;
  Ret (free_block m req, out).

(** [ikf]: "veth" *)
Definition ikf : bytes := [0x76; 0x65; 0x74; 0x68].

(** The interface and the kind of [create_veth_pair], up to [nfdata]: the result
    is the attribute [linkinfo] and the pointer [nfdata]. *)
Definition veth_kind (m : mem) (nlmsg pid : Z) (src : bytes) : outcome (Z * Z * mem) :=
  m ← set_nlmsg_type m nlmsg RTM_NEWLINK;
  m ← set_nlmsg_flags m nlmsg (Z.lor (Z.lor (Z.lor NLM_F_REQUEST NLM_F_CREATE) NLM_F_ACK) NLM_F_EXCL);
  m ← set_nlmsg_seq m nlmsg 1;
  m ← set_nlmsg_pid m nlmsg pid;
  m ← set_nlmsg_len m nlmsg (NLMSG_LENGTH sz_ifinfomsg);
  let ifinfo := NLMSG_DATA nlmsg in
  m ← set_ifi_family m ifinfo AF_INET;
  m ← set_ifi_index m ifinfo 0;
  m ← set_ifi_change m ifinfo 0;
  m ← set_ifi_type m ifinfo 0;
  let rta := IFLA_RTA ifinfo in
  m ← set_rta_len m rta (u16 (RTA_LENGTH (strlen src + 1)));
  m ← set_rta_type m rta IFLA_IFNAME;
  alen ← get_rta_len m rta;
  m ← add_nlmsg_len m nlmsg alen;
  m ← store m (RTA_DATA rta) (src ++ [0]);
  len ← get_nlmsg_len m nlmsg;
  let linkinfo := nlmsg + NLMSG_ALIGN len in
  m ← set_rta_type m linkinfo IFLA_LINKINFO;
  m ← set_rta_len m linkinfo (u16 (RTA_LENGTH 0));
  len ← get_nlmsg_len m nlmsg; llen ← get_rta_len m linkinfo;
  m ← set_nlmsg_len m nlmsg (u32 (NLMSG_ALIGN len + llen));
  llen ← get_rta_len m linkinfo;
  let rta := linkinfo + llen in
  m ← set_rta_type m rta IFLA_INFO_KIND;
  m ← set_rta_len m rta (u16 (RTA_LENGTH (strlen ikf + 1)));
  alen ← get_rta_len m rta;
  m ← add_rta_len m linkinfo (RTA_ALIGN alen);
  m ← add_nlmsg_len m nlmsg (RTA_ALIGN alen);
  m ← store m (RTA_DATA rta) (ikf ++ [0]);
  Ret (linkinfo, rta + RTA_ALIGN alen, m).

(** The peer, and the lengths of the enclosing attributes. *)
Definition veth_peer (m : mem) (nlmsg linkinfo nfdata : Z) (dst : bytes) : outcome mem :=
  m ← set_rta_type m nfdata IFLA_INFO_DATA;
  m ← set_rta_len m nfdata (u16 (RTA_LENGTH 0));
  let pinfi := nfdata + RTA_LENGTH 0 in
  m ← set_rta_type m pinfi 1;
  m ← set_rta_len m pinfi (u16 (RTA_LENGTH sz_ifinfomsg));
  let ifpifi := RTA_DATA pinfi in
  m ← set_ifi_family m ifpifi AF_UNSPEC;
  m ← set_ifi_index m ifpifi 0;
  m ← set_ifi_type m ifpifi 0;
  m ← set_ifi_change m ifpifi 0;
  m ← set_ifi_flags m ifpifi 0;
  let pinaatr := ifpifi + NLMSG_ALIGN sz_ifinfomsg in
  m ← set_rta_type m pinaatr IFLA_IFNAME;
  m ← set_rta_len m pinaatr (u16 (RTA_LENGTH (strlen dst + 1)));
  m ← store m (RTA_DATA pinaatr) (dst ++ [0]);
  alen ← get_rta_len m pinaatr;
  m ← add_rta_len m pinfi (RTA_ALIGN alen);
  alen ← get_rta_len m pinfi;
  m ← add_rta_len m nfdata (RTA_ALIGN alen);
  alen ← get_rta_len m nfdata;
  m ← add_rta_len m linkinfo (RTA_ALIGN alen);
  len ← get_nlmsg_len m nlmsg; llen ← get_rta_len m linkinfo;
  set_nlmsg_len m nlmsg (u32 (NLMSG_ALIGN len + RTA_ALIGN llen - RTA_LENGTH 0)).

Definition create_veth_pair (m : mem) (out : sent) (req fd pid : Z) (src dst : bytes) : outcome (mem * sent) :=
  let m := calloc m req in
  '(linkinfo, nfdata, m) ← veth_kind m req pid src;
  m ← veth_peer m req linkinfo nfdata dst;
  out ← send m out fd req;
  Ret (free_block m req, out).
End code.

(** What [send] passes to the kernel. *)
Lemma send_step {B} m0 p segs m (h : nlmsghdr) msg rest out fd (f : sent → outcome B) P :
  buffer m0 p (enc h :: segs) m → fits 4 (nlmsg_len h) → enc h ++ concat segs = msg ++ rest →
  nlmsg_len h = Z.of_nat (length msg) →
  returns (f (out ++ [(fd, msg)])) P → returns (out ← send m out fd p; f out) P.
Proof.
  intros Hb Hf Hm Hl H. unfold send. destruct (ld_fld_step (B:=Z) m0 p _ m 0 h 0 4 (nlmsg_len h) p Ret (λ v, v = nlmsg_len h) Hb)
    as (v & E & ->); try done; [unfold seg_off; cbn; lia | by apply returns_ret|].
  rewrite bind_id in E. rewrite E, bind_ret. destruct Hb as [Hat _]. cbn [concat] in Hat. rewrite Hm in Hat.
  apply bytes_at_app in Hat as [Hat _]. rewrite (load_at' _ _ _ _ Hat) by lia. by rewrite !bind_ret.
Qed.

(** ** Lemmas: running the code on segments *)
Lemma length_enc_nlmsghdr (x : nlmsghdr) : length (enc x) = 16%nat. Proof. exact (length_enc x). Qed.
Lemma length_enc_ifinfomsg (x : ifinfomsg) : length (enc x) = 16%nat. Proof. exact (length_enc x). Qed.
Lemma length_enc_ifaddrmsg (x : ifaddrmsg) : length (enc x) = 8%nat. Proof. exact (length_enc x). Qed.
Lemma length_enc_rtattr (x : rtattr) : length (enc x) = 4%nat. Proof. exact (length_enc x). Qed.

Lemma length_ikf : length ikf = 4%nat. Proof. reflexivity. Qed.

Ltac seg_lengths :=
  rewrite ?length_app, ?length_ikf, ?length_enc_nlmsghdr, ?length_enc_ifinfomsg, ?length_enc_ifaddrmsg, ?length_enc_rtattr,
    ?length_replicate, ?length_le_enc; cbn [length].
Ltac seg_lia := unfold seg_off, sz_nlmsghdr, sz_ifinfomsg, sz_ifaddrmsg, sz_rtattr, strlen; cbn [take concat app];
  seg_lengths; lia.

(** A store into the [k]-th segment, a struct; and a read from it. *)
Ltac st_seg k :=
  lazymatch goal with H : buffer _ _ _ _ |- _ =>
    eapply (st_fld_step _ _ _ _ k); [exact H | reflexivity | reflexivity | try seg_lia |
      clear H; intros ? H;
      cbn [set_field insert list_insert fields of_fields nlmsghdr_struct ifinfomsg_struct ifaddrmsg_struct rtattr_struct
           nlmsg_len nlmsg_type nlmsg_flags nlmsg_seq nlmsg_pid ifi_family ifi_pad ifi_type ifi_index ifi_flags ifi_change
           ifa_family ifa_prefixlen ifa_flags ifa_scope ifa_index rta_len rta_type] in H]
  end.
Ltac ld_seg k :=
  lazymatch goal with H : buffer _ _ _ _ |- _ =>
    eapply (ld_fld_step _ _ _ _ k); [exact H | reflexivity | reflexivity | reflexivity | try seg_lia | | cbn [nlmsg_len rta_len rta_type ifi_flags ifi_index]]
  end.
Ltac store_seg k :=
  lazymatch goal with H : buffer _ _ _ _ |- _ =>
    eapply (store_seg_step _ _ _ _ k); [exact H | reflexivity | try seg_lia | try seg_lia | clear H; intros ? H; cbn [insert list_insert] in H]
  end.

Ltac add_seg k := unfold add_nlmsg_len, add_rta_len; rewrite bind_assoc; ld_seg k; [|st_seg k].

Section lemmas.
Context {NL : NetlinkHeaders}.

Lemma getlink_request_spec m0 m req pid name rest :
  (length name ≤ 1000)%nat →
  buffer m0 req [enc (Nlmsghdr 0 0 0 0 0); enc (Ifinfomsg 0 0 0 0 0 0); enc (Rtattr 0 0);
    replicate (length name + 1) 0; rest] m →
  returns (getlink_request m req pid name) (buffer m0 req
    [enc (Nlmsghdr (37 + strlen name) RTM_GETLINK (Z.lor NLM_F_REQUEST NLM_F_ACK) 1 pid);
     enc (Ifinfomsg AF_UNSPEC 0 1 0 0 0); enc (Rtattr (5 + strlen name) IFLA_IFNAME); name ++ [0]; rest]).
Proof.
  intros Hn Hb. unfold getlink_request.
  rewrite nlmsg_data_law, ifla_rta_law, rta_data_law, nlmsg_length_law, rta_length_law by (unfold strlen, sz_ifinfomsg; lia).
  unfold sz_ifinfomsg, sz_rtattr, sz_nlmsghdr. rewrite u16_id by (unfold is_u16, strlen; lia).
  do 5 (st_seg 0%nat). do 5 (st_seg 1%nat). do 2 (st_seg 2%nat).
  ld_seg 2%nat; [unfold fits, strlen; cbn; lia|].
  add_seg 0%nat; [unfold fits; cbn; lia|]. rewrite u32_id in Hb by (unfold is_u32, strlen; lia).
  rewrite <-(bind_id (store _ _ _)). store_seg 3%nat. apply returns_ret.
  replace (37 + strlen name) with (16 + 16 + (4 + (strlen name + 1))) by lia.
  by replace (5 + strlen name) with (4 + (strlen name + 1)) by lia.
Qed.

(** The request that [get_iftype] and [get_ifid] send. *)
Definition link_request (pid : Z) (name : bytes) : bytes :=
  enc (Nlmsghdr (37 + strlen name) RTM_GETLINK (Z.lor NLM_F_REQUEST NLM_F_ACK) 1 pid)
  ++ enc (Ifinfomsg AF_UNSPEC 0 1 0 0 0) ++ enc (Rtattr (5 + strlen name) IFLA_IFNAME) ++ name ++ [0].

Lemma length_link_request pid name : Z.of_nat (length (link_request pid name)) = 37 + strlen name.
Proof. unfold link_request, strlen. seg_lengths. lia. Qed.

(** The request sent and the answer received, as both functions begin. *)
Lemma exchange {B} m out req resp fd pid reply name (f : mem → sent → outcome B) P :
  two_blocks m req resp → (length name ≤ 1000)%nat → (length reply ≤ 4096)%nat →
  (∀ m', bytes_at m' resp (reply ++ replicate (4096 - length reply) 0) → scratch m req resp m' →
     returns (f m' (out ++ [(fd, link_request pid name)])) P) →
  returns (m ← getlink_request (calloc (calloc m req) resp) req pid name;
           out ← send m out fd req; m ← store m resp reply; f m out) P.
Proof.
  intros Hb Hn Hr H. rewrite calloc_comm by done. pose proof Hb as [H1 H2 Hd Hu1 Hu2].
  set (m0 := calloc m resp).
  set (rest := replicate (4096 - (37 + length name)) 0).
  assert (buffer m0 req [enc (Nlmsghdr 0 0 0 0 0); enc (Ifinfomsg 0 0 0 0 0 0); enc (Rtattr 0 0);
    replicate (length name + 1) 0; rest] (calloc m0 req)) as Hbuf.
  { apply calloc_buffer; [done|]. apply zero_segments.
    - repeat (apply Forall_cons; split; [by (unfold rest; rewrite ?length_replicate)|]). by apply Forall_nil.
    - unfold NL_BUFFER, rest. cbn [concat]. seg_lengths. lia. }
  eapply returns_bind; [by apply getlink_request_spec|]. clear Hbuf. intros m1 Hbuf. cbv beta in Hbuf.
  eapply (send_step _ _ _ _ _ (link_request pid name) rest); [exact Hbuf | | | by rewrite length_link_request |].
  { unfold fits, strlen. cbn. lia. }
  { unfold link_request. cbn [concat]. rewrite app_nil_r, <-!app_assoc. done. }
  destruct Hbuf as [_ Hout].
  assert (∀ q, ¬ (req ≤ q < req + 4096) → m1 !! q = m0 !! q) as Hout'.
  { intros q Hq. apply Hout. cbn [concat]. seg_lengths. unfold rest. rewrite length_replicate. lia. }
  assert (bytes_at m1 resp (replicate 4096 0)) as Hz.
  { intros i Hi. rewrite length_replicate in Hi. rewrite Hout' by lia. unfold m0, calloc.
    rewrite (proj2 (Z.eqb_neq resp NULL)) by done. apply bytes_at_write. by rewrite length_replicate. }
  replace 4096%nat with (length reply + (4096 - length reply))%nat in Hz by lia. rewrite replicate_add in Hz.
  rewrite store_mapped, bind_ret.
  2:{ apply bytes_at_app in Hz as [Hz _]. apply bytes_at_mapped in Hz. by rewrite length_replicate in Hz. }
  apply H.
  - rewrite <-(Z.add_0_r resp) at 1. apply (bytes_at_write_mid _ _ [] (replicate (length reply) 0)); [done|].
    by rewrite length_replicate.
  - intros q Hq1 Hq2. rewrite lookup_write, decide_False by lia. rewrite Hout' by done. unfold m0, calloc.
    rewrite (proj2 (Z.eqb_neq resp NULL)) by done. rewrite lookup_write, length_replicate, buffer_size, decide_False; done.
Qed.

(** ** Lemmas: attributes *)

(** An attribute: its type and its payload; in memory it is padded to four
    bytes. *)
Definition attr : Type := Z * bytes.
Definition pad4 (n : nat) : nat := Z.to_nat (nl_align (Z.of_nat n) - Z.of_nat n).
Definition encode_attr (a : attr) : bytes :=
  enc (Rtattr (sz_rtattr + Z.of_nat (length a.2)) a.1) ++ a.2 ++ replicate (pad4 (length a.2)) 0.
Definition attr_ok (a : attr) : Prop := is_u16 a.1 ∧ sz_rtattr + Z.of_nat (length a.2) < 0x10000.

(** The payload of the first attribute of a type. *)
Definition lookup_attr (type : Z) (attrs : list attr) : option bytes :=
  (λ x, x.2.2) <$> list_find (λ a, a.1 = type) attrs.

Lemma align4_bound n : 0 ≤ n → n ≤ nl_align n ≤ n + 3.
Proof. intros H. unfold nl_align. Z.div_mod_to_equations. lia. Qed.
Lemma align4_add n k : nl_align (4 * k + n) = 4 * k + nl_align n.
Proof. unfold nl_align. Z.div_mod_to_equations. lia. Qed.
Lemma align4_id n : nl_align (nl_align n) = nl_align n.
Proof. unfold nl_align. Z.div_mod_to_equations. lia. Qed.

Lemma length_encode_attr a : Z.of_nat (length (encode_attr a)) = 4 + nl_align (Z.of_nat (length a.2)).
Proof.
  unfold encode_attr. seg_lengths. unfold pad4. pose proof (align4_bound (Z.of_nat (length a.2)) ltac:(lia)). lia.
Qed.

(** An attribute at [p]: its two fields and the next one. *)
Lemma attr_fields m p a rest :
  bytes_at m p (encode_attr a ++ rest) → attr_ok a →
  get_rta_len m p = Ret (4 + Z.of_nat (length a.2)) ∧ ld m p 2 = Ret (4 + Z.of_nat (length a.2))
  ∧ get_rta_type m p = Ret a.1 ∧ bytes_at m (p + 4) a.2
  ∧ bytes_at m (p + (4 + nl_align (Z.of_nat (length a.2)))) rest.
Proof.
  intros Hat [H1 H2]. pose proof Hat as Hrest. apply bytes_at_app in Hrest as [_ Hrest].
  rewrite length_encode_attr in Hrest. unfold encode_attr in Hat. rewrite <-!app_assoc in Hat.
  unfold sz_rtattr in *. set (x := Rtattr _ _) in Hat.
  assert (wf x) as Hx by (unfold x, wf; repeat constructor; unfold fits, is_u16 in *; cbn; lia).
  pose proof (ld_field_at m p x _ 0 2 (rta_len x) Hat Hx eq_refl eq_refl) as E0.
  pose proof (ld_field_at m p x _ 1 2 (rta_type x) Hat Hx eq_refl eq_refl) as E1.
  split; [exact E0|]. split; [change (field_off rtattr 0) with 0 in E0; by rewrite Z.add_0_r in E0|].
  split; [exact E1|]. split; [|exact Hrest].
  apply bytes_at_app in Hat as [_ Hat]. rewrite length_enc_rtattr in Hat. by apply bytes_at_app in Hat as [Hat _].
Qed.

Definition encode_attrs (attrs : list attr) : bytes := concat (encode_attr <$> attrs).

(** The walk finds the first attribute of the type. *)
Lemma find_attr_spec type m attrs : ∀ fuel p,
  bytes_at m p (encode_attrs attrs) → Forall attr_ok attrs → (length attrs < fuel)%nat →
  Z.of_nat (length (encode_attrs attrs)) < 0x80000000 →
  match lookup_attr type attrs with
  | None => find_attr fuel m p (Z.of_nat (length (encode_attrs attrs))) type = Ret None
  | Some pl => ∃ a, find_attr fuel m p (Z.of_nat (length (encode_attrs attrs))) type = Ret (Some a)
      ∧ get_rta_len m a = Ret (4 + Z.of_nat (length pl)) ∧ bytes_at m (a + 4) pl ∧ Z.of_nat (length pl) < 0xFFFC
      ∧ p ≤ a ∧ a + 4 ≤ p + Z.of_nat (length (encode_attrs attrs))
  end.
Proof.
  unfold lookup_attr.
  induction attrs as [|a attrs IH]; intros [|fuel] p Hat Hok Hf Hl; cbn in Hf; try lia; cbn [find_attr list_find].
  - cbn. rewrite rta_ok_law. done.
  - apply Forall_cons in Hok as [Ha Hok]. change (encode_attrs (a :: attrs)) with (encode_attr a ++ encode_attrs attrs) in *.
    destruct (attr_fields _ _ _ _ Hat Ha) as (E0 & E0' & E1 & Hpl & Hrest).
    rewrite length_app, Nat2Z.inj_add, length_encode_attr in Hl |- *.
    pose proof (align4_bound (Z.of_nat (length a.2)) ltac:(lia)) as Hal. unfold attr_ok, sz_rtattr in Ha.
    rewrite rta_ok_law. unfold sz_rtattr. rewrite (proj2 (Z.ltb_ge _ _)) by lia. rewrite E0', !bind_ret.
    rewrite (proj2 (Z.leb_le 4 _)) by lia. rewrite (proj2 (Z.leb_le _ (4 + _ + _))) by lia. cbn [andb].
    rewrite E1, bind_ret. destruct (decide (a.1 = type)) as [Ht|Ht]; cbn [fmap option_fmap option_map snd].
    + rewrite (proj2 (Z.eqb_eq _ _)) by done. eexists. split; [reflexivity|]. do 2 (split; [done|]). lia.
    + rewrite (proj2 (Z.eqb_neq _ _)) by done. rewrite rta_next_law, E0', !bind_ret.
      rewrite rta_align_law by lia. rewrite (align4_add _ 1).
      replace (i32 _) with (Z.of_nat (length (encode_attrs attrs))).
      2:{ replace (4 + _ + _ - _) with (Z.of_nat (length (encode_attrs attrs))) by lia.
          unfold i32. rewrite u32_id by (unfold is_u32; lia). rewrite (proj2 (Z.ltb_lt _ _)) by lia. done. }
      specialize (IH fuel (p + (4 * 1 + nl_align (Z.of_nat (length a.2)))) Hrest Hok ltac:(lia) ltac:(lia)).
      destruct (list_find (λ a, a.1 = type) attrs) as [[i b]|]; [|exact IH].
      destruct IH as (x & ? & ? & ? & ? & ? & ?). exists x. split_and!; try done; lia.
Qed.

Lemma get_rta_len_write m req resp m' p bs a :
  two_blocks m req resp → mapped m p (length bs) → resp ≤ a → a + 4 ≤ resp + 4096 →
  get_rta_len (write m' p bs) a = get_rta_len m' a.
Proof.
  intros Hb Hm H1 H2. unfold ld_fld. cbn [lookup list_lookup layout rtattr_struct get]. rewrite !bind_ret.
  change (field_off rtattr 0) with 0. unfold ld, load. by rewrite (read_block_write m resp) by (apply Hb || done || lia).
Qed.

(** An answer as the kernel makes it: a header with its length, the interface, and
    its attributes. *)
Definition link_reply (hdr : nlmsghdr) (ifi : ifinfomsg) (attrs : list attr) : bytes :=
  enc hdr ++ enc ifi ++ encode_attrs attrs.

Lemma get_iftype_spec fuel m out req resp fd pid name hdr ifi attrs type buf buflen :
  (length attrs < fuel)%nat → two_blocks m req resp → (length name ≤ 1000)%nat →
  let reply := link_reply hdr ifi attrs in
  (length reply ≤ 4096)%nat → nlmsg_len hdr = Z.of_nat (length reply) → Forall attr_ok attrs →
  mapped m buf (Z.to_nat buflen) → 0 ≤ buflen →
  let out' := out ++ [(fd, link_request pid name)] in
  get_iftype fuel m out req resp fd pid reply name type buf buflen
  = Ret match lookup_attr type attrs with
        | None => (1, m, out')
        | Some pl => if buflen <? Z.of_nat (length pl) then (-1, m, out') else (Z.of_nat (length pl), write m buf pl, out')
        end.
Proof.
  intros Hfuel Hb Hn reply Hr Hlen Hok Hbuf Hbl out'. set (X := match lookup_attr type attrs with None => _ | _ => _ end).
  enough (returns (get_iftype fuel m out req resp fd pid reply name type buf buflen) (λ r, r = X)) as (? & -> & ->)
    by done. unfold get_iftype.
  eapply exchange; [exact Hb | exact Hn | exact Hr |]. intros m' Hat Hs. fold out'.
  apply bytes_at_app in Hat as [Hat _]. unfold reply, link_reply in Hat, Hr, Hlen.
  assert (nlmsg_len hdr = 32 + Z.of_nat (length (encode_attrs attrs))) as Hl2.
  { rewrite Hlen. seg_lengths. lia. }
  rewrite length_app, length_enc_nlmsghdr, length_app, length_enc_ifinfomsg in Hr.
  eapply (ld_fld_step m' resp [enc hdr; enc ifi ++ encode_attrs attrs] m' 0 hdr); try reflexivity.
  { split; [|done]. cbn [concat]. by rewrite app_nil_r. }
  { unfold seg_off. cbn. lia. }
  { unfold fits. rewrite Hl2. cbn. lia. }
  rewrite ifla_payload_law, ifla_rta_law, nlmsg_data_law, Hl2. unfold sz_nlmsghdr, sz_ifinfomsg.
  replace (32 + _ - (16 + 16)) with (Z.of_nat (length (encode_attrs attrs))) by lia.
  assert (i32 (u32 (Z.of_nat (length (encode_attrs attrs)))) = Z.of_nat (length (encode_attrs attrs))) as Ei.
  { rewrite (u32_id (Z.of_nat _)) by (unfold is_u32; lia). unfold i32. rewrite u32_id by (unfold is_u32; lia).
    by rewrite (proj2 (Z.ltb_lt _ _)) by lia. }
  rewrite Ei. rewrite app_assoc in Hat. apply bytes_at_app in Hat as [_ Hat].
  rewrite length_app, length_enc_nlmsghdr, length_enc_ifinfomsg in Hat. change (Z.of_nat (16 + 16)) with (16 + 16) in Hat.
  rewrite Z.add_assoc in Hat.
  pose proof (find_attr_spec type m' attrs fuel _ Hat Hok Hfuel ltac:(lia)) as Hfind.
  unfold X. destruct (lookup_attr type attrs) as [pl|].
  - destruct Hfind as (a & Ef & El & Hpl & Hplen & Ha1 & Ha2). rewrite Ef, !bind_ret, El, bind_ret.
    rewrite rta_length_law by lia. unfold sz_rtattr.
    replace (u64 _) with (Z.of_nat (length pl)) by (rewrite u64_id by (unfold is_u64; lia); lia).
    destruct (Z.ltb_spec buflen (Z.of_nat (length pl))) as [Hlt|Hge].
    + apply returns_ret. by rewrite (free_scratch m).
    + rewrite rta_data_law, Nat2Z.id. unfold sz_rtattr. rewrite (load_at _ _ _ Hpl), bind_ret.
      assert (mapped m buf (length pl)) as Hmp by (eapply mapped_sub; [exact Hbuf | lia..]).
      rewrite store_mapped, bind_ret by (by apply (scratch_mapped m req resp)).
      rewrite (get_rta_len_write m req resp), El, bind_ret by (done || lia). apply returns_ret. rewrite (free_scratch_write m) by done.
      replace (i32 _) with (Z.of_nat (length pl)); [done|].
      replace (4 + _ - _) with (Z.of_nat (length pl)) by lia.
      unfold i32. rewrite u32_id by (unfold is_u32; lia). by rewrite (proj2 (Z.ltb_lt _ _)) by lia.
  - rewrite Hfind, bind_ret. apply returns_ret. by rewrite (free_scratch m).
Qed.

(** The walk over any bytes ends inside them. *)
Lemma find_attr_safe type m lo (bs : bytes) : ∀ fuel p rlen,
  bytes_at m lo bs → bytes_ok bs → lo ≤ p → p + rlen ≤ lo + Z.of_nat (length bs) →
  -0x80000000 ≤ rlen < 0x80000000 → rlen < 4 * Z.of_nat fuel → (0 < fuel)%nat →
  ∃ r, find_attr fuel m p rlen type = Ret r ∧
    ∀ a, r = Some a → lo ≤ a ∧ ∃ l, get_rta_len m a = Ret l ∧ 4 ≤ l < 0x10000 ∧ a + l ≤ lo + Z.of_nat (length bs).
Proof.
  induction fuel as [|fuel IH]; intros p rlen Hat Hok Hp Hend Hr Hf H0; [lia|]. cbn [find_attr].
  rewrite rta_ok_law. unfold sz_rtattr. destruct (Z.ltb_spec rlen 4) as [Hlt|Hge].
  { rewrite bind_ret. exists None. done. }
  destruct (ld_in m lo bs p 2 Hat Hok Hp ltac:(lia)) as (l & El & Hl). unfold fits in Hl. cbn in Hl.
  rewrite El, !bind_ret. destruct (Z.leb_spec 4 l) as [H4|H4]; [|exists None; by cbn [andb]].
  destruct (Z.leb_spec l rlen) as [Hle|Hle]; [|exists None; by cbn [andb]]. cbn [andb].
  destruct (ld_in m lo bs (p + 2) 2 Hat Hok ltac:(lia) ltac:(lia)) as (t & Et & _).
  unfold ld_fld at 1. cbn [lookup list_lookup layout rtattr_struct get]. rewrite bind_ret.
  change (field_off rtattr 1) with 2. rewrite Et, bind_ret. destruct (t =? type).
  { exists (Some p). split; [done|]. intros a [= <-]. split; [done|]. exists l. split; [|lia].
    unfold ld_fld. cbn [lookup list_lookup layout rtattr_struct get]. rewrite bind_ret.
    change (field_off rtattr 0) with 0. by rewrite Z.add_0_r. }
  rewrite rta_next_law, El, !bind_ret. rewrite rta_align_law by lia.
  pose proof (align4_bound l ltac:(lia)) as Ha.
  assert (i32 (rlen - nl_align l) = rlen - nl_align l) as Ei.
  { unfold i32, u32. cbv zeta. destruct (Z.ltb_spec ((rlen - nl_align l) mod 0x100000000) 0x80000000);
      Z.div_mod_to_equations; lia. }
  rewrite Ei. apply IH; try done; lia.
Qed.

Lemma get_iftype_safe_spec m out req resp fd pid reply name type buf buflen len :
  two_blocks m req resp → (length name ≤ 1000)%nat → (length reply ≤ 4096)%nat → bytes_ok reply →
  len = le_dec (take 4 (reply ++ replicate (4096 - length reply) 0)) → len ≤ 4096 → mapped m buf (Z.to_nat buflen) → 0 ≤ buflen →
  returns (get_iftype 1024 m out req resp fd pid reply name type buf buflen) (λ r, ∃ n data,
    r = (n, write m buf data, out ++ [(fd, link_request pid name)]) ∧ Z.of_nat (length data) ≤ buflen
    ∧ (n = Z.of_nat (length data) ∨ data = [] ∧ (n = -1 ∨ n = 1))).
Proof.
  intros Hb Hn Hr Hok Hlen Hle Hbuf Hbl. unfold get_iftype.
  eapply exchange; [exact Hb | exact Hn | exact Hr |]. intros m' Hat Hs.
  set (bs := reply ++ _) in Hat. assert (length bs = 4096%nat) as Hbs by (unfold bs; seg_lengths; lia).
  assert (bytes_ok bs) as Hbok by (unfold bs; apply bytes_ok_app; split; [done | apply bytes_ok_zeros]).
  assert (ld_fld nlmsghdr 0 m' resp = Ret len) as El.
  { rewrite <-(take_drop 4 bs) in Hat. apply bytes_at_app in Hat as [Hat _].
    unfold ld_fld. cbn [lookup list_lookup layout nlmsghdr_struct get]. rewrite bind_ret.
    change (field_off nlmsghdr 0) with 0. rewrite Z.add_0_r. unfold ld.
    rewrite (load_at' _ _ 4 _ Hat) by (rewrite length_take; lia). by rewrite bind_ret, Hlen. }
  rewrite El, bind_ret.
  assert (0 ≤ len) as Hlen0 by (rewrite Hlen; apply le_dec_range, bytes_ok_take; exact Hbok).
  rewrite ifla_payload_law, ifla_rta_law, nlmsg_data_law. unfold sz_nlmsghdr, sz_ifinfomsg.
  assert (i32 (u32 (len - (16 + 16))) = len - 32) as Ei.
  { unfold i32, u32. cbv zeta. rewrite Zmod_mod. 
    destruct (Z.ltb_spec ((len - (16 + 16)) mod 0x100000000) 0x80000000); Z.div_mod_to_equations; lia. }
  rewrite Ei.
  destruct (find_attr_safe type m' resp bs 1024 (resp + 16 + 16) (len - 32)) as (r & Ef & Hf); try done; try lia.
  rewrite Ef, bind_ret. destruct r as [a|].
  2:{ apply returns_ret. exists 1, []. rewrite (free_scratch m) by done. cbn [write length]. split_and!; [done|lia|auto]. }
  destruct (Hf a eq_refl) as (Ha & l & Ell & Hl & Hal). rewrite Ell, bind_ret. rewrite rta_length_law by lia.
  unfold sz_rtattr. rewrite u64_id by (unfold is_u64; lia).
  destruct (Z.ltb_spec buflen (l - (4 + 0))) as [Hlt|Hge].
  { apply returns_ret. exists (-1), []. rewrite (free_scratch m) by done. cbn [write length]. split_and!; [done|lia|auto]. }
  rewrite rta_data_law. unfold sz_rtattr.
  destruct (block_bytes m' resp bs (a + 4) (Z.to_nat (l - (4 + 0))) Hat ltac:(lia) ltac:(lia)) as (data & Hd & Hdl & _).
  rewrite (load_at' _ _ _ _ Hd Hdl), bind_ret.
  assert (mapped m buf (length data)) as Hmp by (eapply mapped_sub; [exact Hbuf | lia..]).
  rewrite store_mapped, bind_ret by (by apply (scratch_mapped m req resp)).
  rewrite (get_rta_len_write m req resp), Ell, bind_ret by (done || lia).
  apply returns_ret. exists (Z.of_nat (length data)), data. rewrite (free_scratch_write m) by done. split; [|lia].
  replace (i32 _) with (Z.of_nat (length data)); [done|].
  replace (l - (4 + 0)) with (Z.of_nat (length data)) by lia.
  unfold i32. rewrite u32_id by (unfold is_u32; lia). by rewrite (proj2 (Z.ltb_lt _ _)) by lia.
Qed.

Lemma get_ifid_spec m out req resp fd pid name hdr (ifi : ifinfomsg) rest :
  two_blocks m req resp → (length name ≤ 1000)%nat → (length (enc hdr ++ enc ifi ++ rest) ≤ 4096)%nat →
  fits 4 (ifi_index ifi) →
  get_ifid m out req resp fd pid (enc (hdr : nlmsghdr) ++ enc ifi ++ rest) name
  = Ret (i32 (ifi_index ifi), m, out ++ [(fd, link_request pid name)]).
Proof.
  intros Hb Hn Hr Hi.
  enough (returns (get_ifid m out req resp fd pid (enc hdr ++ enc ifi ++ rest) name)
    (λ r, r = (i32 (ifi_index ifi), m, out ++ [(fd, link_request pid name)]))) as (? & -> & ->) by done.
  unfold get_ifid. eapply exchange; [exact Hb | exact Hn | exact Hr |]. intros m' Hat Hs.
  rewrite nlmsg_data_law. eapply (ld_fld_step m' resp [enc hdr; enc ifi; rest ++ replicate _ 0] m' 1 ifi); try reflexivity.
  { split; [|done]. cbn [concat]. rewrite app_nil_r. rewrite <-!app_assoc in Hat. exact Hat. }
  { exact Hi. }
  apply returns_ret. by rewrite (free_scratch m).
Qed.

(** One request in one block. *)
Lemma one_block m req segs msg rest (h : nlmsghdr) m' out fd {P : mem * sent → Prop} :
  buffer m req (enc h :: segs) m' → req ≠ NULL → unallocated m req → length (concat (enc h :: segs)) = NL_BUFFER →
  fits 4 (nlmsg_len h) → enc h ++ concat segs = msg ++ rest →
  nlmsg_len h = Z.of_nat (length msg) → P (m, out ++ [(fd, msg)]) →
  returns (out ← send m' out fd req; Ret (free_block m' req, out)) P.
Proof.
  intros Hb H1 Hu Hl Hf Hm Hlen HP. eapply send_step; [exact Hb | done.. |].
  apply returns_ret. by rewrite (free_buffer m req _ m' H1 Hu Hl Hb).
Qed.

Definition link_change (type index flags change pid : Z) : bytes :=
  enc (Nlmsghdr 32 type (Z.lor NLM_F_REQUEST NLM_F_ACK) 1 pid) ++ enc (Ifinfomsg AF_UNSPEC 0 1 index flags change).

Ltac zero_block H segs :=
  match goal with |- context [calloc ?m ?p] =>
    assert (buffer m p segs (calloc m p)) as H;
    [ apply calloc_buffer; [done|]; apply zero_segments;
      [ repeat (apply Forall_cons; split; [by rewrite ?length_replicate|]); by apply Forall_nil
      | unfold NL_BUFFER; cbn [concat]; seg_lengths; lia ] | ]
  end.

Lemma up_if_spec m out req fd pid index :
  req ≠ NULL → unallocated m req →
  up_if m out req fd pid index = Ret (m, out ++ [(fd, link_change RTM_NEWLINK index IFF_UP IFF_UP pid)]).
Proof.
  intros H1 Hu. enough (returns (up_if m out req fd pid index)
    (λ r, r = (m, out ++ [(fd, link_change RTM_NEWLINK index IFF_UP IFF_UP pid)]))) as (? & -> & ->) by done.
  unfold up_if. rewrite nlmsg_data_law, nlmsg_align_law by (unfold sz_nlmsghdr, sz_ifinfomsg; lia).
  zero_block Hb [enc (Nlmsghdr 0 0 0 0 0); enc (Ifinfomsg 0 0 0 0 0 0); replicate 4064 0].
  do 4 (st_seg 0%nat). do 5 (st_seg 1%nat). st_seg 0%nat.
  eapply (one_block _ _ _ (link_change RTM_NEWLINK index IFF_UP IFF_UP pid) (replicate 4064 0));
    [exact Hb | done | done | reflexivity | by vm_compute | reflexivity | reflexivity | reflexivity].
Qed.

Lemma delete_if_spec m out req fd pid index :
  req ≠ NULL → unallocated m req →
  delete_if m out req fd pid index
  = Ret (m, out ++ [(fd, link_change RTM_DELLINK index (Z.lor 0 IFF_UP) 0xFFFFFFFF pid)]).
Proof.
  intros H1 Hu. enough (returns (delete_if m out req fd pid index)
    (λ r, r = (m, out ++ [(fd, link_change RTM_DELLINK index (Z.lor 0 IFF_UP) 0xFFFFFFFF pid)]))) as (? & -> & ->) by done.
  unfold delete_if. rewrite nlmsg_data_law, nlmsg_align_law by (unfold sz_nlmsghdr, sz_ifinfomsg; lia).
  zero_block Hb [enc (Nlmsghdr 0 0 0 0 0); enc (Ifinfomsg 0 0 0 0 0 0); replicate 4064 0].
  do 4 (st_seg 0%nat). do 3 (st_seg 1%nat). ld_seg 1%nat; [by vm_compute|]. do 2 (st_seg 1%nat). st_seg 0%nat.
  eapply (one_block _ _ _ (link_change RTM_DELLINK index (Z.lor 0 IFF_UP) 0xFFFFFFFF pid) (replicate 4064 0));
    [exact Hb | done | done | reflexivity | by vm_compute | reflexivity | reflexivity | reflexivity].
Qed.

Definition addr_request (index ip pid : Z) : bytes :=
  enc (Nlmsghdr 40 RTM_NEWADDR (Z.lor (Z.lor NLM_F_REQUEST NLM_F_CREATE) NLM_F_ACK) 1 pid)
  ++ enc (Ifaddrmsg AF_INET 24 0 RT_SCOPE_UNIVERSE index)
  ++ encode_attrs [(IFA_LOCAL, le_enc 4 ip); (IFA_ADDRESS, le_enc 4 ip)].

Lemma bind_if_spec m out req fd pid index ip :
  req ≠ NULL → unallocated m req →
  bind_if m out req fd pid index ip = Ret (m, out ++ [(fd, addr_request index ip pid)]).
Proof.
  intros H1 Hu. enough (returns (bind_if m out req fd pid index ip)
    (λ r, r = (m, out ++ [(fd, addr_request index ip pid)]))) as (? & -> & ->) by done.
  unfold bind_if. cbv zeta.
  rewrite nlmsg_data_law, ifa_rta_law, nlmsg_length_law, rta_length_law by (unfold sz_ifaddrmsg; lia).
  rewrite !rta_data_law. change (u16 (sz_rtattr + 4)) with 8.
  zero_block Hb [enc (Nlmsghdr 0 0 0 0 0); enc (Ifaddrmsg 0 0 0 0 0); enc (Rtattr 0 0); replicate 4 0; enc (Rtattr 0 0);
    replicate 4 0; replicate 4056 0].
  do 5 (st_seg 0%nat). do 5 (st_seg 1%nat). do 2 (st_seg 2%nat). store_seg 3%nat. ld_seg 2%nat; [by vm_compute|].
  rewrite rta_align_law by lia. change (nl_align 8) with 8.
  add_seg 0%nat; [by vm_compute|]. change (u32 _) with 32 in Hb. ld_seg 0%nat; [by vm_compute|].
  rewrite nlmsg_align_law by lia. change (nl_align 32) with 32. rewrite rta_data_law.
  do 2 (st_seg 4%nat). store_seg 5%nat. ld_seg 4%nat; [by vm_compute|].
  rewrite rta_align_law by lia. change (nl_align 8) with 8.
  add_seg 0%nat; [by vm_compute|]. change (u32 _) with 40 in Hb.
  eapply (one_block _ _ _ (addr_request index ip pid) (replicate 4056 0));
    [exact Hb | done | done | reflexivity | by vm_compute | reflexivity | reflexivity | reflexivity].
Qed.

(** The block of [create_veth_pair]: [A] and [B] are the padded lengths of the
    names. *)
Definition veth_header (len pid : Z) : bytes :=
  enc (Nlmsghdr len RTM_NEWLINK (Z.lor (Z.lor (Z.lor NLM_F_REQUEST NLM_F_CREATE) NLM_F_ACK) NLM_F_EXCL) 1 pid).

Definition veth_segments (hdr : bytes) (ifi : ifinfomsg) (ifname : rtattr) (src : bytes) (linkinfo kind : rtattr) (ikf : bytes)
    (nfdata pinfi : rtattr) (peer : ifinfomsg) (pname : rtattr) (dst : bytes) (ns nd : nat) : list bytes :=
  [hdr; enc ifi; enc ifname; src; replicate (pad4 (ns + 1)) 0; enc linkinfo; enc kind; ikf; replicate 3 0;
   enc nfdata; enc pinfi; enc peer; enc pname; dst; replicate (pad4 (nd + 1)) 0;
   replicate (4096 - (80 + (ns + 1 + pad4 (ns + 1)) + (nd + 1 + pad4 (nd + 1)))) 0].

Lemma pad4_spec n : Z.of_nat (n + pad4 n) = nl_align (Z.of_nat n).
Proof. unfold pad4. pose proof (align4_bound (Z.of_nat n) ltac:(lia)). lia. Qed.

Lemma veth_kind_spec m0 m req pid src nd :
  (length src ≤ 255)%nat → let ns := length src in let A := nl_align (Z.of_nat (ns + 1)) in
  let zr := Rtattr 0 0 in let zi := Ifinfomsg 0 0 0 0 0 0 in
  buffer m0 req (veth_segments (enc (Nlmsghdr 0 0 0 0 0)) zi zr (replicate (ns + 1) 0) zr zr (replicate 5 0)
    zr zr zi zr (replicate (nd + 1) 0) ns nd) m →
  returns (veth_kind m req pid src) (λ r, r.1 = (req + (36 + A), req + (52 + A)) ∧
    buffer m0 req (veth_segments (veth_header (52 + A) pid) (Ifinfomsg AF_INET 0 0 0 0 0)
      (Rtattr (5 + strlen src) IFLA_IFNAME) (src ++ [0]) (Rtattr 16 IFLA_LINKINFO) (Rtattr 9 IFLA_INFO_KIND) (ikf ++ [0])
      zr zr zi zr (replicate (nd + 1) 0) ns nd) r.2).
Proof.
  intros Hs ns A zr zi Hb. unfold veth_kind, veth_segments, veth_header in *. cbv zeta.
  pose proof (pad4_spec (ns + 1)) as HA. pose proof (align4_bound (Z.of_nat (ns + 1)) ltac:(lia)) as HAb. fold A in HA, HAb.
  assert (nl_align (37 + Z.of_nat ns) = 36 + A) as E1 by (unfold A, nl_align; Z.div_mod_to_equations; lia).
  rewrite nlmsg_data_law, ifla_rta_law, nlmsg_length_law by (unfold sz_ifinfomsg; lia).
  rewrite !rta_length_law by (unfold strlen; cbn; lia). rewrite !rta_data_law.
  unfold sz_nlmsghdr, sz_ifinfomsg, sz_rtattr. rewrite !u16_id by (unfold is_u16, strlen; cbn; lia).
  do 5 (st_seg 0%nat). do 4 (st_seg 1%nat). do 2 (st_seg 2%nat).
  ld_seg 2%nat; [unfold fits, strlen; cbn; lia|]. add_seg 0%nat; [by vm_compute|].
  rewrite u32_id in Hb by (unfold is_u32, strlen; lia). store_seg 3%nat.
  ld_seg 0%nat; [unfold fits, strlen; cbn; lia|].
  rewrite nlmsg_align_law by (unfold strlen; lia).
  replace (16 + 16 + (4 + (strlen src + 1))) with (37 + Z.of_nat ns) in * by (unfold strlen, ns; lia). rewrite E1.
  do 2 (st_seg 5%nat). ld_seg 0%nat; [unfold fits; cbn; lia|]. ld_seg 5%nat; [by vm_compute|].
  rewrite nlmsg_align_law by lia. rewrite E1. st_seg 0%nat. rewrite u32_id in Hb by (unfold is_u32; lia).
  ld_seg 5%nat; [by vm_compute|]. rewrite !rta_data_law.
  do 2 (st_seg 6%nat). ld_seg 6%nat; [by vm_compute|].
  change (strlen ikf) with 4 in Hb |- *. rewrite !rta_align_law by lia. change (nl_align (4 + (4 + 1))) with 12.
  add_seg 5%nat; [by vm_compute|]. change (u16 _) with 16 in Hb.
  add_seg 0%nat; [unfold fits; cbn; lia|]. rewrite u32_id in Hb by (unfold is_u32; lia).
  store_seg 7%nat. apply returns_ret. cbn [fst snd]. split; [f_equal; lia|].
  replace (5 + strlen src) with (4 + (strlen src + 1)) by lia.
  replace (52 + A) with (36 + A + (4 + 0) + 12) by lia. exact Hb.
Qed.

Lemma veth_peer_spec m0 m req pid src dst :
  (length src ≤ 255)%nat → (length dst ≤ 255)%nat → let ns := length src in let nd := length dst in
  let A := nl_align (Z.of_nat (ns + 1)) in let B := nl_align (Z.of_nat (nd + 1)) in
  let zr := Rtattr 0 0 in let zi := Ifinfomsg 0 0 0 0 0 0 in
  let ifname := Rtattr (5 + strlen src) IFLA_IFNAME in let kind := Rtattr 9 IFLA_INFO_KIND in
  let ifi := Ifinfomsg AF_INET 0 0 0 0 0 in
  buffer m0 req (veth_segments (veth_header (52 + A) pid) ifi ifname (src ++ [0]) (Rtattr 16 IFLA_LINKINFO) kind (ikf ++ [0])
    zr zr zi zr (replicate (nd + 1) 0) ns nd) m →
  returns (veth_peer m req (req + (36 + A)) (req + (52 + A)) dst)
    (buffer m0 req (veth_segments (veth_header (92 + A + B) pid) ifi ifname (src ++ [0]) (Rtattr (44 + B) IFLA_LINKINFO)
       kind (ikf ++ [0]) (Rtattr (28 + B) IFLA_INFO_DATA) (Rtattr (24 + B) 1) (Ifinfomsg AF_UNSPEC 0 0 0 0 0)
       (Rtattr (5 + strlen dst) IFLA_IFNAME) (dst ++ [0]) ns nd)).
Proof.
  intros Hs Hd ns nd A B zr zi ifname kind ifi Hb. unfold veth_peer, veth_segments, veth_header in *. cbv zeta.
  pose proof (pad4_spec (ns + 1)) as HA. pose proof (align4_bound (Z.of_nat (ns + 1)) ltac:(lia)) as HAb. fold A in HA, HAb.
  pose proof (pad4_spec (nd + 1)) as HB. pose proof (align4_bound (Z.of_nat (nd + 1)) ltac:(lia)) as HBb. fold B in HB, HBb.
  assert (nl_align (4 + (strlen dst + 1)) = 4 + B) as E1 by (unfold B, nl_align, strlen, nd; Z.div_mod_to_equations; lia).
  assert (nl_align (24 + B) = 24 + B) as E2 by (unfold B, nl_align; Z.div_mod_to_equations; lia).
  assert (nl_align (28 + B) = 28 + B) as E3 by (unfold B, nl_align; Z.div_mod_to_equations; lia).
  assert (nl_align (44 + B) = 44 + B) as E4 by (unfold B, nl_align; Z.div_mod_to_equations; lia).
  assert (nl_align (52 + A) = 52 + A) as E5 by (unfold A, nl_align; Z.div_mod_to_equations; lia).
  rewrite !rta_length_law by (unfold strlen, sz_ifinfomsg; lia). rewrite !rta_data_law, nlmsg_align_law by (unfold sz_ifinfomsg; lia).
  change (nl_align sz_ifinfomsg) with 16. unfold sz_rtattr, sz_ifinfomsg.
  change (u16 (4 + 0)) with 4. change (u16 (4 + 16)) with 20. rewrite u16_id by (unfold is_u16, strlen; lia).
  do 2 (st_seg 9%nat). do 2 (st_seg 10%nat). do 5 (st_seg 11%nat). do 2 (st_seg 12%nat). store_seg 13%nat.
  ld_seg 12%nat; [unfold fits, strlen; cbn; lia|]. rewrite rta_align_law, E1 by (unfold strlen; lia).
  add_seg 10%nat; [by vm_compute|]. rewrite u16_id in Hb by (unfold is_u16; lia).
  ld_seg 10%nat; [unfold fits; cbn; lia|]. replace (20 + (4 + B)) with (24 + B) in * by lia.
  rewrite rta_align_law, E2 by lia.
  add_seg 9%nat; [by vm_compute|]. rewrite u16_id in Hb by (unfold is_u16; lia).
  ld_seg 9%nat; [unfold fits; cbn; lia|]. replace (4 + (24 + B)) with (28 + B) in * by lia.
  rewrite rta_align_law, E3 by lia.
  add_seg 5%nat; [by vm_compute|]. rewrite u16_id in Hb by (unfold is_u16; lia).
  ld_seg 0%nat; [unfold fits; cbn; lia|]. ld_seg 5%nat; [unfold fits; cbn; lia|].
  replace (16 + (28 + B)) with (44 + B) in * by lia.
  rewrite nlmsg_align_law, rta_align_law, E4, E5 by lia.
  rewrite <-(bind_id (st_fld _ _ _ _ _)). st_seg 0%nat. rewrite u32_id in Hb by (unfold is_u32; lia).
  apply returns_ret. replace (5 + strlen dst) with (4 + (strlen dst + 1)) by lia.
  replace (92 + A + B) with (52 + A + (44 + B) - (4 + 0)) by lia. exact Hb.
Qed.

(** The attributes of the request, one inside the other. *)
Definition veth_attrs (src dst : bytes) : list attr :=
  [(IFLA_IFNAME, src ++ [0]);
   (IFLA_LINKINFO, encode_attrs [(IFLA_INFO_KIND, ikf ++ [0]);
      (IFLA_INFO_DATA, encode_attr (1, enc (Ifinfomsg AF_UNSPEC 0 0 0 0 0) ++ encode_attr (IFLA_IFNAME, dst ++ [0])))])].

(** The message: its length is 12 more than that of its parts, which are
    followed by zeros. *)
Definition veth_request (pid : Z) (src dst : bytes) : bytes :=
  veth_header (32 + Z.of_nat (length (encode_attrs (veth_attrs src dst))) + 12) pid
  ++ enc (Ifinfomsg AF_INET 0 0 0 0 0) ++ encode_attrs (veth_attrs src dst) ++ replicate 12 0.

(** An attribute whose payload ends on four bytes has no padding. *)
Lemma encode_attr_aligned t (pl : bytes) n :
  Z.of_nat (length pl) = n → nl_align n = n → encode_attr (t, pl) = enc (Rtattr (4 + n) t) ++ pl.
Proof.
  intros Hl Ha. unfold encode_attr. cbn [fst snd]. unfold sz_rtattr. rewrite Hl. unfold pad4.
  rewrite Hl, Ha, Z.sub_diag. cbn [Z.to_nat replicate]. by rewrite app_nil_r.
Qed.

Lemma veth_attrs_bytes src dst :
  let A := nl_align (Z.of_nat (length src + 1)) in let B := nl_align (Z.of_nat (length dst + 1)) in
  encode_attrs (veth_attrs src dst)
  = enc (Rtattr (5 + strlen src) IFLA_IFNAME) ++ (src ++ [0]) ++ replicate (pad4 (length src + 1)) 0
    ++ enc (Rtattr (44 + B) IFLA_LINKINFO) ++ enc (Rtattr 9 IFLA_INFO_KIND) ++ (ikf ++ [0]) ++ replicate 3 0
    ++ enc (Rtattr (28 + B) IFLA_INFO_DATA) ++ enc (Rtattr (24 + B) 1) ++ enc (Ifinfomsg AF_UNSPEC 0 0 0 0 0)
    ++ enc (Rtattr (5 + strlen dst) IFLA_IFNAME) ++ (dst ++ [0]) ++ replicate (pad4 (length dst + 1)) 0
  ∧ Z.of_nat (length (encode_attrs (veth_attrs src dst))) = 48 + A + B.
Proof.
  intros A B. assert (Hal : ∀ k, nl_align (4 * k + B) = 4 * k + B)
    by (intros k; rewrite align4_add; unfold B; by rewrite align4_id).
  assert (encode_attr (IFLA_IFNAME, dst ++ [0])
    = enc (Rtattr (5 + strlen dst) IFLA_IFNAME) ++ (dst ++ [0]) ++ replicate (pad4 (length dst + 1)) 0) as Ed.
  { unfold encode_attr, strlen, sz_rtattr. cbn [fst snd]. rewrite length_app. cbn [length].
    replace (4 + Z.of_nat (length dst + 1)) with (5 + Z.of_nat (length dst)) by lia. done. }
  assert (Z.of_nat (length (encode_attr (IFLA_IFNAME, dst ++ [0]))) = 4 + B) as Ld
    by (rewrite length_encode_attr; cbn [snd]; by rewrite length_app).
  set (peer := enc (Ifinfomsg AF_UNSPEC 0 0 0 0 0) ++ encode_attr (IFLA_IFNAME, dst ++ [0])).
  assert (Z.of_nat (length peer) = 4 * 5 + B) as Lp
    by (unfold peer; rewrite length_app, length_enc_ifinfomsg, Nat2Z.inj_add, Ld; lia).
  pose proof (encode_attr_aligned 1 peer _ Lp (Hal 5)) as Ep.
  assert (Z.of_nat (length (encode_attr (1, peer))) = 4 * 6 + B) as Ldt
    by (rewrite Ep, length_app, length_enc_rtattr; lia).
  pose proof (encode_attr_aligned IFLA_INFO_DATA _ _ Ldt (Hal 6)) as Edt.
  set (info := encode_attrs [(IFLA_INFO_KIND, ikf ++ [0]); (IFLA_INFO_DATA, encode_attr (1, peer))]).
  assert (info = enc (Rtattr 9 IFLA_INFO_KIND) ++ (ikf ++ [0]) ++ replicate 3 0
    ++ encode_attr (IFLA_INFO_DATA, encode_attr (1, peer))) as Ei.
  { unfold info, encode_attrs. cbn [fmap list_fmap concat]. rewrite app_nil_r. done. }
  assert (Z.of_nat (length info) = 4 * 10 + B) as Li.
  { rewrite Ei, Edt. seg_lengths. lia. }
  pose proof (encode_attr_aligned IFLA_LINKINFO _ _ Li (Hal 10)) as El.
  assert (encode_attr (IFLA_IFNAME, src ++ [0])
    = enc (Rtattr (5 + strlen src) IFLA_IFNAME) ++ (src ++ [0]) ++ replicate (pad4 (length src + 1)) 0) as Es.
  { unfold encode_attr, strlen, sz_rtattr. cbn [fst snd]. rewrite length_app. cbn [length].
    replace (4 + Z.of_nat (length src + 1)) with (5 + Z.of_nat (length src)) by lia. done. }
  change (encode_attrs (veth_attrs src dst)) with (encode_attr (IFLA_IFNAME, src ++ [0]) ++ encode_attr (IFLA_LINKINFO, info) ++ []).
  rewrite app_nil_r. split.
  - rewrite Es, El, Ei, Edt, Ep. unfold peer. rewrite Ed. rewrite <-!app_assoc.
    replace (4 + (4 * 5 + B)) with (24 + B) by lia. replace (4 + (4 * 6 + B)) with (28 + B) by lia.
    by replace (4 + (4 * 10 + B)) with (44 + B) by lia.
  - rewrite length_app, Nat2Z.inj_add, length_encode_attr, El, length_app, length_enc_rtattr. cbn [snd].
    rewrite length_app. cbn [length]. fold A. lia.
Qed.

Lemma create_veth_pair_spec m out req fd pid src dst :
  req ≠ NULL → unallocated m req → (length src ≤ 255)%nat → (length dst ≤ 255)%nat →
  create_veth_pair m out req fd pid src dst = Ret (m, out ++ [(fd, veth_request pid src dst)]).
Proof.
  intros H1 Hu Hs Hd. destruct (veth_attrs_bytes src dst) as [Ev Lv].
  set (A := nl_align (Z.of_nat (length src + 1))) in *. set (B := nl_align (Z.of_nat (length dst + 1))) in *.
  pose proof (pad4_spec (length src + 1)) as HA. pose proof (align4_bound (Z.of_nat (length src + 1)) ltac:(lia)) as HAb. fold A in HA, HAb.
  pose proof (pad4_spec (length dst + 1)) as HB. pose proof (align4_bound (Z.of_nat (length dst + 1)) ltac:(lia)) as HBb. fold B in HB, HBb.
  assert (32 + Z.of_nat (length (encode_attrs (veth_attrs src dst))) + 12 = 92 + A + B) as Hlen by (rewrite Lv; lia).
  assert (Z.of_nat (length (veth_request pid src dst)) = 92 + A + B) as Hreq.
  { unfold veth_request, veth_header. seg_lengths. lia. }
  enough (returns (create_veth_pair m out req fd pid src dst)
    (λ r, r = (m, out ++ [(fd, veth_request pid src dst)]))) as (? & -> & ->) by done.
  unfold create_veth_pair. eapply returns_bind.
  { apply (veth_kind_spec m _ req pid src (length dst) Hs). unfold veth_segments. apply calloc_buffer; [done|].
    apply zero_segments.
    - repeat (apply Forall_cons; split; [by rewrite ?length_replicate|]). by apply Forall_nil.
    - unfold NL_BUFFER. cbn [concat]. seg_lengths. lia. }
  intros [[li nf] m1] [Ep Hb]. cbn [fst snd] in Ep, Hb. injection Ep as -> ->.
  eapply returns_bind; [by apply (veth_peer_spec m m1 req pid src dst Hs Hd)|]. clear Hb. intros m2 Hb. cbv beta zeta in Hb.
  fold A B in Hb. unfold veth_segments, veth_header in Hb.
  set (z := (4096 - (80 + (length src + 1 + pad4 (length src + 1)) + (length dst + 1 + pad4 (length dst + 1))))%nat) in Hb.
  eapply (one_block _ _ _ (veth_request pid src dst) (replicate (z - 12) 0));
    [exact Hb | done | done | | | | by rewrite Hreq | reflexivity].
  - unfold NL_BUFFER. cbn [concat]. seg_lengths. unfold z. lia.
  - unfold fits. cbn. lia.
  - assert (replicate z 0 = replicate 12 0 ++ replicate (z - 12) 0) as ->
      by (rewrite <-replicate_add; f_equal; unfold z; lia).
    unfold veth_request, veth_header. rewrite Hlen, Ev. cbn [concat]. rewrite app_nil_r, <-!app_assoc. reflexivity.
Qed.

(** What [get_ifid] reads an answer as: an interface of index [i]. *)
Definition read_as (i : Z) (reply : bytes) : Prop :=
  ∃ (hdr : nlmsghdr) (ifi : ifinfomsg) rest, reply = enc hdr ++ enc ifi ++ rest ∧ (length reply ≤ 4096)%nat
  ∧ fits 4 (ifi_index ifi) ∧ i = i32 (ifi_index ifi).

Lemma get_ifid_read m out req resp fd pid name reply i :
  two_blocks m req resp → (length name ≤ 1000)%nat → read_as i reply →
  get_ifid m out req resp fd pid reply name = Ret (i, m, out ++ [(fd, link_request pid name)]).
Proof. intros Hb Hn (hdr & ifi & rest & -> & Hl & Hf & ->). by apply get_ifid_spec. Qed.

(** The kernel answers a request it refuses with an error number and the request:
    what is taken for the index is then the length of the request. *)
Lemma refusal_read_as pid name (hdr : nlmsghdr) err :
  (length name ≤ 1000)%nat → read_as (37 + strlen name) (enc hdr ++ le_enc 4 err ++ link_request pid name).
Proof.
  intros Hn.
  set (c := le_enc 4 err ++ le_enc 4 (37 + strlen name) ++ le_enc 2 RTM_GETLINK
              ++ le_enc 2 (Z.lor NLM_F_REQUEST NLM_F_ACK) ++ le_enc 4 1).
  assert (bytes_ok c) as Hok by (unfold c; rewrite !bytes_ok_app; split_and!; apply le_enc_ok).
  assert (enc (dec c : ifinfomsg) = c) as Ec by (apply enc_dec; [exact Hok | reflexivity]).
  assert (ifi_index (dec c) = 37 + strlen name) as Ei.
  { change (ifi_index (dec c)) with (le_dec (le_enc 4 (37 + strlen name))). rewrite le_dec_enc, Z.mod_small; [done|].
    unfold strlen. cbn. lia. }
  exists hdr, (dec c), (le_enc 4 pid ++ drop 16 (link_request pid name)). rewrite Ec, Ei. split; [reflexivity|]. split_and!.
  - pose proof (length_link_request pid name). seg_lengths. unfold strlen in *. lia.
  - unfold fits, strlen. cbn. lia.
  - unfold i32. rewrite u32_id by (unfold is_u32, strlen; lia). by rewrite (proj2 (Z.ltb_lt _ _)) by (unfold strlen; lia).
Qed.

Lemma get_ifmac_spec fuel m out req resp fd pid name hdr ifi attrs mac :
  (length attrs < fuel)%nat → two_blocks m req resp → (length name ≤ 1000)%nat →
  let reply := link_reply hdr ifi attrs in
  (length reply ≤ 4096)%nat → nlmsg_len hdr = Z.of_nat (length reply) → Forall attr_ok attrs → mapped m mac 6 →
  let out' := out ++ [(fd, link_request pid name)] in
  get_ifmac fuel m out req resp fd pid reply name mac
  = Ret match lookup_attr IFLA_ADDRESS attrs with
        | None => (true, m, out')
        | Some pl => if 6 <? Z.of_nat (length pl) then (true, m, out')
                     else (Z.of_nat (length pl) <? 6, write m mac pl, out')
        end.
Proof.
  intros Hf Hb Hn reply Hr Hl Hok Hm out'. unfold get_ifmac.
  rewrite (get_iftype_spec fuel m out req resp fd pid name hdr ifi attrs IFLA_ADDRESS mac 6) by (done || lia).
  rewrite bind_ret. destruct (lookup_attr IFLA_ADDRESS attrs) as [pl|]; [|done].
  by destruct (6 <? Z.of_nat (length pl)).
Qed.

Lemma length_attrs attrs : 4 * Z.of_nat (length attrs) ≤ Z.of_nat (length (encode_attrs attrs)).
Proof.
  induction attrs as [|a attrs IH]; [done|]. change (encode_attrs (a :: attrs)) with (encode_attr a ++ encode_attrs attrs).
  rewrite length_app, Nat2Z.inj_add, length_encode_attr. pose proof (align4_bound (Z.of_nat (length a.2)) ltac:(lia)). cbn. lia.
Qed.

(** An answer about an interface with the address [mac]. *)
Definition tells_mac (mac : bytes) (reply : bytes) : Prop :=
  ∃ hdr ifi attrs, reply = link_reply hdr ifi attrs ∧ (length reply ≤ 4096)%nat
  ∧ nlmsg_len hdr = Z.of_nat (length reply) ∧ Forall attr_ok attrs
  ∧ lookup_attr IFLA_ADDRESS attrs = Some mac ∧ length mac = 6%nat.

Lemma get_ifmac_told m out req resp fd pid name mac reply p :
  tells_mac mac reply → two_blocks m req resp → (length name ≤ 1000)%nat → mapped m p 6 →
  get_ifmac 1024 m out req resp fd pid reply name p
  = Ret (false, write m p mac, out ++ [(fd, link_request pid name)]).
Proof.
  intros (hdr & ifi & attrs & -> & Hl & Hh & Hok & Hmac & H6) Hb Hn Hm.
  rewrite get_ifmac_spec by (done || (pose proof (length_attrs attrs); unfold link_reply in Hl; revert Hl; seg_lengths; lia)).
  by rewrite Hmac, H6.
Qed.
End lemmas.

(** ** Properties *)
Section properties.
Context {NL : NetlinkHeaders}.

(** C32: on an answer made of a header, an interface and attributes [get_iftype]
    copies the payload of the first attribute of the type it is asked for and
    returns its length; it returns -1 when the payload is too long for the
    buffer and 1 when there is none; it sends one request for the name, and
    leaves nothing else behind. *)
Theorem get_iftype_finds fuel m out req resp fd pid name hdr ifi attrs type buf buflen :
  (length attrs < fuel)%nat → two_blocks m req resp → (length name ≤ 1000)%nat →
  let reply := link_reply hdr ifi attrs in
  (length reply ≤ 4096)%nat → nlmsg_len hdr = Z.of_nat (length reply) → Forall attr_ok attrs →
  mapped m buf (Z.to_nat buflen) → 0 ≤ buflen →
  let out' := out ++ [(fd, link_request pid name)] in
  get_iftype fuel m out req resp fd pid reply name type buf buflen
  = Ret match lookup_attr type attrs with
        | None => (1, m, out')
        | Some pl => if buflen <? Z.of_nat (length pl) then (-1, m, out') else (Z.of_nat (length pl), write m buf pl, out')
        end.
Proof. apply get_iftype_spec. Qed.

(** C31: whatever bytes the kernel answers, as long as the length in their header
    fits the buffer, [get_iftype] returns after at most 1024 attributes, reads
    nothing outside its blocks and writes at most [buflen] bytes to [buf]. *)
Theorem get_iftype_safe m out req resp fd pid reply name type buf buflen len :
  two_blocks m req resp → (length name ≤ 1000)%nat → (length reply ≤ 4096)%nat → bytes_ok reply →
  len = le_dec (take 4 (reply ++ replicate (4096 - length reply) 0)) → len ≤ 4096 → mapped m buf (Z.to_nat buflen) → 0 ≤ buflen →
  ∃ n data, get_iftype 1024 m out req resp fd pid reply name type buf buflen
    = Ret (n, write m buf data, out ++ [(fd, link_request pid name)])
  ∧ Z.of_nat (length data) ≤ buflen ∧ (n = Z.of_nat (length data) ∨ data = [] ∧ (n = -1 ∨ n = 1)).
Proof.
  intros Hb Hn Hr Hok Hlen Hle Hm H0.
  destruct (get_iftype_safe_spec m out req resp fd pid reply name type buf buflen len Hb Hn Hr Hok Hlen Hle Hm H0)
    as (r & -> & n & data & -> & H). by exists n, data.
Qed.

(** C33: the requests that change an interface: each function allocates its
    block, sends exactly one message of the documented layout, and frees the
    block.  The message of [create_veth_pair] is one attribute tree, but its
    length counts 12 bytes too many. *)
Theorem requests_sent m out req fd pid index ip src dst :
  req ≠ NULL → unallocated m req → (length src ≤ 255)%nat → (length dst ≤ 255)%nat →
  up_if m out req fd pid index = Ret (m, out ++ [(fd, link_change RTM_NEWLINK index IFF_UP IFF_UP pid)])
  ∧ delete_if m out req fd pid index
    = Ret (m, out ++ [(fd, link_change RTM_DELLINK index (Z.lor 0 IFF_UP) 0xFFFFFFFF pid)])
  ∧ bind_if m out req fd pid index ip = Ret (m, out ++ [(fd, addr_request index ip pid)])
  ∧ create_veth_pair m out req fd pid src dst = Ret (m, out ++ [(fd, veth_request pid src dst)]).
Proof.
  intros H1 Hu Hs Hd. split; [by apply up_if_spec|]. split; [by apply delete_if_spec|].
  split; [by apply bind_if_spec | by apply create_veth_pair_spec].
Qed.
End properties.

(** ** Witnesses *)

(** The headers of Linux. *)
#[refine] Definition linux_headers : NetlinkHeaders := {|
  NLMSG_ALIGN := nl_align; NLMSG_LENGTH n := 16 + n; NLMSG_DATA p := p + 16;
  RTA_ALIGN := nl_align; RTA_LENGTH n := 4 + n; RTA_DATA p := p + 4;
  IFLA_RTA p := p + 16; IFLA_PAYLOAD n := u32 (n - 32); IFA_RTA p := p + 8;
  RTA_OK m p len := if len <? 4 then Ret false else l ← ld m p 2; Ret ((4 <=? l) && (l <=? len));
  RTA_NEXT m p len := l ← ld m p 2; Ret (p + nl_align l, i32 (len - nl_align l));
  RTM_NEWLINK := 16; RTM_DELLINK := 17; RTM_GETLINK := 18; RTM_NEWADDR := 20;
  NLM_F_REQUEST := 1; NLM_F_ACK := 4; NLM_F_EXCL := 0x200; NLM_F_CREATE := 0x400;
  IFLA_ADDRESS := 1; IFLA_IFNAME := 3; IFLA_LINKINFO := 18; IFLA_INFO_KIND := 1; IFLA_INFO_DATA := 2;
  IFA_ADDRESS := 1; IFA_LOCAL := 2; RT_SCOPE_UNIVERSE := 0;
  AF_UNSPEC := 0; AF_INET := 2; IFF_UP := 1
|}.
Proof. all: intros; reflexivity. Defined.
#[local] Existing Instance linux_headers.

(** "lo" and the address 01:02:03:04:05:06. *)
Definition demo_name : bytes := [0x6C; 0x6F].
Definition demo_attrs : list attr := [(3, [0x6C; 0x6F; 0]); (1, [1; 2; 3; 4; 5; 6])].
Definition demo_mac_mem : mem := write ∅ 100 (replicate 6 0).

Lemma demo_blocks : two_blocks demo_mac_mem 65536 131072.
Proof.
  split; [done | done | lia | |]; intros q Hq; unfold demo_mac_mem;
    rewrite lookup_write, decide_False by (rewrite length_replicate; lia); apply lookup_empty.
Qed.

Lemma demo_mac_mapped : mapped demo_mac_mem 100 6.
Proof. pose proof (bytes_at_mapped _ _ _ (bytes_at_write ∅ 100 (replicate 6 0))) as H. exact H. Qed.

Lemma get_iftype_finds_witness :
  get_iftype 3 demo_mac_mem [] 65536 131072 3 77 (link_reply (Nlmsghdr 52 16 0 1 77) (Ifinfomsg 0 0 1 5 0 0) demo_attrs)
    demo_name 1 100 6
  = Ret (6, write demo_mac_mem 100 [1; 2; 3; 4; 5; 6], [(3, link_request 77 demo_name)]).
Proof.
  apply (get_iftype_finds 3 demo_mac_mem [] 65536 131072 3 77 demo_name (Nlmsghdr 52 16 0 1 77) (Ifinfomsg 0 0 1 5 0 0) demo_attrs
    1 100 6 ltac:(cbn; lia) demo_blocks).
  - cbn. lia.
  - vm_compute. lia.
  - reflexivity.
  - repeat constructor; vm_compute; congruence.
  - exact demo_mac_mapped.
  - lia.
Defined.

Lemma get_iftype_safe_witness :
  ∃ n data, get_iftype 1024 demo_mac_mem [] 65536 131072 3 77 ([36; 0; 0; 0] ++ replicate 32 9) demo_name 1 100 6
    = Ret (n, write demo_mac_mem 100 data, [(3, link_request 77 demo_name)])
  ∧ Z.of_nat (length data) ≤ 6 ∧ (n = Z.of_nat (length data) ∨ data = [] ∧ (n = -1 ∨ n = 1)).
Proof.
  apply (get_iftype_safe demo_mac_mem [] 65536 131072 3 77 ([36; 0; 0; 0] ++ replicate 32 9) demo_name 1 100 6 36 demo_blocks).
  - cbn. lia.
  - cbn. lia.
  - repeat constructor; unfold is_u8; lia.
  - vm_compute. reflexivity.
  - lia.
  - exact demo_mac_mapped.
  - lia.
Defined.

Lemma requests_sent_witness :
  up_if ∅ [] 65536 3 77 5 = Ret (∅, [] ++ [(3, link_change RTM_NEWLINK 5 IFF_UP IFF_UP 77)])
  ∧ delete_if ∅ [] 65536 3 77 5 = Ret (∅, [] ++ [(3, link_change RTM_DELLINK 5 (Z.lor 0 IFF_UP) 0xFFFFFFFF 77)])
  ∧ bind_if ∅ [] 65536 3 77 5 0x0201A8C0 = Ret (∅, [] ++ [(3, addr_request 5 0x0201A8C0 77)])
  ∧ create_veth_pair ∅ [] 65536 3 77 demo_name demo_name = Ret (∅, [] ++ [(3, veth_request 77 demo_name demo_name)]).
Proof.
  refine (requests_sent ∅ [] 65536 3 77 5 0x0201A8C0 demo_name demo_name _ _ _ _); [done | | cbn; lia | cbn; lia].
  intros q _. apply lookup_empty.
Defined.

(** The bound on the length is needed: [recv] cuts a longer answer off, and the
    walk follows the length in its header past the end of the block. *)
Lemma get_iftype_overread :
  get_iftype 3 demo_mac_mem [] 65536 131072 3 77
    (enc (Nlmsghdr 8192 16 0 1 77) ++ enc (Ifinfomsg 0 0 1 5 0 0) ++ enc (Rtattr 4064 99) ++ replicate 4060 0) demo_name 1 100 6
  = Fault.
Proof. vm_compute. reflexivity. Qed.
