(* ===== verification/Create.v ===== *)
(** * Creating an association (sctp_assoc_create.c)

    [sctp_assoc_create] takes its blocks from the slab allocator of [Umem],
    asks the kernel for the addresses of two interfaces ([Netlink]), makes the
    queues of the association and prefills its packet ([Assoc]). *)
From S2P Require Import Prelude Bytes Mem RingBuf RingTimer Umem Random Headers Xdp Assoc Frames Data Segments Netlink.

(** ** Code *)

(** "libkpnet_c" and "libkpnet_s" *)
Definition CLIENT_INAME : bytes := [0x6C; 0x69; 0x62; 0x6B; 0x70; 0x6E; 0x65; 0x74; 0x5F; 0x63].
Definition SERVER_INAME : bytes := [0x6C; 0x69; 0x62; 0x6B; 0x70; 0x6E; 0x65; 0x74; 0x5F; 0x73].

(** What the process gets from outside: the association's memory (NULL when
    [malloc] fails), the two blocks, the socket and the process of a netlink
    request, the kernel's answer about an interface, and for the queues whether
    [malloc] succeeds, what it leaves in their cells, and the blocks of
    [aligned_alloc]. *)
Record platform := Platform {
  pf_assoc : Z;
  pf_req : Z; pf_resp : Z; pf_fd : Z; pf_pid : Z;
  pf_answer : bytes → bytes;
  pf_malloc_rb : bool; pf_malloc_cells : bool; pf_junk : nat → Z; pf_junk2 : nat → Z * Z;
  pf_blocks : nat → Z
}.

(** The association, its [base], and the queues that it has. *)
Record created := Created {
  cr_assoc : sctp_association; cr_base : Z;
  cr_rtx : list sctp_chunk_slot; cr_allocator_64 : option ringbuf; cr_bundling : option ringbuf
}.

(** The value of an [SCTP_STATUS_T]. *)
Definition status_code (s : SCTP_STATUS) : Z :=
  match s with
  | SCTP_LISTEN => 0 | SCTP_COOKIE_WAIT => 1 | SCTP_INIT_SENT => 2 | SCTP_INIT_RECEIVED => 3
  | SCTP_INIT_ACK_SENT => 4 | SCTP_INIT_ACK_RECEIVED => 5 | SCTP_COOKIE_RECEIVED => 6
  | SCTP_COOKIE_ECHO_SENT => 7 | SCTP_COOKIE_ECHO_RECEIVED => 8 | SCTP_ESTABLISHED => 9
  end.

(** The members of [frame_data_t] that are set. *)
Definition off_frame_plen : Z := 16.
Definition off_frame_sync : Z := 24.
Definition off_frame_state : Z := 32.

Definition put_meta (m : mem) (meta : Z) (initial : SCTP_STATUS) (src_ip src_port dip dport : Z) : outcome mem :=
  m ← st_fld if_ip_sctp_meta_t 10 m meta (status_code initial);
  m ← st_fld if_ip_sctp_meta_t 6 m meta src_ip;
  m ← st_fld if_ip_sctp_meta_t 7 m meta dip;
  m ← st_fld if_ip_sctp_meta_t 8 m meta src_port;
  m ← st_fld if_ip_sctp_meta_t 9 m meta dport;
  m ← st_fld if_ip_sctp_meta_t 11 m meta 65535;
  m ← st_fld if_ip_sctp_meta_t 12 m meta 32;
  st_fld if_ip_sctp_meta_t 13 m meta 32.

Definition put_frame (m : mem) (frame meta : Z) : outcome mem :=
  m ← st m (frame + off_frame_state) 8 meta;
  m ← st m (frame + off_frame_sync) 8 NULL;
  st m (frame + off_frame_plen) 2 0.

(** [allocator_64], [bundling] and the retransmission buffer. *)
Definition assoc_queues (pf : platform) : outcome (list sctp_chunk_slot * option ringbuf * option ringbuf) :=
  let rtx := replicate (Z.to_nat RTX_BUFFER_SIZE) (Slot 0 0 0 0 0 0 0 0) in
  allocator_64 ← create_allocator (pf_malloc_rb pf) (pf_malloc_cells pf) (pf_junk2 pf) 64 (pf_blocks pf) 64 256;
  bundling ← create_ringbuf (pf_malloc_rb pf) (pf_malloc_cells pf) (pf_junk pf) 256;
  Ret (rtx, allocator_64, bundling).

Section code.
Context {NL : NetlinkHeaders} {ENT : Entropy}.

(** [name && get_ifmac (name, mac)] *)
Definition ask_mac (pf : platform) (m : mem) (out : sent) (name : option bytes) (mac : Z)
  : outcome (bool * mem * sent) :=
  match name with
  | None => Ret (false, m, out)
  | Some name => get_ifmac 1024 m out (pf_req pf) (pf_resp pf) (pf_fd pf) (pf_pid pf) (pf_answer pf name) name mac
  end.

(** The configuration [ulp] is a record of the association; its block is allocated
    all the same. *)
Definition sctp_assoc_create (pf : platform) (m : mem) (out : sent) (st : rng) (env : kpnet_env)
    (src_ip src_port dip dport : Z) (initial : SCTP_STATUS) (gw_ifname dev_ifname : option bytes)
  : outcome (option created * mem * sent * rng * kpnet_env) :=
  if pf_assoc pf =? NULL then Ret (None, m, out, st, env)
  else
    let base := umem (env_xdp env) in
    '(u, al) ← slab_alloc_64b m (state_alloc env) base;
    '(meta, al) ← slab_alloc_64b m al base;
    '(frame, al) ← slab_alloc_64b m al base;
    let env := Env (env_xdp env) al in
    if (u =? NULL) || (meta =? NULL) || (frame =? NULL) then Ret (None, m, out, st, env)
    else
      m ← put_meta m meta initial src_ip src_port dip dport;
      let gateway := meta + field_off if_ip_sctp_meta_t 15 in
      let dev := meta + field_off if_ip_sctp_meta_t 14 in
      '(failed, m, out) ← ask_mac pf m out gw_ifname gateway;
      if failed : bool then Ret (None, m, out, st, env)
      else
        '(failed, m, out) ← ask_mac pf m out dev_ifname dev;
        if failed : bool then Ret (None, m, out, st, env)
        else
          let cfg := Ulp src_ip dip src_port dport 65535 32 32 in
          m ← put_frame m frame meta;
          '(rtx, allocator_64, bundling) ← assoc_queues pf;
          let '(id, st) := get_random_u16 st in
          '(packet, al) ← slab_alloc_64b m al base;
          let env := Env (env_xdp env) al in
          let a := Assoc id initial
                     (Peer 0 0 0 (htons 16) (htons 16) 0 0 0 0)
                     (Tx packet 0 0 0 (xdp_segs zero_tx) (xdp_seg_lens zero_tx) 0)
                     (1500 - sz_mac - sz_ip - sz_cmn) 0 0 0 NULL cfg None in
          match gw_ifname, dev_ifname with
          | Some _, Some _ =>
              g ← ld m gateway 8;
              d ← ld m dev 8;
              '(m, st, a) ← prefill_sctp_mac_ip m st a g d;
              Ret (Some (Created a frame rtx allocator_64 bundling), m, out, st, env)
          | _, _ => Ret (Some (Created a frame rtx allocator_64 bundling), m, out, st, env)
          end.

(** [NULL == assoc->base || NULL == assoc->base->state] *)
Definition base_missing (m : mem) (base : Z) : outcome bool :=
  if base =? NULL then Ret true else state ← ld m (base + off_frame_state) 8; Ret (state =? NULL).
End code.

(** ** Lemmas: a block that is written piece by piece *)

(** [m'] is [m] with another content of the 64 bytes at [p]. *)
Definition block_set (m : mem) (p : Z) (m' : mem) : Prop := ∃ bs, length bs = 64%nat ∧ m' = write m p bs.

Lemma block_self m p : mapped m p 64 → block_set m p m.
Proof.
  intros (bs & [Hl Hat]%read_Some)%mapped_read. exists bs. split; [done|]. apply map_eq; intros q.
  rewrite lookup_write. case_decide as Hq; [|done].
  rewrite <-(Hat (Z.to_nat (q - p))) by lia. f_equal. lia.
Qed.

Lemma block_write m p m' o xs :
  block_set m p m' → 0 ≤ o → o + Z.of_nat (length xs) ≤ 64 → block_set m p (write m' (p + o) xs).
Proof.
  intros (bs & Hl & ->) H0 H1. set (k := Z.to_nat o).
  exists (take k bs ++ xs ++ drop (k + length xs) bs). split.
  - rewrite !length_app, length_take, length_drop. lia.
  - apply map_eq; intros q. rewrite !lookup_write, !length_app, length_take, length_drop.
    replace (k `min` length bs + (length xs + (length bs - (k + length xs))))%nat with (length bs) by lia.
    destruct (decide (p + o ≤ q < p + o + Z.of_nat (length xs))) as [Hq|Hq].
    + rewrite decide_True by lia. rewrite lookup_app_r by (rewrite length_take; lia).
      rewrite lookup_app_l by (rewrite length_take; lia). f_equal. rewrite length_take. lia.
    + case_decide as Hq2; [|done]. destruct (decide (q < p + o)).
      * by rewrite lookup_app_l, lookup_take_lt by (rewrite ?length_take; lia).
      * rewrite lookup_app_r by (rewrite length_take; lia). rewrite lookup_app_r by (rewrite length_take; lia).
        rewrite lookup_drop. f_equal. rewrite length_take. lia.
Qed.

Lemma block_mapped m p m' q n : block_set m p m' → mapped m q n → mapped m' q n.
Proof. intros (bs & _ & ->). apply mapped_write. Qed.

Lemma block_other m p m' q bs :
  block_set m p m' → bytes_at m q bs → q + Z.of_nat (length bs) ≤ p ∨ p + 64 ≤ q → bytes_at m' q bs.
Proof. intros (xs & Hl & ->) Hat Hd. apply bytes_at_write_other; [done|lia]. Qed.

Lemma block_slab base m a L p m' :
  block_set m p m' → slab_rep base m a L → Forall (far p) L → slab_rep base m' a L.
Proof. intros (bs & Hl & ->) Hr Hf. apply slab_write; [done|done|lia]. Qed.

Lemma two_blocks_write m req resp p bs :
  two_blocks m req resp → mapped m p (length bs) → two_blocks (write m p bs) req resp.
Proof.
  intros [H1 H2 H3 Hu1 Hu2] Hm.
  assert (∀ q, m !! q = None → write m p bs !! q = None) as Hq.
  { intros q Hq. rewrite lookup_write, decide_False; [done|]. intros Hr. destruct (Hm (Z.to_nat (q - p))) as [x Hx]; [lia|].
    replace (p + Z.of_nat (Z.to_nat (q - p))) with q in Hx by lia. congruence. }
  split; try done; intros q Hr; auto.
Qed.

Lemma two_blocks_block m req resp p m' :
  two_blocks m req resp → mapped m p 64 → block_set m p m' → two_blocks m' req resp.
Proof. intros Hb Hm (bs & Hl & ->). apply two_blocks_write; [done | by rewrite Hl]. Qed.

(** One store into the block, as [put_meta] and [put_frame] make it. *)
Lemma block_st {B} m p m' o n v (f : mem → outcome B) P :
  block_set m p m' → mapped m p 64 → 0 ≤ o → o + Z.of_nat n ≤ 64 →
  (∀ m'', m'' = write m' (p + o) (le_enc n v) → block_set m p m'' → returns (f m'') P) →
  returns (m'' ← st m' (p + o) n v; f m'') P.
Proof.
  intros Hb Hm H0 H1 Hf. rewrite st_mapped, bind_ret.
  2:{ apply (block_mapped m p m'); [done|]. eapply mapped_sub; [exact Hm | lia..]. }
  apply Hf; [done|]. apply block_write; [done|done|]. by rewrite length_le_enc.
Qed.

Ltac block_step H :=
  match goal with |- returns (mbind _ (st_fld ?T ?i _ _ _)) _ =>
    unfold st_fld at 1; cbn [lookup list_lookup layout meta_struct get]; rewrite bind_ret
  | _ => idtac end;
  eapply (block_st _ _ _ _ _ _ _ _ H); [done | vm_compute; congruence | vm_compute; congruence |];
  clear H; intros ? _ H.

Lemma put_meta_spec m meta initial sip sport dip dport :
  mapped m meta 64 → returns (put_meta m meta initial sip sport dip dport) (block_set m meta).
Proof.
  intros Hm. pose proof (block_self _ _ Hm) as Hb. unfold put_meta.
  do 7 block_step Hb. rewrite <-(bind_id (st_fld _ _ _ _ _)). block_step Hb. by apply returns_ret.
Qed.

Lemma put_frame_spec m frame meta :
  mapped m frame 64 → 0 ≤ meta < 0x10000000000000000 →
  returns (put_frame m frame meta) (λ m', block_set m frame m' ∧ ld m' (frame + off_frame_state) 8 = Ret meta).
Proof.
  intros Hm Hmeta. pose proof (block_self _ _ Hm) as Hb. unfold put_frame.
  eapply (block_st _ _ _ _ _ _ _ _ Hb); [done..|]. intros m1 E1 Hb1.
  eapply (block_st _ _ _ _ _ _ _ _ Hb1); [done..|]. intros m2 E2 Hb2. rewrite <-(bind_id (st _ _ _ _)).
  eapply (block_st _ _ _ _ _ _ _ _ Hb2); [done..|]. intros m3 E3 Hb3. apply returns_ret. split; [done|].
  rewrite E3, E2, E1. unfold ld, load. unfold off_frame_state, off_frame_sync, off_frame_plen.
  rewrite !read_write_other by (rewrite length_le_enc; lia).
  change (ld (write m (frame + 32) (le_enc 8 meta)) (frame + 32) 8 = Ret meta).
  apply (ld_at _ _ _ _ []); [rewrite app_nil_r; apply bytes_at_write | unfold fits; cbn; lia].
Qed.

(** ** Lemmas: the queues and the addresses *)

(** A platform on which [malloc] and the netlink blocks are there. *)
Record platform_ok (m : mem) (pf : platform) : Prop := {
  po_assoc : pf_assoc pf ≠ NULL;
  po_blocks : two_blocks m (pf_req pf) (pf_resp pf);
  po_rb : pf_malloc_rb pf = true; po_cells : pf_malloc_cells pf = true;
  po_aligned : ∀ j, (j < 256)%nat → pf_blocks pf j ≠ NULL
}.

(** An empty retransmission buffer, 256 blocks of 64 bytes and an empty ring for
    256 chunks. *)
Lemma assoc_queues_spec m pf :
  platform_ok m pf →
  ∃ al b, assoc_queues pf = Ret (replicate 1024 (Slot 0 0 0 0 0 0 0 0), Some al, Some b)
  ∧ rb_rep 256 al ((λ j, (pf_blocks pf j, 64)) <$> seq 0 256) ∧ rb_rep 256 b [].
Proof.
  intros [_ _ Hrb Hc Hnull]. destruct (create_allocator_spec (pf_junk2 pf) 64 (pf_blocks pf) 64 8) as (al & Ea & Ha);
    [lia | exact Hnull |].
  destruct (create_inv (pf_junk pf) 8) as (b & Eb & Hb); [lia|].
  change (2 ^ Z.of_nat 8) with 256 in Ea. change (2 ^ 8) with 256 in Eb.
  exists al, b. unfold assoc_queues. rewrite Hrb, Hc, Ea, bind_ret, Eb, bind_ret. split; [reflexivity|]. split; [exact Ha|].
  by exists 8, 0.
Qed.

(** The 64-bit read of an address of six bytes. *)
Lemma ld_mac m p mac :
  bytes_at m p mac → bytes_ok mac → length mac = 6%nat → mapped m p 8 →
  ∃ v, ld m p 8 = Ret v ∧ v mod 2 ^ 48 = le_dec mac.
Proof.
  intros Hat Hok Hl (bs & [Hbl Hb]%read_Some)%mapped_read. exists (le_dec bs). unfold ld. rewrite (load_at' m p 8 bs Hb Hbl).
  split; [reflexivity|]. rewrite <-(take_drop 6 bs) in Hb |- *. apply bytes_at_app in Hb as [Hb _].
  rewrite (bytes_at_unique m p (take 6 bs) mac) by (done || rewrite length_take; lia).
  rewrite le_dec_app, Hl. change (0x100 ^ Z.of_nat 6) with (2 ^ 48). rewrite Z.mul_comm, Z.mod_add by lia.
  apply Z.mod_small. pose proof (le_dec_range mac Hok) as Hr. rewrite Hl in Hr. exact Hr.
Qed.

Section lemmas.
Context {NL : NetlinkHeaders} {ENT : Entropy}.

(** The two answers go into the block of [meta]. *)
Definition learns (pf : platform) (name mac : bytes) : Prop :=
  tells_mac mac (pf_answer pf name) ∧ bytes_ok mac ∧ (length name ≤ 1000)%nat.

Lemma learns_length pf name mac : learns pf name mac → length mac = 6%nat.
Proof. intros ((? & ? & ? & ? & ? & ? & ? & ? & ?) & _). done. Qed.

Definition asked (pf : platform) (name : bytes) : Z * bytes := (pf_fd pf, link_request (pf_pid pf) name).

Lemma ask_macs_spec pf m m' out meta gn dn gmac dmac :
  platform_ok m pf → mapped m meta 64 → block_set m meta m' → learns pf gn gmac → learns pf dn dmac →
  ∃ m1 m2, ask_mac pf m' out (Some gn) (meta + 54) = Ret (false, m1, out ++ [asked pf gn])
  ∧ ask_mac pf m1 (out ++ [asked pf gn]) (Some dn) (meta + 48) = Ret (false, m2, out ++ [asked pf gn; asked pf dn])
  ∧ block_set m meta m2 ∧ bytes_at m2 (meta + 54) gmac ∧ bytes_at m2 (meta + 48) dmac.
Proof.
  intros Hpf Hm Hb Hg Hd. pose proof (learns_length _ _ _ Hg) as Eg. pose proof (learns_length _ _ _ Hd) as Ed.
  destruct Hg as (Hg & _ & Hgn), Hd as (Hd & _ & Hdn).
  assert (∀ p, meta ≤ p → p + 6 ≤ meta + 64 → mapped m' p 6) as Hm6.
  { intros p H1 H2. apply (block_mapped m meta); [done|]. eapply mapped_sub; [exact Hm | lia..]. }
  pose proof (two_blocks_block _ _ _ _ _ (po_blocks _ _ Hpf) Hm Hb) as Htb.
  exists (write m' (meta + 54) gmac), (write (write m' (meta + 54) gmac) (meta + 48) dmac).
  unfold ask_mac. rewrite (get_ifmac_told _ _ _ _ _ _ _ gmac) by (done || apply Hm6; lia).
  split; [done|]. rewrite (get_ifmac_told _ _ _ _ _ _ _ dmac).
  - split; [by rewrite <-app_assoc|]. split; [|split].
    + apply block_write; [|lia|lia]. apply block_write; [done|lia|lia].
    + apply bytes_at_write_other; [apply bytes_at_write | lia].
    + apply bytes_at_write.
  - done.
  - apply two_blocks_write; [done|]. rewrite Eg. apply Hm6; lia.
  - done.
  - apply mapped_write, Hm6; lia.
Qed.

(** What the two reads of eight bytes find. *)
Lemma told_macs m meta gmac dmac :
  bytes_at m (meta + 54) gmac → bytes_at m (meta + 48) dmac → bytes_ok gmac → bytes_ok dmac →
  length gmac = 6%nat → length dmac = 6%nat → mapped m meta 64 →
  ∃ g d, ld m (meta + 54) 8 = Ret g ∧ ld m (meta + 48) 8 = Ret d
  ∧ prefilled_mac g d = prefilled_mac (le_dec gmac) (le_dec dmac).
Proof.
  intros Hg Hd Hog Hod Hlg Hld Hm.
  destruct (ld_mac m (meta + 54) gmac) as (g & Eg & Hg'); [done..| eapply mapped_sub; [exact Hm|lia..] |].
  destruct (ld_mac m (meta + 48) dmac) as (d & Ed & Hd'); [done..| eapply mapped_sub; [exact Hm|lia..] |].
  exists g, d. split; [done|]. split; [done|]. unfold prefilled_mac. by rewrite <-Hg', <-Hd', !Z.mod_mod by lia.
Qed.

(** The association that [sctp_assoc_create] leaves when its block of headers is
    at [p]. *)
Definition created_assoc (id : Z) (initial : SCTP_STATUS) (cfg : sctp_ulp_config) (p : Z) : sctp_association :=
  Assoc id initial (Peer 0 0 0 (htons 16) (htons 16) 0 0 0 0)
    (prefilled_tx (Tx p 0 0 0 (xdp_segs zero_tx) (xdp_seg_lens zero_tx) 0))
    1454 0 0 0 NULL cfg None.

(** What a successful call has made. *)
Record assoc_made (pf : platform) (initial : SCTP_STATUS) (id : Z) (cfg : sctp_ulp_config) (r : Z)
    (gmac dmac : bytes) (frame p : Z) (m' : mem) (c : created) : Prop := {
  am_assoc : cr_assoc c = created_assoc id initial cfg p;
  am_base : cr_base c = frame ∧ base_missing m' frame = Ret false;
  am_headers : frame_at m' (p + 2) (prefilled_mac (le_dec gmac) (le_dec dmac)) (prefilled_ip cfg r) (prefilled_cmn cfg);
  am_rtx : cr_rtx c = replicate 1024 (Slot 0 0 0 0 0 0 0 0);
  am_allocator : ∃ al, cr_allocator_64 c = Some al ∧ rb_rep 256 al ((λ j, (pf_blocks pf j, 64)) <$> seq 0 256);
  am_bundling : ∃ b, cr_bundling c = Some b ∧ rb_rep 256 b []
}.

Lemma assoc_create_spec pf m out st env sip sport dip dport initial gn dn gmac dmac p1 p2 p3 p4 L r st' :
  let base := umem (env_xdp env) in
  let cfg := Ulp sip dip sport dport 65535 32 32 in
  platform_ok m pf → learns pf gn gmac → learns pf dn dmac →
  slab_rep base m (state_alloc env) (p1 :: p2 :: p3 :: p4 :: L) → spread (p1 :: p2 :: p3 :: p4 :: L) →
  mapped m p2 64 → mapped m p3 64 → mapped m p4 64 → 0 < p2 < 0x10000000000000000 → 0 < p3 →
  get_random_from_buffer_u32 (snd (get_random_u16 st)) = Ret (r, st') →
  ∃ c m' al, sctp_assoc_create pf m out st env sip sport dip dport initial (Some gn) (Some dn)
    = Ret (Some c, m', out ++ [asked pf gn; asked pf dn], st', Env (env_xdp env) al)
  ∧ slab_rep base m' al L ∧ (∀ q n, mapped m q n → mapped m' q n)
  ∧ assoc_made pf initial (fst (get_random_u16 st)) cfg r gmac dmac p3 p4 m' c.
Proof.
  intros base cfg Hpf Hg Hd Hrep (_ & Hf2 & Hf3 & Hf4 & _) Hm2 Hm3 Hm4 Hr2 Hr3 Hdraw.
  apply Forall_cons in Hf2 as [H23 Hf2]. pose proof Hf2 as [H24 _]%Forall_cons. pose proof Hf3 as [H34 _]%Forall_cons.
  unfold far in H23, H24, H34.
  unfold sctp_assoc_create. rewrite (proj2 (Z.eqb_neq _ NULL)) by apply Hpf. fold base.
  destruct (slab_alloc_spec _ _ _ _ _ Hrep) as (al1 & E1 & Hp1 & Hrep1). rewrite E1, bind_ret.
  destruct (slab_alloc_spec _ _ _ _ _ Hrep1) as (al2 & E2 & Hp2 & Hrep2). rewrite E2, bind_ret.
  destruct (slab_alloc_spec _ _ _ _ _ Hrep2) as (al3 & E3 & Hp3 & Hrep3). rewrite E3, bind_ret.
  rewrite !(proj2 (Z.eqb_neq _ NULL)) by done. cbn [orb].
  destruct (put_meta_spec m p2 initial sip sport dip dport Hm2) as (m1 & -> & Hb1). rewrite bind_ret. cbv zeta.
  change (field_off if_ip_sctp_meta_t 15) with 54. change (field_off if_ip_sctp_meta_t 14) with 48.
  destruct (ask_macs_spec pf m m1 out p2 gn dn gmac dmac Hpf Hm2 Hb1 Hg Hd) as (m2 & m3 & -> & Ed & Hb3 & Hgat & Hdat).
  rewrite bind_ret, Ed, bind_ret.
  destruct (put_frame_spec m3 p3 p2) as (m4 & -> & Hb4 & Hstate); [by apply (block_mapped m p2) | lia |]. rewrite bind_ret.
  destruct (assoc_queues_spec m pf Hpf) as (qa & qb & Eq & Hqa & Hqb). rewrite Eq, bind_ret.
  destruct (get_random_u16 st) as [id st1]. cbn [fst snd] in Hdraw |- *. fold cfg.
  assert (slab_rep base m4 al3 (p4 :: L)) as Hrep4
    by (apply (block_slab base m3 al3 _ p3); [done | by apply (block_slab base m al3 _ p2) | done]).
  destruct (slab_alloc_spec _ _ _ _ _ Hrep4) as (al4 & E4 & Hp4 & Hrep5). rewrite E4, bind_ret.
  assert (∀ q n, mapped m q n → mapped m4 q n) as Hmap by (intros; by apply (block_mapped m3 p3), (block_mapped m p2)).
  destruct (told_macs m4 p2 gmac dmac) as (g & d & -> & -> & Emac);
    [by eapply (block_other m3 p3); [..|rewrite (learns_length _ _ _ Hg); lia]
    |by eapply (block_other m3 p3); [..|rewrite (learns_length _ _ _ Hd); lia]
    |apply Hg | apply Hd | by apply (learns_length pf gn) | by apply (learns_length pf dn) | by apply Hmap |].
  rewrite !bind_ret. set (a := Assoc _ _ _ _ _ _ _ _ _ _ _).
  destruct (prefill_block_spec m4 st1 a g d r st' Hdraw (Hmap _ _ Hm4)) as [E Hf]. rewrite E, bind_ret.
  rewrite Emac in Hf. set (m5 := write m4 p4 (prefilled_hdr (ulp a) g d r)) in Hf |- *. change (prefilled_umem_packet (tx a)) with p4 in Hf |- *. fold m5 in Hf |- *.
  do 3 eexists. split; [reflexivity|]. split; [|split].
  - apply slab_write; [exact Hrep5 | exact Hf4 | rewrite length_prefilled_hdr; lia].
  - intros q n Hq. by apply mapped_write, Hmap.
  - split; [done| |exact Hf|done|by exists qa|by exists qb]. split; [done|]. unfold base_missing.
    rewrite (proj2 (Z.eqb_neq _ NULL)) by done. unfold ld, load, m5, off_frame_state in Hstate |- *.
    rewrite read_write_other by (rewrite length_prefilled_hdr; lia). rewrite Hstate, bind_ret.
    by rewrite (proj2 (Z.eqb_neq _ NULL)) by done.
Qed.
End lemmas.

(** ** A platform for the witnesses *)

(** The interfaces have the addresses 01:01:01:01:01:01 and 02:02:02:02:02:02. *)
Definition demo_mac (name : bytes) : bytes := replicate 6 (if decide (name = CLIENT_INAME) then 1 else 2).
Definition demo_answer (name : bytes) : bytes :=
  link_reply (Nlmsghdr 60 16 0 1 77) (Ifinfomsg 0 0 1 5 0 0) [(3, name ++ [0]); (1, demo_mac name)].
Definition demo_platform : platform :=
  Platform 64 4096 8192 3 77 demo_answer true true (λ _, 0) (λ _, (0, 0)) block_at.

Lemma demo_learns name :
  name = CLIENT_INAME ∨ name = SERVER_INAME → learns (NL:=linux_headers) demo_platform name (demo_mac name).
Proof.
  intros Hn. split; [|by destruct Hn as [-> | ->]; (split; [vm_compute; repeat constructor; discriminate | cbn; lia])].
  exists (Nlmsghdr 60 16 0 1 77), (Ifinfomsg 0 0 1 5 0 0), [(3, name ++ [0]); (1, demo_mac name)].
  split; [done|]. destruct Hn as [-> | ->]; (split; [vm_compute; lia|]; split; [reflexivity|]; split;
    [repeat constructor; vm_compute; congruence | split; reflexivity]).
Qed.

Lemma demo_platform_ok m : (∀ q, 4096 ≤ q < 12288 → m !! q = None) → platform_ok m demo_platform.
Proof.
  intros Hm. split; [done| |done|done|].
  - split; [done | done | cbn; lia | |]; intros q Hq; cbn in Hq; apply Hm; lia.
  - intros j _. cbn. unfold block_at, NULL. lia.
Qed.
