(* ===== verification/Startup.v ===== *)
(** * Starting the two ends (create_client.c, create_server.c)

    [create_client] as a whole: the environment, the association, the first
    INIT, the T1 timer and the loop that sends the INIT again, composed from
    [Create], [Assoc], [Umem], [Random], [Client], [Xdp] and [Sctp]; [create_server]
    ends after it has created its association. *)
From S2P Require Import Prelude Bytes Mem Checksum Crc32c RingBuf RingTimer Umem Random Headers Xdp Assoc Client Frames Prefilled Data Sctp Resources Segments Netlink Create.

(** ** Code *)

(** [inet_addr ("192.168.1.2")] and [inet_addr ("192.168.1.3")]. *)
Definition client_addr : Z := 0x0201A8C0.
Definition server_addr : Z := 0x0301A8C0.
Definition server_port : Z := 80.

(** What sending works on: the memory, the random source, the environment and
    the association. *)
Record wire := Wire { w_mem : mem; w_rng : rng; w_env : kpnet_env; w_assoc : sctp_association }.

Definition with_xdp (env : kpnet_env) (xsk : xdp_t) : kpnet_env := Env xsk (state_alloc env).

(** [eth_send_sctp (assoc)]; [assoc->xdp] is [env->xdp]. *)
Definition send_again (fuel : nat) (kernel : nat → xdp_t → xdp_t) (w : wire) : outcome wire :=
  '(m, xsk) ← eth_send_sctp fuel kernel (w_mem w) (env_xdp (w_env w)) (w_assoc w);
  Ret (Wire m (w_rng w) (with_xdp (w_env w) xsk) (w_assoc w)).

(** [assoc->umem_hdrs_cursor = ..; assoc->status = SCTP_COOKIE_WAIT] *)
Definition with_cursor (a : sctp_association) (p : Z) : sctp_association :=
  let t := tx a in
  with_sctp_tx a (Tx (prefilled_umem_packet t) (prefilled_umem_packet_len t) p (remain_plen t)
                    (xdp_segs t) (xdp_seg_lens t) (xdp_seg_count t)).

(** The other rings stay as [memset] leaves them: no function assigns
    [prefilled_ring] or [tx_ring]. *)
Definition created_rings {Q} : rings Q := Rings None None.

Section code.
Context {NL : NetlinkHeaders} {ENT : Entropy}.

(** From [get_random_u16] to [insert_ringtimer]: [None] is [goto cleanup].  The
    last component is what has been sent to the kernel. *)
Definition client_setup (fuel : nat) (kernel : nat → xdp_t → xdp_t) (pf : platform)
    (sctp_methods : list Z) (m : mem) (st : rng) (env : kpnet_env)
  : outcome (option (client (W:=wire)) * list Z * sent) :=
  let '(src_port, st) := get_random_u16 st in
  '(assoc, m, out, st, env) ← sctp_assoc_create pf m [] st env client_addr src_port server_addr server_port
                                SCTP_INIT_SENT (Some CLIENT_INAME) (Some SERVER_INAME);
  match assoc with
  | None => Ret (None, sctp_methods, out)
  | Some c =>
      let a := cr_assoc c in
      let base := umem (env_xdp env) in
      sctp_methods ← sctp_init sctp_methods;
      '(_, a) ← sctp_prepare_packet base a;
      '(cursor, al) ← slab_alloc_64b m (state_alloc env) base;
      let env := Env (env_xdp env) al in
      let a := with_status (with_cursor a cursor) SCTP_COOKIE_WAIT in
      timer ← client_wheel;
      '(m, st, xsk, a) ← build_prefilled_mac_ip_sctp_init_hdr fuel kernel m st (env_xdp env) a;
      '(_, timer) ← arm_t1 timer;
      Ret (Some (Client timer first_t1 0 (Wire m st (with_xdp env xsk) a)), sctp_methods, out)
  end.

(** The two together: [None] when the loop was not reached. *)
Definition client_main (fuel turns : nat) (kernel : nat → xdp_t → xdp_t) (clock : nat → Z) (global : Z)
    (pf : platform) (sctp_methods : list Z) (m : mem) (st : rng) (env : kpnet_env)
  : outcome (option (client (W:=wire)) * sent) :=
  '(c, _, out) ← client_setup fuel kernel pf sctp_methods m st env;
  match c with
  | None => Ret (None, out)
  | Some c => c ← client_loop (send_again fuel kernel) turns 0 clock global c; Ret (Some c, out)
  end.

(** [cleanup:].  The locals [eth] and [frame] are [None] while they are not
    initialised; reading such a variable is a [Fault]. *)
Definition client_cleanup (eth : option (option eth_handle)) (assoc prefill state packet : Z) (frame : option Z)
    (s : os) : outcome os :=
  eth ← get eth; s ← eth_close eth s;
  s ← free assoc s; s ← free prefill s; s ← free state s; s ← free packet s;
  frame ← get frame; free frame s.

Definition server_cleanup (eth : option (option eth_handle)) (state packet : Z) (frame : option Z) (s : os)
  : outcome os :=
  eth ← get eth; s ← eth_close eth s;
  s ← free state s; s ← free packet s; frame ← get frame; free frame s.

(** The result is what the process still holds.  [env] is the result of
    [kpnet_env_init]. *)
Definition create_client (fuel turns : nat) (kernel : nat → xdp_t → xdp_t) (clock : nat → Z) (global : Z)
    (pf : platform) (sctp_methods : list Z) (m : mem) (st : rng) (env : option kpnet_env) (s : os)
  : outcome os :=
  match env with
  | None => Ret s
  | Some env =>
      '(c, _) ← client_main fuel turns kernel clock global pf sctp_methods m st env;
      match c with
      | None => client_cleanup None NULL NULL NULL NULL None s
      | Some _ => client_cleanup None (pf_assoc pf) NULL NULL NULL None s
      end
  end.

Definition create_server (pf : platform) (m : mem) (st : rng) (env : option kpnet_env) (s : os)
  : outcome os :=
  match env with
  | None => Ret s
  | Some env =>
      _ ← sctp_assoc_create pf m [] st env server_addr server_port 0xFFFFFFFF 0xFFFF
            SCTP_LISTEN (Some SERVER_INAME) (Some CLIENT_INAME);
      server_cleanup None NULL NULL None s
  end.
End code.

(** ** Lemmas: random numbers *)

(** The buffer as it is when the process starts, with [n] bytes left. *)
Definition zero_rng (n : Z) (st : rng) : Prop :=
  random_buffer st = replicate RANDOM_BUFFER_SIZE 0
  ∧ 0 ≤ random_buffer_head st ∧ random_buffer_head st + n ≤ Z.of_nat RANDOM_BUFFER_SIZE.

Section lemmas.
Context {NL : NetlinkHeaders} {ENT : Entropy}.

Lemma zero_draw n st :
  zero_rng (4 + n) st → 0 ≤ n → ∃ st', get_random_from_buffer_u32 st = Ret (0, st') ∧ zero_rng n st'.
Proof.
  intros (Hb & H0 & H1) Hn. assert (rng_ok st) as Hok.
  { split; [by rewrite Hb | rewrite Hb; apply bytes_ok_zeros | lia]. }
  unfold get_random_from_buffer_u32. rewrite (draw_left 1 4 st Hok) by lia.
  rewrite Hb, drop_replicate, take_replicate, Nat.min_l by (unfold RANDOM_BUFFER_SIZE in *; lia).
  eexists. split; [reflexivity|]. split; [done|]. cbn [random_buffer_head]. lia.
Qed.

Lemma zero_random_u16 n st : zero_rng n st → zero_rng n (snd (get_random_u16 st)).
Proof.
  unfold get_random_u16, get_random_int. destruct (getrandom (calls st) 2); [case_decide|]; done.
Qed.

(** ** Lemmas: the association and the first INIT *)
Definition client_ulp (port : Z) : sctp_ulp_config := Ulp client_addr server_addr port server_port 65535 32 32.

(** The blocks cut from the last chunk: the prefilled headers are in the fourth,
    the cursor is the fifth. *)
Definition last_chunk (base : Z) : Z := base + 0xFFF000.
Definition init_pair : list xdp_desc := [Desc 0xFFF0C2 46 XDP_PKT_CONTD; Desc 0xFFF100 20 0].

(** The client after its [k]-th retransmission. *)
Record sending (base port g d : Z) (k : nat) (w : wire) : Prop := {
  sd_headers : frame_at (w_mem w) (last_chunk base + 194) (prefilled_mac g d)
                 (set_field 2 (htons 52) (prefilled_ip (client_ulp port) 0)) (prefilled_cmn (client_ulp port));
  sd_chunk : bytes_at (w_mem w) (last_chunk base + 256) (init_chunk (client_ulp port) 0 0);
  sd_packet : prefilled_umem_packet (tx (w_assoc w)) = last_chunk base + 194;
  sd_room : u32 (mtu (w_assoc w) - remain_plen (tx (w_assoc w))) = 20;
  sd_tx : tx_ok (tx (w_assoc w));
  sd_count : xdp_seg_count (tx (w_assoc w)) = 2;
  sd_segments : segments (tx (w_assoc w)) = [(0xFFF0C2, 46); (0xFFF100, 20)];
  sd_status : status (w_assoc w) = SCTP_COOKIE_WAIT;
  sd_queue : holds (tx_ring (env_xdp (w_env w))) (concat (replicate (S k) init_pair))
}.

Lemma length_pairs k : length (concat (replicate k init_pair)) = (2 * k)%nat.
Proof. induction k as [|k IH]; [done|]. cbn [replicate concat]. rewrite length_app, IH. cbn. lia. Qed.

Lemma concat_replicate_S {A} k (l : list A) : concat (replicate (S k) l) = concat (replicate k l) ++ l.
Proof. induction k as [|k IH]; [cbn; by rewrite app_nil_r|]. cbn [replicate concat] in *. by rewrite <-app_assoc, <-IH. Qed.

(** Sending again writes the same bytes and queues the same descriptors. *)
Lemma send_again_spec base port g d k w :
  sending base port g d k w → (k < 2000)%nat →
  ∃ w', send_again 1 (λ _ x, x) w = Ret w' ∧ sending base port g d (S k) w'.
Proof.
  intros [Hh Hc Hp Hr Ht Hn Hs Hst Hq] Hk. unfold send_again.
  destruct (eth_send_spec (λ _ x, x) (w_mem w) (env_xdp (w_env w)) (w_assoc w) (prefilled_mac g d)
    (set_field 2 (htons 52) (prefilled_ip (client_ulp port) 0)) (prefilled_cmn (client_ulp port)) 0
    (λ _, concat (replicate (S k) init_pair))) as (r & E & Hf & Hr').
  - by rewrite Hp.
  - done.
  - lia.
  - intros [|j] Hj; [done | lia].
  - lia.
  - cbv beta. rewrite length_pairs, Hn. lia.
  - rewrite Hr, Hp in E, Hf. rewrite E, bind_ret. eexists. split; [reflexivity|].
    rewrite Hs in Hr'. split; cbn [w_mem w_assoc w_env with_xdp env_xdp]; try done.
    + apply bytes_at_write_other; [done|]. rewrite length_le_enc. lia.
    + rewrite concat_replicate_S. exact Hr'.
Qed.

Lemma wheel_armed : ∃ ring b ring', client_wheel = Ret ring ∧ arm_t1 ring = Ret (b, ring').
Proof.
  assert (∃ x, (ring ← client_wheel; arm_t1 ring) = Ret x) as [[b ring'] H]
    by (eexists; vm_compute; reflexivity).
  apply bind_ret_inv in H as (ring & E & H). eauto.
Qed.

Lemma sctp_init_ret methods : length methods = 16%nat → ∃ methods', sctp_init methods = Ret methods'.
Proof. intros H. unfold sctp_init. rewrite decide_True by done. eauto. Qed.

(** The memory and the environment that [kpnet_env_init] leaves. *)
Record fresh_env (base : Z) (m : mem) (env : kpnet_env) : Prop := {
  fe_env : kpnet_env_init true true true (Some (env_xdp env)) true = Some env;
  fe_base : umem (env_xdp env) = base;
  fe_range : 0 < base ∧ base + 0x1000000 < 0x10000000000000000;
  fe_mapped : mapped m (last_chunk base) 4096;
  fe_queue : holds (tx_ring (env_xdp env)) []
}.

(** The first blocks the allocator of a fresh environment hands out. *)
Lemma fresh_env_blocks base m env :
  fresh_env base m env → let b := last_chunk base in
  ∃ L, slab_rep base m (state_alloc env) (b :: b + 64 :: b + 128 :: b + 192 :: b + 256 :: L)
  ∧ spread (b :: b + 64 :: b + 128 :: b + 192 :: b + 256 :: L).
Proof.
  intros [He Hb [H0 H1] _ _] b.
  destruct (fresh_slab_rep base m (S (Z.to_nat 4095))) as (s & Es & Hrep);
    [unfold is_u32; lia | done | unfold UMEM_CHUNK_SIZE; lia|].
  destruct (fresh_blocks_spec base (S (Z.to_nat 4095))) as [Hsp _]; [unfold UMEM_CHUNK_SIZE; lia|].
  destruct (fresh_blocks_first base (Z.to_nat 4095)) as (L & HL). cbv zeta in HL.
  change (base + u64 (Z.of_nat (Z.to_nat 4095) * UMEM_CHUNK_SIZE)) with b in HL.
  rewrite HL in Hrep, Hsp. exists L. split; [|done].
  unfold kpnet_env_init in He. change (Z.of_nat (S (Z.to_nat 4095))) with UMEM_CHUNK_COUNT in Es.
  rewrite Es in He. injection He as He. rewrite <-He. exact Hrep.
Qed.

(** The INIT built from a created association whose cursor is the block after its
    headers. *)
Lemma first_init_spec base port g d m st xsk id (b := last_chunk base) :
  let cfg := client_ulp port in
  let a0 := created_assoc id SCTP_INIT_SENT cfg (b + 192) in
  umem xsk = base → 0 < base ∧ base + 0x1000000 < 0x10000000000000000 → mapped m b 4096 →
  frame_at m (b + 194) (prefilled_mac g d) (prefilled_ip cfg 0) (prefilled_cmn cfg) →
  zero_rng 8 st → holds (tx_ring xsk) [] →
  ∃ a1 m' st' xsk' a2, sctp_prepare_packet base a0 = Ret (0, a1)
  ∧ build_prefilled_mac_ip_sctp_init_hdr 1 (λ _ x, x) m st xsk (with_status (with_cursor a1 (b + 256)) SCTP_COOKIE_WAIT)
    = Ret (m', st', xsk', a2)
  ∧ ∀ al, sending base port g d 0 (Wire m' st' (Env xsk' al) a2).
Proof.
  intros cfg a0 Hu [H0 H1] Hm Hf Hst Hq.
  destruct (zero_draw 4 st Hst) as (st1 & Hd1 & Hst1); [lia|].
  destruct (zero_draw 0 st1 Hst1) as (st2 & Hd2 & _); [lia|].
  assert (u64 (b + 194 - base) = 0xFFF0C2) as Ho1.
  { unfold b, last_chunk. replace (_ - base) with 0xFFF0C2 by lia. reflexivity. }
  assert (u64 (b + 256 - base) = 0xFFF100) as Ho2.
  { unfold b, last_chunk. replace (_ - base) with 0xFFF100 by lia. reflexivity. }
  assert (b + 192 + 2 = b + 194) as Hp by lia.
  set (a1 := with_sctp_tx a0 (Tx (b + 194) 46 0 1454 (0xFFF0C2 :: replicate 15 0) (46 :: replicate 15 0) 1)).
  set (a2 := with_status (with_cursor a1 (b + 256)) SCTP_COOKIE_WAIT).
  assert (sctp_prepare_packet base a0 = Ret (0, a1)) as E1.
  { unfold sctp_prepare_packet.
    change (prefilled_umem_packet (tx a0)) with (b + 192 + 2). rewrite Hp, Ho1. reflexivity. }
  destruct (init_packet_spec m st st1 st2 xsk a2 (prefilled_mac g d) (prefilled_ip cfg 0) (prefilled_cmn cfg) [] 0xFFF0C2 0 0)
    as (m' & r & E & Hf' & Hc' & Hr & Htx & Hseg); try done.
  { change (mapped m (b + 256) 20). eapply mapped_sub; [exact Hm | lia..]. }
  { right. change (b + 194 + 46 ≤ b + 256). lia. }
  { cbn [length]. lia. }
  exists a1, m', st2, (with_tx xsk r), (with_sctp_tx a2 (init_tx (umem xsk) (tx a2))).
  split; [exact E1|]. split; [exact E|]. intros al.
  change (umem_hdrs_cursor (tx a2)) with (b + 256) in Hseg, Hr, Hc'. rewrite Hu, Ho2 in Hseg, Hr.
  split; cbn [w_mem w_assoc w_env env_xdp]; try done. by rewrite Hu.
Qed.

(** The blocks of a fresh environment hold the association of the client. *)
Lemma client_assoc_spec base pf m port st env c s r st' :
  fresh_env base m env → platform_ok m pf → learns pf CLIENT_INAME c → learns pf SERVER_INAME s →
  get_random_from_buffer_u32 (snd (get_random_u16 st)) = Ret (r, st') →
  let b := last_chunk base in
  ∃ cr m' al L, sctp_assoc_create pf m [] st env client_addr port server_addr server_port SCTP_INIT_SENT
      (Some CLIENT_INAME) (Some SERVER_INAME)
    = Ret (Some cr, m', [asked pf CLIENT_INAME; asked pf SERVER_INAME], st', Env (env_xdp env) al)
  ∧ slab_rep base m' al (b + 256 :: L) ∧ mapped m' b 4096
  ∧ assoc_made pf SCTP_INIT_SENT (fst (get_random_u16 st)) (client_ulp port) r c s (b + 128) (b + 192) m' cr.
Proof.
  intros Hf Hpf Hc Hs Hd b. pose proof Hf as [_ Hb [H0 H1] Hmap Hq].
  destruct (fresh_env_blocks base m env Hf) as (L & Hrep & Hsp). fold b in Hrep, Hsp, Hmap.
  destruct (assoc_create_spec pf m [] st env client_addr port server_addr server_port SCTP_INIT_SENT CLIENT_INAME SERVER_INAME
    c s b (b + 64) (b + 128) (b + 192) (b + 256 :: L) r st') as (cr & m' & al & E & Hrep' & Hm' & Hmade);
    rewrite ?Hb in *; try done.
  1-3: eapply mapped_sub; [exact Hmap | lia..].
  1-2: unfold b, last_chunk; lia.
  exists cr, m', al, L. split_and!; auto.
Qed.

Lemma client_setup_spec base pf m st env methods c s :
  fresh_env base m env → platform_ok m pf → learns pf CLIENT_INAME c → learns pf SERVER_INAME s →
  zero_rng 12 st → length methods = 16%nat →
  ∃ w d methods', client_setup 1 (λ _ x, x) pf methods m st env
    = Ret (Some d, methods', [asked pf CLIENT_INAME; asked pf SERVER_INAME])
  ∧ client_start w = Ret d ∧ sending base (fst (get_random_u16 st)) (le_dec c) (le_dec s) 0 w.
Proof.
  intros Hf Hpf Hc Hs Hst Hm. pose proof Hf as [_ Hb Hrange Hmap Hq]. set (b := last_chunk base) in *.
  unfold client_setup. pose proof (zero_random_u16 _ _ Hst) as Hst1.
  destruct (get_random_u16 st) as [port st1]. cbn [fst snd] in *.
  destruct (zero_draw 8 (snd (get_random_u16 st1))) as (st2 & Hd & Hst2); [by apply zero_random_u16 | lia |].
  destruct (client_assoc_spec base pf m port st1 env c s 0 st2 Hf Hpf Hc Hs Hd) as (cr & m1 & al & L & E & Hrep & Hm1 & Hmade).
  rewrite E, bind_ret. fold b in Hrep, Hm1, Hmade. destruct Hmade as [-> _ Hfr _ _ _].
  cbn [env_xdp]. rewrite Hb. destruct (sctp_init_ret methods Hm) as (methods' & Ei). rewrite Ei, bind_ret.
  replace (b + 192 + 2) with (b + 194) in Hfr by lia.
  destruct (first_init_spec base port (le_dec c) (le_dec s) m1 st2 (env_xdp env) (fst (get_random_u16 st1)))
    as (a1 & m' & st' & xsk' & a2 & Ep & Eb & Hsend); try done.
  fold b in Ep, Eb. rewrite Ep, bind_ret. cbn [state_alloc].
  destruct (slab_alloc_spec _ _ _ _ _ Hrep) as (al' & Ea & _). rewrite Ea, bind_ret.
  destruct wheel_armed as (ring & tb & ring' & Ew & Et). rewrite Ew, bind_ret. cbn [env_xdp].
  rewrite Eb, bind_ret, Et, bind_ret.
  exists (Wire m' st' (Env xsk' al') a2). do 2 eexists. split; [reflexivity|]. split; [|apply Hsend].
  unfold client_start. by rewrite Ew, bind_ret, Et, bind_ret.
Qed.

(** The whole session: [client_setup], and the loop over [send_again]. *)
Lemma session_spec base pf m st env methods c s clock global n :
  fresh_env base m env → platform_ok m pf → learns pf CLIENT_INAME c → learns pf SERVER_INAME s →
  zero_rng 12 st → length methods = 16%nat → polled SCTP_TIMER_STEP clock global → global + 6600 * 1000 ≤ clock n →
  ∃ d, client_main 1 (S (S n)) (λ _ x, x) clock global pf methods m st env
    = Ret (Some d, [asked pf CLIENT_INAME; asked pf SERVER_INAME])
  ∧ handshake_retrans d = 11
  ∧ sending base (fst (get_random_u16 st)) (le_dec c) (le_dec s) 11 (c_world d).
Proof.
  intros Hf Hpf Hc Hs Hst Hm Hpoll Hn.
  destruct (client_setup_spec base pf m st env methods c s Hf Hpf Hc Hs Hst Hm) as (w & d0 & ms & E & Es & Hsend).
  set (P n w := 0 ≤ n ∧ sending base (fst (get_random_u16 st)) (le_dec c) (le_dec s) (Z.to_nat n) w).
  destruct (loop_from_start (send_again 1 (λ _ x, x)) P w SCTP_TIMER_STEP) as (d1 & Es1 & Hloop).
  - unfold SCTP_TIMER_STEP. lia.
  - intros k w1 [Hk H1] Hlt. change (SCTP_ASSOC_MAX_RETRANS + _) with 11 in Hlt.
    destruct (send_again_spec _ _ _ _ _ _ H1) as (w2 & E2 & H2); [lia|]. exists w2. split; [exact E2|].
    split; [lia|]. by replace (Z.to_nat (k + 1)) with (S (Z.to_nat k)) by lia.
  - by split.
  - rewrite Es in Es1. injection Es1 as <-. destruct (Hloop clock global n Hpoll Hn) as (d & Ed & Hr & _ & Hd).
    change (SCTP_ASSOC_MAX_RETRANS + _) with 11 in Hr. unfold SCTP_ASSOC_MAX_RETRANS in Hr.
    assert (handshake_retrans d = 11) as Hd11 by lia. rewrite Hd11 in Hd.
    exists d. unfold client_main. rewrite E, bind_ret, Ed, bind_ret.
    split; [reflexivity|]. split; [exact Hd11 | exact Hd].
Qed.

(** The bytes of the segments that the descriptors [ds] name, in their order:
    the frame that the kernel puts on the wire. *)
Fixpoint gathered (base : Z) (m : mem) (ds : list xdp_desc) : outcome bytes :=
  match ds with
  | [] => Ret []
  | d :: ds =>
      seg ← load m (base + d_addr d) (Z.to_nat (d_len d));
      rest ← gathered base m ds;
      Ret (seg ++ rest)
  end.

Definition init_frame (port g d : Z) : bytes :=
  enc (prefilled_mac g d) ++ enc (set_field 2 (htons 52) (prefilled_ip (client_ulp port) 0))
    ++ enc (prefilled_cmn (client_ulp port)) ++ init_chunk (client_ulp port) 0 0.

Lemma sending_frame base port g d k w :
  sending base port g d k w → gathered base (w_mem w) init_pair = Ret (init_frame port g d).
Proof.
  intros H. pose proof (sd_headers _ _ _ _ _ _ H) as Hh. pose proof (sd_chunk _ _ _ _ _ _ H) as Hc.
  unfold last_chunk in *. cbn [gathered init_pair d_addr d_len].
  replace (base + 0xFFF0C2) with (base + 0xFFF000 + 194) by lia. replace (base + 0xFFF100) with (base + 0xFFF000 + 256) by lia.
  rewrite (load_at' _ _ _ _ Hh) by (by rewrite length_frame). rewrite bind_ret.
  rewrite (load_at' _ _ _ _ Hc) by (reflexivity). rewrite !bind_ret. unfold init_frame. by rewrite app_nil_r, <-!app_assoc.
Qed.
(** Neither checksum of this frame is right. *)
Lemma init_frame_refused {CRC : Crc32Insn} m p plen port g d :
  bytes_at m p (init_frame port g d) → 46 ≤ plen → ∃ m', sctp_check_checksums m p plen = Ret (-1, m').
Proof.
  unfold init_frame.
  intros Hat Hp. set (ip := set_field _ _ _) in Hat. unfold init_chunk in Hat.
  set (body := enc (Init _ _ _ _ _)) in Hat.
  assert (wf ip) as Hip by (unfold ip; wf_fields).
  pose proof (check_spec m p plen (prefilled_mac g d) ip (prefilled_cmn (client_ulp port)) (Fld SCTP_INIT 0 (htons 20))
    body Hat Hip) as H.
  assert (frame_valid ip (prefilled_cmn (client_ulp port)) (Fld SCTP_INIT 0 (htons 20)) body = false) as Hv.
  { unfold frame_valid. rewrite ip_valid_spec by done. reflexivity. }
  rewrite Hv in H. apply H.
  - apply wf_cmn; auto with bytes.
  - apply wf_fld; [unfold fits, SCTP_INIT; cbn; lia | auto with bytes..].
  - apply enc_ok.
  - reflexivity.
  - exact Hp.
Qed.
End lemmas.

(** ** Lemmas: a created association that receives *)
Lemma assoc_create_fields {NL : NetlinkHeaders} {ENT : Entropy} pf m0 out0 st0 env sip sport dip dport initial gw dev c m1 out1 st1 env1 :
  sctp_assoc_create pf m0 out0 st0 env sip sport dip dport initial gw dev = Ret (Some c, m1, out1, st1, env1) →
  status (cr_assoc c) = initial ∧ ulp_src_ip (ulp (cr_assoc c)) = sip ∧ ulp_src_port (ulp (cr_assoc c)) = sport.
Proof.
  unfold sctp_assoc_create. destruct (_ =? _); [done|]. intros ([u al1] & _ & H)%bind_ret_inv.
  apply bind_ret_inv in H as ([me al2] & _ & H). apply bind_ret_inv in H as ([fr al3] & _ & H).
  destruct (_ || _); [done|]. apply bind_ret_inv in H as (m2 & _ & H).
  apply bind_ret_inv in H as ([[b1 m3] out2] & _ & H). destruct b1; [done|].
  apply bind_ret_inv in H as ([[b2 m4] out3] & _ & H). destruct b2; [done|].
  apply bind_ret_inv in H as (m5 & _ & H). apply bind_ret_inv in H as ([[rtx qa] qb] & _ & H).
  destruct (get_random_u16 st0) as [id st]. apply bind_ret_inv in H as ([p al4] & _ & H).
  destruct gw as [gw|], dev as [dev|]; try (by injection H as <-).
  apply bind_ret_inv in H as (g & _ & H). apply bind_ret_inv in H as (d & _ & H).
  apply bind_ret_inv in H as ([[m6 st2] a2] & E & H). unfold prefill_sctp_mac_ip in E.
  apply bind_ret_inv in E as ([r st3] & _ & E). apply bind_ret_inv in E as (m7 & _ & E).
  injection E as _ _ <-. by injection H as <-.
Qed.

Section null_rings.
Context {CRC : Crc32Insn} {ENT : Entropy} {Q : Type} {PQ : PacketQueue Q}.
Context (alloc_array : bool) (alloc : nat → option sctp_thread).
Abbreviation null := (created_rings (Q:=Q)).

Lemma init_null m st a p plen x : sctp_process_sctp_init m st null a p plen ≠ Ret x.
Proof.
  unfold sctp_process_sctp_init. intros H. do 3 (apply bind_ret_inv in H as (? & _ & H)). discriminate H.
Qed.

Lemma init_ack_null m st a p plen ret m' st' r' a' :
  sctp_process_sctp_init_ack m st null a p plen = Ret (ret, m', st', r', a') →
  ret = -1 ∧ m' = m ∧ st' = st ∧ r' = null ∧ a' = a.
Proof.
  unfold sctp_process_sctp_init_ack. destruct (_ : bool); [by intros [= <- <- <- <- <-]|].
  intros (? & _ & H)%bind_ret_inv. discriminate H.
Qed.

Lemma cookie_echo_null m st a p plen ret m' st' r' a' :
  sctp_process_sctp_cookie_echo alloc_array alloc m st null a p plen = Ret (ret, m', st', r', a') →
  ret = -1 ∧ m' = m ∧ st' = st ∧ r' = null ∧ a' = a.
Proof.
  unfold sctp_process_sctp_cookie_echo. destruct (_ : bool); [by intros [= <- <- <- <- <-]|].
  intros (text & _ & H)%bind_ret_inv. apply bind_ret_inv in H as (dg & _ & H).
  apply bind_ret_inv in H as (code & _ & H). destruct (digest_differs dg code); [by simplify_eq|].
  apply bind_ret_inv in H as (c & _ & H). discriminate H.
Qed.

(** What a handler that refuses makes of a frame. *)
Definition refused m st (a : sctp_association) (o : outcome (handler_result (Q:=Q))) : Prop :=
  ∀ ret m' st' r' a', o = Ret (ret, m', st', r', a') → ret = -1 ∧ m' = m ∧ st' = st ∧ r' = null ∧ a' = a.

Lemma refused_frame m st a o ok m' st' r' a' :
  refused m st a o →
  ('(ret, m, st, r, a) ← o; Ret (negb (ret <? 0), m, st, r, Some a)) = Ret (ok, m', st', r', a') →
  ok = false ∧ m' = m ∧ st' = st ∧ r' = null ∧ a' = Some a.
Proof.
  intros Hr ([[[[ret m1] st1] r1] a1] & E & H)%bind_ret_inv. injection H as <- <- <- <- <-.
  destruct (Hr _ _ _ _ _ E) as (-> & -> & -> & -> & ->). done.
Qed.

Lemma init_refused m st a p plen : refused m st a (sctp_process_sctp_init m st null a p plen).
Proof. intros ret m' st' r' a' H. by apply init_null in H. Qed.

(** With the rings of a created association no chunk is answered: a frame that
    comes back has changed nothing. *)
Lemma null_rings_ignore base m st pkt a ok m' st' r' a' :
  status a ≠ SCTP_INIT_ACK_RECEIVED →
  if_ip_sctp alloc_array alloc base m st null pkt (Some a) = Ret (ok, m', st', r', a') →
  ok = false ∧ m' = m ∧ st' = st ∧ r' = null ∧ a' = Some a.
Proof.
  intros Hst. unfold if_ip_sctp. destruct (_ || _); [by intros [= <- <- <- <- <-]|]. cbv zeta.
  intros (dest & _ & H)%bind_ret_inv. destruct (negb (dest =? _)); [by simplify_eq|].
  apply bind_ret_inv in H as (dst & _ & H). destruct (negb (_ =? ntohs dst)); [by simplify_eq|].
  apply bind_ret_inv in H as (type & _ & H).
  destruct (type =? SCTP_INIT).
  { case_decide; [|by simplify_eq]. apply bind_ret_inv in H as (len & _ & H).
    exact (refused_frame _ _ _ _ _ _ _ _ _ (init_refused _ _ _ _ _) H). }
  destruct (type =? SCTP_INIT_ACK).
  { case_decide; [|by simplify_eq]. apply bind_ret_inv in H as (len & _ & H).
    eapply refused_frame; [|exact H]. intros ????? Hp. by eapply init_ack_null. }
  destruct (type =? SCTP_COOKIE_ECHO).
  { case_decide; [|by simplify_eq]. apply bind_ret_inv in H as (len & _ & H).
    eapply refused_frame; [|exact H]. intros ????? Hp. by eapply cookie_echo_null. }
  destruct (type =? SCTP_COOKIE_ACK); [|by simplify_eq]. case_decide; [done | by simplify_eq].
Qed.
End null_rings.

(** ** Properties *)

(** C28: the client from start to end, when (1) the peer never answers, (2) the
    kernel knows the two interfaces and keeps what is queued (it completes no
    transmission while the client runs), (3) the random buffer is the
    zero-filled one of a new process, with twelve bytes left, and (4) the clock
    is read at least once a second ([SCTP_TIMER_STEP]) and goes on for 6600
    seconds.  It asks for the addresses of the interfaces, then sends its first
    INIT and the eleven of the T1 timer, each the same two segments: the
    headers in the fourth block of the last chunk, and the INIT chunk, whose
    tag and TSN are 0, in the fifth.  The frame is addressed to the client's
    own interface, and its source is the server's. *)
Theorem client_session {NL : NetlinkHeaders} {ENT : Entropy} base pf m st env methods client_mac server_mac clock global n :
  fresh_env base m env → platform_ok m pf → learns pf CLIENT_INAME client_mac → learns pf SERVER_INAME server_mac →
  zero_rng 12 st → length methods = 16%nat → polled SCTP_TIMER_STEP clock global → global + 6600 * 1000 ≤ clock n →
  ∃ c, client_main 1 (S (S n)) (λ _ x, x) clock global pf methods m st env
    = Ret (Some c, [asked pf CLIENT_INAME; asked pf SERVER_INAME])
  ∧ handshake_retrans c = 11
  ∧ sending base (fst (get_random_u16 st)) (le_dec client_mac) (le_dec server_mac) 11 (c_world c).
Proof. apply session_spec. Qed.

(** C30: every INIT that [create_client] sends is refused.  After the session of
    C28, under its hypotheses, the transmit ring holds the twelve pairs of
    descriptors; the bytes that they name, wherever they arrive and whatever
    length is given, fail the receiver's [sctp_check_checksums]: neither
    [prefill_sctp_mac_ip], the INIT builder nor [eth_send_sctp] computes the
    header checksum or the CRC. *)
Theorem client_init_dropped {CRC : Crc32Insn} {NL : NetlinkHeaders} {ENT : Entropy} base pf m st env methods
    client_mac server_mac clock global n :
  fresh_env base m env → platform_ok m pf → learns pf CLIENT_INAME client_mac → learns pf SERVER_INAME server_mac →
  zero_rng 12 st → length methods = 16%nat → polled SCTP_TIMER_STEP clock global → global + 6600 * 1000 ≤ clock n →
  ∃ c out data, client_main 1 (S (S n)) (λ _ x, x) clock global pf methods m st env = Ret (Some c, out)
  ∧ holds (tx_ring (env_xdp (w_env (c_world c)))) (concat (replicate 12 init_pair))
  ∧ gathered base (w_mem (c_world c)) init_pair = Ret data
  ∧ ∀ m2 p plen, bytes_at m2 p data → 46 ≤ plen → ∃ m3, sctp_check_checksums m2 p plen = Ret (-1, m3).
Proof.
  intros Hf Hpf Hc Hs Hst Hm Hpoll Hn.
  destruct (session_spec base pf m st env methods _ _ clock global n Hf Hpf Hc Hs Hst Hm Hpoll Hn) as (c & E & _ & Hsend).
  do 3 eexists. split; [exact E|]. split; [exact (sd_queue _ _ _ _ _ _ Hsend)|].
  split; [exact (sending_frame _ _ _ _ _ _ Hsend)|]. intros m2 p plen Hat Hp. by eapply init_frame_refused.
Qed.

(** C29: [sctp_assoc_create] makes neither [prefilled_ring] nor [tx_ring], and
    nothing else does: an association it returns answers no frame.  Any call of
    [if_ip_sctp] that returns has refused the frame and changed nothing, and an
    INIT addressed to a listening one does not return. *)
Theorem created_never_replies {CRC : Crc32Insn} {NL : NetlinkHeaders} {ENT : Entropy} {Q : Type} {PQ : PacketQueue Q} aa alloc
    pf m0 out0 st0 env sip sport dip dport initial gw dev c m1 out1 st1 env1 :
  sctp_assoc_create pf m0 out0 st0 env sip sport dip dport initial gw dev = Ret (Some c, m1, out1, st1, env1) →
  let a := cr_assoc c in
  initial = SCTP_LISTEN ∨ initial = SCTP_INIT_SENT →
  (∀ base m st pkt ok m' st' r' a',
     if_ip_sctp aa alloc base m st (created_rings (Q:=Q)) pkt (Some a) = Ret (ok, m', st', r', a') →
     ok = false ∧ m' = m ∧ st' = st ∧ r' = created_rings ∧ a' = Some a)
  ∧ ∀ m st pkt mac ip cmn (fld : sctp_fld_hdr_t) (ini : sctp_init_hdr_t) rest,
     initial = SCTP_LISTEN → packet_at m pkt mac ip cmn (enc fld ++ enc ini ++ rest) → wf ip → wf cmn → wf fld → wf ini →
     0 < pkt → fld_type fld = SCTP_INIT → dest_addr ip = sip → ntohs (dstp cmn) = sport →
     if_ip_sctp aa alloc true m st (created_rings (Q:=Q)) pkt (Some a) = Fault.
Proof.
  intros Hc a Hi. destruct (assoc_create_fields _ _ _ _ _ _ _ _ _ _ _ _ _ _ _ _ _ Hc) as (Hs & Hip & Hport). fold a in Hs, Hip, Hport. split.
  - intros base m st pkt ok m' st' r' a' H. apply null_rings_ignore in H; [done|]. rewrite Hs. by destruct Hi as [-> | ->].
  - intros m st pkt mac ip cmn fld ini rest Hl Hat Hwip Hwcmn Hwfld Hwini Hp Ht Hdst Hdp.
    rewrite (if_ip_sctp_dispatch aa alloc m st created_rings a pkt mac ip cmn fld _ Hat) by (done || (split; congruence)).
    unfold dispatch. rewrite Ht, Hs, Hl. cbn [SCTP_INIT Z.eqb Pos.eqb]. rewrite decide_True by done.
    destruct (headers_split _ _ _ _ _ _ Hat) as (H14 & H34 & H46).
    apply bytes_at_app in H46 as [_ H50]. rewrite (length_enc fld) in H50.
    unfold sctp_process_sctp_init. rewrite (ld_struct_at m (pkt + 14) ip _ H14 Hwip), bind_ret.
    replace (pkt + 14 + sz_ip) with (pkt + 34) by (unfold sz_ip; lia).
    rewrite (ld_struct_at m (pkt + 34) cmn _ H34 Hwcmn), bind_ret.
    replace (pkt + 34 + sz_cmn + sz_fld) with (pkt + 46 + Z.of_nat (size sctp_fld_hdr_t))
      by (unfold sz_cmn, sz_fld; change (Z.of_nat (size sctp_fld_hdr_t)) with 4; lia).
    by rewrite (ld_struct_at m _ ini _ H50 Hwini), bind_ret.
Qed.

(** Both mains end at [eth_close (eth)] with an [eth] that was never assigned. *)
Lemma cleanup_faults {NL : NetlinkHeaders} {ENT : Entropy} fuel turns kernel clock global pf methods m st env s s' :
  create_client fuel turns kernel clock global pf methods m st (Some env) s ≠ Ret s'
  ∧ create_server pf m st (Some env) s ≠ Ret s'.
Proof.
  unfold create_client, create_server. split; intros (x & _ & H)%bind_ret_inv; [by destruct x as [[x|] ?] | done].
Qed.

(** ** Witnesses *)
#[local] Existing Instance once.
#[local] Existing Instance linux_headers.
Definition demo_env : kpnet_env :=
  match kpnet_env_init true true true (Some demo_xsk) true with
  | Some env => env
  | None => Env demo_xsk (Slab 0 (UStack [] 0 0) 0 0)
  end.

Lemma demo_env_fresh : fresh_env 65536 (write ∅ (last_chunk 65536) (replicate 4096 0)) demo_env.
Proof.
  split.
  - vm_compute. reflexivity.
  - vm_compute. reflexivity.
  - lia.
  - apply page_mapped; lia.
  - change (env_xdp demo_env) with demo_xsk. exact demo_holds.
Qed.

Lemma demo_page_platform : platform_ok (write ∅ (last_chunk 65536) (replicate 4096 0)) demo_platform.
Proof.
  apply demo_platform_ok. intros q Hq. rewrite lookup_write, decide_False; [apply lookup_empty|].
  rewrite length_replicate. unfold last_chunk. lia.
Qed.

(** A reading every second for twelve days. *)
Definition every_second (i : nat) : Z := 1000 * (Z.min (Z.of_nat i) 1000000 + 1).

Lemma every_second_polled : polled SCTP_TIMER_STEP every_second 0.
Proof.
  split; [|vm_compute; split_and!; congruence]. intros i. unfold every_second, is_u64, SCTP_TIMER_STEP. lia.
Qed.

Lemma zero_rng_init : zero_rng 12 rng_init.
Proof. split; [reflexivity|]. unfold RANDOM_BUFFER_SIZE. cbn [rng_init random_buffer_head]. lia. Qed.

Lemma client_session_witness :
  ∃ c, client_main 1 (S (S 6599)) (λ _ x, x) every_second 0 demo_platform (replicate 16 7)
         (write ∅ (last_chunk 65536) (replicate 4096 0)) rng_init demo_env
    = Ret (Some c, [asked demo_platform CLIENT_INAME; asked demo_platform SERVER_INAME])
  ∧ handshake_retrans c = 11
  ∧ sending 65536 (fst (get_random_u16 rng_init)) (le_dec (demo_mac CLIENT_INAME)) (le_dec (demo_mac SERVER_INAME)) 11 (c_world c).
Proof.
  apply (client_session 65536 demo_platform _ rng_init demo_env (replicate 16 7) _ _ every_second 0 6599 demo_env_fresh
    demo_page_platform); [apply demo_learns; by left | apply demo_learns; by right | exact zero_rng_init | reflexivity
    | exact every_second_polled | vm_compute; congruence].
Defined.

Lemma client_init_dropped_witness :
  ∃ c out data, client_main 1 (S (S 6599)) (λ _ x, x) every_second 0 demo_platform (replicate 16 7)
         (write ∅ (last_chunk 65536) (replicate 4096 0)) rng_init demo_env = Ret (Some c, out)
  ∧ holds (tx_ring (env_xdp (w_env (c_world c)))) (concat (replicate 12 init_pair))
  ∧ gathered 65536 (w_mem (c_world c)) init_pair = Ret data
  ∧ ∀ m2 p plen, bytes_at m2 p data → 46 ≤ plen → ∃ m3, sctp_check_checksums m2 p plen = Ret (-1, m3).
Proof.
  apply (client_init_dropped 65536 demo_platform _ rng_init demo_env (replicate 16 7) (demo_mac CLIENT_INAME) (demo_mac SERVER_INAME)
    every_second 0 6599 demo_env_fresh demo_page_platform); [apply demo_learns; by left | apply demo_learns; by right
    | exact zero_rng_init | reflexivity | exact every_second_polled | vm_compute; congruence].
Defined.

Abbreviation created_server :=
  (sctp_assoc_create demo_platform (write ∅ 65536 (replicate 4096 0)) [] rng_init (Env demo_xsk (fresh_slab (UStack [0] 1 1)))
    server_addr 80 0xFFFFFFFF 0xFFFF SCTP_LISTEN (Some SERVER_INAME) (Some CLIENT_INAME)).

Lemma created_server_some : ∃ c m out st env, created_server = Ret (Some c, m, out, st, env).
Proof.
  assert (∀ o : outcome (option created * mem * sent * rng * kpnet_env),
    (match o with Ret (Some _, _, _, _, _) => true | _ => false end) = true →
    ∃ c m out st env, o = Ret (Some c, m, out, st, env)) as H.
  { intros [[[[[[c|] m] out] st] env]| |] E; try discriminate E. eauto 6. }
  apply H. vm_cast_no_check (eq_refl true).
Qed.

Lemma created_never_replies_witness :
  ∃ c m out st env, created_server = Ret (Some c, m, out, st, env)
  ∧ if_ip_sctp true (λ _, Some zero_thread) true
      (frame_mem 1000 to_server_ip to_server_cmn (enc (Fld SCTP_INIT 0 (htons 20)) ++ enc (Init 0 0 0 0 0) ++ []))
      rng_init no_rings 1000 (Some (cr_assoc c)) = Fault.
Proof.
  destruct created_server_some as (c & m & out & st & env & E). exists c, m, out, st, env. split; [exact E|].
  refine (proj2 (created_never_replies (Q:=ringbuf) true (λ _, Some zero_thread) _ _ _ _ _ _ _ _ _ _ _ _ c m out st env E (or_introl eq_refl))
    _ rng_init 1000 ack_mac to_server_ip to_server_cmn (Fld SCTP_INIT 0 (htons 20)) (Init 0 0 0 0 0) [] eq_refl _ _ _ _ _ _ eq_refl eq_refl eq_refl).
  - apply bytes_at_write.
  - apply wf_ipv4; unfold fits; vm_compute; split; congruence.
  - apply wf_cmn; unfold fits; vm_compute; split; congruence.
  - apply wf_fld; unfold fits; vm_compute; split; congruence.
  - apply wf_init; unfold fits; vm_compute; split; congruence.
  - lia.
Defined.
