(* ===== verification/MacText.v ===== *)
(** * Textual MAC addresses (build_mac_client_raw.c)

    [build_mac_client_raw] reads two addresses "xx:xx:xx:xx:xx:xx" octet by
    octet through a buffer of three bytes and [strtol].  A string is its bytes
    with the final 0; reading past it, or writing past the buffer, is a
    [Fault]. *)
From S2P Require Import Prelude Bytes Mem Headers.

(** ** The C library: [strtol (s, NULL, 16)] *)
Definition is_space (c : Z) : bool := (c =? 32) || (9 <=? c) && (c <=? 13).

Definition hex_digit (c : Z) : option Z :=
  if (48 <=? c) && (c <=? 57) then Some (c - 48)
  else if (97 <=? c) && (c <=? 102) then Some (c - 87)
  else if (65 <=? c) && (c <=? 70) then Some (c - 55)
  else None.

Fixpoint skip_spaces (s : bytes) : bytes :=
  match s with c :: s' => if is_space c then skip_spaces s' else s | [] => [] end.

Fixpoint hex_digits (acc : Z) (s : bytes) : Z :=
  match s with
  | [] => acc
  | c :: s => match hex_digit c with Some d => hex_digits (acc * 16 + d) s | None => acc end
  end.

(** Spaces, a sign, "0x", digits; the value is clipped to a [long]. *)
Definition strtol16 (s : bytes) : Z :=
  let s := skip_spaces s in
  let '(neg, s) := match s with
    | 45 :: s => (true, s)
    | 43 :: s => (false, s)
    | _ => (false, s) end in
  let s := match s with
    | 48 :: x :: c :: s' =>
        if ((x =? 120) || (x =? 88)) && (if hex_digit c is Some _ then true else false) then c :: s' else s
    | _ => s end in
  let v := hex_digits 0 s in
  Z.max (- 2 ^ 63) (Z.min (2 ^ 63 - 1) (if neg : bool then - v else v)).

(** The characters up to the final 0. *)
Fixpoint c_string (s : bytes) : bytes :=
  match s with [] => [] | c :: s => if c =? 0 then [] else c :: c_string s end.

(** ** Code *)
(** [MAX_PACKET_LEN] *)
Definition MAX_FRAME_LEN : Z := 1516.

(** [for (; test[j] != ':' && test[j] != '\0';) octet[octet_num++] = src[j++]] *)
Fixpoint copy_octet (fuel : nat) (test src octet : bytes) (n j : nat) : outcome (bytes * nat * nat) :=
  match fuel with
  | O => Timeout
  | S fuel =>
      c ← get (test !! j);
      if (c =? 58) || (c =? 0) then Ret (octet, n, j)
      else
        x ← get (src !! j);
        _ ← get (octet !! n);
        copy_octet fuel test src (<[n := x]> octet) (S n) (S j)
  end.

(** [k] octets of an address; the buffer is passed on to the next. *)
Fixpoint mac_octets (k : nat) (test src octet : bytes) (j : nat) : outcome (bytes * bytes) :=
  match k with
  | O => Ret ([], octet)
  | S k =>
      '(octet, n, j) ← copy_octet 4 test src octet 0 j;
      _ ← get (octet !! n);
      let octet := <[n := 0]> octet in
      let value := u8 (strtol16 (c_string octet)) in
      '(rest, octet) ← mac_octets k test src octet (S j);
      Ret (value :: rest, octet)
  end.

(** [args->packet] and [args->plen]; [octet] is what the uninitialised buffer
    holds.  The result is the value returned, [plen] and the memory. *)
Definition build_mac_client_raw (malloc_mac : bool) (octet : bytes) (m : mem) (packet plen : Z)
    (gateway self : bytes) (typelen : Z) : outcome (bool * Z * mem) :=
  if packet =? NULL then Ret (false, plen, m)
  else if negb (sz_mac <=? MAX_FRAME_LEN) then Ret (false, plen, m)
  else if negb malloc_mac then Ret (false, plen, m)
  else
    '(dst, octet) ← mac_octets 6 gateway gateway octet 0;
    '(src, _) ← mac_octets 6 gateway self octet 0;
    m ← store m packet (dst ++ src ++ le_enc 2 (htons typelen));
    Ret (true, sz_mac, m).

(** ** Lemmas *)
Definition hex_char (d : Z) : Z := if d <? 10 then 48 + d else 87 + d.

(** An address as it is usually written. *)
Fixpoint mac_text (octets : bytes) : bytes :=
  match octets with
  | [] => []
  | [o] => [hex_char (o / 16); hex_char (o mod 16); 0]
  | o :: os => hex_char (o / 16) :: hex_char (o mod 16) :: 58 :: mac_text os
  end.

Definition octet_ok (o : Z) : bool :=
  let h := hex_char (o / 16) in let l := hex_char (o mod 16) in
  negb ((h =? 58) || (h =? 0)) && negb ((l =? 58) || (l =? 0)) && negb (h =? 0) && negb (l =? 0)
  && (u8 (strtol16 [h; l]) =? o).

Lemma octet_all o : is_u8 o → octet_ok o = true.
Proof.
  intros Ho. assert (forallb (λ i, octet_ok (Z.of_nat i)) (seq 0 256) = true) as H by (vm_compute; reflexivity).
  rewrite forallb_forall in H. unfold is_u8 in Ho. rewrite <-(Z2Nat.id o) by lia. apply H, in_seq. lia.
Qed.

(** One octet of two digits; where it ends is seen in the other text. *)
Lemma octet_step test src octet (i : nat) p o c k :
  is_u8 p → is_u8 o → length octet = 3%nat →
  test !! i = Some (hex_char (p / 16)) → test !! S i = Some (hex_char (p mod 16)) → test !! S (S i) = Some c →
  src !! i = Some (hex_char (o / 16)) → src !! S i = Some (hex_char (o mod 16)) → c = 58 ∨ c = 0 →
  mac_octets (S k) test src octet i
  = '(os, b) ← mac_octets k test src [hex_char (o / 16); hex_char (o mod 16); 0] (S (S (S i))); Ret (o :: os, b).
Proof.
  intros Hp Ho Hl H0 H1 H2 Hs0 Hs1 Hc. pose proof (octet_all o Ho) as Hok. pose proof (octet_all p Hp) as Hpk.
  unfold octet_ok in Hok, Hpk. rewrite !andb_true_iff, !negb_true_iff, Z.eqb_eq in Hok, Hpk.
  destruct Hok as ((((_ & _) & Hh) & Hlo) & Hv). destruct Hpk as ((((Ha & Hb) & _) & _) & _).
  destruct octet as [|x0 [|x1 [|x2 [|]]]]; try discriminate Hl.
  cbn [mac_octets copy_octet]. rewrite H0. cbn [get]. rewrite !bind_ret, Ha, Hs0. cbn [lookup list_lookup get].
  rewrite !bind_ret, H1. cbn [get]. rewrite !bind_ret, Hb, Hs1. cbn [insert list_insert lookup list_lookup get].
  rewrite !bind_ret, H2. cbn [get]. rewrite !bind_ret.
  assert ((c =? 58) || (c =? 0) = true) as -> by (destruct Hc as [-> | ->]; reflexivity).
  rewrite !bind_ret. cbn [insert list_insert lookup list_lookup get]. rewrite !bind_ret.
  destruct (mac_octets k test src _ _) as [[os b]| |]; try reflexivity.
  rewrite !bind_ret. cbn [c_string]. rewrite Hh, Hlo. cbn [Z.eqb]. by rewrite Hv.
Qed.

Lemma mac_octets_spec g s octet :
  length g = 6%nat → length s = 6%nat → bytes_ok g → bytes_ok s → length octet = 3%nat →
  ∃ b, mac_octets 6 (mac_text g) (mac_text s) octet 0 = Ret (s, b) ∧ length b = 3%nat.
Proof.
  intros Hg Hs Hgok Hsok Hb.
  do 7 (destruct g as [|? g]; try discriminate Hg). do 7 (destruct s as [|? s]; try discriminate Hs).
  repeat (apply Forall_cons in Hgok as [? Hgok]; apply Forall_cons in Hsok as [? Hsok]).
  set (t := mac_text [z; _; _; _; _; _]). set (u := mac_text [z5; _; _; _; _; _]).
  rewrite (octet_step t u octet 0 z z5 58) by (done || by left).
  rewrite (octet_step t u _ 3 z0 z6 58) by (done || by left).
  rewrite (octet_step t u _ 6 z1 z7 58) by (done || by left).
  rewrite (octet_step t u _ 9 z2 z8 58) by (done || by left).
  rewrite (octet_step t u _ 12 z3 z9 58) by (done || by left).
  rewrite (octet_step t u _ 15 z4 z10 0) by (done || by right).
  eexists. split; reflexivity.
Qed.

(** ** Properties *)

(** C35: two addresses written with two digits an octet are read back: the packet
    starts with the 14 bytes of the Ethernet header that they and [typelen]
    make. *)
Theorem mac_text_roundtrip octet m packet plen g s typelen :
  length g = 6%nat → length s = 6%nat → bytes_ok g → bytes_ok s → length octet = 3%nat →
  packet ≠ NULL → mapped m packet 14 →
  build_mac_client_raw true octet m packet plen (mac_text g) (mac_text s) typelen
  = Ret (true, 14, write m packet (g ++ s ++ le_enc 2 (htons typelen))).
Proof.
  intros Hg Hs Hgok Hsok Ho Hp Hm. unfold build_mac_client_raw. rewrite (proj2 (Z.eqb_neq packet NULL)) by done.
  cbn [negb]. change (negb (sz_mac <=? MAX_FRAME_LEN)) with false. cbn iota.
  destruct (mac_octets_spec g g octet Hg Hg Hgok Hgok Ho) as (b & E1 & Hb). rewrite E1, bind_ret.
  destruct (mac_octets_spec g s b Hg Hs Hgok Hsok Hb) as (b' & E2 & _). rewrite E2, bind_ret.
  rewrite store_mapped; [by rewrite bind_ret|]. rewrite !length_app, length_le_enc, Hg, Hs. exact Hm.
Qed.

Lemma mac_text_roundtrip_witness :
  build_mac_client_raw true [9; 9; 9] (write ∅ 1000 (replicate 14 0)) 1000 0
    (mac_text [1; 2; 3; 4; 5; 6]) (mac_text [0xAA; 0xBB; 0xCC; 0xDD; 0xEE; 0xFF]) 0x0800
  = Ret (true, 14, write (write ∅ 1000 (replicate 14 0)) 1000
      ([1; 2; 3; 4; 5; 6] ++ [0xAA; 0xBB; 0xCC; 0xDD; 0xEE; 0xFF] ++ le_enc 2 (htons 0x0800))).
Proof.
  apply (mac_text_roundtrip [9; 9; 9] (write ∅ 1000 (replicate 14 0)) 1000 0 [1; 2; 3; 4; 5; 6]
    [0xAA; 0xBB; 0xCC; 0xDD; 0xEE; 0xFF] 0x0800); try reflexivity.
  - repeat constructor; unfold is_u8; lia.
  - repeat constructor; unfold is_u8; lia.
  - unfold NULL. lia.
  - intros i Hi. rewrite lookup_write, length_replicate, decide_True by lia.
    apply lookup_lt_is_Some_2. rewrite length_replicate. lia.
Defined.

(** "1:2:3:4:5:6" *)
Definition short_text : bytes := [49; 58; 50; 58; 51; 58; 52; 58; 53; 58; 54; 0].

(** The second loop looks for the end of an octet in the text of the first
    address: when that one is written with single digits the second is read
    wrong, here aa:bb:cc:dd:ee:ff as 0a:00:0b:0c:00:0d. *)
Lemma mac_text_misread :
  mac_octets 6 short_text (mac_text [0xAA; 0xBB; 0xCC; 0xDD; 0xEE; 0xFF]) [0; 0; 0] 0
  = Ret ([0xA; 0; 0xB; 0xC; 0; 0xD], [100; 0; 0]).
Proof. vm_compute. reflexivity. Qed.

(** The lengths are not checked: an octet of four digits overflows the buffer,
    a text with five octets is read past its end. *)
Lemma mac_text_overflow :
  mac_octets 6 ([48; 48; 48; 49] ++ drop 1 short_text) ([48; 48; 48; 49] ++ drop 1 short_text) [0; 0; 0] 0 = Fault
  ∧ mac_octets 6 (drop 2 short_text) (drop 2 short_text) [0; 0; 0] 0 = Fault.
Proof. split; vm_compute; reflexivity. Qed.
