(* ===== verification/Fillers.v ===== *)
(** * Small functions (fill_udp.c, fill_ipv4.c, arp_fill_hdr.c, arp_fill_eth.c,
    tcp_fill_init_hdr.c, eth_send.c, update_time.c, recv_packet_to_ring_buffer.c)

    A block that [malloc] returns is a pointer, NULL or to mapped bytes with
    anything in them. *)
From S2P Require Import Prelude Bytes Mem Headers Tcp Segments Netlink MacText.

(** ** Code: headers *)
Record udp_t := Udp { udp_srcp : Z; udp_dstp : Z; udp_len : Z; udp_sum : Z }.
#[export, refine] Instance udp_struct : Struct udp_t := {|
  layout := [2; 2; 2; 2]%nat;
  fields h := [udp_srcp h; udp_dstp h; udp_len h; udp_sum h];
  of_fields vs := match vs with [a; b; c; d] => Udp a b c d | _ => Udp 0 0 0 0 end
|}.
Proof. all: struct_laws. Defined.

(** The field named [proto] is the first, where ARP has the hardware type. *)
Record arp_t := Arp { arp_proto : Z; arp_hrd : Z; arp_hln : Z; arp_pln : Z; arp_op : Z }.
#[export, refine] Instance arp_struct : Struct arp_t := {|
  layout := [2; 2; 1; 1; 2]%nat;
  fields h := [arp_proto h; arp_hrd h; arp_hln h; arp_pln h; arp_op h];
  of_fields vs := match vs with [a; b; c; d; e] => Arp a b c d e | _ => Arp 0 0 0 0 0 end
|}.
Proof. all: struct_laws. Defined.

(** [arp_eth_t]: an address is a whole [mac_t], 14 bytes; two bytes of padding
    before each 32-bit field. *)
Record arp_eth_t := ArpEth {
  sha : mac_t; ae_pad1 : Z; spa : Z; tha : mac_t; ae_pad2 : Z; tpa : Z
}.
#[export, refine] Instance arp_eth_struct : Struct arp_eth_t := {|
  layout := [6; 6; 2; 2; 4; 6; 6; 2; 2; 4]%nat;
  fields h := fields (sha h) ++ [ae_pad1 h; spa h] ++ fields (tha h) ++ [ae_pad2 h; tpa h];
  of_fields vs := match vs with
    | [a; b; c; d; e; f; g; h; i; j] => ArpEth (Mac a b c) d e (Mac f g h) i j
    | _ => ArpEth (Mac 0 0 0) 0 0 (Mac 0 0 0) 0 0 end
|}.
Proof. all: try struct_laws. - by intros [[] ? ? [] ? ?]. Defined.

(** [p] is the block [malloc] returns. *)
Definition fill_udp (m : mem) (p src dst plen : Z) : outcome (Z * mem) :=
  m ← st_fld udp_t 0 m p (htons src);
  m ← st_fld udp_t 1 m p (htons dst);
  m ← st_fld udp_t 3 m p (htons 0x3a8d);
  m ← st_fld udp_t 2 m p (htons plen);
  Ret (p, m).

Definition ARP_HRD_ETHER : Z := 1.
Definition ARP_PRO_IP : Z := 0x0800.
Definition ETH_ADDR_LEN : Z := 6.
Definition IP_ADDR_LEN : Z := 4.
Definition ARP_OP_REQUEST : Z := 1.

Definition arp_fill_hdr (m : mem) (p : Z) : outcome (Z * mem) :=
  m ← st_fld arp_t 0 m p (htons ARP_HRD_ETHER);
  m ← st_fld arp_t 1 m p (htons ARP_PRO_IP);
  m ← st_fld arp_t 2 m p ETH_ADDR_LEN;
  m ← st_fld arp_t 3 m p IP_ADDR_LEN;
  m ← st_fld arp_t 4 m p (htons ARP_OP_REQUEST);
  Ret (p, m).

(** [ifmac] is [get_ifmac (CLIENT_INAME, p)] on the memory; its result is not
    looked at. *)
Definition arp_fill_eth (ifmac : mem → Z → outcome (bool * mem)) (m : mem) (p : Z) : outcome (Z * mem) :=
  '(_, m) ← ifmac m p;
  m ← st_fld arp_eth_t 4 m p 0x0201A8C0;
  m ← st_fld arp_eth_t 9 m p 0x0301A8C0;
  m ← store m (p + field_off arp_eth_t 5) (replicate 6 0);
  Ret (p, m).

(** [fill_ipv4]: the assignments are commented out, [hdr] is the block as
    [malloc] gave it.  The result is the value returned and [plen]. *)
Definition fill_ipv4 (hdr : option bytes) (m : mem) (packet plen : Z) : outcome (bool * Z * mem) :=
  if packet =? NULL then Ret (false, plen, m)
  else if MAX_FRAME_LEN <? plen + sz_ip then Ret (false, plen, m)
  else
    match hdr with
    | None => Ret (false, plen, m)
    | Some bs => m ← store m (packet + plen) (take (Z.to_nat sz_ip) bs); Ret (true, u16 (plen + sz_ip), m)
    end.

(** [tcp_fill_init_hdr]: the local [args], [None] while it is not initialised,
    is read before [args = ars]; [hdr] is the block of [malloc], which no field
    of [args] keeps.  The members of [connection_args_t] used here are at these
    offsets. *)
Definition off_args_srcport : Z := 8.
Definition off_args_dstport : Z := 12.
Definition off_args_packet : Z := 16.
Definition off_args_plen : Z := 32.

Definition tcp_fill_init_hdr (args : option Z) (ars hdr : Z) (m : mem) : outcome (bool * mem) :=
  args ← get args;
  packet ← ld m (args + off_args_packet) 8;
  if packet =? NULL then Ret (false, m)
  else
    plen ← ld m (args + off_args_plen) 2;
    if negb (plen + Z.of_nat (size tcp_t) <=? MAX_FRAME_LEN) then Ret (false, m)
    else if hdr =? NULL then Ret (false, m)
    else
      let args := ars in
      srcport ← ld m (args + off_args_srcport) 4;
      m ← st_fld tcp_t 0 m hdr (u16 srcport);
      dstport ← ld m (args + off_args_dstport) 4;
      m ← st_fld tcp_t 1 m hdr (u16 dstport);
      m ← st_fld tcp_t 2 m hdr 0;
      m ← st_fld tcp_t 3 m hdr 0;
      m ← st_fld tcp_t 4 m hdr (htons (Z.lor (Z.shiftl (5 + 4 / 4) 12) 0x011));
      m ← st_fld tcp_t 5 m hdr (htons 64240);
      m ← st_fld tcp_t 6 m hdr 0;
      m ← st_fld tcp_t 7 m hdr 0;
      Ret (true, m).

(** ** Code: the socket and the clock *)

(** [eth_send]: the handle is NULL or its [sll_protocol]; the result is what
    [sendto] is given, [None] for -1, and the protocol stored. *)
Definition eth_send (eth : option Z) (m : mem) (buf len : Z) : outcome (option bytes * option Z) :=
  match eth with
  | None => Ret (None, None)
  | Some proto =>
      if (buf =? NULL) || (len <? sz_mac) then Ret (None, Some proto)
      else
        type ← ld_fld mac_t 2 m buf;
        data ← load m buf (Z.to_nat len);
        Ret (Some data, Some type)
  end.

(** [clock_gettime]: seconds and nanoseconds. *)
Definition update_time (tv_sec tv_nsec : Z) : Z := u64 (u64 (u64 tv_sec * 1000) + u64 tv_nsec / 1000000).

(** [recv_packet_to_ring_buffer]: the descriptor of the handle; [if ((buffer =
    NULL))] is never taken.  The result is the packets received. *)
Fixpoint recv_loop (fuel : nat) (recv : nat → option bytes) (got : list bytes) : outcome (list bytes) :=
  match fuel with
  | O => Timeout
  | S fuel =>
      let buffer := NULL in
      if negb (buffer =? NULL) then
        match recv fuel with None => Ret got | Some bs => recv_loop fuel recv (got ++ [bs]) end
      else recv_loop fuel recv got
  end.

Definition recv_packet_to_ring_buffer (fuel : nat) (recv : nat → option bytes) (eth : option Z) : outcome (list bytes) :=
  match eth with
  | None => Ret []
  | Some fd => if fd <? 0 then Ret [] else recv_loop fuel recv []
  end.

(** ** Lemmas *)
Section fill.
Context `{!Struct T}.

(** A block of the size of a struct, filled by a list of stores. *)
Lemma filled m p (x : T) :
  bytes_at m p (enc x) → ∀ i w v, layout T !! i = Some w →
  ∃ m', st_fld T i m p v = Ret m' ∧ bytes_at m' p (enc (set_field i v x))
  ∧ ∀ q, q < p ∨ p + Z.of_nat (size T) ≤ q → m' !! q = m !! q.
Proof.
  intros Hat i w v Hw.
  assert (buffer m p [enc x] m) as Hb by (split; [cbn [concat]; by rewrite app_nil_r | done]).
  destruct (st_fld_step m p [enc x] m 0 x i w v p Ret (λ m', buffer m p [enc (set_field i v x)] m')) as (m' & E & Hb').
  - done.
  - done.
  - done.
  - unfold seg_off. cbn. lia.
  - intros m' Hm. by apply returns_ret.
  - rewrite bind_id in E. exists m'. split; [done|]. destruct Hb' as [Hat' Hout].
    cbn [concat] in Hat', Hout. rewrite app_nil_r in Hat', Hout. split; [done|].
    intros q Hq. apply Hout. by rewrite length_enc.
Qed.
End fill.

(** A header filled into a block that held any bytes. *)
Lemma fill_udp_spec m p (bs : bytes) src dst plen :
  bytes_at m p bs → bytes_ok bs → length bs = 8%nat →
  ∃ m', fill_udp m p src dst plen = Ret (p, m') ∧ bytes_at m' p (enc (Udp (htons src) (htons dst) (htons plen) (htons 0x3a8d))).
Proof.
  intros Hat Hok Hl. assert (enc (dec bs : udp_t) = bs) as Ebs by (by apply enc_dec). rewrite <-Ebs in Hat. destruct (dec bs : udp_t) as [a b c d].
  unfold fill_udp.
  destruct (filled _ _ _ Hat 0 2 (htons src) eq_refl) as (m1 & E1 & H1 & _). rewrite E1, bind_ret.
  destruct (filled _ _ _ H1 1 2 (htons dst) eq_refl) as (m2 & E2 & H2 & _). rewrite E2, bind_ret.
  destruct (filled _ _ _ H2 3 2 (htons 0x3a8d) eq_refl) as (m3 & E3 & H3 & _). rewrite E3, bind_ret.
  destruct (filled _ _ _ H3 2 2 (htons plen) eq_refl) as (m4 & E4 & H4 & _). rewrite E4, bind_ret.
  eauto.
Qed.

Lemma arp_fill_hdr_spec m p (bs : bytes) :
  bytes_at m p bs → bytes_ok bs → length bs = 8%nat →
  ∃ m', arp_fill_hdr m p = Ret (p, m') ∧ bytes_at m' p [0; 1; 8; 0; 6; 4; 0; 1].
Proof.
  intros Hat Hok Hl. assert (enc (dec bs : arp_t) = bs) as Ebs by (by apply enc_dec). rewrite <-Ebs in Hat. destruct (dec bs : arp_t) as [a b c d e].
  unfold arp_fill_hdr.
  destruct (filled _ _ _ Hat 0 2 (htons ARP_HRD_ETHER) eq_refl) as (m1 & E1 & H1 & _). rewrite E1, bind_ret.
  destruct (filled _ _ _ H1 1 2 (htons ARP_PRO_IP) eq_refl) as (m2 & E2 & H2 & _). rewrite E2, bind_ret.
  destruct (filled _ _ _ H2 2 1 ETH_ADDR_LEN eq_refl) as (m3 & E3 & H3 & _). rewrite E3, bind_ret.
  destruct (filled _ _ _ H3 3 1 IP_ADDR_LEN eq_refl) as (m4 & E4 & H4 & _). rewrite E4, bind_ret.
  destruct (filled _ _ _ H4 4 2 (htons ARP_OP_REQUEST) eq_refl) as (m5 & E5 & H5 & _). rewrite E5, bind_ret.
  eauto.
Qed.

(** The address part of an ARP message is 20 bytes; this one is 40, because each
    hardware address is given a whole Ethernet header. *)
Lemma arp_eth_too_long : size arp_eth_t = 40%nat.
Proof. reflexivity. Qed.

(** What [fill_ipv4] puts into the packet is what [malloc] returned. *)
Lemma fill_ipv4_leaks bs m packet plen :
  packet ≠ NULL → 0 ≤ plen ≤ 1496 → length bs = 20%nat → mapped m (packet + plen) 20 →
  ∃ m', fill_ipv4 (Some bs) m packet plen = Ret (true, plen + 20, m') ∧ bytes_at m' (packet + plen) bs.
Proof.
  intros Hp Hl Hbs Hm. unfold fill_ipv4, MAX_FRAME_LEN, sz_ip. rewrite (proj2 (Z.eqb_neq packet NULL)) by done.
  rewrite (proj2 (Z.ltb_ge _ _)) by lia. rewrite take_ge by (rewrite Hbs; cbn; lia).
  rewrite store_mapped, bind_ret by (by rewrite Hbs). rewrite u16_id by (unfold is_u16; lia).
  eexists. split; [reflexivity|]. apply bytes_at_write.
Qed.

(** It never gets as far as [args = ars]. *)
Lemma tcp_fill_init_hdr_faults ars hdr m : tcp_fill_init_hdr None ars hdr m = Fault.
Proof. reflexivity. Qed.

(** The receiver of the old ring never calls [recv]. *)
Lemma recv_to_ring_spins fuel recv fd got :
  0 ≤ fd → recv_packet_to_ring_buffer fuel recv (Some fd) ≠ Ret got.
Proof.
  intros Hfd. cbn [recv_packet_to_ring_buffer]. rewrite (proj2 (Z.ltb_ge _ _)) by lia.
  generalize (@nil bytes) as l. induction fuel as [|fuel IH]; intros l; [done|]. cbn [recv_loop]. apply IH.
Qed.

(** The clock of [Client] in milliseconds: it never runs backwards and is less
    than a millisecond behind. *)
Lemma update_time_spec s n s' n' :
  0 ≤ s ≤ s' → s' < 2 ^ 40 → 0 ≤ n < 1000000000 → 0 ≤ n' < 1000000000 → s < s' ∨ n ≤ n' →
  update_time s n ≤ update_time s' n' ∧ is_u64 (update_time s n)
  ∧ 1000000 * update_time s n ≤ 1000000000 * s + n < 1000000 * (update_time s n + 1).
Proof.
  intros Hs Hs' Hn Hn' Hle. unfold update_time.
  assert (∀ a b, 0 ≤ a < 2 ^ 40 → 0 ≤ b < 1000000000 →
    u64 (u64 (u64 a * 1000) + u64 b / 1000000) = a * 1000 + b / 1000000) as E.
  { intros a b Ha Hb. rewrite (u64_id a), (u64_id b) by (unfold is_u64; lia).
    rewrite (u64_id (a * 1000)) by (unfold is_u64; lia). apply u64_id. unfold is_u64.
    Z.div_mod_to_equations. lia. }
  rewrite !E by lia. unfold is_u64. Z.div_mod_to_equations. lia.
Qed.
