(* ===== verification/Main.v ===== *)
(** * The program (main.c)

    [main] makes the veth pair, brings its two ends up and gives them their
    addresses, all of it twice, and then runs [create_client] in a thread that it
    waits for; the server's thread is commented out. *)
From S2P Require Import Prelude Bytes Mem RingBuf Umem Random Headers Xdp Assoc Resources Segments Netlink Create Startup.

(** ** Code *)

Section code.
Context {NL : NetlinkHeaders} {ENT : Entropy}.

Context (pf : platform).
(** The [k]-th answer that [recv] stores. *)
Context (answer : nat → bytes).
Abbreviation req := (pf_req pf).
Abbreviation resp := (pf_resp pf).
Abbreviation fd := (pf_fd pf).
Abbreviation pid := (pf_pid pf).

(** [up_if (get_ifid (name))] and [bind_if (get_ifid (name), ip)] *)
Definition up_name (k : nat) (m : mem) (out : sent) (name : bytes) : outcome (mem * sent) :=
  '(id, m, out) ← get_ifid m out req resp fd pid (answer k) name;
  up_if m out req fd pid id.
Definition bind_name (k : nat) (m : mem) (out : sent) (name : bytes) (ip : Z) : outcome (mem * sent) :=
  '(id, m, out) ← get_ifid m out req resp fd pid (answer k) name;
  bind_if m out req fd pid id ip.

(** One of the two identical halves; [k]: the answers received before. *)
Definition set_up_pair (k : nat) (m : mem) (out : sent) : outcome (mem * sent) :=
  '(m, out) ← create_veth_pair m out req fd pid CLIENT_INAME SERVER_INAME;
  '(m, out) ← up_name k m out CLIENT_INAME;
  '(m, out) ← up_name (k + 1) m out SERVER_INAME;
  '(m, out) ← bind_name (k + 2) m out CLIENT_INAME client_addr;
  bind_name (k + 3) m out SERVER_INAME server_addr.

Definition set_up (m : mem) : outcome (mem * sent) :=
  '(m, out) ← set_up_pair 0 m [];
  set_up_pair 4 m out.

(** [spawned]: [pthread_create] succeeds.  The result is what was sent to the
    kernel and what the process still holds. *)
Definition main (spawned : bool) (fuel turns : nat) (kernel : nat → xdp_t → xdp_t) (clock : nat → Z) (global : Z)
    (sctp_methods : list Z) (m : mem) (st : rng) (env : option kpnet_env) (s : os)
  : outcome (sent * os) :=
  '(m, out) ← set_up m;
  if negb spawned then Ret (out, s)
  else
    s ← create_client fuel turns kernel clock global pf sctp_methods m st env s;
    Ret (out, s).

(** ** Lemmas *)

(** The messages of one half, when the indices read are [i 0] .. [i 3]. *)
Definition pair_messages (i : nat → Z) : list bytes :=
  [veth_request pid CLIENT_INAME SERVER_INAME;
   link_request pid CLIENT_INAME; link_change RTM_NEWLINK (i 0%nat) IFF_UP IFF_UP pid;
   link_request pid SERVER_INAME; link_change RTM_NEWLINK (i 1%nat) IFF_UP IFF_UP pid;
   link_request pid CLIENT_INAME; addr_request (i 2%nat) client_addr pid;
   link_request pid SERVER_INAME; addr_request (i 3%nat) server_addr pid].

Lemma up_name_spec k m out name i :
  two_blocks m req resp → (length name ≤ 1000)%nat → read_as i (answer k) →
  up_name k m out name
  = Ret (m, out ++ [(fd, link_request pid name); (fd, link_change RTM_NEWLINK i IFF_UP IFF_UP pid)]).
Proof.
  intros Hb Hn Ha. unfold up_name. rewrite (get_ifid_read m out req resp fd pid name (answer k) i Hb Hn Ha), bind_ret.
  rewrite (up_if_spec _ _ _ _ _ _ (tb_req _ _ _ Hb) (tb_req_new _ _ _ Hb)). by rewrite <-app_assoc.
Qed.

Lemma bind_name_spec k m out name ip i :
  two_blocks m req resp → (length name ≤ 1000)%nat → read_as i (answer k) →
  bind_name k m out name ip = Ret (m, out ++ [(fd, link_request pid name); (fd, addr_request i ip pid)]).
Proof.
  intros Hb Hn Ha. unfold bind_name. rewrite (get_ifid_read m out req resp fd pid name (answer k) i Hb Hn Ha), bind_ret.
  rewrite (bind_if_spec _ _ _ _ _ _ _ (tb_req _ _ _ Hb) (tb_req_new _ _ _ Hb)). by rewrite <-app_assoc.
Qed.

Lemma set_up_pair_spec k m out i :
  two_blocks m req resp → (∀ j, (j < 4)%nat → read_as (i j) (answer (k + j))) →
  set_up_pair k m out = Ret (m, out ++ (pair fd <$> pair_messages i)).
Proof.
  intros Hb Ha. pose proof (Ha 0%nat ltac:(lia)) as H0. rewrite Nat.add_0_r in H0. unfold set_up_pair.
  rewrite (create_veth_pair_spec _ _ _ _ _ _ _ (tb_req _ _ _ Hb) (tb_req_new _ _ _ Hb)), bind_ret by (cbn; lia).
  rewrite (up_name_spec k _ _ _ (i 0%nat) Hb), bind_ret by (done || cbn; lia).
  rewrite (up_name_spec _ _ _ _ (i 1%nat) Hb), bind_ret by (apply Ha; lia) || (cbn; lia).
  rewrite (bind_name_spec _ _ _ _ _ (i 2%nat) Hb), bind_ret by (apply Ha; lia) || (cbn; lia).
  rewrite (bind_name_spec _ _ _ _ _ (i 3%nat) Hb) by (apply Ha; lia) || (cbn; lia).
  by rewrite <-!app_assoc.
Qed.

End code.

(** ** Properties *)
Section properties.
Context {NL : NetlinkHeaders} {ENT : Entropy}.

(** C34: [main] sends the kernel eighteen messages, the nine of one half twice:
    the pair; for each name the question for its index and the change that sets
    the interface up; the question again and the address.  The indices are
    whatever the answers are read as: when the kernel refuses the questions,
    because the pair was not made, [main] goes on, and changes the interface
    whose number is the length of the question, 47. *)
Theorem main_sets_up pf answer m i :
  two_blocks m (pf_req pf) (pf_resp pf) → (∀ k, (k < 8)%nat → read_as (i k) (answer k)) →
  set_up pf answer m
  = Ret (m, pair (pf_fd pf) <$> pair_messages pf i ++ pair_messages pf (λ k, i (4 + k)%nat))
  ∧ ∀ (hdr : nlmsghdr) err, read_as 47 (enc hdr ++ le_enc 4 err ++ link_request (pf_pid pf) CLIENT_INAME)
                          ∧ read_as 47 (enc hdr ++ le_enc 4 err ++ link_request (pf_pid pf) SERVER_INAME).
Proof.
  intros Hb Ha. split.
  - unfold set_up. rewrite (set_up_pair_spec _ _ 0 m [] i Hb), bind_ret by (intros; apply Ha; lia).
    rewrite (set_up_pair_spec _ _ 4 m _ (λ k, i (4 + k)%nat) Hb) by (intros; apply Ha; lia).
    by rewrite fmap_app.
  - intros hdr err. split; apply (refusal_read_as (pf_pid pf)); cbn; lia.
Qed.

(** The thread does not end: [main] waits for a [create_client] that cannot
    return once it has its environment. *)
Lemma main_never_returns pf answer fuel turns kernel clock global methods m st env s r :
  main pf answer true fuel turns kernel clock global methods m st (Some env) s ≠ Ret r.
Proof.
  unfold main. intros ([m' out] & _ & H)%bind_ret_inv. cbn [negb] in H. apply bind_ret_inv in H as (s' & H & _).
  by apply (proj1 (cleanup_faults fuel turns kernel clock global pf methods m' st env s s')) in H.
Qed.
End properties.

(** ** Witnesses *)
#[local] Existing Instance linux_headers.

(** The kernel refuses every question. *)
Definition refusals (k : nat) : bytes :=
  enc (Nlmsghdr 68 2 0 1 77) ++ le_enc 4 (-19)
  ++ link_request 77 (if Nat.even k then CLIENT_INAME else SERVER_INAME).

Lemma main_sets_up_witness :
  set_up demo_platform refusals ∅
  = Ret (∅, pair 3 <$> pair_messages demo_platform (λ _, 47) ++ pair_messages demo_platform (λ _, 47)).
Proof.
  refine (proj1 (main_sets_up demo_platform refusals ∅ (λ _, 47) _ _)).
  - apply (demo_platform_ok ∅). intros q _. apply lookup_empty.
  - intros k _. unfold refusals. destruct (Nat.even k); apply (refusal_read_as 77); cbn; lia.
Defined.
