(* ===== verification/Receive.v ===== *)
(** * The receiving thread (recv_packet.c, eth_receive_sctp.c)

    [recv_sctp_packet] takes buffers from an allocator, receives frames into
    them, drops the frames whose checksums are wrong and passes the others to
    the ring of received packets.  It runs beside the thread that takes the
    packets from the ring and gives the buffers back; [recv_sys_step] interleaves the
    two.  Each call of [push_ringbuf] or [pop_ringbuf] is a step ([RingConc] takes
    them apart), and so is each read through the pointer that [pop_ringbuf]
    gave: a push may come in between. *)
From S2P Require Import Prelude Bytes Mem Checksum Crc32c RingBuf Random Headers Assoc Frames Prefilled.

(** ** Code *)

(** What one call of [recv] can return: -1 with an [errno] that says to try
    again or another one, or the bytes it has put into the buffer. *)
Inductive recv_result :=
| RecvError (again : bool)
| Received (data : bytes).

(** Where the thread is: in the loop around [pop_ringbuf], in front of
    [buffer = cell->packet] with a pointer to a cell, in front of [recv], in
    the loop around [push_ringbuf], or at a call of [exit] (which ends the
    process: a step of the other thread after it is one more than there is). *)
Inductive phase :=
| Popping
| Reading (cell : nat)
| Receiving (buffer : Z)
| Pushing (buffer data_size : Z)
| Exited (code : Z).

Definition EXIT_SUCCESS : Z := 0.
Definition EXIT_FAILURE : Z := 1.
Definition BUFFER_SIZE : Z := 2048.

Section code.
Context {CRC : Crc32Insn} {Q : Type} {PQ : PacketQueue Q}.

(** [arg->allocator] and [arg->rb], and the memory. *)
Record receiver := Rcv { rv_phase : phase; rv_mem : mem; rv_allocator : Q; rv_rb : Q }.

(** One turn of one of the loops of [recv_sctp_packet]; [ev] is what [recv]
    returns if it is called. *)
Definition recv_step (s : receiver) (ev : recv_result) : outcome receiver :=
  let quit code buffer m :=
    '(_, q) ← pq_push (rv_allocator s) buffer BUFFER_SIZE;
    Ret (Rcv (Exited code) m q (rv_rb s)) in
  match rv_phase s with
  | Popping =>
      '(cell, q) ← pq_pop (rv_allocator s);
      let ph := match cell with None => Popping | Some i => Reading i end in
      Ret (Rcv ph (rv_mem s) q (rv_rb s))
  | Reading i =>
      c ← pq_cell (rv_allocator s) (Some i);
      Ret (Rcv (Receiving (cell_packet c)) (rv_mem s) (rv_allocator s) (rv_rb s))
  | Receiving buffer =>
      match ev with
      | RecvError true => Ret s
      | RecvError false => quit EXIT_FAILURE buffer (rv_mem s)
      | Received data =>
          m ← store (rv_mem s) buffer data;
          let data_size := Z.of_nat (length data) in
          if data_size =? 0 then quit EXIT_SUCCESS buffer m
          else
            '(z, m) ← sctp_check_checksums m buffer data_size;
            let ph := if negb (z =? 0) then Receiving buffer else Pushing buffer data_size in
            Ret (Rcv ph m (rv_allocator s) (rv_rb s))
      end
  | Pushing buffer data_size =>
      '(z, q) ← pq_push (rv_rb s) buffer data_size;
      let ph := if z =? -1 then Pushing buffer data_size else Popping in
      Ret (Rcv ph (rv_mem s) (rv_allocator s) q)
  | Exited _ => Ret s
  end.

(** [pop_ringbuf], and the contents of the cell when there is one. *)
Definition pop_cell (q : Q) : outcome (option ringbuf_cell * Q) :=
  '(i, q) ← pq_pop q;
  match i with
  | None => Ret (None, q)
  | Some _ => c ← pq_cell q i; Ret (Some c, q)
  end.

(** [eth_receive_sctp]: one frame into a buffer of [allocator_2048].  [recv]
    returns at most [cell->plen] bytes.  The last component is
    [current_packet] and [cursor]. *)
Definition eth_receive_sctp (m : mem) (allocator_2048 : Q) (packet cursor : Z) (ev : recv_result)
  : outcome (Z * mem * Q * (Z * Z)) :=
  '(cell, q) ← pop_cell allocator_2048;
  match cell with
  | None => Ret (-1, m, q, (packet, cursor))
  | Some c =>
      let buffer := cell_packet c in
      match ev with
      | RecvError _ => Ret (-1, m, q, (packet, cursor))
      | Received data =>
          m ← store m buffer data;
          if Z.of_nat (length data) <? sz_mac + sz_ip + sz_cmn then Ret (-1, m, q, (packet, cursor))
          else Ret (0, m, q, (buffer, buffer + sz_mac + sz_ip + sz_cmn))
      end
  end.

(** ** The thread and its neighbour

    The consumer of the ring pops a cell, reads its packet and then its length.
    [sy_app]: the buffers that the consumer, and the threads it hands them to,
    have.  [sy_taken] and [sy_given] record the frames that the receiver has
    accepted, and the contents that the consumer has found. *)
Inductive consumer :=
| Waiting
| GotCell (cell : nat)
| GotPacket (cell : nat) (packet : Z).

Record recv_sys := RecvSys {
  sy_rcv : receiver; sy_cons : consumer; sy_app : list Z; sy_taken : list bytes; sy_given : list bytes
}.

Definition accepted (s : receiver) (ev : recv_result) (s' : receiver) : list bytes :=
  match rv_phase s, ev, rv_phase s' with
  | Receiving _, Received data, Pushing _ _ => [data]
  | _, _, _ => []
  end.

(** [recv (fd, buffer, 2048, ..)] returns at most 2048 bytes. *)
Definition recv_fits (ev : recv_result) : Prop :=
  match ev with Received data => bytes_ok data ∧ Z.of_nat (length data) ≤ BUFFER_SIZE | _ => True end.

Inductive recv_sys_step : recv_sys → recv_sys → Prop :=
| sys_recv r r' ev k app taken given :
    recv_fits ev → recv_step r ev = Ret r' →
    recv_sys_step (RecvSys r k app taken given) (RecvSys r' k app (taken ++ accepted r ev r') given)
| sys_pop r i q app taken given :
    pq_pop (rv_rb r) = Ret (Some i, q) →
    recv_sys_step (RecvSys r Waiting app taken given)
      (RecvSys (Rcv (rv_phase r) (rv_mem r) (rv_allocator r) q) (GotCell i) app taken given)
| sys_packet r i c app taken given :
    pq_cell (rv_rb r) (Some i) = Ret c →
    recv_sys_step (RecvSys r (GotCell i) app taken given) (RecvSys r (GotPacket i (cell_packet c)) app taken given)
| sys_plen r i p c data app taken given :
    pq_cell (rv_rb r) (Some i) = Ret c → load (rv_mem r) p (Z.to_nat (cell_plen c)) = Ret data →
    recv_sys_step (RecvSys r (GotPacket i p) app taken given) (RecvSys r Waiting (p :: app) taken (given ++ [data]))
| sys_write r k b p data m app taken given :
    b ∈ app → b ≤ p → p + Z.of_nat (length data) ≤ b + BUFFER_SIZE → bytes_ok data →
    store (rv_mem r) p data = Ret m →
    recv_sys_step (RecvSys r k app taken given) (RecvSys (Rcv (rv_phase r) m (rv_allocator r) (rv_rb r)) k app taken given)
| sys_release r k b app app' q z taken given :
    app ≡ₚ b :: app' → pq_push (rv_allocator r) b BUFFER_SIZE = Ret (z, q) →
    recv_sys_step (RecvSys r k app taken given) (RecvSys (Rcv (rv_phase r) (rv_mem r) q (rv_rb r)) k app' taken given).
End code.
Arguments receiver Q : clear implicits.
Arguments recv_sys Q : clear implicits.

(** ** Lemmas: memory that holds bytes *)
Definition typed_mem (m : mem) : Prop := map_Forall (λ _ b, is_u8 b) m.

Lemma typed_write m p bs : typed_mem m → bytes_ok bs → typed_mem (write m p bs).
Proof.
  intros Hm Hok q b. rewrite lookup_write. case_decide; [|apply Hm].
  intros Hb. by eapply (Forall_lookup_1 is_u8 bs).
Qed.

Lemma store_typed m p bs m' : store m p bs = Ret m' → bytes_ok bs → typed_mem m → typed_mem m'.
Proof. unfold store. case_match; [|done]. intros [= <-] Hok Hm. by apply typed_write. Qed.

Lemma load_typed m p n bs : typed_mem m → load m p n = Ret bs → bytes_ok bs ∧ length bs = n.
Proof.
  intros Hm H. unfold load in H. apply get_ret_inv, read_Some in H as [Hl Hat]. split; [|done].
  apply Forall_lookup_2. intros i b Hb. pose proof (lookup_lt_Some _ _ _ Hb) as Hi.
  apply (Hm (p + Z.of_nat i)). by rewrite Hat.
Qed.

(** ** Lemmas: the check *)
Section check.
Context {CRC : Crc32Insn}.

(** [m'] differs from [m] in the [n] bytes at [p] at most. *)
Definition same_outside (m m' : mem) (p n : Z) : Prop := ∀ q, q < p ∨ p + n ≤ q → m' !! q = m !! q.

Lemma store_outside m p bs m' b n :
  store m p bs = Ret m' → b ≤ p → p + Z.of_nat (length bs) ≤ b + n → same_outside m m' b n.
Proof.
  unfold store. case_match; [|done]. intros [= <-] H1 H2 q Hq.
  rewrite lookup_write, decide_False by lia. done.
Qed.

Lemma same_outside_trans m1 m2 m3 p n : same_outside m1 m2 p n → same_outside m2 m3 p n → same_outside m1 m3 p n.
Proof. intros H1 H2 q Hq. by rewrite H2, H1. Qed.

(** Clearing a field and putting back what was read. *)
Lemma st_restore m p n v w m1 m2 :
  typed_mem m → ld m p n = Ret v → Mem.st m p n w = Ret m1 → Mem.st m1 p n v = Ret m2 → m2 = m.
Proof.
  intros Hm Hl H1 H2. unfold ld in Hl. apply bind_ret_inv in Hl as (bs & Hl & [= <-]).
  pose proof (load_typed _ _ _ _ Hm Hl) as [Hok Hn]. unfold load in Hl. apply get_ret_inv, read_Some in Hl as [_ Hat].
  unfold Mem.st, store in H1, H2. destruct (read m _ _); [|done]. injection H1 as <-.
  destruct (read _ _ _); [|done]. injection H2 as <-.
  rewrite write_write by (by rewrite !length_le_enc). rewrite <-Hn at 1. rewrite le_enc_dec by done.
  by apply write_same.
Qed.

Lemma st_header m p q k v m' :
  typed_mem m → Mem.st m q k v = Ret m' → p ≤ q → q + Z.of_nat k ≤ p + 46 →
  typed_mem m' ∧ same_outside m m' p 46.
Proof.
  intros Hm H H1 H2. split; [by apply (store_typed _ _ _ _ H (le_enc_ok _ _))|].
  eapply store_outside; [exact H|done|]. by rewrite length_le_enc.
Qed.

(** The check keeps memory as it is when it accepts, and otherwise changes at
    most the headers. *)
Lemma check_frame m p n z m' :
  typed_mem m → sctp_check_checksums m p n = Ret (z, m') →
  typed_mem m' ∧ same_outside m m' p 46 ∧ (z = 0 → m' = m).
Proof.
  intros Hm H. unfold sctp_check_checksums in H. case_match; [by simplify_eq|]. cbv zeta in H.
  apply bind_ret_inv in H as (c1 & L1 & H). apply bind_ret_inv in H as (m1 & S1 & H).
  destruct (st_header _ p _ _ _ _ Hm S1) as [Hm1 Ho1]; [unfold sz_mac, off_ip_check; change (field_off ipv4_t 7) with 10; lia..|].
  apply bind_ret_inv in H as (hdr & _ & H). case_match; [by simplify_eq|].
  apply bind_ret_inv in H as (m2 & S2 & H). pose proof (st_restore _ _ _ _ _ _ _ Hm L1 S1 S2) as ->.
  apply bind_ret_inv in H as (len & _ & H). case_match; [by simplify_eq|].
  apply bind_ret_inv in H as (flen & _ & H). apply bind_ret_inv in H as (d1 & _ & H).
  apply bind_ret_inv in H as (c2 & L2 & H). apply bind_ret_inv in H as (m3 & S3 & H).
  destruct (st_header _ p _ _ _ _ Hm S3) as [Hm3 Ho3];
    [unfold sz_mac, sz_ip, off_cmn_check; change (field_off sctp_cmn_hdr_t 3) with 8; lia..|].
  apply bind_ret_inv in H as (d2 & _ & H). case_match; [by simplify_eq|].
  apply bind_ret_inv in H as (m4 & S4 & [= <- <-]). by pose proof (st_restore _ _ _ _ _ _ _ Hm L2 S3 S4) as ->.
Qed.
End check.

(** ** Lemmas: the invariant *)
Section invariant.
Context {CRC : Crc32Insn} {Q : Type} {PQ : PacketQueue Q}.
Context (bufs : list Z) (ca cr : nat).
Implicit Types (m : mem) (s : recv_sys Q) (r : receiver Q).

(** Two buffers do not overlap. *)
Definition spaced : Prop := ∀ b c, b ∈ bufs → c ∈ bufs → b ≠ c → b + BUFFER_SIZE ≤ c ∨ c + BUFFER_SIZE ≤ b.

Definition passing (ph : phase) : list item := match ph with Pushing b n => [(b, n)] | _ => [] end.

(** The cell [i], popped from a ring that holds [l], still gives [it]: it is
    written again when the ring has filled up. *)
Definition held_cell (cap : nat) (q : Q) (l : list item) (i : nat) (it : item) : Prop :=
  ∃ d, pq_kept q i d it ∧ (d + S (length l) = cap)%nat.

(** [h]: the buffer that the receiver has, or is about to read from its cell. *)
Definition in_hand (al : Q) (la : list item) (ph : phase) (h : list Z) : Prop :=
  match ph with
  | Reading i => ∃ it, h = [it.1] ∧ held_cell ca al la i it
  | Receiving b | Pushing b _ => h = [b]
  | Popping | Exited _ => h = []
  end.

(** [pd]: the packet whose cell the consumer is reading. *)
Definition pending (rb : Q) (lr : list item) (k : consumer) (pd : list item) : Prop :=
  match k with
  | Waiting => pd = []
  | GotCell i => ∃ it, pd = [it] ∧ held_cell cr rb lr i it
  | GotPacket i p => ∃ it, pd = [it] ∧ p = it.1 ∧ held_cell cr rb lr i it
  end.

(** A queued packet and the frame in it. *)
Definition frame_in m (it : item) (f : bytes) : Prop :=
  bytes_at m it.1 f ∧ it.2 = Z.of_nat (length f) ∧ Z.of_nat (length f) ≤ BUFFER_SIZE.

(** Every buffer is in one place; the packets queued hold the accepted frames
    that have not been given yet. *)
Definition recv_sys_inv s : Prop :=
  ∃ la lr h pd fs, pq_rep ca (rv_allocator (sy_rcv s)) la ∧ pq_rep cr (rv_rb (sy_rcv s)) lr
  ∧ in_hand (rv_allocator (sy_rcv s)) la (rv_phase (sy_rcv s)) h ∧ pending (rv_rb (sy_rcv s)) lr (sy_cons s) pd
  ∧ la.*1 ++ h ++ (pd ++ lr).*1 ++ sy_app s ≡ₚ bufs
  ∧ typed_mem (rv_mem (sy_rcv s))
  ∧ Forall2 (frame_in (rv_mem (sy_rcv s))) ((pd ++ lr) ++ passing (rv_phase (sy_rcv s))) fs
  ∧ sy_given s ++ fs = sy_taken s.

Lemma pop_cell_spec cap q (l : list item) :
  pq_rep cap q l →
  match l with
  | [] => pop_cell q = Ret (None, q)
  | it :: l' => ∃ k q', pop_cell q = Ret (Some (Cell k it.2 it.1), q') ∧ pq_rep cap q' l'
  end.
Proof.
  intros H. unfold pop_cell. destruct l as [|it l'].
  - rewrite (pq_pop_empty _ _ H). reflexivity.
  - destruct (pq_pop_ok _ _ _ _ H) as (i & q' & -> & Hq & s & Hc). cbn [mbind outcome_bind].
    rewrite Hc. cbn [mbind outcome_bind]. eauto.
Qed.

(** Frames in other buffers stay. *)
Lemma frames_stay m m' b (l : list item) fs :
  spaced → b ∈ bufs → same_outside m m' b BUFFER_SIZE →
  (∀ it, it ∈ l → it.1 ∈ bufs ∧ it.1 ≠ b) → Forall2 (frame_in m) l fs → Forall2 (frame_in m') l fs.
Proof.
  intros Hs Hb Ho Hl HF. induction HF as [|it f l fs (Hat & Hn & Hf) HF IH]; constructor.
  - destruct (Hl it) as [Hin Hne]; [by left|]. split; [|done]. intros i Hi. rewrite Ho; [by apply Hat|].
    destruct (Hs b it.1); try done; lia.
  - apply IH. intros it' Hit. apply Hl. by right.
Qed.

Lemma nodup_apart (la h lr app : list Z) :
  NoDup bufs → la ++ h ++ lr ++ app ≡ₚ bufs →
  (∀ b, b ∈ h ∨ b ∈ lr ∨ b ∈ app → b ∈ bufs) ∧ (∀ b c, b ∈ h → c ∈ lr → c ≠ b)
  ∧ (∀ b c, b ∈ app → c ∈ h ++ lr → c ≠ b).
Proof.
  intros Hnd Hp. rewrite <-Hp in Hnd. apply NoDup_app in Hnd as (_ & _ & Hnd).
  apply NoDup_app in Hnd as (_ & H1 & Hnd). apply NoDup_app in Hnd as (_ & H2 & _).
  split; [|split].
  - intros b Hb. rewrite <-Hp, !elem_of_app. tauto.
  - intros b c Hb Hc ->. apply (H1 _ Hb). rewrite elem_of_app. tauto.
  - intros b c Hb Hc ->. apply elem_of_app in Hc as [Hc|Hc]; [apply (H1 _ Hc); rewrite elem_of_app; tauto | by apply (H2 _ Hc)].
Qed.

Lemma pop_held cap q it l i q' :
  pq_rep cap q (it :: l) → (S (length l) ≤ cap)%nat → pq_pop q = Ret (Some i, q') →
  pq_rep cap q' l ∧ held_cell cap q' l i it.
Proof.
  intros Hq Hl E. pose proof (pq_pop_kept _ _ _ _ _ _ Hq E) as Hk.
  destruct (pq_pop_ok _ _ _ _ Hq) as (i' & q2 & E' & Hq2 & _). rewrite E in E'. injection E' as <- <-.
  split; [done|]. exists (cap - S (length l))%nat. split; [done|lia].
Qed.

Lemma held_push cap q l i it p n z q' :
  pq_rep cap q l → held_cell cap q l i it → (S (S (length l)) ≤ cap)%nat → pq_push q p n = Ret (z, q') →
  held_cell cap q' (l ++ [(p, n)]) i it.
Proof.
  intros Hq (d & Hk & Hd) Hl E. destruct d as [|d]; [lia|].
  exists d. split; [by eapply pq_push_kept | rewrite length_app; cbn; lia].
Qed.

Lemma held_read cap q l i it c :
  held_cell cap q l i it → pq_cell q (Some i) = Ret c → cell_packet c = it.1 ∧ cell_plen c = it.2.
Proof. intros (d & Hk & _) E. destruct (pq_kept_cell _ _ _ _ Hk) as (s & E'). rewrite E in E'. by injection E' as ->. Qed.

Context (Hnd : NoDup bufs) (Hsp : spaced) (Hca : (length bufs ≤ ca)%nat) (Hcr : (length bufs ≤ cr)%nat).

(** There is room for every buffer in either ring. *)
Lemma room (la : list item) h (pl : list item) app :
  la.*1 ++ h ++ pl.*1 ++ app ≡ₚ bufs →
  (length la + length h + length pl + length app ≤ ca)%nat ∧ (length la + length h + length pl + length app ≤ cr)%nat.
Proof. intros H%Permutation_length. rewrite !length_app, !length_fmap in H. lia. Qed.

(** Giving the buffer in hand back. *)
Lemma quit_inv b code m m' al rb k app taken given z q :
  recv_sys_inv (RecvSys (Rcv (Receiving b) m al rb) k app taken given) → m' = m →
  pq_push al b BUFFER_SIZE = Ret (z, q) →
  recv_sys_inv (RecvSys (Rcv (Exited code) m' q rb) k app taken given).
Proof.
  intros (la & lr & h & pd & fs & Ha & Hr & Hh & Hk & Hp & Hm & Hf & Hg) -> E. cbn in *. subst h.
  destruct (room _ _ _ _ Hp) as [Hroom _]. cbn in Hroom.
  destruct (pq_push_ok ca al la b BUFFER_SIZE Ha) as (q' & E' & Ha'); [lia|].
  rewrite E' in E. injection E as <- <-. exists (la ++ [(b, BUFFER_SIZE)]), lr, [], pd, fs. cbn.
  do 4 (split; [done|]). split; [|done]. by rewrite fmap_app, <-app_assoc.
Qed.

(** A frame received and checked. *)
Lemma received_inv b m m1 m' al rb k app taken given data z :
  recv_sys_inv (RecvSys (Rcv (Receiving b) m al rb) k app taken given) →
  bytes_ok data → Z.of_nat (length data) ≤ BUFFER_SIZE → store m b data = Ret m1 →
  sctp_check_checksums m1 b (Z.of_nat (length data)) = Ret (z, m') →
  let ph := if negb (z =? 0) then Receiving b else Pushing b (Z.of_nat (length data)) in
  recv_sys_inv (RecvSys (Rcv ph m' al rb) k app (taken ++ if negb (z =? 0) then [] else [data]) given).
Proof.
  intros (la & lr & h & pd & fs & Ha & Hr & Hh & Hk & Hp & Hm & Hf & Hg) Hok Hlen S C. cbn in *. subst h.
  destruct (nodup_apart (la.*1) [b] ((pd ++ lr).*1) app Hnd Hp) as (Hin & Hne & _).
  pose proof (store_typed _ _ _ _ S Hok Hm) as Hm1.
  pose proof (store_outside _ _ _ _ b BUFFER_SIZE S ltac:(lia) ltac:(lia)) as Ho1.
  destruct (check_frame _ _ _ _ _ Hm1 C) as (Hm' & Ho2 & Hz).
  assert (Forall2 (frame_in m') (pd ++ lr) fs) as Hf'.
  { rewrite app_nil_r in Hf. eapply (frames_stay m m' b); try done.
    - apply Hin. left. by left.
    - intros q Hq. rewrite Ho2, Ho1 by (unfold BUFFER_SIZE in *; lia). done.
    - intros it Hit. assert (it.1 ∈ (pd ++ lr).*1) as Hit' by (by apply list_elem_of_fmap_2).
      split; [apply Hin; tauto | apply Hne; [by left|done]]. }
  destruct (Z.eqb_spec z 0) as [->|Hz0]; cbn [negb].
  - exists la, lr, [b], pd, (fs ++ [data]). cbn. do 6 (split; [done|]).
    split; [|by rewrite app_assoc, Hg]. apply Forall2_app; [done|]. constructor; [|constructor].
    split; [|done]. rewrite (Hz eq_refl). unfold store in S. case_match; [|done]. injection S as <-. apply bytes_at_write.
  - exists la, lr, [b], pd, fs. cbn. rewrite !app_nil_r. by repeat (split; [done|]).
Qed.

(** The loops around [pop_ringbuf] and [push_ringbuf]. *)
Lemma popping_inv m al rb k app taken given x q :
  recv_sys_inv (RecvSys (Rcv Popping m al rb) k app taken given) → pq_pop al = Ret (x, q) →
  recv_sys_inv (RecvSys (Rcv (match x with None => Popping | Some i => Reading i end) m q rb) k app taken given).
Proof.
  intros (la & lr & h & pd & fs & Ha & H) E. cbn in *. destruct la as [|it la].
  - rewrite (pq_pop_empty _ _ Ha) in E. injection E as <- <-. by exists [], lr, h, pd, fs.
  - destruct H as (Hr & -> & Hk & Hp & Hm & Hf & Hg). destruct (room _ _ _ _ Hp) as [Hroom _]. cbn in Hroom.
    destruct (pq_pop_ok _ _ _ _ Ha) as (i & q' & E' & _). rewrite E in E'. injection E' as -> <-.
    destruct (pop_held _ _ _ _ _ _ Ha ltac:(lia) E) as [Ha' Hheld].
    exists la, lr, [it.1], pd, fs. cbn. split; [done|]. split; [done|]. split; [eauto|]. split; [done|].
    split; [|done]. rewrite <-Hp. cbn. by rewrite <-Permutation_middle.
Qed.

Lemma pushing_inv b n m al rb k app taken given z q :
  recv_sys_inv (RecvSys (Rcv (Pushing b n) m al rb) k app taken given) → pq_push rb b n = Ret (z, q) →
  recv_sys_inv (RecvSys (Rcv (if z =? -1 then Pushing b n else Popping) m al q) k app taken given).
Proof.
  intros (la & lr & h & pd & fs & Ha & Hr & Hh & Hk & Hp & Hm & Hf & Hg) E. cbn in *. subst h.
  destruct (room _ _ _ _ Hp) as [_ Hroom]. rewrite length_app in Hroom. cbn in Hroom.
  destruct (pq_push_ok _ _ _ b n Hr) as (q' & E' & Hr'); [lia|]. pose proof E as Epush. rewrite E' in E. injection E as <- <-.
  exists la, (lr ++ [(b, n)]), [], pd, fs. cbn. rewrite app_nil_r. do 3 (split; [done|]). split; [|split; [|split; [done|]]].
  - destruct k as [|i|i p]; cbn in Hk |- *; [done|destruct Hk as (it & -> & Hc)|destruct Hk as (it & -> & -> & Hc)];
      cbn in Hroom; exists it; eauto 6 using held_push with lia.
  - rewrite <-Hp, app_assoc, !fmap_app. cbn. solve_Permutation.
  - by rewrite app_assoc.
Qed.

Lemma recv_step_inv r ev r' k app taken given :
  recv_fits ev → recv_step r ev = Ret r' →
  recv_sys_inv (RecvSys r k app taken given) → recv_sys_inv (RecvSys r' k app (taken ++ accepted r ev r') given).
Proof.
  intros Hev E Hinv. destruct r as [ph m al rb]. unfold recv_step in E. cbn in E.
  destruct ph as [|i|b|b n|code]; unfold accepted; cbn.
  - apply bind_ret_inv in E as ([cell q] & E & [= <-]). rewrite app_nil_r. by eapply popping_inv.
  - apply bind_ret_inv in E as (c & E & [= <-]). rewrite app_nil_r.
    destruct Hinv as (la & lr & h & pd & fs & Ha & Hr & (it & -> & Hc) & H). cbn in *.
    destruct (held_read _ _ _ _ _ _ Hc E) as [Hpk _].
    exists la, lr, [it.1], pd, fs. cbn. split; [done|]. split; [done|]. split; [congruence|done].
  - destruct ev as [[]|data].
    + injection E as <-. by rewrite app_nil_r.
    + apply bind_ret_inv in E as ([z q] & E & [= <-]). rewrite app_nil_r. by eapply quit_inv.
    + apply bind_ret_inv in E as (m1 & S & E). destruct Hev as [Hok Hlen].
      destruct (Z.eqb_spec (Z.of_nat (length data)) 0) as [H0|H0].
      * apply bind_ret_inv in E as ([z q] & E & [= <-]). rewrite app_nil_r.
        destruct data; [|done]. injection S as <-. by eapply quit_inv.
      * apply bind_ret_inv in E as ([z m'] & C & [= <-]). pose proof (received_inv _ _ _ _ _ _ _ _ _ _ _ _ Hinv Hok Hlen S C) as H.
        cbn in H. by destruct (negb (z =? 0)).
  - apply bind_ret_inv in E as ([z q] & E & [= <-]). pose proof (pushing_inv _ _ _ _ _ _ _ _ _ _ _ Hinv E) as H.
    by destruct (z =? -1); rewrite app_nil_r.
  - injection E as <-. by rewrite app_nil_r.
Qed.

(** The consumer. *)
Lemma consumer_pop_inv r i q app taken given :
  recv_sys_inv (RecvSys r Waiting app taken given) → pq_pop (rv_rb r) = Ret (Some i, q) →
  recv_sys_inv (RecvSys (Rcv (rv_phase r) (rv_mem r) (rv_allocator r) q) (GotCell i) app taken given).
Proof.
  intros (la & lr & h & pd & fs & Ha & Hr & Hh & Hk & Hp & H) E. cbn in *. subst pd. destruct (room _ _ _ _ Hp) as [_ Hroom].
  destruct lr as [|it lr]; [by rewrite (pq_pop_empty _ _ Hr) in E|]. cbn in Hroom.
  destruct (pop_held _ _ _ _ _ _ Hr ltac:(lia) E) as [Hr' Hheld]. exists la, lr, h, [it], fs. cbn.
  do 3 (split; [done|]). split; [eauto|]. by split.
Qed.

Lemma consumer_read_inv r i p c data app taken given :
  recv_sys_inv (RecvSys r (GotPacket i p) app taken given) →
  pq_cell (rv_rb r) (Some i) = Ret c → load (rv_mem r) p (Z.to_nat (cell_plen c)) = Ret data →
  recv_sys_inv (RecvSys r Waiting (p :: app) taken (given ++ [data])).
Proof.
  intros (la & lr & h & pd & fs & Ha & Hr & Hh & (it & -> & -> & Hc) & Hp & Hm & Hf & Hg) E L. cbn in *.
  destruct (held_read _ _ _ _ _ _ Hc E) as [_ Hn]. rewrite Hn in L.
  apply Forall2_cons_inv_l in Hf as (f & fs' & (Hat & Hlf & Hlen) & Hf & ->).
  rewrite (load_at' _ _ _ f Hat) in L by (rewrite Hlf; lia). injection L as <-.
  exists la, lr, h, [], fs'. cbn. do 4 (split; [done|]). split; [rewrite <-Hp; solve_Permutation|].
  split; [done|]. split; [done|]. by rewrite <-app_assoc.
Qed.

Lemma write_inv r k b p data m app taken given :
  recv_sys_inv (RecvSys r k app taken given) → b ∈ app → b ≤ p → p + Z.of_nat (length data) ≤ b + BUFFER_SIZE →
  bytes_ok data → store (rv_mem r) p data = Ret m →
  recv_sys_inv (RecvSys (Rcv (rv_phase r) m (rv_allocator r) (rv_rb r)) k app taken given).
Proof.
  intros (la & lr & h & pd & fs & Ha & Hr & Hh & Hk & Hp & Hm & Hf & Hg) Hb H1 H2 Hok S. cbn in *.
  destruct (nodup_apart _ _ _ _ Hnd Hp) as (Hin & _ & Hne).
  exists la, lr, h, pd, fs. cbn. do 5 (split; [done|]). split; [by apply (store_typed _ _ _ _ S Hok Hm)|].
  split; [|done]. eapply (frames_stay (rv_mem r) m b); try done; [apply Hin; tauto | by eapply store_outside|].
  intros it [Hit|Hit]%elem_of_app.
  - assert (it.1 ∈ (pd ++ lr).*1) by (by apply list_elem_of_fmap_2). split; [apply Hin; tauto|].
    apply Hne; [done|]. rewrite elem_of_app. tauto.
  - assert (it.1 ∈ h) by (destruct (rv_phase r); cbn in *; set_solver).
    split; [apply Hin; tauto|]. apply Hne; [done|]. rewrite elem_of_app. tauto.
Qed.

Lemma release_inv r k b app app' q z taken given :
  recv_sys_inv (RecvSys r k app taken given) → app ≡ₚ b :: app' → pq_push (rv_allocator r) b BUFFER_SIZE = Ret (z, q) →
  recv_sys_inv (RecvSys (Rcv (rv_phase r) (rv_mem r) q (rv_rb r)) k app' taken given).
Proof.
  intros (la & lr & h & pd & fs & Hal & Hr & Hh & Hk & Hp & Hm & Hf & Hg) Ha E. cbn in *. rewrite Ha in Hp.
  destruct (room _ _ _ _ Hp) as [Hroom _]. cbn in Hroom.
  destruct (pq_push_ok ca (rv_allocator r) la b BUFFER_SIZE Hal) as (q' & E' & Hal'); [lia|].
  pose proof E as Epush. rewrite E' in E. injection E as <- <-. exists (la ++ [(b, BUFFER_SIZE)]), lr, h, pd, fs. cbn.
  do 2 (split; [done|]). split; [|split; [done|split; [rewrite <-Hp, fmap_app; cbn; solve_Permutation|done]]].
  destruct (rv_phase r); cbn in Hh |- *; try done. destruct Hh as (it & -> & Hc). cbn in Hroom.
  exists it. split; [done|]. eapply held_push; [exact Hal | exact Hc | lia | exact Epush].
Qed.

Lemma recv_sys_step_inv s s' : recv_sys_step s s' → recv_sys_inv s → recv_sys_inv s'.
Proof.
  intros H Hinv. destruct H.
  - by eapply recv_step_inv.
  - by eapply consumer_pop_inv.
  - destruct Hinv as (la & lr & h & pd & fs & Ha & Hr & Hh & (it & -> & Hc) & Hp). cbn in *.
    destruct (held_read _ _ _ _ _ _ Hc ltac:(eassumption)) as [-> _]. exists la, lr, h, [it], fs. cbn.
    do 3 (split; [done|]). split; [eauto|done].
  - by eapply consumer_read_inv.
  - by eapply write_inv.
  - by eapply release_inv.
Qed.
End invariant.

(** ** Lemmas: a complete frame *)
Section frame.
Context {CRC : Crc32Insn} {Q : Type} {PQ : PacketQueue Q}.

Lemma complete_frame_spec b m (al rb : Q) cr lr mac ip cmn fld body pad ev :
  let data := frame_bytes mac ip cmn fld body ++ pad in
  let n := Z.of_nat (length data) in
  wf ip → wf cmn → wf fld → bytes_ok body → ntohs (fld_len fld) = sz_fld + Z.of_nat (length body) →
  mapped m b (length data) → pq_rep cr rb lr → (length lr < cr)%nat →
  if frame_valid ip cmn fld body
  then ∃ q, recv_step (Rcv (Receiving b) m al rb) (Received data) = Ret (Rcv (Pushing b n) (write m b data) al rb)
    ∧ recv_step (Rcv (Pushing b n) (write m b data) al rb) ev = Ret (Rcv Popping (write m b data) al q)
    ∧ pq_rep cr q (lr ++ [(b, n)])
  else ∃ m', recv_step (Rcv (Receiving b) m al rb) (Received data) = Ret (Rcv (Receiving b) m' al rb).
Proof.
  intros data n Hip Hcmn Hfld Hb Hlen Hm Hr Hlt.
  assert (46 ≤ n) as Hn.
  { unfold n, data, frame_bytes. rewrite !length_app, (length_enc mac), (length_enc ip), (length_enc cmn).
    change (size mac_t) with 14%nat. change (size ipv4_t) with 20%nat. change (size sctp_cmn_hdr_t) with 12%nat. lia. }
  pose proof (bytes_at_write m b data) as Hat. apply bytes_at_app in Hat as [Hat _].
  pose proof (check_spec _ b n mac ip cmn fld body Hat Hip Hcmn Hfld Hb Hlen Hn) as Hc.
  assert (∀ z m', sctp_check_checksums (write m b data) b n = Ret (z, m') →
    recv_step (Rcv (Receiving b) m al rb) (Received data)
    = Ret (Rcv (if negb (z =? 0) then Receiving b else Pushing b n) m' al rb)) as Hstep.
  { intros z m' E. unfold recv_step. cbn [rv_phase rv_mem rv_allocator rv_rb].
    rewrite store_mapped by done. rewrite bind_ret. cbv zeta. fold n. rewrite (proj2 (Z.eqb_neq n 0)) by lia.
    rewrite E, bind_ret. reflexivity. }
  destruct (frame_valid ip cmn fld body).
  - destruct (pq_push_ok _ _ _ b n Hr Hlt) as (q & E & Hq). exists q.
    split; [exact (Hstep 0 _ Hc)|]. split; [|done]. unfold recv_step. cbn [rv_phase rv_mem rv_allocator rv_rb].
    rewrite E. reflexivity.
  - destruct Hc as [m' Hc]. exists m'. exact (Hstep (-1) _ Hc).
Qed.
End frame.

(** ** Lemmas: [eth_receive_sctp] *)
Section one_frame.
Context {Q : Type} {PQ : PacketQueue Q}.

(** A result of [recv] for which the call fails: an error, or a frame shorter
    than its headers. *)
Definition no_packet (ev : recv_result) : Prop :=
  match ev with RecvError _ => True | Received data => (length data < 46)%nat end.

Lemma eth_receive_ok cap m (q : Q) k p l data packet cursor :
  pq_rep cap q ((p, k) :: l) → (46 ≤ length data)%nat → mapped m p (length data) →
  ∃ q', eth_receive_sctp m q packet cursor (Received data) = Ret (0, write m p data, q', (p, p + 46)) ∧ pq_rep cap q' l.
Proof.
  intros Hq Hd Hm. destruct (pop_cell_spec _ _ _ Hq) as (s & q' & E & Hq'). exists q'. split; [|done].
  unfold eth_receive_sctp. rewrite E, bind_ret. cbn [cell_packet snd fst].
  rewrite store_mapped by done. rewrite bind_ret. change (sz_mac + sz_ip + sz_cmn) with 46.
  rewrite (proj2 (Z.ltb_ge _ _)) by lia. do 2 f_equal. f_equal. unfold sz_mac, sz_ip, sz_cmn. lia.
Qed.

Lemma eth_receive_fails cap m (q : Q) it l packet cursor ev :
  pq_rep cap q (it :: l) → no_packet ev → mapped m it.1 46 →
  ∃ m' q', eth_receive_sctp m q packet cursor ev = Ret (-1, m', q', (packet, cursor)) ∧ pq_rep cap q' l
  ∧ ∀ p n, mapped m p n → mapped m' p n.
Proof.
  intros Hq Hev Hm. destruct (pop_cell_spec _ _ _ Hq) as (s & q' & E & Hq').
  unfold eth_receive_sctp. rewrite E, bind_ret. destruct ev as [again|data]; [by exists m, q'|].
  cbn [cell_packet]. rewrite store_mapped by (eapply mapped_sub; [exact Hm|lia|cbn in Hev; lia]).
  rewrite bind_ret. change (sz_mac + sz_ip + sz_cmn) with 46. cbn in Hev. rewrite (proj2 (Z.ltb_lt _ _)) by lia.
  eexists _, q'. split; [done|]. split; [done|]. intros. by apply mapped_write.
Qed.

(** Calls in a row. *)
Fixpoint eth_receive_calls (m : mem) (q : Q) (packet cursor : Z) (evs : list recv_result)
  : outcome (mem * Q * (Z * Z)) :=
  match evs with
  | [] => Ret (m, q, (packet, cursor))
  | ev :: evs =>
      '(_, m, q, (packet, cursor)) ← eth_receive_sctp m q packet cursor ev;
      eth_receive_calls m q packet cursor evs
  end.
End one_frame.

(** ** Properties *)
Section properties.
Context {CRC : Crc32Insn} {Q : Type} {PQ : PacketQueue Q}.

(** C3: the receiving thread and the thread that takes its packets, in any
    interleaving and for any results of [recv], when each of the two rings has
    room for all the buffers.  Popping a cell and reading its two fields
    through the pointer are separate steps, of the receiver and of the
    consumer, and pushes may come between them; one consumer pops.  Each
    buffer is always in one place (the allocator, the receiver's hand, the
    ring or the consumer's side), and the consumer finds in its packets
    exactly the bytes of the accepted frames, in the order of their arrival,
    none lost and none twice; those it has not taken yet are in the cell it is
    reading, in the ring or about to be pushed. *)
Theorem received_in_order bufs ca cr (al rb : Q) (la0 : list item) m s :
  pq_rep ca al la0 → la0.*1 = bufs → (length bufs ≤ ca)%nat → pq_rep cr rb [] → (length bufs ≤ cr)%nat →
  NoDup bufs → spaced bufs → typed_mem m →
  rtc recv_sys_step (RecvSys (Rcv Popping m al rb) Waiting [] [] []) s →
  ∃ la lr h pd fs, pq_rep ca (rv_allocator (sy_rcv s)) la ∧ pq_rep cr (rv_rb (sy_rcv s)) lr
  ∧ in_hand ca (rv_allocator (sy_rcv s)) la (rv_phase (sy_rcv s)) h ∧ pending cr (rv_rb (sy_rcv s)) lr (sy_cons s) pd
  ∧ la.*1 ++ h ++ (pd ++ lr).*1 ++ sy_app s ≡ₚ bufs
  ∧ Forall2 (frame_in (rv_mem (sy_rcv s))) ((pd ++ lr) ++ passing (rv_phase (sy_rcv s))) fs
  ∧ sy_given s ++ fs = sy_taken s.
Proof.
  intros Ha Hb Hca Hr Hcr Hnd Hsp Hm Hs.
  assert (recv_sys_inv bufs ca cr (RecvSys (Rcv Popping m al rb) Waiting [] [] [])) as Hinv.
  { exists la0, [], [], [], []. cbn. rewrite app_nil_r, Hb. by repeat (split; [done|]). }
  assert (recv_sys_inv bufs ca cr s) as (la & lr & h & pd & fs & ? & ? & ? & ? & ? & _ & ? & ?).
  { clear Ha Hb Hr Hm. induction Hs as [|x y z Hxy _ IH]; [done|]. apply IH. by eapply recv_sys_step_inv. }
  by exists la, lr, h, pd, fs.
Qed.

(** A complete frame, padded or not, received into a buffer is passed on
    to the ring, byte for byte, when its checksums are right and the ring has
    room; when they are wrong the same buffer receives the next frame. *)
Lemma complete_frame_passed_on b m (al rb : Q) cr lr mac ip cmn fld body pad ev :
  let data := frame_bytes mac ip cmn fld body ++ pad in
  let n := Z.of_nat (length data) in
  wf ip → wf cmn → wf fld → bytes_ok body → ntohs (fld_len fld) = sz_fld + Z.of_nat (length body) →
  mapped m b (length data) → pq_rep cr rb lr → (length lr < cr)%nat →
  if frame_valid ip cmn fld body
  then ∃ q, recv_step (Rcv (Receiving b) m al rb) (Received data) = Ret (Rcv (Pushing b n) (write m b data) al rb)
    ∧ recv_step (Rcv (Pushing b n) (write m b data) al rb) ev = Ret (Rcv Popping (write m b data) al q)
    ∧ pq_rep cr q (lr ++ [(b, n)])
  else ∃ m', recv_step (Rcv (Receiving b) m al rb) (Received data) = Ret (Rcv (Receiving b) m' al rb).
Proof. apply complete_frame_spec. Qed.

(** [eth_receive_sctp] does not give a buffer back when [recv] fails or the
    frame is shorter than 46 bytes: after as many such calls as there are
    buffers the allocator is empty, and from then on every call fails,
    whatever arrives. *)
Lemma eth_receive_starves cap m (q : Q) l packet cursor evs :
  pq_rep cap q l → length evs = length l → Forall no_packet evs → Forall (λ it, mapped m it.1 46) l →
  ∃ m' q', eth_receive_calls m q packet cursor evs = Ret (m', q', (packet, cursor))
  ∧ ∀ ev, eth_receive_sctp m' q' packet cursor ev = Ret (-1, m', q', (packet, cursor)).
Proof.
  revert m q l. induction evs as [|ev evs IH]; intros m q [|it l] Hq Hl Hev Hm; try done.
  - exists m, q. split; [done|]. intros ev. unfold eth_receive_sctp.
    pose proof (pop_cell_spec _ _ _ Hq) as ->. reflexivity.
  - apply Forall_cons in Hev as [Hev Hevs]. apply Forall_cons in Hm as [Hit Hm].
    destruct (eth_receive_fails cap m q it l packet cursor ev Hq Hev Hit) as (m1 & q1 & E & Hq1 & Hk).
    cbn [eth_receive_calls]. rewrite E, bind_ret. apply (IH m1 q1 l Hq1); [by injection Hl|done|].
    eapply Forall_impl; [exact Hm|]. cbn. intros. by apply Hk.
Qed.
End properties.

(** ** Witnesses *)
Definition ack_frame : bytes := frame_bytes ack_mac (ack_ip ack_check) (ack_cmn ack_crc) ack_fld [].

Lemma ack_ip_wf : wf (ack_ip ack_check).
Proof. apply wf_ipv4; unfold fits; vm_compute; split; congruence. Qed.
Lemma ack_cmn_wf : wf (ack_cmn ack_crc).
Proof. apply wf_cmn; unfold fits; vm_compute; split; congruence. Qed.
Lemma ack_fld_wf : wf ack_fld.
Proof. apply wf_fld; unfold fits; vm_compute; split; congruence. Qed.

Lemma ack_frame_ok : bytes_ok (ack_frame ++ []).
Proof. rewrite app_nil_r. repeat (apply Forall_app; split; [apply enc_ok|]). constructor. Qed.

Lemma ack_frame_valid : frame_valid (ack_ip ack_check) (ack_cmn ack_crc) ack_fld [] = true.
Proof. vm_compute. reflexivity. Qed.

Lemma complete_frame_passed_on_witness :
  ∃ al rb : ringbuf, ∃ q,
  recv_step (Rcv (Receiving 1000) frames_mem al rb) (Received (ack_frame ++ [])) =
    Ret (Rcv (Pushing 1000 50) (write frames_mem 1000 (ack_frame ++ [])) al rb)
  ∧ recv_step (Rcv (Pushing 1000 50) (write frames_mem 1000 (ack_frame ++ [])) al rb) (RecvError true)
    = Ret (Rcv Popping (write frames_mem 1000 (ack_frame ++ [])) al q)
  ∧ pq_rep 4 q [(1000, 50)].
Proof.
  destruct (ring_holding [] ltac:(cbn; lia)) as [rb Hr]. exists rb, rb.
  exact (complete_frame_passed_on 1000 frames_mem rb rb 4 [] ack_mac (ack_ip ack_check) (ack_cmn ack_crc) ack_fld [] []
    (RecvError true) ack_ip_wf ack_cmn_wf ack_fld_wf (Forall_nil_2 _) eq_refl
    (frames_mapped 1000 50 ltac:(lia) ltac:(lia)) Hr ltac:(cbn; lia)).
Defined.

Lemma demo_spaced : spaced [1000; 5000].
Proof. intros b c Hb Hc Hne. set_unfold. unfold BUFFER_SIZE. lia. Qed.

(** Two buffers; a frame is received into the first and passed on.  The consumer
    pops it, the receiver pops the second buffer, and then the consumer reads
    the cell. *)
Lemma received_in_order_witness :
  ∃ s : recv_sys ringbuf, sy_given s = [ack_frame ++ []] ∧ rv_phase (sy_rcv s) = Receiving 5000
  ∧ ∃ la lr h pd fs, pq_rep 4 (rv_allocator (sy_rcv s)) la ∧ pq_rep 4 (rv_rb (sy_rcv s)) lr
  ∧ in_hand 4 (rv_allocator (sy_rcv s)) la (rv_phase (sy_rcv s)) h ∧ pending 4 (rv_rb (sy_rcv s)) lr (sy_cons s) pd
  ∧ la.*1 ++ h ++ (pd ++ lr).*1 ++ sy_app s ≡ₚ [1000; 5000]
  ∧ Forall2 (frame_in (rv_mem (sy_rcv s))) ((pd ++ lr) ++ passing (rv_phase (sy_rcv s))) fs
  ∧ sy_given s ++ fs = sy_taken s.
Proof.
  destruct (ring_holding [(1000, 2048); (5000, 2048)] ltac:(cbn; lia)) as [al Ha].
  destruct (ring_holding [] ltac:(cbn; lia)) as [rb Hr].
  destruct (pq_pop_ok _ _ _ _ Ha) as (i1 & al1 & Epop1 & Ha1 & s1 & Ecell1).
  destruct (pq_pop_ok _ _ _ _ Ha1) as (i2 & al2 & Epop2 & Ha2 & s2 & Ecell2). cbn [fst snd] in Ecell1, Ecell2.
  pose proof (complete_frame_spec 1000 frames_mem al1 rb 4 [] ack_mac (ack_ip ack_check) (ack_cmn ack_crc) ack_fld [] []
    (RecvError true) ack_ip_wf ack_cmn_wf ack_fld_wf (Forall_nil_2 _) eq_refl
    (frames_mapped 1000 50 ltac:(lia) ltac:(lia)) Hr ltac:(cbn; lia)) as Hframe.
  rewrite ack_frame_valid in Hframe. fold ack_frame in Hframe. set (data := ack_frame ++ []) in *. destruct Hframe as (q & E1 & E2 & Hq).
  destruct (pq_pop_ok _ _ _ _ Hq) as (i3 & q3 & Epop3 & Hq3 & s3 & Ecell3). cbn [fst snd] in Ecell3.
  set (m1 := write frames_mem 1000 data) in *.
  exists (RecvSys (Rcv (Receiving 5000) m1 al2 q3) Waiting [1000] [data] [data]). split; [reflexivity|]. split; [reflexivity|].
  refine (received_in_order [1000; 5000] 4 4 al rb [(1000, 2048); (5000, 2048)] frames_mem _ Ha eq_refl
    ltac:(cbn; lia) Hr ltac:(cbn; lia) _ demo_spaced _ _).
  - rewrite !NoDup_cons, !not_elem_of_cons. repeat split; try lia; try apply not_elem_of_nil. constructor.
  - apply typed_write; [apply map_Forall_empty | apply bytes_ok_zeros].
  - eapply rtc_l.
    { apply (sys_recv _ (Rcv (Reading i1) frames_mem al1 rb) (RecvError true)); [exact I|].
      unfold recv_step. cbn [rv_phase rv_mem rv_allocator rv_rb]. rewrite Epop1, bind_ret. reflexivity. }
    eapply rtc_l.
    { apply (sys_recv _ (Rcv (Receiving 1000) frames_mem al1 rb) (RecvError true)); [exact I|].
      unfold recv_step. cbn [rv_phase rv_mem rv_allocator rv_rb]. rewrite Ecell1, bind_ret. reflexivity. }
    eapply rtc_l.
    { eapply (sys_recv _ _ (Received data)); [|exact E1]. split; [apply ack_frame_ok|]. vm_compute. congruence. }
    eapply rtc_l; [eapply (sys_recv _ _ (RecvError true)); [exact I|exact E2]|].
    eapply rtc_l; [eapply sys_pop; exact Epop3|]. cbn [rv_phase rv_mem rv_allocator rv_rb].
    eapply rtc_l.
    { apply (sys_recv _ (Rcv (Reading i2) m1 al2 q3) (RecvError true)); [exact I|].
      unfold recv_step. cbn [rv_phase rv_mem rv_allocator rv_rb]. rewrite Epop2, bind_ret. reflexivity. }
    eapply rtc_l; [eapply sys_packet; exact Ecell3|]. cbn [cell_packet].
    eapply rtc_l.
    { apply (sys_recv _ (Rcv (Receiving 5000) m1 al2 q3) (RecvError true)); [exact I|].
      unfold recv_step. cbn [rv_phase rv_mem rv_allocator rv_rb]. rewrite Ecell2, bind_ret. reflexivity. }
    cbn [accepted rv_phase app]. apply rtc_once.
    apply (sys_plen (Rcv (Receiving 5000) m1 al2 q3) i3 1000 (Cell s3 (Z.of_nat (length data)) 1000) data [] [data] []); [exact Ecell3|].
    apply load_at'; [apply bytes_at_write|reflexivity].
Defined.

Lemma eth_receive_starves_witness :
  ∃ (q : ringbuf) m' q', eth_receive_calls frames_mem q 0 0 [RecvError true] = Ret (m', q', (0, 0))
  ∧ ∀ ev, eth_receive_sctp m' q' 0 0 ev = Ret (-1, m', q', (0, 0)).
Proof.
  destruct (ring_holding [(1000, 2048)] ltac:(cbn; lia)) as [q Hq]. exists q.
  apply (eth_receive_starves 4 frames_mem q [(1000, 2048)] 0 0 [RecvError true] Hq eq_refl).
  - repeat constructor.
  - constructor; [apply (frames_mapped 1000 46); lia | constructor].
Defined.
