(* ===== verification/Legacy.v ===== *)
(** * The first SCTP layer (build_sctp_hdr_raw.c, if_sctp.c, if_ipv4.c,
    if_ipv4_sctp.c, recv_filtered.c)

    The connection is a [connection_args_t]; the packet is built in place at
    [args->tp_layer.sctp], and a filter reads the packets that [recv] puts into
    one buffer.  The library still exports these functions; the association of
    [Sctp] has replaced them in the programs. *)
From S2P Require Import Prelude Bytes Mem Crc32c RingBuf Random Headers Assoc Frames Prefilled Sctp Receive.

(** ** Code *)

(** [connection_args_t], without the fields that these functions do not use
    ([eth], [packet], [plen], [proto], [slave], [self_a_rwnd], [TCP_STATUS]).
    [c_errors] is the list that [errors] points to; [c_ipv4] and [c_sctp] are
    [net_layer.ipv4] and [tp_layer.sctp]. *)
Record connection_args := CArgs {
  c_payload : Z; c_srcport : Z; c_dstport : Z;
  c_src_ver_tag : Z; c_dst_ver_tag : Z; c_src_tsn : Z; c_dst_tsn : Z; c_dest_a_rwnd : Z;
  c_self_os : Z; c_self_mis : Z; c_dest_os : Z; c_dest_mis : Z;
  c_hmac : Z; c_errors : list Z; c_ipv4 : Z; c_status : SCTP_STATUS; c_sctp : Z
}.

Definition SCTP_ERROR : Z := 9.
Definition SCTP_ERROR_STALE_COOKIE : Z := 3.

Section code.
Context {CRC : Crc32Insn} {ENT : Entropy}.

(** The first three assignments. *)
Definition put_ports (m : mem) (sctp srcp dstp : Z) : outcome mem :=
  m ← Mem.st m (sctp + off_cmn_check) 4 0;
  m ← Mem.st m (sctp + field_off sctp_cmn_hdr_t 0) 2 (htons srcp);
  Mem.st m (sctp + off_cmn_dstp) 2 (htons dstp).

(** [sctp->fld.flags = 0; sctp->fld.type = type; sctp->fld.len = htons (len);] *)
Definition put_fld (m : mem) (sctp type len : Z) : outcome mem :=
  m ← Mem.st m (sctp + 12 + field_off sctp_fld_hdr_t 1) 1 0;
  m ← Mem.st m (sctp + 12 + field_off sctp_fld_hdr_t 0) 1 type;
  Mem.st m (sctp + 12 + off_fld_len) 2 (htons len).

(** [sctp->type.init] and [sctp->type.init_ack] have the same fields. *)
Definition put_init (m : mem) (sctp a_rwnd os mis tsn itag : Z) : outcome mem :=
  m ← Mem.st m (sctp + 16 + field_off sctp_init_hdr_t 1) 4 (htonl a_rwnd);
  m ← Mem.st m (sctp + 16 + field_off sctp_init_hdr_t 2) 2 (htons os);
  m ← Mem.st m (sctp + 16 + field_off sctp_init_hdr_t 3) 2 (htons mis);
  m ← Mem.st m (sctp + 16 + field_off sctp_init_hdr_t 4) 4 tsn;
  Mem.st m (sctp + 16 + field_off sctp_init_hdr_t 0) 4 itag.

(** [cmn->check = generate_crc32c (sctp, 12 + ntohs (sctp->fld.len))] *)
Definition put_check (m : mem) (sctp : Z) : outcome mem :=
  len ← ld m (sctp + 12 + off_fld_len) 2;
  data ← load m sctp (Z.to_nat (12 + ntohs len));
  Mem.st m (sctp + off_cmn_check) 4 (generate_crc32c data).

(** What the connection remembers of the INIT or INIT-ACK it sends. *)
Definition with_init (a : connection_args) (os mis tsn tg : Z) : connection_args :=
  CArgs (c_payload a) (c_srcport a) (c_dstport a) (c_src_ver_tag a) tg tsn (c_dst_tsn a) (c_dest_a_rwnd a)
    (htons os) (htons mis) (c_dest_os a) (c_dest_mis a) (c_hmac a) (c_errors a) (c_ipv4 a) (c_status a) (c_sctp a).

(** [tag] and [flags] are not used. *)
Definition build_sctp_hdr_raw (m : mem) (st : rng) (srcp dstp tag type os mis a_rwnd flags : Z)
    (args : connection_args) : outcome (bool * mem * rng * connection_args) :=
  let sctp := c_sctp args in
  m ← put_ports m sctp srcp dstp;
  if type =? SCTP_INIT then
    m ← Mem.st m (sctp + off_cmn_tag) 4 0;
    m ← put_fld m sctp type 20;
    let '(tsn, st) := get_random_u32 st in
    let '(itag, st) := get_random_u32 st in
    m ← put_init m sctp a_rwnd os mis tsn itag;
    m ← put_check m sctp;
    Ret (true, m, st, with_init args os mis tsn itag)
  else if type =? SCTP_INIT_ACK then
    m ← Mem.st m (sctp + off_cmn_tag) 4 (c_src_ver_tag args);
    m ← put_fld m sctp type (20 + 8);
    let '(tsn, st) := get_random_u32 st in
    let '(itag, st) := get_random_u32 st in
    m ← put_init m sctp a_rwnd os mis tsn itag;
    m ← put_check m sctp;
    Ret (true, m, st, with_init args os mis tsn itag)
  else if type =? SCTP_COOKIE_ECHO then
    m ← Mem.st m (sctp + off_cmn_tag) 4 (c_src_ver_tag args);
    m ← put_fld m sctp type 8;
    m ← Mem.st m (sctp + 16) 4 (u32 (c_hmac args));
    m ← put_check m sctp;
    Ret (true, m, st, args)
  else if type =? SCTP_COOKIE_ACK then
    m ← Mem.st m (sctp + off_cmn_tag) 4 (c_src_ver_tag args);
    m ← put_fld m sctp type 4;
    m ← put_check m sctp;
    Ret (true, m, st, args)
  else if type =? SCTP_ERROR then
    match c_errors args with [] => Ret (false, m, st, args) | _ => Ret (true, m, st, args) end
  else Ret (true, m, st, args).

(** [node] is walked to its end, which is NULL, and then dereferenced. *)
Definition append_error (malloc_ok : bool) (errors : list Z) (e : Z) : outcome (list Z) :=
  match errors with
  | [] => if malloc_ok then Ret [e] else Fault
  | _ => Fault
  end.

Definition with_errors (a : connection_args) (l : list Z) : connection_args :=
  CArgs (c_payload a) (c_srcport a) (c_dstport a) (c_src_ver_tag a) (c_dst_ver_tag a) (c_src_tsn a) (c_dst_tsn a)
    (c_dest_a_rwnd a) (c_self_os a) (c_self_mis a) (c_dest_os a) (c_dest_mis a) (c_hmac a) l (c_ipv4 a) (c_status a)
    (c_sctp a).

(** What an INIT and an INIT-ACK teach the connection: only the first are the
    numbers of streams converted. *)
Definition init_learned (a : connection_args) (srcp : Z) (h : sctp_init_hdr_t) : connection_args :=
  CArgs (c_payload a) (c_srcport a) srcp (hdr_init_tag h) (c_dst_ver_tag a) (c_src_tsn a) (hdr_init_tag h)
    (hdr_a_rwnd h) (c_self_os a) (c_self_mis a) (ntohs (hdr_os h)) (ntohs (hdr_mis h)) (c_hmac a) (c_errors a) (c_ipv4 a)
    SCTP_INIT_RECEIVED (c_sctp a).
Definition init_ack_learned (a : connection_args) (h : sctp_init_hdr_t) : connection_args :=
  CArgs (c_payload a) (c_srcport a) (c_dstport a) (hdr_init_tag h) (c_dst_ver_tag a) (c_src_tsn a) (hdr_init_tag h)
    (hdr_a_rwnd h) (c_self_os a) (c_self_mis a) (hdr_os h) (hdr_mis h) (c_hmac a) (c_errors a) (c_ipv4 a) (c_status a)
    (c_sctp a).

(** The four [memcpy]s of the INIT into [args->payload]. *)
Definition put_payload (m : mem) (a : connection_args) : outcome mem :=
  src ← load m (c_ipv4 a + field_off ipv4_t 8) 4;
  m ← store m (c_payload a) src;
  dst ← load m (c_ipv4 a + off_ip_dest) 4;
  m ← store m (c_payload a + 4) dst;
  m ← Mem.st m (c_payload a + 8) 4 (c_dst_ver_tag a);
  Mem.st m (c_payload a + 12) 8 (c_hmac a).

(** The switch of [if_sctp]. *)
Definition if_sctp_chunk (malloc_ok : bool) (m : mem) (packet srcp : Z) (args : connection_args)
  : outcome (bool * mem * connection_args) :=
  type ← ld m (packet + 12 + field_off sctp_fld_hdr_t 0) 1;
  tg ← ld m (packet + off_cmn_tag) 4;
  if type =? SCTP_INIT then
    if decide (c_status args = SCTP_LISTEN) then
      h ← ld_struct sctp_init_hdr_t m (packet + 16);
      m ← put_payload m args;
      Ret (true, m, init_learned args srcp h)
    else Ret (false, m, args)
  else if type =? SCTP_INIT_ACK then
    if negb (tg =? c_dst_ver_tag args) then Ret (false, m, args)
    else
      h ← ld_struct sctp_init_hdr_t m (packet + 16);
      Ret (true, m, init_ack_learned args h)
  else if type =? SCTP_COOKIE_ECHO then
    if decide (c_status args = SCTP_INIT_ACK_SENT) then
      if negb (tg =? c_dst_ver_tag args) then Ret (false, m, args)
      else
        tsn ← ld m (packet + 16) 4;
        if negb (tsn =? c_hmac args) then
          l ← append_error malloc_ok (c_errors args) SCTP_ERROR_STALE_COOKIE;
          Ret (true, m, with_errors args l)
        else Ret (true, m, args)
    else Ret (false, m, args)
  else if type =? SCTP_COOKIE_ACK then Ret (true, m, args)
  else Ret (false, m, args).

Definition if_sctp (malloc_ok : bool) (m : mem) (packet size : Z) (args : connection_args)
  : outcome (bool * mem * connection_args) :=
  if size <? sz_cmn + sz_fld then Ret (false, m, args)
  else
    len ← ld m (packet + 12 + off_fld_len) 2;
    let size := ntohs len in
    srcp ← ld m (packet + field_off sctp_cmn_hdr_t 0) 2;
    dstp ← ld m (packet + off_cmn_dstp) 2;
    if negb (srcp =? c_dstport args) || negb (dstp =? c_srcport args) then Ret (false, m, args)
    else
      pk_check ← ld m (packet + off_cmn_check) 4;
      m ← Mem.st m (packet + off_cmn_check) 4 0;
      data ← load m packet (Z.to_nat (12 + size));
      if negb (pk_check =? generate_crc32c data) then Ret (false, m, args)
      else if_sctp_chunk malloc_ok m packet srcp args.

Definition if_ipv4 (m : mem) (packet size : Z) (args : connection_args) : outcome bool :=
  if sz_mac + sz_ip <=? size then
    src ← ld m (packet + sz_mac + field_off ipv4_t 8) 4;
    dst ← ld m (c_ipv4 args + off_ip_dest) 4;
    Ret (src =? dst)
  else Ret false.

Definition if_ipv4_sctp (malloc_ok : bool) (m : mem) (packet size : Z) (args : connection_args)
  : outcome (bool * mem * connection_args) :=
  ok ← if_ipv4 m packet size args;
  if (ok : bool) then if_sctp malloc_ok m (packet + sz_mac + sz_ip) (size - sz_mac - sz_ip) args
  else Ret (false, m, args).

(** [recv_filtered]: [evs] is what the calls of [recv] return; the loop waits
    for more when they are used up. *)
Fixpoint recv_filtered (filter : mem → Z → Z → connection_args → outcome (bool * mem * connection_args))
    (m : mem) (buffer : Z) (args : connection_args) (evs : list recv_result) : outcome (mem * connection_args) :=
  match evs with
  | [] => Timeout
  | RecvError _ :: evs => recv_filtered filter m buffer args evs
  | Received data :: evs =>
      m ← store m buffer data;
      if 46 <? Z.of_nat (length data) then
        '(ok, m, args) ← filter m buffer (Z.of_nat (length data)) args;
        if (ok : bool) then Ret (m, args) else recv_filtered filter m buffer args evs
      else recv_filtered filter m buffer args evs
  end.
End code.

(** ** Lemmas: the packet being built *)
Section lemmas.
Context {CRC : Crc32Insn} {ENT : Entropy}.
Implicit Types (cmn : sctp_cmn_hdr_t) (fld : sctp_fld_hdr_t) (h : sctp_init_hdr_t) (m : mem) (a : connection_args).

Definition sctp_at m p cmn fld body : Prop := bytes_at m p (enc cmn ++ enc fld ++ body).
Definition resctp m m' p cmn fld body : Prop := updated m m' p (enc cmn ++ enc fld ++ body).

Lemma resctp_trans m m1 m2 p cmn fld body cmn' fld' body' :
  resctp m m1 p cmn fld body → resctp m1 m2 p cmn' fld' body' → length body = length body' → resctp m m2 p cmn' fld' body'.
Proof. intros H1 H2 Hl. eapply updated_trans; [exact H1|exact H2|]. by rewrite !length_app, !length_enc, Hl. Qed.

Lemma st_sctp_cmn m p cmn fld body i w v :
  sctp_at m p cmn fld body → layout sctp_cmn_hdr_t !! i = Some w →
  ∃ m', Mem.st m (p + field_off sctp_cmn_hdr_t i) w v = Ret m' ∧ resctp m m' p (set_field i v cmn) fld body.
Proof. intros H Hw. exact (upd_field m p [] cmn (enc fld ++ body) i w v H Hw). Qed.

Lemma st_fld m p cmn fld body i w v :
  sctp_at m p cmn fld body → layout sctp_fld_hdr_t !! i = Some w →
  ∃ m', Mem.st m (p + 12 + field_off sctp_fld_hdr_t i) w v = Ret m' ∧ resctp m m' p cmn (set_field i v fld) body.
Proof.
  intros H Hw. destruct (upd_field m p (enc cmn) fld body i w v H Hw) as (m' & E & U). exists m'.
  rewrite length_enc in E. change (Z.of_nat (size sctp_cmn_hdr_t)) with 12 in E. by rewrite Z.add_assoc in E.
Qed.

Lemma st_ini m p cmn fld h rest i w v :
  sctp_at m p cmn fld (enc h ++ rest) → layout sctp_init_hdr_t !! i = Some w →
  ∃ m', Mem.st m (p + 16 + field_off sctp_init_hdr_t i) w v = Ret m' ∧ resctp m m' p cmn fld (enc (set_field i v h) ++ rest).
Proof.
  intros H Hw. unfold sctp_at in H. rewrite app_assoc in H.
  destruct (upd_field m p (enc cmn ++ enc fld) h rest i w v H Hw) as (m' & E & U). exists m'.
  rewrite length_app, !length_enc in E. change (Z.of_nat _) with 16 in E at 1. rewrite Z.add_assoc in E.
  split; [done|]. by rewrite <-app_assoc in U.
Qed.

Lemma put_ports_spec m p cmn fld body srcp dstp :
  sctp_at m p cmn fld body →
  ∃ m', put_ports m p srcp dstp = Ret m' ∧ resctp m m' p (Cmn (htons srcp) (htons dstp) (tag cmn) 0) fld body.
Proof.
  intros H. unfold put_ports, off_cmn_check, off_cmn_dstp. destruct cmn as [a b c d].
  destruct (st_sctp_cmn m p (Cmn a b c d) fld body 3 4 0 H eq_refl) as (m1 & -> & U1). rewrite bind_ret.
  destruct (st_sctp_cmn m1 p (Cmn a b c 0) fld body 0 2 (htons srcp) (proj1 U1) eq_refl) as (m2 & -> & U2). rewrite bind_ret.
  destruct (st_sctp_cmn m2 p (Cmn (htons srcp) b c 0) fld body 1 2 (htons dstp) (proj1 U2) eq_refl) as (m3 & E & U3).
  exists m3. split; [exact E|]. eapply resctp_trans; [exact U1| |done]. by eapply resctp_trans; [exact U2|exact U3|].
Qed.

Lemma put_fld_spec m p cmn fld body type len :
  sctp_at m p cmn fld body →
  ∃ m', put_fld m p type len = Ret m' ∧ resctp m m' p cmn (Fld type 0 (htons len)) body.
Proof.
  intros H. unfold put_fld, off_fld_len. destruct fld as [a b c].
  destruct (st_fld m p cmn (Fld a b c) body 1 1 0 H eq_refl) as (m1 & -> & U1). rewrite bind_ret.
  destruct (st_fld m1 p cmn (Fld a 0 c) body 0 1 type (proj1 U1) eq_refl) as (m2 & -> & U2). rewrite bind_ret.
  destruct (st_fld m2 p cmn (Fld type 0 c) body 2 2 (htons len) (proj1 U2) eq_refl) as (m3 & E & U3).
  exists m3. split; [exact E|]. eapply resctp_trans; [exact U1| |done]. by eapply resctp_trans; [exact U2|exact U3|].
Qed.

Lemma put_init_spec m p cmn fld h rest rw os mis tsn tg :
  sctp_at m p cmn fld (enc h ++ rest) →
  ∃ m', put_init m p rw os mis tsn tg = Ret m'
  ∧ resctp m m' p cmn fld (enc (Init tg (htonl rw) (htons os) (htons mis) tsn) ++ rest).
Proof.
  intros H. unfold put_init. destruct h as [a b c d e].
  destruct (st_ini m p cmn fld (Init a b c d e) rest 1 4 (htonl rw) H eq_refl) as (m1 & -> & U1). rewrite bind_ret.
  destruct (st_ini m1 p cmn fld (Init a (htonl rw) c d e) rest 2 2 (htons os) (proj1 U1) eq_refl) as (m2 & -> & U2).
  rewrite bind_ret.
  destruct (st_ini m2 p cmn fld (Init a (htonl rw) (htons os) d e) rest 3 2 (htons mis) (proj1 U2) eq_refl) as (m3 & -> & U3).
  rewrite bind_ret.
  destruct (st_ini m3 p cmn fld (Init a (htonl rw) (htons os) (htons mis) e) rest 4 4 tsn (proj1 U3) eq_refl)
    as (m4 & -> & U4). rewrite bind_ret.
  destruct (st_ini m4 p cmn fld (Init a (htonl rw) (htons os) (htons mis) tsn) rest 0 4 tg (proj1 U4) eq_refl)
    as (m5 & E & U5).
  exists m5. split; [exact E|]. eapply resctp_trans; [exact U1| |by rewrite !length_app, !length_enc].
  eapply resctp_trans; [exact U2| |by rewrite !length_app, !length_enc].
  eapply resctp_trans; [exact U3| |by rewrite !length_app, !length_enc].
  by eapply resctp_trans; [exact U4|exact U5|rewrite !length_app, !length_enc].
Qed.

(** The checksum of a packet whose chunk is [fld] and [body]. *)
Definition crc_of cmn fld (body : bytes) : Z := generate_crc32c (enc (set_field 3 0 cmn) ++ enc fld ++ body).

Lemma sctp_data m p cmn fld body rest :
  sctp_at m p cmn fld (body ++ rest) → load m p (16 + length body) = Ret (enc cmn ++ enc fld ++ body).
Proof.
  intros H. apply load_at'; [|by rewrite !length_app, !length_enc].
  unfold sctp_at in H. rewrite (app_assoc (enc fld)), (app_assoc (enc cmn)) in H. by apply bytes_at_app in H as [H _].
Qed.

Lemma put_check_spec m p cmn fld body rest :
  sctp_at m p cmn fld (body ++ rest) → wf fld → cmn_check cmn = 0 →
  ntohs (fld_len fld) = 4 + Z.of_nat (length body) →
  ∃ m', put_check m p = Ret m' ∧ resctp m m' p (set_field 3 (crc_of cmn fld body) cmn) fld (body ++ rest).
Proof.
  intros H Hf Hc Hl. unfold put_check, off_fld_len, off_cmn_check.
  pose proof H as H12. unfold sctp_at in H12. apply bytes_at_app in H12 as [_ H12]. rewrite length_enc in H12.
  change (Z.of_nat (size sctp_cmn_hdr_t)) with 12 in H12.
  rewrite (ld_field_at m (p + 12) fld _ 2 2 (fld_len fld) H12) by done. rewrite bind_ret, Hl.
  replace (Z.to_nat (12 + (4 + Z.of_nat (length body)))) with (16 + length body)%nat by lia.
  rewrite (sctp_data _ _ _ _ _ _ H), bind_ret.
  replace (crc_of cmn fld body) with (generate_crc32c (enc cmn ++ enc fld ++ body)).
  - by apply st_sctp_cmn.
  - unfold crc_of. destruct cmn as [a b c d]. cbn [cmn_check] in Hc. subst d. reflexivity.
Qed.

Definition legacy_cmn (srcp dstp tg : Z) fld (body : bytes) : sctp_cmn_hdr_t :=
  set_field 3 (crc_of (Cmn (htons srcp) (htons dstp) tg 0) fld body) (Cmn (htons srcp) (htons dstp) tg 0).

(** The stores of an INIT and of an INIT-ACK; [opt] is what the checksum covers
    behind the header. *)
Lemma put_init_packet m p cmn fld h opt rest srcp dstp tg type rw os mis tsn itag :
  sctp_at m p cmn fld (enc h ++ opt ++ rest) → is_u8 type → Z.of_nat (length opt) < 65000 →
  let f := Fld type 0 (htons (20 + Z.of_nat (length opt))) in
  let b := enc (Init itag (htonl rw) (htons os) (htons mis) tsn) in
  ∃ m1 m2 m3 m4 m5, put_ports m p srcp dstp = Ret m1 ∧ Mem.st m1 (p + off_cmn_tag) 4 tg = Ret m2
  ∧ put_fld m2 p type (20 + Z.of_nat (length opt)) = Ret m3 ∧ put_init m3 p rw os mis tsn itag = Ret m4
  ∧ put_check m4 p = Ret m5 ∧ resctp m m5 p (legacy_cmn srcp dstp tg f (b ++ opt)) f (b ++ opt ++ rest).
Proof.
  intros H Ht Ho f b. destruct (put_ports_spec _ _ _ _ _ srcp dstp H) as (m1 & E1 & U1). exists m1.
  destruct (st_sctp_cmn m1 p _ fld (enc h ++ opt ++ rest) 2 4 tg (proj1 U1) eq_refl) as (m2 & E2 & U2). exists m2.
  change (set_field 2 tg _) with (Cmn (htons srcp) (htons dstp) tg 0) in U2.
  destruct (put_fld_spec _ _ _ _ _ type (20 + Z.of_nat (length opt)) (proj1 U2)) as (m3 & E3 & U3). exists m3. fold f in U3.
  destruct (put_init_spec _ _ _ _ h (opt ++ rest) rw os mis tsn itag (proj1 U3)) as (m4 & E4 & U4). exists m4. fold b in U4.
  assert (wf f) as Hf by (apply wf_fld; [done|done|apply htons_range]).
  assert (length (b ++ opt) = (16 + length opt)%nat) as Hb by (unfold b; by rewrite length_app, length_enc).
  pose proof (proj1 U4) as Hat. rewrite app_assoc in Hat.
  destruct (put_check_spec m4 p (Cmn (htons srcp) (htons dstp) tg 0) f (b ++ opt) rest Hat Hf eq_refl) as (m5 & E5 & U5).
  { cbn [fld_len f]. unfold f. cbn [fld_len]. rewrite htons_htons by (unfold is_u16; lia). rewrite Hb. lia. }
  exists m5. do 5 (split; [done|]). rewrite <-app_assoc in U5.
  assert (length (enc h ++ opt ++ rest) = length (b ++ opt ++ rest)) as Hl by (unfold b; by rewrite !length_app, !length_enc).
  eapply resctp_trans; [exact U1| |exact Hl]. eapply resctp_trans; [exact U2| |exact Hl].
  eapply resctp_trans; [exact U3| |exact Hl]. by eapply resctp_trans; [exact U4|exact U5|].
Qed.

Lemma build_init_legacy m st a cmn fld h rest srcp dstp tg os mis rw flags :
  sctp_at m (c_sctp a) cmn fld (enc h ++ rest) →
  let '(tsn, st1) := get_random_u32 st in let '(itag, st2) := get_random_u32 st1 in
  let f := Fld SCTP_INIT 0 (htons 20) in let b := enc (Init itag (htonl rw) (htons os) (htons mis) tsn) in
  ∃ m', build_sctp_hdr_raw m st srcp dstp tg SCTP_INIT os mis rw flags a = Ret (true, m', st2, with_init a os mis tsn itag)
  ∧ resctp m m' (c_sctp a) (legacy_cmn srcp dstp 0 f b) f (b ++ rest).
Proof.
  intros H. unfold build_sctp_hdr_raw. cbn [Z.eqb Pos.eqb SCTP_INIT].
  destruct (get_random_u32 st) as [tsn st1]. destruct (get_random_u32 st1) as [itag st2] eqn:E.
  destruct (put_init_packet m (c_sctp a) cmn fld h [] rest srcp dstp 0 SCTP_INIT rw os mis tsn itag H)
    as (m1 & m2 & m3 & m4 & m5 & E1 & E2 & E3 & E4 & E5 & U); [done|cbn; lia|].
  exists m5. cbn [length] in E3. change (20 + Z.of_nat 0) with 20 in E3.
  rewrite E1, bind_ret, E2, bind_ret, E3, bind_ret, E4, bind_ret, E5, bind_ret. split; [done|].
  rewrite app_nil_r in U. exact U.
Qed.

Lemma build_init_ack_legacy m st a cmn fld h opt rest srcp dstp tg os mis rw flags :
  sctp_at m (c_sctp a) cmn fld (enc h ++ opt ++ rest) → length opt = 8%nat →
  let '(tsn, st1) := get_random_u32 st in let '(itag, st2) := get_random_u32 st1 in
  let f := Fld SCTP_INIT_ACK 0 (htons 28) in let b := enc (Init itag (htonl rw) (htons os) (htons mis) tsn) in
  ∃ m', build_sctp_hdr_raw m st srcp dstp tg SCTP_INIT_ACK os mis rw flags a = Ret (true, m', st2, with_init a os mis tsn itag)
  ∧ resctp m m' (c_sctp a) (legacy_cmn srcp dstp (c_src_ver_tag a) f (b ++ opt)) f (b ++ opt ++ rest).
Proof.
  intros H Ho. unfold build_sctp_hdr_raw. cbn [Z.eqb Pos.eqb SCTP_INIT SCTP_INIT_ACK].
  destruct (get_random_u32 st) as [tsn st1]. destruct (get_random_u32 st1) as [itag st2] eqn:E.
  destruct (put_init_packet m (c_sctp a) cmn fld h opt rest srcp dstp (c_src_ver_tag a) SCTP_INIT_ACK rw os mis tsn itag H)
    as (m1 & m2 & m3 & m4 & m5 & E1 & E2 & E3 & E4 & E5 & U); [done|rewrite Ho; cbn; lia|].
  exists m5. rewrite Ho in E3, U. change (20 + Z.of_nat 8) with 28 in *. change (20 + 8) with 28.
  rewrite E1, bind_ret, E2, bind_ret, E3, bind_ret, E4, bind_ret, E5, bind_ret. by split.
Qed.

(** ** Lemmas: the filter *)
Lemma if_sctp_spec mo m p sz a cmn fld body rest :
  sctp_at m p cmn fld (body ++ rest) → wf cmn → wf fld → ntohs (fld_len fld) = 4 + Z.of_nat (length body) →
  16 ≤ sz → srcp cmn = c_dstport a → dstp cmn = c_srcport a → cmn_check cmn = crc_of cmn fld body →
  ∃ m', resctp m m' p (set_field 3 0 cmn) fld (body ++ rest)
  ∧ if_sctp mo m p sz a = if_sctp_chunk mo m' p (srcp cmn) a.
Proof.
  intros H Hc Hf Hl Hs Hsrc Hdst Hck. unfold if_sctp, off_fld_len, off_cmn_dstp, off_cmn_check.
  change (sz_cmn + sz_fld) with 16. rewrite (proj2 (Z.ltb_ge _ _)) by lia.
  pose proof H as H12. unfold sctp_at in H12. apply bytes_at_app in H12 as [_ H12]. rewrite length_enc in H12.
  change (Z.of_nat (size sctp_cmn_hdr_t)) with 12 in H12.
  rewrite (ld_field_at m (p + 12) fld _ 2 2 (fld_len fld) H12) by done. rewrite bind_ret. cbv zeta.
  rewrite (ld_field_at m p cmn _ 0 2 (srcp cmn) H) by done. rewrite bind_ret.
  rewrite (ld_field_at m p cmn _ 1 2 (dstp cmn) H) by done. rewrite bind_ret, Hsrc, Hdst, !Z.eqb_refl. cbn [negb orb].
  rewrite (ld_field_at m p cmn _ 3 4 (cmn_check cmn) H) by done. rewrite bind_ret.
  destruct (st_sctp_cmn m p cmn fld (body ++ rest) 3 4 0 H eq_refl) as (m' & -> & U). rewrite bind_ret. exists m'.
  split; [done|]. rewrite Hl. replace (Z.to_nat (12 + (4 + Z.of_nat (length body)))) with (16 + length body)%nat by lia.
  rewrite (sctp_data _ _ _ _ _ _ (proj1 U)), bind_ret, Hck. unfold crc_of. by rewrite Z.eqb_refl.
Qed.

(** What the switch reads first. *)
Lemma chunk_head m p cmn fld body :
  sctp_at m p cmn fld body → wf cmn → wf fld →
  ld m (p + 12 + field_off sctp_fld_hdr_t 0) 1 = Ret (fld_type fld) ∧ ld m (p + off_cmn_tag) 4 = Ret (tag cmn)
  ∧ bytes_at m (p + 16) body.
Proof.
  intros H Hc Hf. pose proof H as H12. unfold sctp_at in H12. apply bytes_at_app in H12 as [_ H12]. rewrite length_enc in H12.
  change (Z.of_nat (size sctp_cmn_hdr_t)) with 12 in H12.
  split; [by apply (ld_field_at m (p + 12) fld body 0 1)|]. split; [by apply (ld_field_at m p cmn (enc fld ++ body) 2 4)|].
  apply bytes_at_app in H12 as [_ H16]. rewrite length_enc in H16.
  by replace (p + 12 + Z.of_nat (size sctp_fld_hdr_t)) with (p + 16) in H16 by (change (Z.of_nat _) with 4; lia).
Qed.

Lemma mapped_load m p n : mapped m p n → ∃ bs, load m p n = Ret bs ∧ length bs = n.
Proof.
  intros H. destruct (mapped_read _ _ _ H) as [bs E]. exists bs. unfold load. rewrite E. split; [done|].
  by apply read_Some in E as [? _].
Qed.

Lemma put_payload_ret m a : mapped m (c_ipv4 a) 20 → mapped m (c_payload a) 20 → ∃ m', put_payload m a = Ret m'.
Proof.
  intros Hi Hp. unfold put_payload, off_ip_dest. change (field_off ipv4_t 8) with 12. change (field_off ipv4_t 9) with 16.
  destruct (mapped_load m (c_ipv4 a + 12) 4) as (b1 & -> & L1); [eapply mapped_sub; [exact Hi|lia..]|]. rewrite bind_ret.
  rewrite store_mapped by (rewrite L1; eapply mapped_sub; [exact Hp|lia..]). rewrite bind_ret.
  destruct (mapped_load (write m (c_payload a) b1) (c_ipv4 a + 16) 4) as (b2 & -> & L2);
    [apply mapped_write; eapply mapped_sub; [exact Hi|lia..]|]. rewrite bind_ret.
  rewrite store_mapped by (rewrite L2; apply mapped_write; eapply mapped_sub; [exact Hp|lia..]). rewrite bind_ret.
  rewrite st_mapped by (do 2 apply mapped_write; eapply mapped_sub; [exact Hp|lia..]). rewrite bind_ret.
  rewrite st_mapped by (do 3 apply mapped_write; eapply mapped_sub; [exact Hp|lia..]). eauto.
Qed.

Lemma chunk_init mo m p src a cmn fld h rest :
  sctp_at m p cmn fld (enc h ++ rest) → wf cmn → wf fld → wf h → fld_type fld = SCTP_INIT → c_status a = SCTP_LISTEN →
  mapped m (c_ipv4 a) 20 → mapped m (c_payload a) 20 →
  ∃ m', if_sctp_chunk mo m p src a = Ret (true, m', init_learned a src h).
Proof.
  intros H Hc Hf Hh Ht Hs Hi Hp. unfold if_sctp_chunk. destruct (chunk_head _ _ _ _ _ H Hc Hf) as (-> & -> & H16).
  rewrite !bind_ret, Ht. cbn [Z.eqb Pos.eqb SCTP_INIT]. rewrite decide_True by done.
  rewrite (ld_struct_at m (p + 16) h rest H16 Hh), bind_ret.
  destruct (put_payload_ret m a Hi Hp) as [m' ->]. rewrite bind_ret. eauto.
Qed.

Lemma chunk_init_ack mo m p src a cmn fld h rest :
  sctp_at m p cmn fld (enc h ++ rest) → wf cmn → wf fld → wf h → fld_type fld = SCTP_INIT_ACK →
  tag cmn = c_dst_ver_tag a → if_sctp_chunk mo m p src a = Ret (true, m, init_ack_learned a h).
Proof.
  intros H Hc Hf Hh Ht Hg. unfold if_sctp_chunk. destruct (chunk_head _ _ _ _ _ H Hc Hf) as (-> & -> & H16).
  rewrite !bind_ret, Ht, Hg, !Z.eqb_refl. cbn [Z.eqb Pos.eqb SCTP_INIT SCTP_INIT_ACK negb].
  rewrite (ld_struct_at m (p + 16) h rest H16 Hh), bind_ret. reflexivity.
Qed.

(** A packet at [p] has arrived behind an Ethernet and an IPv4 header at [q] of
    another memory, from the address that the connection expects. *)
Definition arrived m p (n : nat) m' q (mac : mac_t) (ip : ipv4_t) a : Prop :=
  delivered m p m' (q + 34) n ∧ bytes_at m' q (enc mac ++ enc ip) ∧ wf ip
  ∧ ld m' (c_ipv4 a + off_ip_dest) 4 = Ret (src_addr ip).

Lemma if_ipv4_sctp_spec mo m p n m' q mac ip a :
  arrived m p n m' q mac ip a →
  if_ipv4_sctp mo m' q (34 + Z.of_nat n) a = if_sctp mo m' (q + 34) (Z.of_nat n) a.
Proof.
  intros (_ & Hat & Hip & Hd). unfold if_ipv4_sctp, if_ipv4. change (sz_mac + sz_ip) with 34.
  rewrite (proj2 (Z.leb_le _ _)) by lia. apply bytes_at_app in Hat as [_ Hat]. rewrite length_enc in Hat.
  change (Z.of_nat (size mac_t)) with sz_mac in Hat. rewrite <-(app_nil_r (enc ip)) in Hat.
  rewrite (ld_field_at m' (q + sz_mac) ip [] 8 4 (src_addr ip) Hat) by done. rewrite bind_ret, Hd, bind_ret, bind_ret.
  rewrite Z.eqb_refl. unfold sz_mac, sz_ip. f_equal; lia.
Qed.

Lemma legacy_cmn_check src dst tg f body :
  cmn_check (legacy_cmn src dst tg f body) = crc_of (legacy_cmn src dst tg f body) f body.
Proof. unfold legacy_cmn, crc_of. f_equal. Qed.

Lemma wf_legacy_cmn src dst tg f body : is_u32 tg → wf (legacy_cmn src dst tg f body).
Proof. intros H. apply wf_cmn; [apply htons_range..|exact H|apply generate_crc32c_u32]. Qed.

Lemma arrived_sctp m p n m' q mac ip a cmn fld body :
  arrived m p n m' q mac ip a → sctp_at m p cmn fld body → n = (16 + length body)%nat → sctp_at m' (q + 34) cmn fld body.
Proof.
  intros (Hd & _) H ->. eapply delivered_at; [exact H| |exact Hd]. by rewrite !length_app, !length_enc.
Qed.

Lemma sctp_at_prefix m p cmn fld body rest : sctp_at m p cmn fld (body ++ rest) → sctp_at m p cmn fld body.
Proof. unfold sctp_at. rewrite !app_assoc. intros H. by apply bytes_at_app in H as [H _]. Qed.

Lemma sctp_at_prefix2 m p cmn fld body opt rest :
  sctp_at m p cmn fld (body ++ opt ++ rest) → sctp_at m p cmn fld (body ++ opt).
Proof. rewrite app_assoc. apply sctp_at_prefix. Qed.

(** An INIT that arrives at a listening connection. *)
Lemma init_received mo m p m' q mac ip a src dst itag rw os mis tsn :
  let f := Fld SCTP_INIT 0 (htons 20) in let h := Init itag (htonl rw) (htons os) (htons mis) tsn in
  sctp_at m p (legacy_cmn src dst 0 f (enc h)) f (enc h) → is_u32 itag → is_u32 tsn →
  arrived m p 32 m' q mac ip a → c_status a = SCTP_LISTEN → c_dstport a = htons src → c_srcport a = htons dst →
  mapped m' (c_ipv4 a) 20 → mapped m' (c_payload a) 20 →
  ∃ m1, if_ipv4_sctp mo m' q 66 a = Ret (true, m1, init_learned a (htons src) h).
Proof.
  intros f h H Ht Hn Harr Hs Hsrc Hdst Hi Hp.
  assert (wf h) as Hh by (apply wf_init; [done|apply htonl_range|apply htons_range..|done]).
  assert (wf f) as Hf by (apply wf_fld; [done|done|apply htons_range]).
  pose proof (arrived_sctp _ _ _ _ _ _ _ _ _ _ _ Harr H ltac:(by rewrite length_enc)) as H'.
  change 66 with (34 + Z.of_nat 32). rewrite (if_ipv4_sctp_spec _ _ _ _ _ _ _ _ _ Harr).
  rewrite <-(app_nil_r (enc h)) in H' at 2.
  destruct (if_sctp_spec mo m' (q + 34) 32 a _ _ _ _ H' (wf_legacy_cmn src dst 0 f (enc h) ltac:(done)) Hf)
    as (m1 & U & E); [by rewrite length_enc|lia|done|done|apply legacy_cmn_check|].
  change (Z.of_nat 32) with 32. rewrite E.
  apply (chunk_init mo m1 (q + 34) _ a _ f h [] (proj1 U)); try done.
  - apply (wf_set_field _ 3 4 0); [by apply wf_legacy_cmn|done|done].
  - by eapply updated_mapped.
  - by eapply updated_mapped.
Qed.

(** An INIT-ACK that carries the tag of the connection. *)
Lemma init_ack_received mo m p m' q mac ip a src dst itag rw os mis tsn opt :
  let f := Fld SCTP_INIT_ACK 0 (htons 28) in let h := Init itag (htonl rw) (htons os) (htons mis) tsn in
  let tg := c_dst_ver_tag a in
  sctp_at m p (legacy_cmn src dst tg f (enc h ++ opt)) f (enc h ++ opt) → length opt = 8%nat →
  is_u32 itag → is_u32 tsn → is_u32 tg →
  arrived m p 40 m' q mac ip a → c_dstport a = htons src → c_srcport a = htons dst →
  ∃ m1, if_ipv4_sctp mo m' q 74 a = Ret (true, m1, init_ack_learned a h).
Proof.
  intros f h tg H Ho Ht Hn Hg Harr Hsrc Hdst.
  assert (wf h) as Hh by (apply wf_init; [done|apply htonl_range|apply htons_range..|done]).
  assert (wf f) as Hf by (apply wf_fld; [done|done|apply htons_range]).
  assert (length (enc h ++ opt) = 24%nat) as Hl by (by rewrite length_app, length_enc, Ho).
  pose proof (arrived_sctp _ _ _ _ _ _ _ _ _ _ _ Harr H ltac:(by rewrite Hl)) as H'.
  change 74 with (34 + Z.of_nat 40). rewrite (if_ipv4_sctp_spec _ _ _ _ _ _ _ _ _ Harr).
  rewrite <-(app_nil_r (enc h ++ opt)) in H' at 2.
  destruct (if_sctp_spec mo m' (q + 34) 40 a _ _ _ _ H' (wf_legacy_cmn src dst tg f _ Hg) Hf)
    as (m1 & U & E); [by rewrite Hl|lia|done|done|apply legacy_cmn_check|].
  change (Z.of_nat 40) with 40. rewrite E. exists m1. pose proof (proj1 U) as Hat. rewrite app_nil_r in Hat.
  apply (chunk_init_ack mo m1 (q + 34) _ a _ f h opt Hat); try done.
  apply (wf_set_field _ 3 4 0); [by apply wf_legacy_cmn|done|done].
Qed.

(** A COOKIE-ECHO needs a status that nothing sets. *)
Lemma cookie_refused mo m p sz a ok m' a' :
  c_status a ≠ SCTP_INIT_ACK_SENT → if_sctp_chunk mo m p sz a = Ret (ok, m', a') →
  ld m (p + 12 + field_off sctp_fld_hdr_t 0) 1 = Ret SCTP_COOKIE_ECHO → ok = false ∧ a' = a.
Proof.
  intros Hs H Ht. unfold if_sctp_chunk in H. rewrite Ht, bind_ret in H. apply bind_ret_inv in H as (tg & _ & H).
  cbn [Z.eqb Pos.eqb SCTP_INIT SCTP_INIT_ACK SCTP_COOKIE_ECHO] in H. rewrite decide_False in H by done.
  by injection H as <- <- <-.
Qed.

(** The verdict on a COOKIE-ECHO. *)
Lemma cookie_verdict mo m p sz a cmn fld tsn rest :
  sctp_at m p cmn fld (le_enc 4 tsn ++ rest) → wf cmn → wf fld → fits 4 tsn →
  fld_type fld = SCTP_COOKIE_ECHO → ntohs (fld_len fld) = 8 → 16 ≤ sz → srcp cmn = c_dstport a → dstp cmn = c_srcport a →
  cmn_check cmn = crc_of cmn fld (le_enc 4 tsn) → c_status a = SCTP_INIT_ACK_SENT → tag cmn = c_dst_ver_tag a →
  ∃ m', if_sctp mo m p sz a =
    if decide (tsn = c_hmac a) then Ret (true, m', a)
    else match c_errors a, mo with
         | [], true => Ret (true, m', with_errors a [SCTP_ERROR_STALE_COOKIE])
         | _, _ => Fault
         end.
Proof.
  intros H Hc Hf Htsn Ht Hl Hsz Hsrc Hdst Hck Hst Htag.
  destruct (if_sctp_spec mo m p sz a cmn fld (le_enc 4 tsn) rest H Hc Hf) as (m' & U & E);
    [rewrite length_le_enc; lia|done..|]. exists m'. rewrite E. unfold if_sctp_chunk.
  destruct (chunk_head _ _ _ _ _ (proj1 U)) as (-> & E2 & H16); [by apply (wf_set_field _ 3 4 0)|done|].
  assert (tag (set_field 3 0 cmn) = tag cmn) as Et by (by destruct cmn). rewrite Et in E2. rewrite bind_ret, E2, bind_ret, Ht, Htag.
  cbn [Z.eqb Pos.eqb SCTP_INIT SCTP_INIT_ACK SCTP_COOKIE_ECHO]. rewrite decide_True, Z.eqb_refl by done. cbn [negb].
  rewrite (ld_at _ _ _ _ _ H16 Htsn), bind_ret. case_decide as Hd; [by rewrite Hd, Z.eqb_refl|].
  rewrite (proj2 (Z.eqb_neq _ _)) by done. cbn [negb]. unfold append_error. by destruct (c_errors a), mo.
Qed.
End lemmas.

(** ** Properties *)
Section properties.
Context {CRC : Crc32Insn} {ENT : Entropy}.

(** C40: the INIT and INIT-ACK of the first layer.  The INIT that a client
    builds is accepted by a listening connection; the INIT-ACK that this
    connection then builds is accepted by the client, and each side has
    learned the tag of the other.  The server converts the numbers of streams
    to host order, the client does not.  A COOKIE-ECHO is refused afterwards:
    no function sets the status it needs. *)
Theorem legacy_handshake m st a cmn fld (h : sctp_init_hdr_t) rest src dst t os mis rw fl :
  sctp_at m (c_sctp a) cmn fld (enc h ++ rest) → is_u16 os →
  ∃ m1 st1 a1, build_sctp_hdr_raw m st src dst t SCTP_INIT os mis rw fl a = Ret (true, m1, st1, a1)
  ∧ ∀ mo mb q mac ip b, arrived m1 (c_sctp a) 32 mb q mac ip b → c_status b = SCTP_LISTEN →
    c_dstport b = htons src → c_srcport b = htons dst → mapped mb (c_ipv4 b) 20 → mapped mb (c_payload b) 20 →
  ∃ mb1 b1, if_ipv4_sctp mo mb q 66 b = Ret (true, mb1, b1)
  ∧ c_status b1 = SCTP_INIT_RECEIVED ∧ c_dest_os b1 = os ∧ c_src_ver_tag b1 = c_dst_ver_tag a1
  ∧ ∀ mb2 st' cmn' fld' (h' : sctp_init_hdr_t) opt rest' t' os' mis' rw' fl',
    sctp_at mb2 (c_sctp b1) cmn' fld' (enc h' ++ opt ++ rest') → length opt = 8%nat →
  ∃ mb3 st3 b3, build_sctp_hdr_raw mb2 st' dst src t' SCTP_INIT_ACK os' mis' rw' fl' b1 = Ret (true, mb3, st3, b3)
  ∧ (∀ m' p sz ok m'' b4, ld m' (p + 12 + field_off sctp_fld_hdr_t 0) 1 = Ret SCTP_COOKIE_ECHO →
       if_sctp_chunk mo m' p sz b3 = Ret (ok, m'', b4) → ok = false ∧ b4 = b3)
  ∧ ∀ ma q' mac' ip', arrived mb3 (c_sctp b1) 40 ma q' mac' ip' a1 →
    c_dstport a1 = htons dst → c_srcport a1 = htons src →
  ∃ ma1 a2, if_ipv4_sctp mo ma q' 74 a1 = Ret (true, ma1, a2)
  ∧ c_src_ver_tag a2 = c_dst_ver_tag b3 ∧ c_dest_os a2 = htons os'.
Proof.
  intros H Hos. pose proof (build_init_legacy m st a cmn fld h rest src dst t os mis rw fl H) as Hb. unfold get_random_u32 in Hb.
  pose proof (get_random_int_range 4 st) as R1. destruct (get_random_int 4 st) as [tsn st1].
  pose proof (get_random_int_range 4 st1) as R2. destruct (get_random_int 4 st1) as [itag st2].
  destruct Hb as (m1 & E & U). exists m1, st2, (with_init a os mis tsn itag). split; [exact E|].
  intros mo mb q mac ip b Harr Hs Hsrc Hdst Hi Hp.
  destruct (init_received mo m1 _ mb q mac ip b src dst itag rw os mis tsn (sctp_at_prefix _ _ _ _ _ _ (proj1 U)) R2 R1
    Harr Hs Hsrc Hdst Hi Hp) as (mb1 & E1).
  set (b1 := init_learned b (htons src) (Init itag (htonl rw) (htons os) (htons mis) tsn)) in *.
  exists mb1, b1. split; [exact E1|]. split; [done|]. split; [by apply htons_htons|]. split; [done|].
  intros mb2 st' cmn' fld' h' opt rest' t' os' mis' rw' fl' H2 Ho.
  pose proof (build_init_ack_legacy mb2 st' b1 cmn' fld' h' opt rest' dst src t' os' mis' rw' fl' H2 Ho) as Hb.
  unfold get_random_u32 in Hb.
  pose proof (get_random_int_range 4 st') as R3. destruct (get_random_int 4 st') as [tsn' st3].
  pose proof (get_random_int_range 4 st3) as R4. destruct (get_random_int 4 st3) as [itag' st4].
  destruct Hb as (mb3 & E3 & U3). exists mb3, st4, (with_init b1 os' mis' tsn' itag'). split; [exact E3|].
  split; [intros; by eapply cookie_refused|].
  intros ma q' mac' ip' Harr' Hsrc' Hdst'.
  destruct (init_ack_received mo mb3 _ ma q' mac' ip' (with_init a os mis tsn itag) dst src itag' rw' os' mis' tsn' opt
    (sctp_at_prefix2 _ _ _ _ _ _ _ (proj1 U3)) Ho R4 R3 R2 Harr' Hsrc' Hdst') as (ma1 & E4).
  exists ma1. eexists. split; [exact E4|]. by split.
Qed.

(** A COOKIE-ECHO under the right tag is accepted whatever its cookie: a
    cookie other than the one kept (which has 64 bits, of which 32 are sent)
    puts one error in the list, and with an error in the list already the
    walk to its end dereferences NULL. *)
Lemma legacy_stale_cookie mo m p sz a cmn fld tsn rest :
  sctp_at m p cmn fld (le_enc 4 tsn ++ rest) → wf cmn → wf fld → fits 4 tsn →
  fld_type fld = SCTP_COOKIE_ECHO → ntohs (fld_len fld) = 8 → 16 ≤ sz → srcp cmn = c_dstport a → dstp cmn = c_srcport a →
  cmn_check cmn = crc_of cmn fld (le_enc 4 tsn) → c_status a = SCTP_INIT_ACK_SENT → tag cmn = c_dst_ver_tag a →
  ∃ m', if_sctp mo m p sz a =
    if decide (tsn = c_hmac a) then Ret (true, m', a)
    else match c_errors a, mo with
         | [], true => Ret (true, m', with_errors a [SCTP_ERROR_STALE_COOKIE])
         | _, _ => Fault
         end.
Proof. apply cookie_verdict. Qed.
End properties.

(** ** Witnesses *)
Definition demo_args (status : SCTP_STATUS) (errors : list Z) : connection_args :=
  CArgs 1200 (htons 80) (htons 40000) 0 7 0 0 0 0 0 0 0 5 errors 1230 status 1000.

(** A client's connection: the ports are the other way round. *)
Definition demo_args_client : connection_args :=
  CArgs 1200 (htons 40000) (htons 80) 0 0 0 0 0 0 0 0 0 0 [] 1230 SCTP_COOKIE_WAIT 1000.

Definition stale_fld : sctp_fld_hdr_t := Fld SCTP_COOKIE_ECHO 0 (htons 8).
Definition stale_cmn (check : Z) : sctp_cmn_hdr_t := Cmn (htons 40000) (htons 80) 7 check.
Definition stale_crc : Z := Eval vm_compute in crc_of (stale_cmn 0) stale_fld (le_enc 4 9).

Lemma legacy_stale_cookie_witness :
  if_sctp true (write ∅ 1000 (enc (stale_cmn stale_crc) ++ enc stale_fld ++ le_enc 4 9 ++ [])) 1000 20
    (demo_args SCTP_INIT_ACK_SENT [3]) = Fault.
Proof.
  destruct (legacy_stale_cookie true (write ∅ 1000 (enc (stale_cmn stale_crc) ++ enc stale_fld ++ le_enc 4 9 ++ [])) 1000 20
    (demo_args SCTP_INIT_ACK_SENT [3]) (stale_cmn stale_crc) stale_fld 9 [] (bytes_at_write _ _ _)
    ltac:(apply wf_cmn; unfold fits; vm_compute; split; congruence)
    ltac:(apply wf_fld; unfold fits; vm_compute; split; congruence)
    ltac:(unfold fits; lia) eq_refl eq_refl ltac:(lia) eq_refl eq_refl ltac:(vm_compute; reflexivity) eq_refl eq_refl)
    as (m' & E).
  exact E.
Defined.

(** The client builds in its buffer at 1000; the server's copy of the packet is
    in a frame at 5000. *)
Lemma frames_zero (bs : bytes) : bs = replicate (length bs) 0 → (length bs ≤ 300)%nat → bytes_at frames_mem 1000 bs.
Proof.
  intros -> Hl i. rewrite length_replicate in *. intros Hi. unfold frames_mem.
  rewrite lookup_write, length_replicate, decide_True by lia. rewrite !lookup_replicate_2 by lia. done.
Qed.

Definition server_mem (packet : bytes) : mem :=
  write (write frames_mem 5000 (enc ack_mac ++ enc (IPv4 0 0 0 0 0 0 0 0 0 0))) 5034 packet.

Lemma legacy_handshake_witness :
  ∃ m1 st1 a1, @build_sctp_hdr_raw _ once frames_mem rng_init 40000 80 0 SCTP_INIT 32 32 65535 0 demo_args_client
    = Ret (true, m1, st1, a1)
  ∧ ∃ packet mb1 b1, read m1 1000 32 = Some packet
  ∧ if_ipv4_sctp true (server_mem packet) 5000 66 (demo_args SCTP_LISTEN []) = Ret (true, mb1, b1)
  ∧ c_src_ver_tag b1 = c_dst_ver_tag a1.
Proof.
  assert (sctp_at frames_mem 1000 (Cmn 0 0 0 0) (Fld 0 0 0) (enc (Init 0 0 0 0 0) ++ [])) as H.
  { apply frames_zero; [reflexivity | cbn; lia]. }
  destruct (@legacy_handshake _ once frames_mem rng_init demo_args_client (Cmn 0 0 0 0) (Fld 0 0 0) (Init 0 0 0 0 0) []
    40000 80 0 32 32 65535 0 H ltac:(unfold is_u16; lia)) as (m1 & st1 & a1 & E & K).
  exists m1, st1, a1. split; [exact E|].
  assert (∃ packet, length packet = 32%nat ∧ bytes_at m1 1000 packet) as (packet & Hl & Hat).
  { pose proof (@build_init_legacy _ once frames_mem rng_init demo_args_client _ _ _ _ 40000 80 0 32 32 65535 0 H) as Hb.
    destruct (@get_random_u32 once rng_init) as [tsn s1]. destruct (@get_random_u32 once s1) as [itag s2].
    destruct Hb as (m' & E' & U). rewrite E' in E. injection E as -> _ _. eexists. split; [|exact (proj1 U)].
    by rewrite !length_app, !length_enc. }
  assert (∀ p n, 1000 ≤ p → p + Z.of_nat n ≤ 1300 → mapped (server_mem packet) p n) as Hm.
  { intros. unfold server_mem. do 2 apply mapped_write. by apply frames_mapped. }
  destruct (K true (server_mem packet) 5000 ack_mac (IPv4 0 0 0 0 0 0 0 0 0 0) (demo_args SCTP_LISTEN [])) as (mb1 & b1 & E1 & H1).
  - split; [|split; [|split]].
    + intros i Hi. change (c_sctp demo_args_client) with 1000. rewrite Hat by lia. rewrite <-Hl in Hi.
      exact (bytes_at_write _ 5034 packet i Hi).
    + unfold server_mem. apply bytes_at_write_other; [apply bytes_at_write|left; cbn; lia].
    + apply wf_ipv4; unfold fits; vm_compute; split; congruence.
    + change (src_addr _) with 0. change (c_ipv4 _ + off_ip_dest) with 1246.
      apply (ld_at (server_mem packet) _ 4 0 []); [|unfold fits; lia].
      unfold server_mem. do 2 (apply bytes_at_write_other; [|left; cbn; lia]). intros i Hi. cbn in Hi.
      replace (1246 + Z.of_nat i) with (1000 + Z.of_nat (246 + i)) by lia.
      rewrite (frames_zero (replicate 300 0)) by (rewrite ?length_replicate; lia || reflexivity).
      rewrite lookup_replicate_2 by lia. by do 4 (destruct i as [|i]; [reflexivity|]); lia.
  - reflexivity.
  - reflexivity.
  - reflexivity.
  - apply Hm; cbn; lia.
  - apply Hm; cbn; lia.
  - exists packet, mb1, b1. split; [exact (proj2 (read_Some _ _ _ _) (conj Hl Hat))|].
    split; [exact E1|]. exact (proj1 (proj2 (proj2 H1))).
Defined.
